(** * Research-corpus pipeline: a shallow embedding of the Python stages

    The development follows the scripts under [Scripts/Research]:
    [research_common.py], [build_manifest.py], [extract_assets.py],
    [summarize_papers.py] and [publish_notion.py].  Python [str] values are
    sequences of Unicode code points, integers are unbounded, dictionaries
    that are iterated keep their insertion order, and exceptions end the
    enclosing call unless a handler is written in the source. *)

From Stdlib Require Import String Ascii.
From Stdlib Require Import List ZArith NArith Lia Bool Arith Permutation Sorted.
Import ListNotations.

Set Implicit Arguments.

(** ** Python values shared by all stages *)

Module Py.

(** A Python [str]: the sequence of its code points. *)
Definition str := list N.

(** ASCII literals of the source text. *)
Definition lit (s : String.string) : str :=
  map Ascii.N_of_ascii (String.list_ascii_of_string s).
Arguments lit s%_string.

Fixpoint str_eqb (a b : str) : bool :=
  match a, b with
  | [], [] => true
  | x :: a', y :: b' => (x =? y)%N && str_eqb a' b'
  | _, _ => false
  end.

(** [a <= b] on strings: lexicographic on code points. *)
Fixpoint str_leb (a b : str) : bool :=
  match a, b with
  | [], _ => true
  | _ :: _, [] => false
  | x :: a', y :: b' =>
      if (x <? y)%N then true
      else if (y <? x)%N then false
      else str_leb a' b'
  end.

(** [s.startswith(p)] *)
Fixpoint startswith (s p : str) : bool :=
  match p, s with
  | [], _ => true
  | _ :: _, [] => false
  | x :: p', y :: s' => (x =? y)%N && startswith s' p'
  end.

(** [p in s] for strings: [p] occurs as a contiguous slice of [s]. *)
Fixpoint contains (p s : str) : bool :=
  startswith s p ||
  match s with
  | [] => false
  | _ :: s' => contains p s'
  end.

(** [x in xs] for a collection of strings. *)
Definition str_in (x : str) (xs : list str) : bool := existsb (str_eqb x) xs.

(** [sorted(l, key=key)]: a stable sort, keys compared with [leb].  An
    element is inserted in front of the first element whose key is not
    smaller, so equal keys keep their input order. *)
Section Sorted.
Variables (A K : Type) (leb : K -> K -> bool) (key : A -> K).

Fixpoint insert_sorted (x : A) (l : list A) : list A :=
  match l with
  | [] => [x]
  | y :: l' => if leb (key x) (key y) then x :: y :: l' else y :: insert_sorted x l'
  end.

Fixpoint sorted (l : list A) : list A :=
  match l with
  | [] => []
  | x :: l' => insert_sorted x (sorted l')
  end.
End Sorted.

(** [items[i:j]] for [0 <= i <= j]. *)
Definition slice {A} (items : list A) (i j : nat) : list A :=
  firstn (j - i) (skipn i items).

(** [range(start, stop, step)] for [step > 0]; the loop runs at most
    [stop] times, which is the fuel. *)
Fixpoint range_from (fuel start stop step : nat) : list nat :=
  match fuel with
  | O => []
  | S fuel' =>
      if start <? stop then start :: range_from fuel' (start + step) stop step
      else []
  end.

Definition range_step (start stop step : nat) : list nat :=
  range_from stop start stop step.

(** [enumerate(l, start=n)] *)
Fixpoint enumerate {A} (n : nat) (l : list A) : list (nat * A) :=
  match l with
  | [] => []
  | x :: l' => (n, x) :: enumerate (S n) l'
  end.

(** Code points matched by [\s] in a [str] pattern, the same set that
    [str.strip()] removes and [str.isspace] accepts. *)
Definition whitespace_points : list N :=
  [9; 10; 11; 12; 13; 28; 29; 30; 31; 32; 133; 160; 5760;
   8192; 8193; 8194; 8195; 8196; 8197; 8198; 8199; 8200; 8201; 8202;
   8232; 8233; 8239; 8287; 12288]%N.

Definition isspace (c : N) : bool := existsb (N.eqb c) whitespace_points.

(** [re.sub(r"\s+", " ", text)]: every maximal whitespace run becomes one
    space.  [in_run] tells that the previous code point was whitespace. *)
Fixpoint collapse_ws (in_run : bool) (text : str) : str :=
  match text with
  | [] => []
  | c :: text' =>
      if isspace c
      then (if in_run then collapse_ws true text' else 32%N :: collapse_ws true text')
      else c :: collapse_ws false text'
  end.

Fixpoint lstrip (s : str) : str :=
  match s with
  | [] => []
  | c :: s' => if isspace c then lstrip s' else s
  end.

Definition rstrip (s : str) : str := rev (lstrip (rev s)).

(** [s.strip()] *)
Definition strip (s : str) : str := rstrip (lstrip s).

(** [research_common.clean_whitespace] *)
Definition clean_whitespace (text : str) : str := strip (collapse_ws false text).

(** [re.sub(r"\s+", "", s)] *)
Definition remove_ws (s : str) : str := filter (fun c => negb (isspace c)) s.

(** Line boundaries of [str.splitlines] other than the pair CR LF. *)
Definition linebreak_points : list N :=
  [10; 11; 12; 13; 28; 29; 30; 133; 8232; 8233]%N.

Definition is_linebreak (c : N) : bool := existsb (N.eqb c) linebreak_points.

(** [s.splitlines()]; [cur] holds the current line, last code point first. *)
Fixpoint splitlines_from (cur : str) (s : str) : list str :=
  match s with
  | [] => match cur with [] => [] | _ => [rev cur] end
  | c :: s' =>
      if (c =? 13)%N then
        match s' with
        | c' :: s'' =>
            if (c' =? 10)%N then rev cur :: splitlines_from [] s''
            else rev cur :: splitlines_from [] s'
        | [] => rev cur :: splitlines_from [] s'
        end
      else if is_linebreak c then rev cur :: splitlines_from [] s'
      else splitlines_from (c :: cur) s'
  end.

Definition splitlines (s : str) : list str := splitlines_from [] s.

(** [re.search(p, s)] for a pattern given by its matcher at a position:
    some suffix of [s] starts with a match. *)
Fixpoint re_search (matches_at : str -> bool) (s : str) : bool :=
  matches_at s ||
  match s with
  | [] => false
  | _ :: s' => re_search matches_at s'
  end.

(** [$] without [re.MULTILINE]: the end of the string, or the position in
    front of a final newline. *)
Definition at_end (s : str) : bool :=
  match s with
  | [] => true
  | [c] => (c =? 10)%N
  | _ => false
  end.

(** [", ".join(parts)] and friends. *)
Fixpoint join (sep : str) (parts : list str) : str :=
  match parts with
  | [] => []
  | [p] => p
  | p :: rest => p ++ sep ++ join sep rest
  end.

(** [a <= b] on pairs of integers, as Python compares tuples. *)
Definition pair_leb (a b : Z * Z) : bool :=
  if (fst a <? fst b)%Z then true
  else if (fst b <? fst a)%Z then false
  else (snd a <=? snd b)%Z.

(** [d.get(key, default)] on a field that may be absent. *)
Definition get_or {A} (default : A) (field : option A) : A :=
  match field with
  | Some v => v
  | None => default
  end.

(** The ASCII part of Python's Unicode tables: [str.lower] on strings whose
    cased letters are all ASCII, and the ASCII digits of [\d]. *)
Definition ascii_lower_point (c : N) : N :=
  if (65 <=? c)%N && (c <=? 90)%N then (c + 32)%N else c.

Definition ascii_lower (s : str) : str := map ascii_lower_point s.

Definition ascii_digit (c : N) : bool := (48 <=? c)%N && (c <=? 57)%N.

(** [str(n)] for a natural number: its decimal digits.  [fuel] bounds the
    number of digits. *)
Fixpoint decimal_digits (fuel n : nat) (acc : str) : str :=
  match fuel with
  | O => acc
  | S fuel' =>
      let acc' := (48 + N.of_nat (n mod 10))%N :: acc in
      if n / 10 =? 0 then acc' else decimal_digits fuel' (n / 10) acc'
  end.

Definition decimal (n : nat) : str := decimal_digits (S n) n [].

(** [str(z)] for an integer, and for [None]. *)
Definition z_text (z : Z) : str :=
  if (z <? 0)%Z then 45%N :: decimal (Z.to_nat (- z)) else decimal (Z.to_nat z).

Definition option_z_text (z : option Z) : str :=
  match z with
  | Some v => z_text v
  | None => lit "None"
  end.

(** [f"{n:04d}"] *)
Definition format_04d (n : nat) : str :=
  let d := decimal n in
  repeat 48%N (4 - length d) ++ d.

(** [f"{n:03d}"]: decimal, padded with zeros to three digits. *)
Definition format_03d (n : nat) : str :=
  let d := decimal n in
  repeat 48%N (3 - length d) ++ d.

(** Python exceptions that the modelled code can raise. *)
Inductive exn :=
| ValueError (msg : str)
| RuntimeError (msg : str)
| SystemExit (msg : str)
| TimeoutExpired
| IndexError
| OSError (msg : str)
| OverflowError (msg : str).

(** [str(exc)] *)
Definition exn_text (e : exn) : str :=
  match e with
  | ValueError msg | RuntimeError msg | SystemExit msg | OSError msg
  | OverflowError msg => msg
  | TimeoutExpired => lit "timed out"
  | IndexError => lit "list index out of range"
  end.

(** [a or b] on strings that may be absent: the first operand when it is
    a non-empty string. *)
Definition or_else (a : option str) (b : str) : str :=
  match a with
  | Some (c :: a') => c :: a'
  | _ => b
  end.

(** [s.split(sep)] for a one-character separator; [cur] holds the current
    piece, last code point first. *)
Fixpoint split_on (sep : N) (cur : str) (s : str) : list str :=
  match s with
  | [] => [rev cur]
  | c :: s' =>
      if (c =? sep)%N then rev cur :: split_on sep [] s'
      else split_on sep (c :: cur) s'
  end.

(** [bool(s)] and [not s] on a string or list. *)
Definition nonempty {A} (l : list A) : bool :=
  match l with
  | [] => false
  | _ :: _ => true
  end.

Definition is_terminal (c : N) : bool := existsb (N.eqb c) [46; 33; 63]%N.

(** [re.split(r"(?<=[.!?])\s+", flat)].  [after_terminal] tells that the
    previous code point is one of [.!?]; [skipping] that a separator is
    being consumed. *)
Fixpoint split_sentences (skipping after_terminal : bool) (cur : str) (s : str)
  : list str :=
  match s with
  | [] => [rev cur]
  | c :: s' =>
      if skipping then
        if isspace c then split_sentences true false cur s'
        else split_sentences false (is_terminal c) [c] s'
      else if isspace c && after_terminal then rev cur :: split_sentences true false [] s'
      else split_sentences false (is_terminal c) (c :: cur) s'
  end.

(** [research_common.sentence_tokenize] *)
Definition sentence_tokenize (text : str) : list str :=
  let flat := clean_whitespace text in
  match flat with
  | [] => []
  | _ =>
      map strip
        (filter (fun p => nonempty (strip p)) (split_sentences false false [] flat))
  end.

End Py.
Import Py.

(** ** Commands, the file system and the exception-and-state monad *)

Module Sys.

(** [research_common.CommandResult] *)
Record CommandResult := { code : Z; stdout : str; stderr : str }.

(** What [subprocess.run(cmd, timeout=...)] does with an external tool: the
    process ends within the time limit, or [subprocess.TimeoutExpired] is
    raised, or the program cannot be started and [subprocess.run] raises
    an [OSError] ([FileNotFoundError] for a tool that is not installed). *)
Inductive tool_outcome := TimedOut | Exited (r : CommandResult) | NotStarted.

(** [research_common.run_command]: no handler is installed, the timeout
    and the failure to start propagate to the caller. *)
Definition run_command (outcome : tool_outcome) : exn + CommandResult :=
  match outcome with
  | TimedOut => inl TimeoutExpired
  | Exited r => inr r
  | NotStarted => inl (OSError (lit "No such file or directory"))
  end.

(** A resolved path: its components below the root. *)
Definition path := list str.

Fixpoint path_eqb (a b : path) : bool :=
  match a, b with
  | [], [] => true
  | x :: a', y :: b' => str_eqb x y && path_eqb a' b'
  | _, _ => false
  end.

(** [a] is [b] or one of its ancestors. *)
Fixpoint is_prefix (a b : path) : bool :=
  match a, b with
  | [], _ => true
  | x :: a', y :: b' => str_eqb x y && is_prefix a' b'
  | _ :: _, [] => false
  end.

(** [str(path)] *)
Definition path_str (p : path) : str := lit "/" ++ join (lit "/") p.

(** [path.parent] and [path.name] *)
Definition parent (p : path) : path := removelast p.
Definition name (p : path) : str := last p [].

(** A string that is one path component as it stands, so that
    [directory / text] is the entry of that name in the directory: it is
    not empty, not ["."] or [".."], and holds no ["/"] and no NUL. *)
Definition plain_name (text : str) : bool :=
  nonempty text && negb (str_eqb text (lit ".")) && negb (str_eqb text (lit ".."))
  && forallb (fun c => negb (c =? 47)%N && negb (c =? 0)%N) text.

(** [path.relative_to(root).as_posix()], [None] when [root] is not a
    prefix. *)
Fixpoint relative_to (root p : path) : option path :=
  match root, p with
  | [], _ => Some p
  | x :: root', y :: p' => if str_eqb x y then relative_to root' p' else None
  | _ :: _, [] => None
  end.

(** [research_common.relative_repo_path] *)
Definition relative_repo_path (p repo_root : path) : str :=
  match relative_to repo_root p with
  | Some rest => join (lit "/") rest
  | None => path_str p
  end.

Section Store.

(** The data that [json_dump] serialises; the JSON text is determined by
    it. *)
Variable A : Type.

Inductive content := Raw (bytes : list N) | Json (data : A).

(** Directories and regular files.  The root always exists. *)
Record fs := { dirs : list path; files : list (path * content) }.

Definition is_dir (s : fs) (p : path) : bool :=
  match p with
  | [] => true
  | _ => existsb (path_eqb p) (dirs s)
  end.

Fixpoint lookup (p : path) (l : list (path * content)) : option content :=
  match l with
  | [] => None
  | (q, c) :: l' => if path_eqb q p then Some c else lookup p l'
  end.

Definition read (s : fs) (p : path) : option content := lookup p (files s).

Definition is_file (s : fs) (p : path) : bool :=
  match read s p with
  | Some _ => true
  | None => false
  end.

(** [path.exists()] *)
Definition exists_ (s : fs) (p : path) : bool := is_dir s p || is_file s p.

(** The non-empty prefixes of a path, shortest first. *)
Definition prefixes (p : path) : list path :=
  map (fun k => firstn k p) (seq 1 (length p)).

(** The disk is taken to be healthy: it is writable, and no path that a
    stage uses as a directory is a regular file, so that creating a
    directory, writing a file and removing a tree do not fail.  What can
    fail is reading or copying a file that is not there. *)

(** [research_common.ensure_dir]: [path.mkdir(parents=True, exist_ok=True)]
    creates the missing directories on the way. *)
Definition ensure_dir (p : path) (s : fs) : fs :=
  {| dirs := dirs s ++ filter (fun d => negb (is_dir s d)) (prefixes p);
     files := files s |}.

(** [path.write_text(...)], and a tool writing its output file. *)
Definition write_file (p : path) (c : content) (s : fs) : fs :=
  {| dirs := dirs s;
     files := (p, c) :: filter (fun e => negb (path_eqb (fst e) p)) (files s) |}.

(** [research_common.json_dump] *)
Definition json_dump (p : path) (data : A) (s : fs) : fs :=
  write_file p (Json data) (ensure_dir (parent p) s).

(** [path.unlink(missing_ok=True)] *)
Definition unlink (p : path) (s : fs) : fs :=
  {| dirs := dirs s;
     files := filter (fun e => negb (path_eqb (fst e) p)) (files s) |}.

(** [shutil.copy2(src, dst)] with a destination that is not a directory;
    it raises when the source is missing, and [shutil.SameFileError], an
    [OSError], when source and destination are the same file. *)
Definition copy2 (src dst : path) (s : fs) : exn + fs :=
  match read s src with
  | None => inl (OSError (lit "No such file or directory"))
  | Some c =>
      if path_eqb src dst
      then inl (OSError (lit "source and destination are the same file"))
      else inr (write_file dst c s)
  end.

(** [shutil.move(src, dst)] for an existing file. *)
Definition move (src dst : path) (s : fs) : fs :=
  match read s src with
  | None => s
  | Some c => write_file dst c (unlink src s)
  end.

(** [shutil.rmtree(p, ignore_errors=True)] *)
Definition rmtree (p : path) (s : fs) : fs :=
  {| dirs := filter (fun d => negb (is_prefix p d)) (dirs s);
     files := filter (fun e => negb (is_prefix p (fst e))) (files s) |}.

(** The files directly inside the directory [d], in listing order. *)
Definition listdir (d : path) (s : fs) : list (path * content) :=
  filter (fun e => path_eqb (parent (fst e)) d && nonempty (fst e)) (files s).

(** Code that raises or returns while it changes the file system: the
    state reached is kept in both cases. *)
Definition M (R : Type) := fs -> (exn + R) * fs.

Definition ret {R} (r : R) : M R := fun s => (inr r, s).

Definition raise {R} (e : exn) : M R := fun s => (inl e, s).

Definition bind {R T} (c : M R) (k : R -> M T) : M T :=
  fun s =>
    match c s with
    | (inl e, s') => (inl e, s')
    | (inr r, s') => k r s'
    end.

(** A file-system operation that cannot fail. *)
Definition modify (op : fs -> fs) : M unit := fun s => (inr tt, op s).

(** A result computed without touching the state. *)
Definition lift {R} (r : exn + R) : M R := fun s => (r, s).

Definition get : M fs := fun s => (inr s, s).

(** Every directory and file of [s] outside [root] is still there in
    [s']. *)
Definition kept_outside (root : path) (s s' : fs) : Prop :=
  forall p, is_prefix root p = false ->
    (is_dir s p = true -> is_dir s' p = true) /\
    (is_file s p = true -> is_file s' p = true).

(** A computation that keeps everything outside [root], whether it
    returns or raises. *)
Definition frames {R} (root : path) (c : M R) : Prop :=
  forall s, kept_outside root s (snd (c s)).

(** [p] is at or below one of [roots], or on the way down to one. *)
Definition near (roots : list path) (p : path) : bool :=
  existsb (fun r => is_prefix r p || is_prefix p r) roots.

(** [p] is at or below one of [roots]. *)
Definition under (roots : list path) (p : path) : bool :=
  existsb (fun r => is_prefix r p) roots.

(** Every path that is not near [roots] is in [s'] what it was in [s]:
    the same file, or no file, and a directory or not as before. *)
Definition same_away (roots : list path) (s s' : fs) : Prop :=
  forall p, near roots p = false ->
    read s' p = read s p /\ is_dir s' p = is_dir s p.

(** A computation that works near [roots] only, whether it returns or
    raises. *)
Definition works_near {R} (roots : list path) (c : M R) : Prop :=
  forall s, same_away roots s (snd (c s)).

End Store.

Arguments Raw {A} bytes.
Arguments ret {A R} r.
Arguments raise {A R} e.
Arguments lift {A R} r.
Arguments get {A}.
Arguments modify {A} op.
Arguments kept_outside A root s s' : clear implicits.
Arguments frames A {R} root c.
Arguments same_away A roots s s' : clear implicits.
Arguments works_near A {R} roots c.

(** [path.stem] and [path.suffix] on a file name: the name is cut at its
    last dot unless that dot is its first or last character. *)
Fixpoint rfind_dot (s : str) (pos : nat) (found : option nat) : option nat :=
  match s with
  | [] => found
  | c :: s' => rfind_dot s' (S pos) (if (c =? 46)%N then Some pos else found)
  end.

Definition suffix_start (file : str) : nat :=
  match rfind_dot file 0 None with
  | Some i => if (0 <? i) && (i <? length file - 1) then i else length file
  | None => length file
  end.

Definition stem (file : str) : str := firstn (suffix_start file) file.

Definition suffix (file : str) : str := skipn (suffix_start file) file.

(** [s.endswith(p)] *)
Definition endswith (s p : str) : bool := startswith (rev s) (rev p).

(** [Path(text)] for an absolute POSIX path. *)
Definition path_of_str (text : str) : path :=
  filter (fun part => nonempty part) (split_on 47%N [] text).

Declare Scope sys_scope.
Delimit Scope sys_scope with sys.
Notation "x <- c ;; k" := (bind c (fun x => k))
  (at level 61, c at next level, right associativity) : sys_scope.
Notation "c ;;; k" := (bind c (fun _ => k))
  (at level 61, right associativity) : sys_scope.

End Sys.

(** ** research_common.chunked and publish_notion.append_blocks *)

Module Publish.

(** [chunked(items, size)]: raises [ValueError] for a non-positive size,
    otherwise yields [items[idx : idx + size]] for
    [idx in range(0, len(items), size)]. *)
Definition chunked {A} (items : list A) (size : Z) : exn + list (list A) :=
  if (size <=? 0)%Z then inl (ValueError (lit "chunk size must be > 0"))
  else
    let sz := Z.to_nat size in
    inr (map (fun idx => slice items idx (idx + sz))
             (range_step 0 (length items) sz)).

(** The remote API as seen by one [requests.request] call: the call raises
    [requests.RequestException], or a response arrives. *)
Record response := { status_code : Z; retry_after_header : option str }.

Inductive attempt := NetworkError | Responded (r : response).

(** The network is an oracle indexed by the number of HTTP attempts made
    so far in the run. *)
Definition network := nat -> attempt.

Definition retryable (code : Z) : bool :=
  existsb (Z.eqb code) [429; 500; 502; 503; 504]%Z.

Section Retry.

(** [str.isdigit] on one code point, and what
    [time.sleep(float(retry_after))] does with the text of a
    [Retry-After] header: it returns ([None]), or [float] raises
    [ValueError] or [time.sleep] raises [OverflowError] or [ValueError];
    the source has no handler around them. *)
Variable isdigit : N -> bool.
Variable sleep_float : str -> option exn.

(** The pause before a retry after a response.  Only a header that is
    not empty and made of digits is handed to [float]; otherwise the pause
    is [min(45.0, 1.8**attempt)], which cannot fail. *)
Definition retry_pause (r : response) : option exn :=
  match retry_after_header r with
  | Some retry_after =>
      if nonempty retry_after && forallb isdigit retry_after
      then sleep_float retry_after
      else None
  | None => None
  end.

(** [request_with_retry]: [for attempt in range(1, max_attempts + 1)].
    [k] counts the attempts left, [n] the attempts made so far in the whole
    run; a sleep that returns has no effect on the result.  Returns the
    response, or the exception raised (the final [RuntimeError], or the
    one of the pause), and the attempt counter. *)
Fixpoint request_attempts (net : network) (k attempt_no max_attempts n : nat)
  : (exn + response) * nat :=
  match k with
  | O => (inl (RuntimeError (lit "request failed after retries")), n)
  | S k' =>
      match net n with
      | NetworkError =>
          request_attempts net k' (S attempt_no) max_attempts (S n)
      | Responded r =>
          if retryable (status_code r) && (attempt_no <? max_attempts)
          then match retry_pause r with
               | Some e => (inl e, S n)
               | None => request_attempts net k' (S attempt_no) max_attempts (S n)
               end
          else (inr r, S n)
      end
  end.

Definition request_with_retry (net : network) (n : nat) : (exn + response) * nat :=
  request_attempts net 6 1 6 n.

End Retry.

(** One entry of [publish_log] written by [append_blocks]. *)
Record log_event := {
  chunk_index : nat;
  chunk_size : nat;
  logged_status : Z
}.

(** State threaded through [append_blocks]: attempts made, the payloads
    handed to [request_with_retry] (one per call, in call order) and the
    publish log. *)
Record pub_state (B : Type) := {
  attempts_made : nat;
  payloads : list (list B);
  publish_log : list log_event
}.

Section Append.
Variable B : Type.
Variable isdigit : N -> bool.
Variable sleep_float : str -> option exn.
Variable net : network.

(** The body of the [for chunk_idx, chunk in enumerate(..., start=1)]
    loop, run over the remaining chunks. *)
Fixpoint append_loop (chunks : list (nat * list B)) (st : pub_state B)
  : (exn + unit) * pub_state B :=
  match chunks with
  | [] => (inr tt, st)
  | (chunk_idx, chunk) :: rest =>
      let '(res, n') := request_with_retry isdigit sleep_float net (attempts_made st) in
      let sent := payloads st ++ [chunk] in
      match res with
      | inl e => (inl e, {| attempts_made := n'; payloads := sent;
                            publish_log := publish_log st |})
      | inr r =>
          let st' := {| attempts_made := n'; payloads := sent;
                        publish_log := publish_log st ++
                          [{| chunk_index := chunk_idx;
                              chunk_size := length chunk;
                              logged_status := status_code r |}] |} in
          if (300 <=? status_code r)%Z
          then (inl (RuntimeError (lit "append blocks failed")), st')
          else append_loop rest st'
      end
  end.

Definition append_blocks (blocks : list B) (st : pub_state B)
  : (exn + unit) * pub_state B :=
  match chunked blocks 100 with
  | inl e => (inl e, st)
  | inr chunks => append_loop (enumerate 1 chunks) st
  end.
End Append.

Definition fresh_state (B : Type) : pub_state B :=
  {| attempts_made := 0; payloads := []; publish_log := [] |}.

(** The chunk sizes for [m] items cut by [sz]: full chunks, then the
    remainder when there is one. *)
Definition sizes_gen (sz m : nat) : list nat :=
  repeat sz (m / sz) ++ (if m mod sz =? 0 then [] else [m mod sz]).

(** The chunk sizes the claim describes for [n] blocks. *)
Definition expected_sizes (n : nat) : list nat := sizes_gen 100 n.

End Publish.

(** ** extract_assets: figure filter and equation candidates *)

Module Extract.

(** One row of [parse_pdfimages_list].  The fields that
    [should_keep_image] reads with [row.get(key, default)] are [None] when
    the key is missing; [num] is read with [row["num"]]. *)
Record image_row := {
  row_page : option Z;
  row_num : Z;
  row_type : option str;
  row_width : option Z;
  row_height : option Z
}.

(** A ranked equation line. *)
Record candidate := {
  equation : str;
  cand_page : nat;
  score : Z
}.

Definition mask_types : list str := [lit "mask"; lit "smask"; lit "stencil"].

(** [EQUATION_SYMBOLS]: the character class of U+2202, U+2207, U+0394,
    U+03C9, U+03C8, U+03BD, U+03B7 and U+03A3. *)
Definition equation_symbol_points : list N :=
  [0x2202; 0x2207; 0x0394; 0x03c9; 0x03c8; 0x03bd; 0x03b7; 0x03a3]%N.

Definition operator_keywords : list str :=
  [lit "d/dt"; lit "partial"; lit "nabla"; lit "laplac"; lit "jacobian";
   lit "cfl"; lit "reynolds"].

Definition symbol_tokens : list str :=
  [lit "omega"; lit "psi"; lit "eta"; lit "nu"; lit "u"; lit "v"; lit "h"].

(** The character class [[\+\-\*/]]. *)
Definition arithmetic_points : list N := [43; 45; 42; 47]%N.

Section Tables.

(** Python's Unicode tables: [str.lower] and the class [\d]. *)
Variable lower : str -> str.
Variable isdecimal : N -> bool.

(** [should_keep_image].  The source compares
    [max(width, height) / float(min(width, height))] with [6.0]; both
    dimensions are at least 160 at that point, and the comparison is
    written here on the integers, [max > 6 * min], which is the same test
    for dimensions below [2^51]. *)
Definition should_keep_image (row : image_row) (file_size : Z) : bool * str :=
  let width := get_or 0%Z (row_width row) in
  let height := get_or 0%Z (row_height row) in
  let area := (width * height)%Z in
  let image_type := lower (get_or [] (row_type row)) in
  let page := get_or 0%Z (row_page row) in
  if str_in image_type mask_types then (false, lit "mask_or_stencil")
  else if (width <? 160)%Z || (height <? 160)%Z then (false, lit "too_small_dimensions")
  else if (area <? 60000)%Z then (false, lit "too_small_area")
  else if (Z.min width height =? 0)%Z then (false, lit "invalid_dimensions")
  else if (6 * Z.min width height <? Z.max width height)%Z
    then (false, lit "extreme_aspect_ratio")
  else if (file_size <? 8192)%Z then (false, lit "too_small_file")
  else if (page <=? 2)%Z && (width <=? 420)%Z && (height <=? 420)%Z
          && (file_size <? 50000)%Z
    then (false, lit "likely_decorative_frontmatter")
  else (true, lit "kept").

(** [\d+] followed by the rest of the pattern [k], with every split tried
    as the regular-expression engine does by backtracking. *)
Fixpoint digits_then (k : str -> bool) (s : str) : bool :=
  match s with
  | [] => false
  | c :: s' => isdecimal c && (k s' || digits_then k s')
  end.

Definition closing_paren (s : str) : bool :=
  match s with
  | c :: s' => (c =? 41)%N && at_end s'
  | [] => false
  end.

(** The pattern [\(\d+(\.\d+)?\)$] matched at the head of [s]. *)
Definition equation_number_at (s : str) : bool :=
  match s with
  | c :: s1 =>
      (c =? 40)%N &&
      digits_then
        (fun s2 =>
           closing_paren s2 ||
           match s2 with
           | d :: s3 => (d =? 46)%N && digits_then closing_paren s3
           | [] => false
           end)
        s1
  | [] => false
  end.

Definition has_point (points : list N) (s : str) : bool :=
  existsb (fun c => existsb (N.eqb c) points) s.

(** The score that [extract_equation_candidates] gives a cleaned line. *)
Definition equation_score (line : str) : Z :=
  let lowered := lower line in
  ((if existsb (fun token => contains token lowered) operator_keywords then 2 else 0)
   + (if existsb (fun token => contains token lowered) symbol_tokens then 1 else 0)
   + (if re_search equation_number_at line then 2 else 0)
   + (if has_point equation_symbol_points line then 2 else 0)
   + (if has_point arithmetic_points line then 1 else 0))%Z.

(** Loop state of [extract_equation_candidates]: the [seen] set and the
    [candidates] list. *)
Definition scan_state := (list str * list candidate)%type.

(** The body of the inner loop for one raw line of page [page_idx]. *)
Definition scan_line (page_idx : nat) (st : scan_state) (raw_line : str) : scan_state :=
  let '(seen, candidates) := st in
  let line := clean_whitespace raw_line in
  if match line with [] => true | _ => false end || negb (contains (lit "=") line)
  then st
  else if (length line <? 8) || (220 <? length line) then st
  else
    let sc := equation_score line in
    if (sc <? 2)%Z then st
    else
      let normalized := remove_ws (lower line) in
      if str_in normalized seen then st
      else (normalized :: seen,
            candidates ++ [{| equation := line; cand_page := page_idx; score := sc |}]).

Definition scan_page (st : scan_state) (page : nat * str) : scan_state :=
  fold_left (scan_line (fst page)) (splitlines (snd page)) st.

(** The candidates in discovery order, before sorting and truncation. *)
Definition scan_pages (pages : list str) : list candidate :=
  snd (fold_left scan_page (enumerate 1 pages) ([], [])).

(** The raw lines of a document with their page numbers, in the order in
    which the two loops visit them, and the form under which a line is
    remembered in [seen]. *)
Definition numbered_lines (pages : list str) : list (nat * str) :=
  flat_map (fun page => map (fun raw => (fst page, raw)) (splitlines (snd page)))
           (enumerate 1 pages).

Definition normalized_line (raw_line : str) : str :=
  remove_ws (lower (clean_whitespace raw_line)).

Definition rank_key (c : candidate) : Z * Z :=
  ((- score c)%Z, Z.of_nat (cand_page c)).

Definition extract_equation_candidates (pages : list str) (limit : nat)
  : list candidate :=
  firstn limit (sorted pair_leb rank_key (scan_pages pages)).

End Tables.

(** [len(full_text.split())]: the number of maximal runs without
    whitespace. *)
Fixpoint count_words (in_word : bool) (s : str) : nat :=
  match s with
  | [] => 0
  | c :: s' =>
      if isspace c then count_words false s'
      else (if in_word then 0 else 1) + count_words true s'
  end.

Record quality_summary := {
  char_count : nat;
  word_count : nat;
  page_count_from_text : nat;
  nonempty_pages : nat;
  quality : str
}.

(** [build_text_quality_summary] *)
Definition build_text_quality_summary (full_text : str) (pages : list str)
  : quality_summary :=
  {| char_count := length full_text;
     word_count := count_words false full_text;
     page_count_from_text := length pages;
     nonempty_pages := length (filter (fun page => nonempty (strip page)) pages);
     quality := if length full_text <? 300 then lit "very_low"
                else if length full_text <? 3000 then lit "low"
                else lit "good" |}.

(** An entry of the ["figures"] list of [figures_index.json]. *)
Record kept_figure := {
  figure_id : str;
  source : str;
  fig_page : option Z;
  fig_width : option Z;
  fig_height : option Z;
  size_bytes : nat;
  relative_path : str;
  caption_hint : str
}.

(** The dictionary returned by [extract_figures]. *)
Record figure_summary := {
  pdfimages_rows : nat;
  pdfimages_exit_code : Z;
  pdfimages_extract_exit_code : Z;
  kept_count : nat;
  rejected_count : nat;
  fallback_used : bool;
  figures : list kept_figure;
  rejections : list (Z * str)
}.

(** The bibliographic keys of [metadata.json], as [build_metadata]
    resolves them. *)
Record bib_fields := {
  bib_title : str;
  bib_doi : str;
  bib_journal : str;
  bib_year : str;
  bib_authors : list str;
  bib_url : str;
  bib_ris_matched : bool;
  bib_vancouver_citation : str
}.

(** The ["extraction"] block of [metadata.json]. *)
Record extraction_block := {
  processed_at_utc : str;
  text_extracted : bool;
  text_mode : str;
  working_pdf_path : str;
  text_quality : quality_summary;
  equation_candidates : nat;
  figure_count : nat;
  figure_fallback_used : bool;
  pdf_page_count_declared : option Z
}.

Record metadata_out := {
  mo_paper_id : str;
  mo_bib : bib_fields;
  mo_extraction : extraction_block
}.

Record page_meta := {
  page_count : nat;
  pm_nonempty_pages : nat;
  first_page_preview : str;
  first_sentences : list str
}.

(** One entry of [extraction_rows]; the keys that a skipped paper does
    not have are [None]. *)
Record extraction_row := {
  row_paper_id : str;
  status : str;
  row_text_extracted : option bool;
  row_text_quality : option str;
  row_figure_count : option nat;
  row_equation_count : option nat;
  metadata_path : str;
  text_path : option str
}.

Record extraction_summary := {
  generated_at_utc : str;
  manifest : str;
  total_records : nat;
  processed_records : nat;
  skipped_records : nat;
  rows : list extraction_row
}.

(** The line of the specification's example,
    written by its code points. *)
Definition vorticity_line : str :=
  [0x2202; 0x3c9; 0x2f; 0x2202; 0x74; 0x20; 0x2b; 0x20; 0x75; 0xb7; 0x2207;
   0x3c9; 0x20; 0x3d; 0x20; 0x3bd; 0x2207; 0xb2; 0x3c9; 0x20; 0x28; 0x34;
   0x29]%N.

End Extract.

(** ** build_manifest: grouping of the per-file records *)

Module Manifest.

(** One entry of [records]: a physical PDF file. *)
Record record := {
  file_name : str;
  absolute_path : str;
  relative_path : str;
  sha256 : str;
  size_bytes : nat;
  pages : option Z;
  extractability_status : str;
  extractability_note : str
}.

(** One entry of [unique_records]. *)
Record unique_record := {
  paper_id : str;
  u_sha256 : str;
  canonical_file_name : str;
  canonical_absolute_path : str;
  canonical_relative_path : str;
  u_size_bytes : nat;
  u_pages : option Z;
  u_extractability_status : str;
  u_extractability_note : str;
  alias_file_names : list str;
  duplicate_count : Z
}.

Record manifest_all := {
  generated_at_utc : str;
  papers_dir : str;
  total_files : nat;
  unique_files : nat;
  duplicate_groups : nat;
  records : list record;
  duplicate_groups_detail : list (list str)
}.

Record manifest_unique := {
  mu_generated_at_utc : str;
  source_total_files : nat;
  source_unique_files : nat;
  papers : list unique_record
}.

(** [groups.setdefault(key, []).append(r)] on a dictionary kept in
    insertion order. *)
Fixpoint setdefault_append (groups : list (str * list record)) (key : str) (r : record)
  : list (str * list record) :=
  match groups with
  | [] => [(key, [r])]
  | (k, rs) :: rest =>
      if str_eqb k key then (k, rs ++ [r]) :: rest
      else (k, rs) :: setdefault_append rest key r
  end.

(** The loop [for record in records: groups.setdefault(...).append(record)]. *)
Definition group_records (rs : list record) : list (str * list record) :=
  fold_left (fun groups r => setdefault_append groups (sha256 r) r) rs [].

(** [f"paper_{idx:03d}_{sha256[:8]}"] *)
Definition make_paper_id (idx : nat) (digest : str) : str :=
  lit "paper_" ++ format_03d idx ++ lit "_" ++ firstn 8 digest.

Section Lower.

(** Python's [str.lower]. *)
Variable lower : str -> str.

(** The sort key of [group_items]:
    [sorted(x["file_name"] for x in kv[1])[0].lower()].  The names are
    sorted as they are and the first one is lower-cased; indexing an empty
    list raises [IndexError]. *)
Definition bucket_key (group : list record) : exn + str :=
  match sorted str_leb (fun name => name) (map file_name group) with
  | first :: _ => inr (lower first)
  | [] => inl IndexError
  end.

(** Keys are computed once per item by [sorted]; an exception in the key
    function ends the call. *)
Fixpoint keyed (items : list (str * list record))
  : exn + list (str * (str * list record)) :=
  match items with
  | [] => inr []
  | kv :: rest =>
      match bucket_key (snd kv), keyed rest with
      | inr k, inr ks => inr ((k, kv) :: ks)
      | inl e, _ => inl e
      | _, inl e => inl e
      end
  end.

(** [group_items = sorted(groups.items(), key=...)] *)
Definition group_items (groups : list (str * list record))
  : exn + list (str * list record) :=
  match keyed groups with
  | inl e => inl e
  | inr ks => inr (map snd (sorted str_leb fst ks))
  end.

(** The body of the loop over [enumerate(group_items, start=1)]: the
    aliases appended to [duplicate_groups] and the unique record. *)
Definition make_unique (idx : nat) (digest : str) (group_records : list record)
  : exn + unique_record :=
  let sorted_group := sorted str_leb (fun r => lower (file_name r)) group_records in
  match sorted_group with
  | [] => inl IndexError
  | canonical :: _ =>
      let aliases := map file_name sorted_group in
      inr {| paper_id := make_paper_id idx digest;
             u_sha256 := digest;
             canonical_file_name := file_name canonical;
             canonical_absolute_path := absolute_path canonical;
             canonical_relative_path := relative_path canonical;
             u_size_bytes := size_bytes canonical;
             u_pages := pages canonical;
             u_extractability_status := extractability_status canonical;
             u_extractability_note := extractability_note canonical;
             alias_file_names := aliases;
             duplicate_count := Z.max 0 (Z.of_nat (length aliases) - 1) |}
  end.

Fixpoint unique_loop (items : list (nat * (str * list record)))
  : exn + list unique_record :=
  match items with
  | [] => inr []
  | (idx, (digest, group)) :: rest =>
      match make_unique idx digest group with
      | inl e => inl e
      | inr u =>
          match unique_loop rest with
          | inl e => inl e
          | inr us => inr (u :: us)
          end
      end
  end.

(** Lines 79-124 of [build_manifest]: from [records] to the two manifest
    dictionaries.  [now1] and [now2] are the two readings of the clock. *)
Definition assemble (now1 now2 dir : str) (rs : list record)
  : exn + (manifest_all * manifest_unique) :=
  match group_items (group_records rs) with
  | inl e => inl e
  | inr items =>
      match unique_loop (enumerate 1 items) with
      | inl e => inl e
      | inr unique_records =>
          let detail := map alias_file_names unique_records in
          inr ({| generated_at_utc := now1;
                  papers_dir := dir;
                  total_files := length rs;
                  unique_files := length unique_records;
                  duplicate_groups :=
                    length (filter (fun group => 1 <? length group) detail);
                  records := rs;
                  duplicate_groups_detail := detail |},
               {| mu_generated_at_utc := now2;
                  source_total_files := length rs;
                  source_unique_files := length unique_records;
                  papers := unique_records |})
      end
  end.

End Lower.

(** What one iteration of the loop over [pdf_files] has in hand when it
    builds [record]: the path, the bytes read, the page count and the
    result of [probe_extractability]. *)
Record probed_file := {
  pf_path : Sys.path;
  pf_bytes : list N;
  pf_pages : option Z;
  pf_probe : str * str
}.

(** Lines 59-76: the dictionary [record].  [sha256_file] is the digest of
    [hashlib]. *)
Definition make_record (sha256_file : list N -> str) (repo_root : Sys.path)
    (f : probed_file) : record :=
  {| file_name := Sys.name (pf_path f);
     absolute_path := Sys.path_str (pf_path f);
     relative_path := Sys.relative_repo_path (pf_path f) repo_root;
     sha256 := sha256_file (pf_bytes f);
     size_bytes := length (pf_bytes f);
     pages := pf_pages f;
     extractability_status := fst (pf_probe f);
     extractability_note := snd (pf_probe f) |}.

(** ** Predicates used to state the grouping *)

(** The records that carry the digest [k], in input order. *)
Definition members (k : str) (rs : list record) : list record :=
  filter (fun r => str_eqb (sha256 r) k) rs.

(** What the dictionary [groups] holds after the records [l] were added. *)
Definition grouped (groups : list (str * list record)) (l : list record) : Prop :=
  NoDup (map fst groups) /\
  (forall k grp, In (k, grp) groups -> grp = members k l /\ grp <> []) /\
  (forall r, In r l -> In (sha256 r) (map fst groups)).

(** What [make_unique] stores for the bucket [kv]. *)
Definition describes (lower : str -> str) (kv : str * list record)
    (u : unique_record) : Prop :=
  u_sha256 u = fst kv /\
  alias_file_names u =
    map file_name (sorted str_leb (fun r => lower (file_name r)) (snd kv)) /\
  duplicate_count u = (Z.of_nat (length (snd kv)) - 1)%Z /\
  (exists canonical rest,
      sorted str_leb (fun r => lower (file_name r)) (snd kv) = canonical :: rest /\
      canonical_file_name u = file_name canonical).

(** The ordering of the specification's words: a bucket is placed by the
    case-insensitive minimum file name among its members, that is the
    smallest of the lower-cased names. *)
Definition case_insensitive_min (lower : str -> str) (group : list record) : str :=
  hd [] (sorted str_leb (fun name => name) (map (fun r => lower (file_name r)) group)).

End Manifest.

(** ** summarize_papers *)

Module Summarize.

(** A sentence of the pool: [{"page": ..., "text": ...}]. *)
Record sentence := { s_page : Z; s_text : str }.

(** An entry of [equation_candidates.json] as loaded; a field is [None]
    when the key is absent. *)
Record eq_entry := {
  eq_equation : option str;
  eq_page : option Z;
  eq_score : option Z
}.

(** The content of [equation_candidates.json]: a list, or another JSON
    value. *)
Inductive eq_file := EqList (entries : list eq_entry) | EqOther.

(** An entry of the ["figures"] list, passed through unchanged. *)
Record figure_entry := {
  figure_id : str;
  fig_source : str;
  fig_page : option Z;
  fig_relative_path : str;
  caption_hint : str
}.

(** The content of [figures_index.json]: a dictionary, whose ["figures"]
    key may be absent, or another JSON value. *)
Inductive fig_file := FigDict (figures : option (list figure_entry)) | FigOther.

(** The keys of [metadata.json] that the summariser reads; [None] stands
    for an absent key or [null]. *)
Record metadata := {
  md_title : option str;
  md_vancouver_citation : option str;
  md_doi : option str;
  md_url : option str;
  md_year : option str;
  md_journal : option str;
  md_authors : option (list str);
  md_text_quality : option str
}.

(** The files of one paper directory.  [metadata.json] exists for every
    value of this type. *)
Record paper_assets := {
  a_metadata : metadata;
  a_text : option str;
  a_equations : option eq_file;
  a_figures : option fig_file
}.

(** An element of the manifest's ["papers"] list that is a dictionary. *)
Record paper := {
  p_paper_id : str;
  p_canonical_file_name : option str;
  p_alias_file_names : option (list str);
  p_duplicate_count : option Z
}.

Inductive manifest_item := ItemDict (p : paper) | ItemOther.

(** The manifest as loaded.  [m_papers] is [None] when the key ["papers"]
    holds something that is not a list; an absent key reads as the empty
    list. *)
Record manifest := {
  m_papers : option (list manifest_item);
  m_source_total_files : option Z;
  m_source_unique_files : option Z
}.

Record anchor := { tag : str; a_page : Z; quote : str }.

Record summary_record := {
  paper_id : str;
  citation_number : nat;
  title : str;
  canonical_file_name : option str;
  alias_file_names : list str;
  objective : str;
  methods : str;
  findings : str;
  limitations : str;
  abstract_excerpt : str;
  key_equations : list eq_entry;
  repo_observations : list str;
  evidence_anchors : list anchor;
  figures : list figure_entry;
  citation : str;
  doi : str;
  url : str;
  year : str;
  journal : str;
  authors : list str;
  text_quality : str;
  figure_count : nat;
  equation_count : nat
}.

Record bibliography_entry := {
  b_id : nat;
  b_paper_id : str;
  b_title : str;
  b_citation : str;
  b_doi : str;
  b_url : str
}.

Record corpus_summary := {
  source_total_files : option Z;
  source_unique_files : option Z;
  summarized_records : nat;
  duplicate_groups : nat
}.

Record validation := {
  all_have_citations : bool;
  all_have_evidence : bool;
  all_have_equation_or_fallback : bool
}.

(** The dictionary [output] that [json_dump] writes to [out_json]. *)
Record output := {
  generated_at_utc : str;
  manifest_path : str;
  assets_dir : str;
  corpus : corpus_summary;
  papers : list summary_record;
  bibliography : list bibliography_entry;
  checks : validation
}.

(** [research_common.split_pages_from_pdftotext] *)
Definition split_pages_from_pdftotext (full_text : str) : list str :=
  let pages := split_on 12%N [] full_text in
  match rev pages with
  | final :: _ => if nonempty (strip final) then pages else removelast pages
  | [] => pages
  end.

(** [load_pages] *)
Definition load_pages (text : option str) : list str :=
  match text with
  | None => []
  | Some t => split_pages_from_pdftotext t
  end.

(** [collect_sentences_with_pages] *)
Definition collect_sentences_with_pages (pages : list str) (page_limit : nat)
  : list sentence :=
  flat_map
    (fun numbered =>
       let raw_lines :=
         filter (fun line => 20 <=? length line)
                (map clean_whitespace (splitlines (snd numbered))) in
       flat_map
         (fun line =>
            flat_map
              (fun sent =>
                 if length sent <? 25 then []
                 else [{| s_page := Z.of_nat (fst numbered);
                          s_text := if 320 <? length sent then firstn 320 sent else sent |}])
              (sentence_tokenize line))
         raw_lines)
    (enumerate 1 (firstn page_limit pages)).

Definition objective_keywords : list str :=
  [lit "this paper"; lit "this study"; lit "we present"; lit "we investigate";
   lit "we propose"; lit "aim"; lit "objective"].

Definition methods_keywords : list str :=
  [lit "method"; lit "numerical"; lit "simulation"; lit "finite"; lit "spectral";
   lit "lattice"; lit "solver"; lit "scheme"; lit "equation"].

Definition findings_keywords : list str :=
  [lit "result"; lit "show"; lit "found"; lit "demonstrat"; lit "agree";
   lit "accuracy"; lit "performance"].

Definition limitations_keywords : list str :=
  [lit "limitation"; lit "future"; lit "however"; lit "assume"; lit "restricted";
   lit "challenge"; lit "uncertain"].

Definition objective_fallback : str :=
  lit "Automated extraction could not isolate a clear objective sentence; see evidence anchors for source excerpts.".

Definition methods_fallback : str :=
  lit "Method-specific language was sparse in extracted text; this summary relies on metadata and equation snippets.".

Definition findings_fallback : str :=
  lit "Clear result statements were not confidently extracted from text; conclusions should be read directly in the source PDF.".

Definition limitations_fallback : str :=
  lit "Explicit limitations were not clearly stated in extracted text; treat this as an extraction-confidence caveat.".

(** The entry inserted when no equation candidate exists. *)
Definition fallback_equation : eq_entry :=
  {| eq_equation :=
       Some (lit "No extractable governing equation found in machine-readable text.");
     eq_page := Some 1%Z;
     eq_score := Some 0%Z |}.

Definition observation_rules : list (list str * str) :=
  [ ([lit "arakawa"; lit "finite difference"; lit "rk4"; lit "jacobian"],
     lit "Its numerical treatment can be mapped to the active FD path in `Scripts/Methods/FiniteDifference/FiniteDifferenceMethod.m` and runtime dispatch in `Scripts/Drivers/Tsunami_Vorticity_Emulator.m`.");
    ([lit "spectral"; lit "fft"; lit "fourier"],
     lit "It informs the experimental spectral branch under `Scripts/Methods/Spectral/README.md`, which is currently not fully wired in dispatcher modes.");
    ([lit "finite volume"; lit "fvm"; lit "flux"],
     lit "It provides method-level rationale for the finite-volume roadmap in `Scripts/Methods/FiniteVolume/README.md`.");
    ([lit "validation"; lit "benchmark"; lit "convergence"; lit "error"],
     lit "Its benchmarking ideas are directly relevant to convergence workflows in `Scripts/Modes/Convergence/mode_convergence.m` and `Scripts/Modes/Convergence/run_adaptive_convergence.m`.");
    ([lit "bathymetry"; lit "topography"; lit "shallow water"; lit "boundary layer";
      lit "tsunami"],
     lit "Its physical assumptions should be cross-checked against variable-bathymetry handling in `Scripts/Modes/Variable_Bathymetry_Analysis.m` and planned mode/method unification.");
    ([lit "energy"; lit "sustainability"; lit "power"; lit "computational cost";
      lit "gpu"],
     lit "Its compute-performance implications connect to sustainability instrumentation in `Scripts/Sustainability/SustainabilityLedger.m` and `Scripts/Sustainability/EnergySustainabilityAnalyzer.m`.");
    ([lit "machine learning"; lit "data-driven"; lit "surrogate"; lit "ai"],
     lit "Its modeling direction can be compared with the ML roadmap in `Markdowns/MACHINE_LEARNING_VORTICITY_ABSORPTION.md`.") ].

Definition first_observation : str :=
  lit "This paper links to the vorticity-streamfunction implementation documented in `Markdowns/MATHEMATICAL_FRAMEWORK.md` and `Scripts/Methods/FiniteDifference/README.md`.".

Section Tables.

(** Python's [str.lower], and [ABSTRACT_REGEX.search(text)] of the [re]
    module, which gives group 1 of the first match. *)
Variable lower : str -> str.
Variable abstract_search : str -> option str.

(** [extract_abstract_snippet]; the page number returned is always 1. *)
Definition extract_abstract_snippet (pages : list str) : str * Z :=
  match pages with
  | [] => ([], 1%Z)
  | _ =>
      match abstract_search (join [10%N] (firstn 3 pages)) with
      | Some group1 => (firstn 2400 (clean_whitespace group1), 1%Z)
      | None => (firstn 2000 (clean_whitespace (join [10%N] (firstn 2 pages))), 1%Z)
      end
  end.

(** Loop state of [pick_sentences]: [chosen] and [seen]. *)
Definition pick_state := (list sentence * list str)%type.

(** The first loop; the flag tells that [return chosen] was executed. *)
Fixpoint pick_matching (lower_keywords : list str) (limit : nat)
    (sentences : list sentence) (st : pick_state) : bool * pick_state :=
  match sentences with
  | [] => (false, st)
  | item :: rest =>
      let '(chosen, seen) := st in
      let lowered := lower (s_text item) in
      if existsb (fun keyword => contains keyword lowered) lower_keywords then
        let norm := collapse_ws false lowered in
        if str_in norm seen then pick_matching lower_keywords limit rest st
        else
          let chosen' := chosen ++ [item] in
          if limit <=? length chosen' then (true, (chosen', norm :: seen))
          else pick_matching lower_keywords limit rest (chosen', norm :: seen)
      else pick_matching lower_keywords limit rest st
  end.

(** The second loop, which pads with the next unseen sentences. *)
Fixpoint pick_padding (limit : nat) (sentences : list sentence) (st : pick_state)
  : pick_state :=
  match sentences with
  | [] => st
  | item :: rest =>
      let '(chosen, seen) := st in
      let norm := collapse_ws false (lower (s_text item)) in
      if str_in norm seen then pick_padding limit rest st
      else
        let chosen' := chosen ++ [item] in
        if limit <=? length chosen' then (chosen', norm :: seen)
        else pick_padding limit rest (chosen', norm :: seen)
  end.

Definition pick_sentences (sentences : list sentence) (keywords : list str)
    (limit : nat) : list sentence :=
  let lower_keywords := map lower keywords in
  match pick_matching lower_keywords limit sentences ([], []) with
  | (true, (chosen, _)) => chosen
  | (false, st) => fst (pick_padding limit sentences st)
  end.

Definition format_paragraph_from_sentences (items : list sentence) (fallback : str)
  : str :=
  match items with
  | [] => fallback
  | _ => join (lit " ") (map s_text items)
  end.

Definition build_repo_observations (full_text : str) : list str :=
  let lowered := lower full_text in
  firstn 6
    (first_observation ::
     flat_map
       (fun rule =>
          if existsb (fun token => contains token lowered) (fst rule)
          then [snd rule] else [])
       observation_rules).

(** [add_items] of [build_evidence_anchors], for the sentence lists and
    for the equation list. *)
Definition add_item (tag_name : str) (text : str) (page : Z) : list anchor :=
  let cleaned := clean_whitespace text in
  match cleaned with
  | [] => []
  | _ => [{| tag := tag_name; a_page := page; quote := firstn 280 cleaned |}]
  end.

Definition sentence_anchors (tag_name : str) (items : list sentence) : list anchor :=
  flat_map (fun item => add_item tag_name (s_text item) (s_page item)) items.

Definition equation_anchors (items : list eq_entry) : list anchor :=
  flat_map
    (fun item => add_item (lit "equation") (get_or [] (eq_equation item))
                          (get_or 1%Z (eq_page item)))
    items.

Definition anchor_key_eqb (a b : anchor) : bool :=
  str_eqb (tag a) (tag b) && (a_page a =? a_page b)%Z
  && str_eqb (lower (quote a)) (lower (quote b)).

(** The loop that keeps the first anchor of every key. *)
Fixpoint unique_anchors (seen : list anchor) (anchors : list anchor) : list anchor :=
  match anchors with
  | [] => []
  | a :: rest =>
      if existsb (anchor_key_eqb a) seen then unique_anchors seen rest
      else a :: unique_anchors (a :: seen) rest
  end.

Definition build_evidence_anchors (objective_s methods_s findings_s limitations_s
    : list sentence) (equations : list eq_entry) : list anchor :=
  let anchors :=
    sentence_anchors (lit "objective") objective_s ++
    sentence_anchors (lit "methods") methods_s ++
    sentence_anchors (lit "findings") findings_s ++
    sentence_anchors (lit "limitations") limitations_s ++
    equation_anchors equations in
  firstn 14 (unique_anchors [] anchors).

(** The anchor that replaces an empty evidence list. *)
Definition fallback_anchor (abstract_text : str) (abstract_page : Z) : anchor :=
  {| tag := lit "fallback";
     a_page := abstract_page;
     quote := match abstract_text with
              | [] => lit "No evidence text extracted."
              | _ => firstn 280 abstract_text
              end |}.

(** The body of the loop of [summarize_papers] for a paper whose
    [metadata.json] exists. *)
Definition summarize_one (citation_no : nat) (p : paper) (a : paper_assets)
  : summary_record * bibliography_entry :=
  let md := a_metadata a in
  let pages := load_pages (a_text a) in
  let '(abstract_text, abstract_page) := extract_abstract_snippet pages in
  let sentence_pool := collect_sentences_with_pages pages 10 in
  let objective_sentences := pick_sentences sentence_pool objective_keywords 2 in
  let methods_sentences := pick_sentences sentence_pool methods_keywords 3 in
  let findings_sentences := pick_sentences sentence_pool findings_keywords 3 in
  let limitation_sentences := pick_sentences sentence_pool limitations_keywords 2 in
  let candidates :=
    match a_equations a with
    | Some (EqList entries) => firstn 5 entries
    | Some EqOther => []
    | None => []
    end in
  let key_eqs := match candidates with [] => [fallback_equation] | _ => candidates end in
  let figs :=
    match a_figures a with
    | Some (FigDict (Some l)) => l
    | _ => []
    end in
  let built := build_evidence_anchors objective_sentences methods_sentences
                 findings_sentences limitation_sentences key_eqs in
  let evidence :=
    match built with
    | [] => [fallback_anchor abstract_text abstract_page]
    | _ => built
    end in
  let repo_obs := build_repo_observations (join [10%N] (firstn 8 pages)) in
  let title_text :=
    or_else (md_title md) (or_else (p_canonical_file_name p) (p_paper_id p)) in
  let citation_text := or_else (md_vancouver_citation md) title_text in
  let doi_text := or_else (md_doi md) [] in
  let url_text := or_else (md_url md) [] in
  ({| paper_id := p_paper_id p;
      citation_number := citation_no;
      title := title_text;
      canonical_file_name := p_canonical_file_name p;
      alias_file_names := get_or [] (p_alias_file_names p);
      objective := format_paragraph_from_sentences objective_sentences objective_fallback;
      methods := format_paragraph_from_sentences methods_sentences methods_fallback;
      findings := format_paragraph_from_sentences findings_sentences findings_fallback;
      limitations :=
        format_paragraph_from_sentences limitation_sentences limitations_fallback;
      abstract_excerpt := abstract_text;
      key_equations := key_eqs;
      repo_observations := repo_obs;
      evidence_anchors := evidence;
      figures := figs;
      citation := citation_text;
      doi := doi_text;
      url := url_text;
      year := get_or [] (md_year md);
      journal := get_or [] (md_journal md);
      authors := get_or [] (md_authors md);
      text_quality := get_or (lit "unknown") (md_text_quality md);
      figure_count := length figs;
      equation_count := length key_eqs |},
   {| b_id := citation_no;
      b_paper_id := p_paper_id p;
      b_title := title_text;
      b_citation := citation_text;
      b_doi := doi_text;
      b_url := url_text |}).

(** The loop over [enumerate(papers, start=1)]: entries that are not
    dictionaries and papers without [metadata.json] are skipped. *)
Definition summarize_loop (assets : str -> option paper_assets)
    (items : list (nat * manifest_item))
  : list (summary_record * bibliography_entry) :=
  flat_map
    (fun numbered =>
       match snd numbered with
       | ItemOther => []
       | ItemDict p =>
           match assets (p_paper_id p) with
           | None => []
           | Some a => [summarize_one (fst numbered) p a]
           end
       end)
    items.

(** The dictionary [output] built after the loop from the manifest, the
    elements [items] of its ["papers"] list and the summaries and
    bibliography entries [results] that the loop has appended. *)
Definition build_output (now : str) (manifest_path_text assets_dir_text : str)
    (m : manifest) (items : list manifest_item)
    (results : list (summary_record * bibliography_entry)) : output :=
  let summaries := map fst results in
  {| generated_at_utc := now;
     manifest_path := manifest_path_text;
     assets_dir := assets_dir_text;
     corpus :=
       {| source_total_files := m_source_total_files m;
          source_unique_files := m_source_unique_files m;
          summarized_records := length summaries;
          duplicate_groups :=
            length
              (filter
                 (fun item =>
                    match item with
                    | ItemDict p => (0 <? get_or 0%Z (p_duplicate_count p))%Z
                    | ItemOther => false
                    end)
                 items) |};
     papers := summaries;
     bibliography := map snd results;
     checks :=
       {| all_have_citations :=
            forallb (fun item => nonempty (citation item)) summaries;
          all_have_evidence :=
            forallb (fun item => 0 <? length (evidence_anchors item)) summaries;
          all_have_equation_or_fallback :=
            forallb (fun item => 0 <? length (key_equations item)) summaries |} |}.

(** [summarize_papers]: the dictionary handed to [json_dump], or
    [SystemExit] when ["papers"] is not a list.  [now] is the reading of
    the clock by [utc_now_iso()]; [assets] gives the files of
    [assets_dir / "papers" / paper_id], [None] when [metadata.json] is
    missing. *)
Definition summarize_papers (now : str) (manifest_path_text assets_dir_text : str)
    (m : manifest) (assets : str -> option paper_assets) : exn + output :=
  match m_papers m with
  | None => inl (SystemExit (lit "invalid manifest format"))
  | Some items =>
      inr (build_output now manifest_path_text assets_dir_text m items
             (summarize_loop assets (enumerate 1 items)))
  end.

End Tables.

(** An equation entry whose text survives [clean_whitespace] yields an
    anchor. *)
Definition has_text (e : eq_entry) : Prop :=
  clean_whitespace (get_or [] (eq_equation e)) <> [].

(** The output with its time stamp blanked. *)
Definition without_timestamp (o : output) : output :=
  {| generated_at_utc := [];
     manifest_path := manifest_path o;
     assets_dir := assets_dir o;
     corpus := corpus o;
     papers := papers o;
     bibliography := bibliography o;
     checks := checks o |}.

End Summarize.

(** ** The files on disk *)

Module Disk.

(** The dictionaries and lists that the stages hand to [json_dump]. *)
Inductive artifact :=
| ManifestAll (m : Manifest.manifest_all)
| ManifestUnique (m : Manifest.manifest_unique)
| MetadataJson (m : Extract.metadata_out)
| EquationsJson (l : list Extract.candidate)
| FiguresJson (f : Extract.figure_summary)
| PagesMetaJson (m : Extract.page_meta)
| ExtractionSummaryJson (e : Extract.extraction_summary).

Definition fs := Sys.fs artifact.
Definition M := Sys.M artifact.

End Disk.

(** ** build_manifest and its main *)

Module ManifestStage.
Import Sys Disk Manifest.
Local Open Scope sys_scope.

Section Stage.

(** Python's [str.lower], the digest of [hashlib.sha256], the bytes that
    [json_dump] writes for an artifact, and
    [research_common.parse_pdfinfo_pages], whose work is done by [re] and
    [int]. *)
Variable lower : str -> str.
Variable sha256_file : list N -> str.
Variable encode : artifact -> list N.
Variable parse_pdfinfo_pages : str -> option Z.

(** The run: the repository root, the readings of the clock in call
    order, and the PDF tools, which here only read. *)
Variable repo_root : path.
Variable utc_now_iso : nat -> str.
Variable tool : list str -> tool_outcome.

Definition bytes_of (c : content artifact) : list N :=
  match c with
  | Raw b => b
  | Json d => encode d
  end.

(** [papers_dir.glob("*.pdf")]: the entries of the directory whose names
    end in [.pdf], a regular file with the bytes it holds, a directory
    with [None]. *)
Definition glob_pdf (papers_dir : path) (s : fs) : list (path * option (list N)) :=
  map (fun e => (fst e, Some (bytes_of (snd e))))
      (filter (fun e => endswith (name (fst e)) (lit ".pdf")) (listdir papers_dir s))
  ++
  map (fun d => (d, None))
      (filter (fun d => path_eqb (parent d) papers_dir && nonempty d
                        && endswith (name d) (lit ".pdf"))
              (dirs s)).

Definition pdftotext_first_page (pdf_path : path) : list str :=
  [lit "pdftotext"; lit "-f"; lit "1"; lit "-l"; lit "1"; path_str pdf_path; lit "-"].

(** [text.encode("ascii", "ignore").decode("ascii")] *)
Definition ascii_only (text : str) : str := filter (fun c => (c <? 128)%N) text.

(** [path.with_suffix(".pdf")] on the file name. *)
Definition with_pdf_suffix (file : str) : str := stem file ++ lit ".pdf".

(** The loop [while stage_path.exists(): ...]; every round tries a longer
    name, so no more rounds than entries on the disk are needed. *)
Fixpoint free_stage_path (fuel : nat) (s : fs) (staging_dir stage_path : path)
    (idx : nat) : path :=
  match fuel with
  | O => stage_path
  | S fuel' =>
      if exists_ s stage_path
      then free_stage_path fuel' s staging_dir
             (staging_dir ++ [stem (name stage_path) ++ lit "_" ++ decimal idx ++ lit ".pdf"])
             (S idx)
      else stage_path
  end.

(** The staging path that [probe_extractability] settles on, for a
    staging directory that is not the root.  [staging_dir / base] is the
    staging directory itself when [base] is ["."], and [with_suffix]
    then renames its last component. *)
Definition choose_stage_path (s : fs) (staging_dir pdf_path : path) : path :=
  let base := match ascii_only (stem (name pdf_path)) with
              | [] => lit "paper"
              | b => b
              end in
  let stage_path := if str_eqb base (lit ".") then staging_dir
                    else staging_dir ++ [base] in
  free_stage_path (S (length (dirs s) + length (files s))) s staging_dir
    (parent stage_path ++ [with_pdf_suffix (name stage_path)]) 1.

Definition probe_ok (r : CommandResult) : bool :=
  (code r =? 0)%Z && nonempty (strip (stdout r)).

(** [probe_extractability] *)
Definition probe_extractability (pdf_path staging_dir : path) : M (str * str) :=
  direct <- lift (run_command (tool (pdftotext_first_page pdf_path))) ;;
  if probe_ok direct
  then ret (lit "direct_ok", lit "pdftotext direct path succeeded")
  else
    fun s =>
      let stage_path := choose_stage_path s staging_dir pdf_path in
      match copy2 pdf_path stage_path s with
      | inl exc =>
          (inr (lit "failed",
                lit "direct failed; staging copy failed: " ++ exn_text exc), s)
      | inr s' =>
          (staged <- lift (run_command (tool (pdftotext_first_page stage_path))) ;;
           if probe_ok staged
           then ret (lit "requires_staging",
                     lit "pdftotext succeeds only with ASCII staging path")
           else ret (lit "failed", lit "pdftotext failed on direct and staged path")) s'
      end.

(** The loop [for pdf in pdf_files].  [sha256_file(pdf)] opens the path
    and raises [IsADirectoryError], an [OSError], on a directory. *)
Fixpoint probe_files (pdf_files : list (path * option (list N))) (staging_dir : path)
  : M (list record) :=
  match pdf_files with
  | [] => ret []
  | pdf :: rest =>
      match snd pdf with
      | None => raise (OSError (lit "Is a directory"))
      | Some bytes =>
          info <- lift (run_command (tool [lit "pdfinfo"; path_str (fst pdf)])) ;;
          let page_count := if (code info =? 0)%Z then parse_pdfinfo_pages (stdout info)
                            else None in
          extract_probe <- probe_extractability (fst pdf) staging_dir ;;
          let r := make_record sha256_file repo_root
                     {| pf_path := fst pdf; pf_bytes := bytes;
                        pf_pages := page_count; pf_probe := extract_probe |} in
          records <- probe_files rest staging_dir ;;
          ret (r :: records)
      end
  end.

(** [build_manifest]; the final [print] does not touch the disk. *)
Definition build_manifest (papers_dir out_dir : path) : M unit :=
  let staging_probe_dir := out_dir ++ [lit "temp_probe"] in
  modify (ensure_dir staging_probe_dir) ;;;
  s0 <- get ;;
  let pdf_files :=
    sorted str_leb (fun pdf => lower (name (fst pdf))) (glob_pdf papers_dir s0) in
  records <- probe_files pdf_files staging_probe_dir ;;
  assembled <- lift (assemble lower (utc_now_iso 0) (utc_now_iso 1)
                       (path_str papers_dir) records) ;;
  modify (json_dump (out_dir ++ [lit "manifest_all.json"])
            (ManifestAll (fst assembled))) ;;;
  modify (json_dump (out_dir ++ [lit "manifest_unique.json"])
            (ManifestUnique (snd assembled))) ;;;
  modify (fun s => if exists_ s staging_probe_dir
                   then rmtree staging_probe_dir s else s).

(** [main], with the arguments already resolved. *)
Definition main (papers_dir out_dir : path) : M unit :=
  modify (ensure_dir out_dir) ;;;
  s <- get ;;
  if negb (exists_ s papers_dir)
  then raise (SystemExit (lit "papers directory does not exist: " ++ path_str papers_dir))
  else build_manifest papers_dir out_dir.

End Stage.

(** No directory of [papers_dir] has a name ending in [.pdf], and the
    output directory does not lie in such a place either. *)
Definition no_pdf_directory (papers_dir out_dir : path) (s : fs) : Prop :=
  forall d, parent d = papers_dir -> endswith (name d) (lit ".pdf") = true ->
            is_dir s d = false /\ is_prefix d out_dir = false.

(** The places that [build_manifest] writes are free for it: no regular
    file lies on the way to the staging directory [out_dir / "temp_probe"]
    or in its place, and the two manifest files are not directories. *)
Definition laid_out (out_dir : path) (s : fs) : bool :=
  forallb (fun d => negb (is_file s d)) (prefixes (out_dir ++ [lit "temp_probe"]))
  && negb (is_dir s (out_dir ++ [lit "manifest_all.json"]))
  && negb (is_dir s (out_dir ++ [lit "manifest_unique.json"])).

End ManifestStage.

(** ** extract_assets *)

Module ExtractStage.
Import Sys Disk Extract.
Local Open Scope sys_scope.

(** What the stage takes from Python and its libraries: the Unicode
    tables [str.lower] and [\d], the decoding of a text file
    ([read_text(encoding="utf-8", errors="ignore")]), the bytes of a JSON
    file, the digest of [hashlib.sha1], and three functions of the source
    whose work is done by [re], [int] and the bibliography index:
    [parse_pdfimages_list], [image_index_from_filename] and
    [build_metadata] (given the bytes of the RIS file when it exists). *)
Record library := {
  lib_lower : str -> str;
  lib_isdecimal : N -> bool;
  lib_decode : list N -> str;
  lib_encode : artifact -> list N;
  lib_hash_file : list N -> str;
  lib_parse_pdfimages_list : str -> list image_row;
  lib_image_index_from_filename : str -> option Z;
  lib_build_metadata :
    option (list N) -> Manifest.unique_record -> list str -> bib_fields
}.

(** The PDF tools of one run.  A tool is given by the path of the PDF it
    reads; besides its outcome it tells what it wrote: the text for
    [pdftotext], and the file names created next to the output prefix for
    [pdfimages -png] and [pdftoppm]. *)
Record toolchain := {
  run_pdftotext : str -> tool_outcome * option (list N);
  run_pdfimages_list : str -> tool_outcome;
  run_pdfimages_png : str -> tool_outcome * list (str * list N);
  run_pdftoppm : str -> nat -> tool_outcome * list (str * list N)
}.

Section Stage.

Variable lib : library.
Variable tools : toolchain.

(** The readings of the clock, in call order. *)
Variable utc_now_iso : nat -> str.

Local Abbreviation lower := (lib_lower lib).
Local Abbreviation isdecimal := (lib_isdecimal lib).
Local Abbreviation decode := (lib_decode lib).
Local Abbreviation encode := (lib_encode lib).
Local Abbreviation hash_file := (lib_hash_file lib).
Local Abbreviation parse_pdfimages_list := (lib_parse_pdfimages_list lib).
Local Abbreviation image_index_from_filename := (lib_image_index_from_filename lib).
Local Abbreviation build_metadata := (lib_build_metadata lib).
Local Abbreviation pdftotext := (run_pdftotext tools).
Local Abbreviation pdfimages_list := (run_pdfimages_list tools).
Local Abbreviation pdfimages_png := (run_pdfimages_png tools).
Local Abbreviation pdftoppm := (run_pdftoppm tools).

Definition bytes_of (c : content artifact) : list N :=
  match c with
  | Raw b => b
  | Json d => encode d
  end.

(** [run_command] for a tool that writes files: what it wrote stays on
    the disk also when the time limit ends it. *)
Definition run_writing (outcome : tool_outcome) (written : list (path * list N))
  : M CommandResult :=
  fun s =>
    (run_command outcome,
     fold_left (fun acc f => write_file (fst f) (Raw (snd f)) acc) written s).

(** [load_manifest], for a file that holds a unique-paper manifest. *)
Definition load_manifest (manifest_path : path) : M Manifest.manifest_unique :=
  fun s =>
    match read s manifest_path with
    | Some (Json (ManifestUnique m)) => (inr m, s)
    | Some _ => (inl (ValueError (lit "not a unique-paper manifest")), s)
    | None => (inl (OSError (lit "No such file or directory")), s)
    end.

(** [choose_ascii_stage_name] *)
Definition choose_ascii_stage_name (paper_id : str) : str := paper_id ++ lit ".pdf".

(** [try_extract_text] *)
Definition try_extract_text (pdf_path text_out : path) : M (bool * str) :=
  let out := pdftotext (path_str pdf_path) in
  result <- run_writing (fst out)
              (match snd out with
               | Some text => [(text_out, text)]
               | None => []
               end) ;;
  s <- get ;;
  if (code result =? 0)%Z && exists_ s text_out
  then ret (true, lit "direct")
  else ret (false, match strip (stderr result) with
                   | [] => lit "pdftotext failed"
                   | note => note
                   end).

(** The loop of [extract_full_text] over the remaining candidates. *)
Fixpoint full_text_loop (source_pdf staging_pdf text_out : path)
    (candidates : list path) : M (bool * str * path) :=
  match candidates with
  | [] => ret (false, lit "failed on direct and staged path", source_pdf)
  | candidate :: rest =>
      (if path_eqb candidate staging_pdf
       then modify (ensure_dir (parent staging_pdf)) ;;;
            (fun s => match copy2 source_pdf staging_pdf s with
                      | inl e => (inl e, s)
                      | inr s' => (inr tt, s')
                      end)
       else ret tt) ;;;
      attempt <- try_extract_text candidate text_out ;;
      if fst attempt
      then ret (true,
                if path_eqb candidate source_pdf then snd attempt else lit "staged_path",
                candidate)
      else full_text_loop source_pdf staging_pdf text_out rest
  end.

Definition extract_full_text (source_pdf staging_pdf text_out : path)
    (prefer_staging : bool) : M (bool * str * path) :=
  full_text_loop source_pdf staging_pdf text_out
    (if prefer_staging then [staging_pdf; source_pdf] else [source_pdf; staging_pdf]).

(** [raw_dir.glob(pattern)] for the patterns [img-*.png] and
    [page-*.png]. *)
Definition glob_png (raw_dir : path) (prefix : str) (s : fs) : list path :=
  map fst
    (filter (fun e => let file := name (fst e) in
                      startswith file prefix && endswith file (lit ".png")
                      && (length prefix + 4 <=? length file))
            (listdir raw_dir s)).

(** [file_by_index[idx] = file_path] *)
Fixpoint assign (idx : Z) (file : path) (d : list (Z * path)) : list (Z * path) :=
  match d with
  | [] => [(idx, file)]
  | (k, v) :: d' => if (k =? idx)%Z then (k, file) :: d' else (k, v) :: assign idx file d'
  end.

Fixpoint lookup_index (idx : Z) (d : list (Z * path)) : option path :=
  match d with
  | [] => None
  | (k, v) :: d' => if (k =? idx)%Z then Some v else lookup_index idx d'
  end.

Definition index_key (file : path) : Z :=
  match image_index_from_filename (name file) with
  | Some 0%Z => (-1)%Z
  | Some i => i
  | None => (-1)%Z
  end.

Definition file_index (extracted_files : list path) : list (Z * path) :=
  fold_left
    (fun d file => match image_index_from_filename (name file) with
                   | Some idx => assign idx file d
                   | None => d
                   end)
    extracted_files [].

(** Loop state of [extract_figures]: [kept], [rejected], [seen_hashes]. *)
Record figure_state := {
  kept : list kept_figure;
  rejected : list (Z * str);
  seen_hashes : list str
}.

(** The body of the loop [for row in rows]. *)
Definition filter_row (figures_dir : path) (file_by_index : list (Z * path))
    (st : figure_state) (row : image_row) : M figure_state :=
  fun s =>
    let idx := row_num row in
    let reject reason :=
      {| kept := kept st; rejected := rejected st ++ [(idx, reason)];
         seen_hashes := seen_hashes st |} in
    match lookup_index idx file_by_index with
    | None => (inr (reject (lit "missing_output_file")), s)
    | Some image_path =>
        match read s image_path with
        | None => (inr (reject (lit "missing_output_file")), s)
        | Some c =>
            let file_size := length (bytes_of c) in
            let decision := should_keep_image lower row (Z.of_nat file_size) in
            if negb (fst decision)
            then (inr (reject (snd decision)), unlink image_path s)
            else
              let img_hash := hash_file (bytes_of c) in
              if str_in img_hash (seen_hashes st)
              then (inr (reject (lit "duplicate_hash")), unlink image_path s)
              else
                let ext := lower (suffix (name image_path)) in
                let out_name := lit "fig_" ++ format_04d (length (kept st) + 1) ++ ext in
                let out_path := figures_dir ++ [out_name] in
                (inr {| kept := kept st ++
                          [{| figure_id := out_name;
                              source := lit "embedded_image";
                              fig_page := row_page row;
                              fig_width := row_width row;
                              fig_height := row_height row;
                              size_bytes := file_size;
                              relative_path := path_str out_path;
                              caption_hint :=
                                lit "Embedded figure from page "
                                ++ option_z_text (row_page row) |}];
                        rejected := rejected st;
                        seen_hashes := img_hash :: seen_hashes st |},
                 move image_path out_path s)
        end
    end.

Fixpoint filter_rows (figures_dir : path) (file_by_index : list (Z * path))
    (rows : list image_row) (st : figure_state) : M figure_state :=
  match rows with
  | [] => ret st
  | row :: rest =>
      st' <- filter_row figures_dir file_by_index st row ;;
      filter_rows figures_dir file_by_index rest st'
  end.

(** The loop over [enumerate(rendered, start=1)] of the fallback. *)
Fixpoint move_rendered (figures_dir : path) (rendered : list (nat * path))
    (acc : list kept_figure) : M (list kept_figure) :=
  match rendered with
  | [] => ret acc
  | (idx, page_img) :: rest =>
      fun s =>
        let out_name := lit "render_" ++ format_04d idx ++ lit ".png" in
        let out_path := figures_dir ++ [out_name] in
        let s' := move page_img out_path s in
        move_rendered figures_dir rest
          (acc ++ [{| figure_id := out_name;
                      source := lit "page_render";
                      fig_page := Some (Z.of_nat idx);
                      fig_width := None;
                      fig_height := None;
                      size_bytes := match read s' out_path with
                                    | Some c => length (bytes_of c)
                                    | None => 0
                                    end;
                      relative_path := path_str out_path;
                      caption_hint := lit "Fallback rendered page " ++ decimal idx |}])
          s'
  end.

(** [extract_figures] *)
Definition extract_figures (working_pdf figures_dir raw_dir : path) (pages_count : Z)
  : M figure_summary :=
  modify (ensure_dir figures_dir) ;;;
  modify (ensure_dir raw_dir) ;;;
  list_result <- lift (run_command (pdfimages_list (path_str working_pdf))) ;;
  let rows := if (code list_result =? 0)%Z
              then parse_pdfimages_list (stdout list_result) else [] in
  let png := pdfimages_png (path_str working_pdf) in
  extract_result <- run_writing (fst png)
                      (map (fun f => (raw_dir ++ [fst f], snd f)) (snd png)) ;;
  s1 <- get ;;
  let extracted_files :=
    sorted Z.leb index_key (glob_png raw_dir (lit "img-") s1) in
  st <- filter_rows figures_dir (file_index extracted_files) rows
          {| kept := []; rejected := []; seen_hashes := [] |} ;;
  let fallback_pages := Z.to_nat (Z.min 12 (Z.max 0 pages_count)) in
  let use_fallback := (length (kept st) =? 0) && (0 <? fallback_pages) in
  final_kept <-
    (if use_fallback then
       let ppm := pdftoppm (path_str working_pdf) fallback_pages in
       render_result <- run_writing (fst ppm)
                          (map (fun f => (raw_dir ++ [fst f], snd f)) (snd ppm)) ;;
       if (code render_result =? 0)%Z then
         s2 <- get ;;
         move_rendered figures_dir
           (enumerate 1 (sorted str_leb name (glob_png raw_dir (lit "page-") s2)))
           (kept st)
       else ret (kept st)
     else ret (kept st)) ;;
  modify (fun s => if exists_ s raw_dir then rmtree raw_dir s else s) ;;;
  ret {| pdfimages_rows := length rows;
         pdfimages_exit_code := code list_result;
         pdfimages_extract_exit_code := code extract_result;
         kept_count := length final_kept;
         rejected_count := length (rejected st);
         fallback_used := use_fallback;
         figures := final_kept;
         rejections := firstn 200 (rejected st) |}.

(** The number of clock readings made so far: one per processed paper. *)
Definition readings (rows_so_far : list extraction_row) : nat :=
  length (filter (fun row => str_eqb (status row) (lit "processed")) rows_so_far).

(** The body of the loop of [extract_assets] for one paper; [rows_so_far]
    is [extraction_rows].  The paper directory [papers_root / paper_id]
    is written for a [paper_id] that is a plain name. *)
Definition extract_paper (papers_root staging_root : path) (ris : option (list N))
    (force : bool) (rows_so_far : list extraction_row)
    (paper : Manifest.unique_record) : M (list extraction_row) :=
  let paper_id := Manifest.paper_id paper in
  let paper_dir := papers_root ++ [paper_id] in
  let figures_dir := paper_dir ++ [lit "figures"] in
  let raw_fig_dir := paper_dir ++ [lit "_raw_figures"] in
  let text_path := paper_dir ++ [lit "text.txt"] in
  let metadata_path := paper_dir ++ [lit "metadata.json"] in
  let eq_path := paper_dir ++ [lit "equation_candidates.json"] in
  let fig_index_path := paper_dir ++ [lit "figures_index.json"] in
  modify (ensure_dir paper_dir) ;;;
  modify (ensure_dir figures_dir) ;;;
  s0 <- get ;;
  if exists_ s0 metadata_path && negb force
  then ret (rows_so_far ++
            [{| row_paper_id := paper_id;
                status := lit "skipped";
                row_text_extracted := None;
                row_text_quality := None;
                row_figure_count := None;
                row_equation_count := None;
                metadata_path := path_str metadata_path;
                text_path := None |}])
  else
    let canonical_pdf := path_of_str (Manifest.canonical_absolute_path paper) in
    let stage_pdf := staging_root ++ [choose_ascii_stage_name paper_id] in
    let prefer_staging :=
      str_eqb (lower (Manifest.u_extractability_status paper)) (lit "requires_staging") in
    modify (fun s => if force && exists_ s paper_dir
                     then ensure_dir figures_dir (ensure_dir paper_dir (rmtree paper_dir s))
                     else s) ;;;
    extracted <- extract_full_text canonical_pdf stage_pdf text_path prefer_staging ;;
    let ok_text := fst (fst extracted) in
    let text_mode_note := snd (fst extracted) in
    let working_pdf := snd extracted in
    s1 <- get ;;
    let full_text :=
      match read s1 text_path with
      | Some c => if ok_text then decode (bytes_of c) else []
      | None => []
      end in
    let pages :=
      match read s1 text_path with
      | Some _ => if ok_text then Summarize.split_pages_from_pdftotext full_text else []
      | None => []
      end in
    let bib := build_metadata ris paper pages in
    let quality_block := build_text_quality_summary full_text pages in
    let candidates := extract_equation_candidates lower isdecimal pages 12 in
    let pages_count :=
      match Manifest.u_pages paper with
      | Some 0%Z | None => Z.of_nat (length pages)
      | Some n => n
      end in
    figure_info <- extract_figures working_pdf figures_dir raw_fig_dir pages_count ;;
    modify (json_dump metadata_path
              (MetadataJson
                 {| mo_paper_id := paper_id;
                    mo_bib := bib;
                    mo_extraction :=
                      {| processed_at_utc := utc_now_iso (readings rows_so_far);
                         text_extracted := ok_text;
                         text_mode := text_mode_note;
                         working_pdf_path := path_str working_pdf;
                         text_quality := quality_block;
                         equation_candidates := length candidates;
                         figure_count := kept_count figure_info;
                         figure_fallback_used := fallback_used figure_info;
                         pdf_page_count_declared := Manifest.u_pages paper |} |})) ;;;
    modify (json_dump eq_path (EquationsJson candidates)) ;;;
    modify (json_dump fig_index_path (FiguresJson figure_info)) ;;;
    modify (json_dump (paper_dir ++ [lit "pages_meta.json"])
              (PagesMetaJson
                 {| page_count := length pages;
                    pm_nonempty_pages :=
                      length (filter (fun page => nonempty (strip page)) pages);
                    first_page_preview :=
                      match pages with
                      | first :: _ => firstn 400 (clean_whitespace first)
                      | [] => []
                      end;
                    first_sentences :=
                      firstn 5 (sentence_tokenize (join [10%N] (firstn 2 pages))) |})) ;;;
    ret (rows_so_far ++
         [{| row_paper_id := paper_id;
             status := lit "processed";
             row_text_extracted := Some ok_text;
             row_text_quality := Some (quality quality_block);
             row_figure_count := Some (kept_count figure_info);
             row_equation_count := Some (length candidates);
             metadata_path := path_str metadata_path;
             text_path := Some (path_str text_path) |}]).

(** The loop [for paper in papers]. *)
Fixpoint extract_loop (papers_root staging_root : path) (ris : option (list N))
    (force : bool) (papers : list Manifest.unique_record)
    (rows_so_far : list extraction_row) : M (list extraction_row) :=
  match papers with
  | [] => ret rows_so_far
  | paper :: rest =>
      rows' <- extract_paper papers_root staging_root ris force rows_so_far paper ;;
      extract_loop papers_root staging_root ris force rest rows'
  end.

(** [extract_assets]; the [print] calls do not touch the disk. *)
Definition extract_assets (manifest_path out_dir ris_path : path) (force : bool)
  : M unit :=
  loaded <- load_manifest manifest_path ;;
  s0 <- get ;;
  let ris := match read s0 ris_path with
             | Some c => Some (bytes_of c)
             | None => None
             end in
  let papers_root := out_dir ++ [lit "papers"] in
  let staging_root := out_dir ++ [lit "staging"] in
  modify (ensure_dir papers_root) ;;;
  modify (ensure_dir staging_root) ;;;
  extraction_rows <- extract_loop papers_root staging_root ris force
                       (Manifest.papers loaded) [] ;;
  modify (json_dump (out_dir ++ [lit "extraction_summary.json"])
            (ExtractionSummaryJson
               {| generated_at_utc := utc_now_iso (readings extraction_rows);
                  manifest := path_str manifest_path;
                  total_records := length extraction_rows;
                  processed_records :=
                    length (filter (fun row => str_eqb (status row) (lit "processed"))
                                   extraction_rows);
                  skipped_records :=
                    length (filter (fun row => str_eqb (status row) (lit "skipped"))
                                   extraction_rows);
                  rows := extraction_rows |})).

(** [main], with the arguments already resolved. *)
Definition main (manifest_path out_dir ris_path : path) (force : bool) : M unit :=
  modify (ensure_dir out_dir) ;;;
  s <- get ;;
  if negb (exists_ s manifest_path)
  then raise (SystemExit (lit "manifest not found: " ++ path_str manifest_path))
  else extract_assets manifest_path out_dir ris_path force.

End Stage.

(** Every tool invocation starts and ends within its time limit. *)
Definition tools_end (tools : toolchain) : Prop :=
  (forall pdf, exists r, fst (run_pdftotext tools pdf) = Exited r) /\
  (forall pdf, exists r, run_pdfimages_list tools pdf = Exited r) /\
  (forall pdf, exists r, fst (run_pdfimages_png tools pdf) = Exited r) /\
  (forall pdf n, exists r, fst (run_pdftoppm tools pdf n) = Exited r).

(** [pdftotext] exits with a non-zero status on the PDF at [pdf]. *)
Definition text_fails (tools : toolchain) (pdf : path) : Prop :=
  exists r, fst (run_pdftotext tools (path_str pdf)) = Exited r /\ code r <> 0%Z.

(** [papers_root / paper_id / "metadata.json"] *)
Definition metadata_file (out_dir : path) (paper_id : str) : path :=
  ((out_dir ++ [lit "papers"]) ++ [paper_id]) ++ [lit "metadata.json"].

(** The paper's [metadata.json] was on the disk [s], or a paper of
    [earlier] has the same [paper_id]. *)
Definition done_before (out_dir : path) (s : fs)
    (earlier : list Manifest.unique_record) (paper : Manifest.unique_record) : bool :=
  exists_ s (metadata_file out_dir (Manifest.paper_id paper))
  || existsb (fun q => str_eqb (Manifest.paper_id q) (Manifest.paper_id paper)) earlier.

(** What the row of a paper says in a run that started on the disk [s]
    and has handled the papers [earlier] before it.  Without [--force] a
    paper that was done before is skipped.  Every other paper is
    processed, and when [pdftotext] fails on the source and on the staged
    copy its [text_extracted] is false. *)
Definition row_of (tools : toolchain) (out_dir : path) (force : bool) (s : fs)
    (earlier : list Manifest.unique_record)
    (paper : Manifest.unique_record) (row : Extract.extraction_row) : Prop :=
  Extract.row_paper_id row = Manifest.paper_id paper /\
  if negb force && done_before out_dir s earlier paper
  then Extract.status row = lit "skipped" /\ Extract.row_text_extracted row = None
  else
    Extract.status row = lit "processed" /\
    exists ok, Extract.row_text_extracted row = Some ok /\
      (text_fails tools (path_of_str (Manifest.canonical_absolute_path paper)) ->
       text_fails tools
         ((out_dir ++ [lit "staging"])
            ++ [choose_ascii_stage_name (Manifest.paper_id paper)]) ->
       ok = false).

(** One row per paper, in order. *)
Fixpoint rows_of (tools : toolchain) (out_dir : path) (force : bool) (s : fs)
    (earlier papers : list Manifest.unique_record)
    (rows : list Extract.extraction_row) : Prop :=
  match papers, rows with
  | [], [] => True
  | paper :: papers', row :: rows' =>
      row_of tools out_dir force s earlier paper row /\
      rows_of tools out_dir force s (earlier ++ [paper]) papers' rows'
  | _, _ => False
  end.

(** The source file of a paper is on the disk, outside the directory of
    outputs. *)
Definition source_present (out_dir : path) (s : fs)
    (paper : Manifest.unique_record) : Prop :=
  is_file s (path_of_str (Manifest.canonical_absolute_path paper)) = true /\
  is_prefix out_dir (path_of_str (Manifest.canonical_absolute_path paper)) = false.

(** The paper identifiers of a manifest are plain names, as
    [build_manifest] makes them: [papers_root / paper_id] is then the
    entry [paper_id] of [papers_root]. *)
Definition plain_ids (m : Manifest.manifest_unique) : Prop :=
  Forall (fun paper => plain_name (Manifest.paper_id paper) = true)
         (Manifest.papers m).

(** The places where [extract_assets] makes directories: [out_dir] and
    the directories above it, [out_dir / "papers"], [out_dir / "staging"],
    the directory of a paper and its [figures] and [_raw_figures]. *)
Definition directory_place (out_dir p : path) : bool :=
  is_prefix p (out_dir ++ [lit "papers"])
  || path_eqb p (out_dir ++ [lit "staging"])
  || (is_prefix (out_dir ++ [lit "papers"]) p
      && ((length p =? length out_dir + 2)
          || ((length p =? length out_dir + 3)
              && (str_eqb (name p) (lit "figures")
                  || str_eqb (name p) (lit "_raw_figures"))))).

(** The places that [extract_assets] reads and writes are laid out as it
    lays them out itself: the bibliography file and the summary file are
    not directories, the directories in [papers] and [staging] are at
    directory places, and no regular file is at a directory place. *)
Definition laid_out (out_dir ris_path : path) (s : fs) : bool :=
  negb (is_dir s ris_path)
  && negb (is_dir s (out_dir ++ [lit "extraction_summary.json"]))
  && forallb (fun d => negb (is_prefix (out_dir ++ [lit "papers"]) d
                             || is_prefix (out_dir ++ [lit "staging"]) d)
                       || directory_place out_dir d)
             (dirs s)
  && forallb (fun e => negb (directory_place out_dir (fst e))) (files s).

End ExtractStage.

(** ** summarize_papers on the disk *)

Module SummarizeStage.
Import Sys Summarize.
Local Open Scope sys_scope.

(** The disk of the summariser: files hold bytes, and [out_json] holds
    the dictionary that [json_dump] was given. *)
Definition fs := Sys.fs output.
Definition M := Sys.M output.

Section Stage.

Variable lower : str -> str.
Variable abstract_search : str -> option str.

(** [bytes.decode("utf-8", errors="ignore")] and the bytes that
    [json_dump] writes for the output. *)
Variable decode : list N -> str.
Variable encode : output -> list N.

(** [json.loads] on the text of a file: the exception it raises on a text
    that is not JSON.  For a text it accepts, the manifest, the metadata,
    the equation list and the figure index as the summariser reads them;
    a manifest or a metadata document that is not an object is an error,
    raised by the first [.get] on it. *)
Variable loads_error : str -> option exn.
Variable as_manifest : str -> exn + manifest.
Variable as_metadata : str -> exn + metadata.
Variable as_equations : str -> eq_file.
Variable as_figures : str -> fig_file.

(** The reading of the clock by [utc_now_iso()]. *)
Variable utc_now_iso : nat -> str.

Definition bytes_of (c : content output) : list N :=
  match c with
  | Raw bytes => bytes
  | Json data => encode data
  end.

(** [path.exists()] *)
Definition path_exists (p : path) : M bool := fun s => (inr (exists_ s p), s).

(** [path.read_text(encoding="utf-8", errors="ignore")] *)
Definition read_text (p : path) : M str :=
  fun s =>
    match read s p with
    | Some c => (inr (decode (bytes_of c)), s)
    | None =>
        (inl (OSError (if is_dir s p then lit "Is a directory"
                       else lit "No such file or directory")), s)
    end.

(** [load_json]: the text of the file, which [json.loads] has accepted. *)
Definition load_json (p : path) : M str :=
  text <- read_text p ;;
  match loads_error text with
  | Some e => raise e
  | None => ret text
  end.

(** [load_pages], up to the split into pages: the text of [text.txt],
    [None] when the file is missing. *)
Definition load_text (text_path : path) : M (option str) :=
  present <- path_exists text_path ;;
  if negb present then ret None
  else text <- read_text text_path ;; ret (Some text).

(** [load_json(p) if p.exists() else default] *)
Definition load_optional (p : path) : M (option str) :=
  present <- path_exists p ;;
  if present then text <- load_json p ;; ret (Some text)
  else ret None.

(** The head of the loop body: the files of
    [assets_dir / "papers" / paper_id], for a [paper_id] that is a plain
    name; [None] when [metadata.json] is missing and the paper is
    skipped. *)
Definition load_assets (assets_dir : path) (paper_id : str) : M (option paper_assets) :=
  let paper_dir := (assets_dir ++ [lit "papers"]) ++ [paper_id] in
  let metadata_path := paper_dir ++ [lit "metadata.json"] in
  let text_path := paper_dir ++ [lit "text.txt"] in
  let eq_path := paper_dir ++ [lit "equation_candidates.json"] in
  let fig_path := paper_dir ++ [lit "figures_index.json"] in
  present <- path_exists metadata_path ;;
  if negb present then ret None
  else
    metadata <- load_json metadata_path ;;
    text <- load_text text_path ;;
    equations <- load_optional eq_path ;;
    figures_index <- load_optional fig_path ;;
    md <- lift (as_metadata metadata) ;;
    ret (Some {| a_metadata := md;
                 a_text := text;
                 a_equations := option_map as_equations equations;
                 a_figures := option_map as_figures figures_index |}).

(** The loop over [enumerate(papers, start=1)]. *)
Fixpoint summarize_loop (assets_dir : path) (items : list (nat * manifest_item))
  : M (list (summary_record * bibliography_entry)) :=
  match items with
  | [] => ret []
  | (citation_number, ItemOther) :: rest => summarize_loop assets_dir rest
  | (citation_number, ItemDict p) :: rest =>
      assets <- load_assets assets_dir (p_paper_id p) ;;
      match assets with
      | None => summarize_loop assets_dir rest
      | Some a =>
          results <- summarize_loop assets_dir rest ;;
          ret (summarize_one lower abstract_search citation_number p a :: results)
      end
  end.

(** What a run has gathered when it comes to build the output: the
    manifest, its ["papers"] list and the results of the loop. *)
Definition gather (manifest_path assets_dir : path)
  : M (manifest * list manifest_item * list (summary_record * bibliography_entry)) :=
  text <- load_json manifest_path ;;
  m <- lift (as_manifest text) ;;
  match m_papers m with
  | None => raise (SystemExit (lit "invalid manifest format"))
  | Some items =>
      results <- summarize_loop assets_dir (enumerate 1 items) ;;
      ret (m, items, results)
  end.

(** [summarize_papers(manifest_path, assets_dir, out_json)]; the [print]
    calls do not touch the disk. *)
Definition summarize_papers (manifest_path assets_dir out_json : path) : M unit :=
  text <- load_json manifest_path ;;
  m <- lift (as_manifest text) ;;
  match m_papers m with
  | None => raise (SystemExit (lit "invalid manifest format"))
  | Some items =>
      results <- summarize_loop assets_dir (enumerate 1 items) ;;
      modify (json_dump out_json
                (build_output (utc_now_iso 0) (path_str manifest_path)
                   (path_str assets_dir) m items results))
  end.

(** The paper identifiers of the manifest at [manifest_path] are plain
    names, as [build_manifest] makes them. *)
Definition plain_ids (manifest_path : path) (s : fs) : Prop :=
  forall text m items p,
    fst (load_json manifest_path s) = inr text ->
    as_manifest text = inr m ->
    m_papers m = Some items ->
    In (ItemDict p) items ->
    plain_name (p_paper_id p) = true.

End Stage.

(** The extraction input of the summariser: the manifest, and what lies
    at or below [assets_dir / "papers"].  Two disks hold the same input
    when these paths are the same files, directories or gaps on both. *)
Definition same_input (manifest_path assets_dir : path) (s1 s2 : fs) : Prop :=
  forall p,
    p = manifest_path \/ is_prefix (assets_dir ++ [lit "papers"]) p = true ->
    read s1 p = read s2 p /\ is_dir s1 p = is_dir s2 p.

(** The output file can be written: it is not a directory, and no
    regular file lies on the way to it. *)
Definition can_write (out_json : path) (s : fs) : bool :=
  negb (is_dir s out_json)
  && forallb (fun d => negb (is_file s d)) (prefixes (parent out_json)).

(** The output file lies apart from the input: it is not the manifest or
    on the way to it, and not in or on the way to the papers directory. *)
Definition output_apart (manifest_path assets_dir out_json : path) : Prop :=
  near [out_json] manifest_path = false /\
  near [out_json] (assets_dir ++ [lit "papers"]) = false.

(** Two runs end alike up to the time stamp: with the same exception, or
    both with an output file, and the two outputs differ at most in
    [generated_at_utc], where each holds the clock reading of its run;
    with the same reading they are the same. *)
Definition same_up_to_timestamp (out_json : path) (now1 now2 : str)
    (run1 run2 : (exn + unit) * fs) : Prop :=
  match fst run1, fst run2 with
  | inr _, inr _ =>
      exists o1 o2,
        read (snd run1) out_json = Some (Json o1) /\
        read (snd run2) out_json = Some (Json o2) /\
        without_timestamp o1 = without_timestamp o2 /\
        generated_at_utc o1 = now1 /\
        generated_at_utc o2 = now2 /\
        (now1 = now2 -> o1 = o2)
  | inl e1, inl e2 => e1 = e2
  | _, _ => False
  end.

(** A computation that only reads, and reads only paths of [domain]: it
    leaves the disk as it is, and its result is the same on two disks
    that agree on [domain]. *)
Definition reads_only {R} (domain : path -> Prop) (c : M R) : Prop :=
  (forall s, snd (c s) = s) /\
  (forall s1 s2,
      (forall p, domain p -> read s1 p = read s2 p /\ is_dir s1 p = is_dir s2 p) ->
      fst (c s1) = fst (c s2)).

End SummarizeStage.

(** ** A small corpus on disk, used to run the stages *)

Module Fixture.
Import Sys Disk.

Definition plain_library : ExtractStage.library :=
  {| ExtractStage.lib_lower := ascii_lower;
     ExtractStage.lib_isdecimal := ascii_digit;
     ExtractStage.lib_decode := fun bytes => bytes;
     ExtractStage.lib_encode := fun _ => [];
     ExtractStage.lib_hash_file := fun bytes => bytes;
     ExtractStage.lib_parse_pdfimages_list := fun _ => [];
     ExtractStage.lib_image_index_from_filename := fun _ => None;
     ExtractStage.lib_build_metadata :=
       fun _ paper _ =>
         {| Extract.bib_title := Manifest.canonical_file_name paper;
            Extract.bib_doi := [];
            Extract.bib_journal := [];
            Extract.bib_year := [];
            Extract.bib_authors := [];
            Extract.bib_url := [];
            Extract.bib_ris_matched := false;
            Extract.bib_vancouver_citation := Manifest.canonical_file_name paper |} |}.

Definition exit_ok : CommandResult := {| code := 0; stdout := []; stderr := [] |}.

Definition exit_error : CommandResult :=
  {| code := 1; stdout := []; stderr := lit "Syntax Error: broken xref table" |}.

Definition paper_record (id file status : str) : Manifest.unique_record :=
  {| Manifest.paper_id := id;
     Manifest.u_sha256 := [];
     Manifest.canonical_file_name := file;
     Manifest.canonical_absolute_path := lit "/data/papers/" ++ file;
     Manifest.canonical_relative_path := lit "data/papers/" ++ file;
     Manifest.u_size_bytes := 4;
     Manifest.u_pages := Some 1%Z;
     Manifest.u_extractability_status := status;
     Manifest.u_extractability_note := [];
     Manifest.alias_file_names := [file];
     Manifest.duplicate_count := 0 |}.

Definition paper_a : Manifest.unique_record :=
  paper_record (lit "paper_001_0a0a0a0a") (lit "a.pdf") (lit "requires_staging").

Definition paper_b : Manifest.unique_record :=
  paper_record (lit "paper_002_0b0b0b0b") (lit "b.pdf") (lit "direct_ok").

Definition two_papers : Manifest.manifest_unique :=
  {| Manifest.mu_generated_at_utc := lit "2026-02-11T10:00:00Z";
     Manifest.source_total_files := 2;
     Manifest.source_unique_files := 2;
     Manifest.papers := [paper_a; paper_b] |}.

Definition out_dir : path := [lit "out"].
Definition manifest_path : path := [lit "out"; lit "manifest_unique.json"].
Definition ris_path : path := [lit "data"; lit "papers"; lit "MECH0020.ris"].

(** Two PDF files and the manifest of the previous stage. *)
Definition corpus : fs :=
  {| dirs := [[lit "data"]; [lit "data"; lit "papers"]; [lit "out"]];
     files := [ ([lit "data"; lit "papers"; lit "a.pdf"], Raw [37; 80; 68; 70]%N);
                ([lit "data"; lit "papers"; lit "b.pdf"], Raw [37; 80; 68; 71]%N);
                (manifest_path, Json (ManifestUnique two_papers)) ] |}.

(** Tools that do their work: [pdftotext] writes one page with one
    equation line, no image is found and the fallback renders nothing. *)
Definition working_tools : ExtractStage.toolchain :=
  {| ExtractStage.run_pdftotext := fun _ => (Exited exit_ok, Some (lit "E = m c^2 (1)"));
     ExtractStage.run_pdfimages_list := fun _ => Exited exit_ok;
     ExtractStage.run_pdfimages_png := fun _ => (Exited exit_ok, []);
     ExtractStage.run_pdftoppm := fun _ _ => (Exited exit_ok, []) |}.

(** Tools whose [pdftotext] exits with an error on every file. *)
Definition failing_tools : ExtractStage.toolchain :=
  {| ExtractStage.run_pdftotext := fun _ => (Exited exit_error, None);
     ExtractStage.run_pdfimages_list := fun _ => Exited exit_ok;
     ExtractStage.run_pdfimages_png := fun _ => (Exited exit_ok, []);
     ExtractStage.run_pdftoppm := fun _ _ => (Exited exit_ok, []) |}.

(** Tools whose [pdftotext] exceeds its time limit on the staged copy of
    the first paper and works on every other file. *)
Definition slow_tools : ExtractStage.toolchain :=
  {| ExtractStage.run_pdftotext :=
       fun pdf => if str_eqb pdf (lit "/out/staging/paper_001_0a0a0a0a.pdf")
                  then (TimedOut, None)
                  else (Exited exit_ok, Some (lit "E = m c^2 (1)"));
     ExtractStage.run_pdfimages_list := fun _ => Exited exit_ok;
     ExtractStage.run_pdfimages_png := fun _ => (Exited exit_ok, []);
     ExtractStage.run_pdftoppm := fun _ _ => (Exited exit_ok, []) |}.

Definition clock (n : nat) : str := lit "2026-02-11T10:00:00Z".

(** The disk before the manifest stage: one PDF that no tool can read. *)
Definition raw_corpus : fs :=
  {| dirs := [[lit "data"]; [lit "data"; lit "papers"]];
     files := [ ([lit "data"; lit "papers"; lit "a.pdf"], Raw [37; 80; 68; 70]%N) ] |}.

(** The summariser's view of a small corpus: every file holds JSON, the
    manifest names one paper, and the paper has metadata only. *)
Definition summary_paper : Summarize.paper :=
  {| Summarize.p_paper_id := lit "paper_001_0a0a0a0a";
     Summarize.p_canonical_file_name := Some (lit "a.pdf");
     Summarize.p_alias_file_names := Some [lit "a.pdf"];
     Summarize.p_duplicate_count := Some 0%Z |}.

Definition summary_manifest : Summarize.manifest :=
  {| Summarize.m_papers := Some [Summarize.ItemDict summary_paper];
     Summarize.m_source_total_files := Some 1%Z;
     Summarize.m_source_unique_files := Some 1%Z |}.

Definition summary_metadata : Summarize.metadata :=
  {| Summarize.md_title := Some (lit "A title");
     Summarize.md_vancouver_citation := Some (lit "A title.");
     Summarize.md_doi := None; Summarize.md_url := None;
     Summarize.md_year := None; Summarize.md_journal := None;
     Summarize.md_authors := None;
     Summarize.md_text_quality := None |}.

Definition out_json : path := [lit "out"; lit "paper_summaries.json"].

(** The disk after the extraction stage, and the same disk with one more
    file that is no input of the summariser. *)
Definition extracted : SummarizeStage.fs :=
  {| dirs := [[lit "out"]; [lit "out"; lit "papers"];
              [lit "out"; lit "papers"; lit "paper_001_0a0a0a0a"]];
     files := [ (manifest_path, Raw (lit "{manifest}"));
                ([lit "out"; lit "papers"; lit "paper_001_0a0a0a0a";
                  lit "metadata.json"], Raw (lit "{metadata}")) ] |}.

Definition extracted_with_notes : SummarizeStage.fs :=
  {| dirs := dirs extracted;
     files := files extracted ++ [([lit "notes.txt"], Raw (lit "later"))] |}.

Definition later_clock (n : nat) : str := lit "2026-02-11T10:00:01Z".

(** The summariser with readers that accept every file. *)
Definition summarizer (utc_now_iso : nat -> str) : SummarizeStage.M unit :=
  SummarizeStage.summarize_papers ascii_lower (fun _ => None)
    (fun bytes => bytes) (fun _ => [])
    (fun _ => None) (fun _ => inr summary_manifest) (fun _ => inr summary_metadata)
    (fun _ => Summarize.EqList []) (fun _ => Summarize.FigDict None)
    utc_now_iso manifest_path out_dir out_json.

End Fixture.

(** ** Retries *)

(** The attempt [k] was retried by [request_with_retry]: the connection
    failed, or the response carried a status that asks for a retry. *)
Definition retried (net : Publish.network) (k : nat) : Prop :=
  net k = Publish.NetworkError \/
  exists r, net k = Publish.Responded r /\
            Publish.retryable (Publish.status_code r) = true.

(** ** Ranking of equation candidates *)

(** [a] is ranked no later than [b] by the sort key
    [(-score, page)]: a higher score, or the same score and a page that is
    not later. *)
Definition ranks_before (a b : Extract.candidate) : Prop :=
  (Extract.score b < Extract.score a)%Z \/
  (Extract.score a = Extract.score b /\ Extract.cand_page a <= Extract.cand_page b).

(** The form under which [extract_equation_candidates] remembers a kept
    line in [seen]. *)
Definition seen_form (lower : str -> str) (c : Extract.candidate) : str :=
  remove_ws (lower (Extract.equation c)).

(** ** Shapes of cleaned text *)

(** Every white-space code point of [s] is a space, and no two spaces are
    adjacent; [after_space] tells that a space stands in front of [s]. *)
Fixpoint single_spaced (after_space : bool) (s : str) : bool :=
  match s with
  | [] => true
  | c :: s' =>
      if isspace c then (c =? 32)%N && negb after_space && single_spaced true s'
      else single_spaced false s'
  end.

(** [s] does not begin, or does not end, with white space. *)
Definition starts_clean (s : str) : bool :=
  match s with
  | [] => true
  | c :: _ => negb (isspace c)
  end.

Definition ends_clean (s : str) : bool := starts_clean (rev s).

(** A piece that [sentence_tokenize] keeps as it is: not empty, and with
    no white space at either end. *)
Definition trimmed (p : str) : Prop :=
  p <> [] /\ starts_clean p = true /\ ends_clean p = true.

(** ** Reading decimal digits *)

(** The number written by a string of ASCII digits, read from the left. *)
Definition digits_value (s : str) : nat :=
  fold_left (fun acc c => 10 * acc + (N.to_nat c - 48)) s 0.

(** ** What a stage writes *)

Section Untouched.
Variable A : Type.

(** Every path outside [root] reads in [s'] as it did in [s]: no regular
    file there was changed, removed or created. *)
Definition untouched_outside (root : Sys.path) (s s' : Sys.fs A) : Prop :=
  forall p, Sys.is_prefix root p = false -> Sys.read s' p = Sys.read s p.

(** A computation that writes only at or below [root], whether it returns
    or raises. *)
Definition confined {R} (root : Sys.path) (c : Sys.M A R) : Prop :=
  forall s, untouched_outside root s (snd (c s)).

End Untouched.

Arguments untouched_outside A root s s' : clear implicits.
Arguments confined A {R} root c.

(** The paths that exist on a disk: its directories and its files. *)
Definition entries {A : Type} (s : Sys.fs A) : list Sys.path :=
  Sys.dirs s ++ map fst (Sys.files s).

(** ** Figures *)

(** The figure comes from an embedded image, or from a rendered page. *)
Definition embedded (f : Extract.kept_figure) : Prop :=
  Extract.source f = lit "embedded_image".

Definition rendered_page (f : Extract.kept_figure) : Prop :=
  Extract.source f = lit "page_render".

(** [f"render_{idx:04d}.png"] *)
Definition render_name (idx : nat) : str :=
  lit "render_" ++ format_04d idx ++ lit ".png".

(** ** Sentences chosen for a summary *)

(** The form under which [pick_sentences] remembers a sentence in
    [seen]: lower-cased, with every white-space run as one space. *)
Definition sentence_key (lower : str -> str) (x : Summarize.sentence) : str :=
  collapse_ws false (lower (Summarize.s_text x)).

(** Loop invariant of [pick_sentences]: [seen] holds the keys of [chosen],
    newest first and without repetition, and the loop is still running
    only while fewer than [limit] sentences are chosen. *)
Definition picking (lower : str -> str) (limit : nat) (st : Summarize.pick_state)
  : Prop :=
  snd st = rev (map (sentence_key lower) (fst st)) /\
  NoDup (snd st) /\
  (length (fst st) < limit \/ fst st = []).

(** The key under which [build_evidence_anchors] removes repeated
    anchors: [(tag, page, quote.lower())]. *)
Definition anchor_key (lower : str -> str) (a : Summarize.anchor) : str * Z * str :=
  (Summarize.tag a, Summarize.a_page a, lower (Summarize.quote a)).

Definition anchor_tags : list str :=
  [lit "objective"; lit "methods"; lit "findings"; lit "limitations"; lit "equation"].

(** ** publish_notion: text sent to the API *)

Module Notion.

(** [rich_text(text)]: the ["content"] of each item of the list it
    returns, in order. *)
Definition rich_text (text : str) : list str :=
  let text := strip text in
  if nonempty text
  then map (fun idx => slice text idx (idx + 1800))
           (range_step 0 (length text) 1800)
  else [].

(** A paragraph block, given by the [rich_text] list it carries. *)
Record paragraph := { p_rich_text : list str }.

(** [paragraph_blocks(text)] *)
Definition paragraph_blocks (text : str) : list paragraph :=
  let text := strip text in
  if nonempty text
  then map (fun idx => {| p_rich_text := rich_text (slice text idx (idx + 1800 * 8)) |})
           (range_step 0 (length text) (1800 * 8))
  else [].

(** The text that a list of blocks carries: the contents of all their
    items, in order. *)
Definition carried (blocks : list paragraph) : str :=
  concat (map (fun b => concat (p_rich_text b)) blocks).

End Notion.

(** ** research_common: the bibliography *)

Module Ris.

(** An entry as [parse_ris_file] builds it: a dict with these twelve
    keys, so never an empty (falsy) dict.  Where a caller passes a dict
    that lacks a key, [entry.get(key, "")] reads the empty string, which
    is the field's value here. *)
Record entry := {
  type_ : str;
  authors : list str;
  title : str;
  journal : str;
  year : str;
  doi : str;
  url : str;
  volume : str;
  issue : str;
  sp : str;
  ep : str;
  publisher : str
}.

(** [a or b] on strings. *)
Definition str_or (a b : str) : str := if nonempty a then a else b.

(** [to_vancouver_citation(entry, fallback_title, fallback_url)];
    [parts] grows by [parts.append] under each [if]. *)
Definition to_vancouver_citation (entry : entry) (fallback_title fallback_url : str)
    : str :=
  let author_txt :=
    join (lit ", ")
         (map strip (filter (fun a => nonempty (strip a)) (authors entry))) in
  let title := str_or (strip (title entry)) fallback_title in
  let journal := strip (journal entry) in
  let year := strip (year entry) in
  let volume := strip (volume entry) in
  let issue := strip (issue entry) in
  let sp := strip (sp entry) in
  let ep := strip (ep entry) in
  let doi := strip (doi entry) in
  let url := str_or (strip (url entry)) fallback_url in
  let parts := [] in
  let parts := parts ++ (if nonempty author_txt then [author_txt ++ lit "."] else []) in
  let parts := parts ++ (if nonempty title then [title ++ lit "."] else []) in
  let parts :=
    parts ++
    (if nonempty journal then
       let vol_issue :=
         if nonempty volume && nonempty issue
         then volume ++ lit "(" ++ issue ++ lit ")"
         else if nonempty volume then volume
         else if nonempty issue then lit "(" ++ issue ++ lit ")"
         else [] in
       let pages :=
         if nonempty sp && nonempty ep then lit ":" ++ sp ++ lit "-" ++ ep
         else if nonempty sp then lit ":" ++ sp
         else [] in
       let yblock := if nonempty year then year ++ lit ";" else [] in
       [journal ++ lit ". " ++ yblock ++ vol_issue ++ pages ++ lit "."]
     else if nonempty year then [year ++ lit "."]
     else []) in
  let parts := parts ++ (if nonempty doi then [lit "doi:" ++ doi ++ lit "."] else []) in
  let parts :=
    parts ++ (if nonempty url then [lit "Available from: " ++ url ++ lit "."] else []) in
  if nonempty parts then join (lit " ") parts else fallback_title.

(** A Python dict with string keys, in insertion order. *)
Definition dict (V : Type) := list (str * V).

(** [d[k] = v]: an existing key keeps its place and takes the new value,
    a new key goes to the end. *)
Fixpoint dict_set {V} (d : dict V) (k : str) (v : V) : dict V :=
  match d with
  | [] => [(k, v)]
  | (k', v') :: d' =>
      if str_eqb k' k then (k', v) :: d' else (k', v') :: dict_set d' k v
  end.

(** [d.get(k)] *)
Fixpoint dict_get {V} (d : dict V) (k : str) : option V :=
  match d with
  | [] => None
  | (k', v') :: d' => if str_eqb k' k then Some v' else dict_get d' k
  end.

(** A code point of the class [[a-z0-9]]. *)
Definition is_lower_or_digit (c : N) : bool :=
  ((97 <=? c)%N && (c <=? 122)%N) || ((48 <=? c)%N && (c <=? 57)%N).

Section Lower.

(** [str.lower] *)
Variable lower : str -> str.

(** [re.sub(r"[^a-z0-9]+", "", text.lower())] *)
Definition normalize_title (text : str) : str :=
  filter is_lower_or_digit (lower text).

(** [build_ris_indexes(entries)]: the pair [(by_doi, by_title)]. *)
Definition build_ris_indexes (entries : list entry) : dict entry * dict entry :=
  fold_left
    (fun indexes entry =>
       let by_doi := fst indexes in
       let by_title := snd indexes in
       let doi := lower (strip (doi entry)) in
       let title := strip (title entry) in
       let by_doi := if nonempty doi then dict_set by_doi doi entry else by_doi in
       let by_title :=
         if nonempty title then dict_set by_title (normalize_title title) entry
         else by_title in
       (by_doi, by_title))
    entries ([], []).

(** [find_ris_match(doi, title, by_doi, by_title)]; [None] stands for a
    missing [doi] or [title]. *)
Definition find_ris_match (doi title : option str) (by_doi by_title : dict entry)
    : option entry :=
  let by_doi_candidate :=
    match doi with
    | Some doi => if nonempty doi then dict_get by_doi (lower doi) else None
    | None => None
    end in
  match by_doi_candidate with
  | Some candidate => Some candidate
  | None =>
      match title with
      | Some title =>
          if nonempty title then
            let norm := normalize_title title in
            match dict_get by_title norm with
            | Some candidate => Some candidate
            | None =>
                option_map snd
                  (find (fun item =>
                           nonempty norm &&
                           (contains norm (fst item) || contains (fst item) norm))
                        by_title)
            end
          else None
      | None => None
      end
  end.

End Lower.

(** *** parse_ris_file *)

(** [s.split(sep)] for a separator of one or more code points.  [skip]
    counts the code points of a separator just found that are still to be
    passed over; [cur] holds the current piece, last code point first. *)
Fixpoint split_str (sep : str) (skip : nat) (cur : str) (s : str) : list str :=
  match s with
  | [] => [rev cur]
  | c :: s' =>
      match skip with
      | S k => split_str sep k cur s'
      | O =>
          if startswith s sep
          then rev cur :: split_str sep (length sep - 1) [] s'
          else split_str sep 0 (c :: cur) s'
      end
  end.

(** [s.split(sep, 1)] when [sep in s]: the text in front of the first
    occurrence and the text behind it; [None] when [sep] does not
    occur. *)
Fixpoint split_once (sep : str) (cur : str) (s : str) : option (str * str) :=
  if startswith s sep then Some (rev cur, skipn (length sep) s)
  else
    match s with
    | [] => None
    | c :: s' => split_once sep (c :: cur) s'
    end.

(** The dict that [parse_ris_file] starts every entry with. *)
Definition empty_entry : entry :=
  {| type_ := []; authors := []; title := []; journal := []; year := [];
     doi := []; url := []; volume := []; issue := []; sp := []; ep := [];
     publisher := [] |}.

(** [entry[key] = value], key by key. *)
Definition set_type (e : entry) (v : str) : entry :=
  {| type_ := v; authors := authors e; title := title e; journal := journal e;
     year := year e; doi := doi e; url := url e; volume := volume e;
     issue := issue e; sp := sp e; ep := ep e; publisher := publisher e |}.

Definition set_authors (e : entry) (v : list str) : entry :=
  {| type_ := type_ e; authors := v; title := title e; journal := journal e;
     year := year e; doi := doi e; url := url e; volume := volume e;
     issue := issue e; sp := sp e; ep := ep e; publisher := publisher e |}.

Definition set_title (e : entry) (v : str) : entry :=
  {| type_ := type_ e; authors := authors e; title := v; journal := journal e;
     year := year e; doi := doi e; url := url e; volume := volume e;
     issue := issue e; sp := sp e; ep := ep e; publisher := publisher e |}.

Definition set_journal (e : entry) (v : str) : entry :=
  {| type_ := type_ e; authors := authors e; title := title e; journal := v;
     year := year e; doi := doi e; url := url e; volume := volume e;
     issue := issue e; sp := sp e; ep := ep e; publisher := publisher e |}.

Definition set_year (e : entry) (v : str) : entry :=
  {| type_ := type_ e; authors := authors e; title := title e; journal := journal e;
     year := v; doi := doi e; url := url e; volume := volume e;
     issue := issue e; sp := sp e; ep := ep e; publisher := publisher e |}.

Definition set_doi (e : entry) (v : str) : entry :=
  {| type_ := type_ e; authors := authors e; title := title e; journal := journal e;
     year := year e; doi := v; url := url e; volume := volume e;
     issue := issue e; sp := sp e; ep := ep e; publisher := publisher e |}.

Definition set_url (e : entry) (v : str) : entry :=
  {| type_ := type_ e; authors := authors e; title := title e; journal := journal e;
     year := year e; doi := doi e; url := v; volume := volume e;
     issue := issue e; sp := sp e; ep := ep e; publisher := publisher e |}.

Definition set_volume (e : entry) (v : str) : entry :=
  {| type_ := type_ e; authors := authors e; title := title e; journal := journal e;
     year := year e; doi := doi e; url := url e; volume := v;
     issue := issue e; sp := sp e; ep := ep e; publisher := publisher e |}.

Definition set_issue (e : entry) (v : str) : entry :=
  {| type_ := type_ e; authors := authors e; title := title e; journal := journal e;
     year := year e; doi := doi e; url := url e; volume := volume e;
     issue := v; sp := sp e; ep := ep e; publisher := publisher e |}.

Definition set_sp (e : entry) (v : str) : entry :=
  {| type_ := type_ e; authors := authors e; title := title e; journal := journal e;
     year := year e; doi := doi e; url := url e; volume := volume e;
     issue := issue e; sp := v; ep := ep e; publisher := publisher e |}.

Definition set_ep (e : entry) (v : str) : entry :=
  {| type_ := type_ e; authors := authors e; title := title e; journal := journal e;
     year := year e; doi := doi e; url := url e; volume := volume e;
     issue := issue e; sp := sp e; ep := v; publisher := publisher e |}.

Definition set_publisher (e : entry) (v : str) : entry :=
  {| type_ := type_ e; authors := authors e; title := title e; journal := journal e;
     year := year e; doi := doi e; url := url e; volume := volume e;
     issue := issue e; sp := sp e; ep := ep e; publisher := v |}.

(** The body of the loop [for line in raw.splitlines()].  A line without
    [" - "] is passed over; otherwise [line.split(" - ", 1)] gives the tag
    and the value. *)
Definition parse_line (entry : entry) (line : str) :=
  match split_once (lit " - ") [] line with
  | None => entry
  | Some (tag, value) =>
      let tag := strip tag in
      let value := strip value in
      if negb (nonempty value) then entry
      else if str_eqb tag (lit "TY") then set_type entry value
      else if str_eqb tag (lit "AU") then set_authors entry (authors entry ++ [value])
      else if str_in tag [lit "T1"; lit "TI"] then set_title entry value
      else if str_in tag [lit "T2"; lit "JO"; lit "JA"; lit "JF"] then
        if negb (nonempty (journal entry)) then set_journal entry value else entry
      else if str_eqb tag (lit "PY") then set_year entry (firstn 4 value)
      else if str_eqb tag (lit "DO") then set_doi entry value
      else if str_eqb tag (lit "UR") then set_url entry value
      else if str_eqb tag (lit "VL") then set_volume entry value
      else if str_eqb tag (lit "IS") then set_issue entry value
      else if str_eqb tag (lit "SP") then set_sp entry value
      else if str_eqb tag (lit "EP") then set_ep entry value
      else if str_eqb tag (lit "PB") then set_publisher entry value
      else entry
  end.

(** [parse_ris_file(path)]: [file] holds the bytes of the file, [None]
    when the path does not exist; [decode] is
    [read_text(encoding="utf-8", errors="ignore")]. *)
Definition parse_ris_file (decode : list N -> str) (file : option (list N))
    : list entry :=
  match file with
  | None => []
  | Some bytes =>
      let content := decode bytes in
      let raw_entries := split_str (lit "ER  -") 0 [] content in
      map (fun raw => fold_left parse_line (splitlines raw) empty_entry)
          (filter (fun raw => contains (lit "TY  -") raw) raw_entries)
  end.

(** The text fields of an entry other than the year. *)
Definition text_fields (e : entry) : list str :=
  [type_ e; title e; journal e; doi e; url e; volume e; issue e; sp e; ep e;
   publisher e].

End Ris.

(** ** research_common.safe_slug *)

(** A code point of the class [[a-zA-Z0-9]]. *)
Definition is_ascii_alnum (c : N) : bool :=
  Ris.is_lower_or_digit c || ((65 <=? c)%N && (c <=? 90)%N).

(** [re.sub(r"[^a-zA-Z0-9]+", "-", text)]: every maximal run of code
    points outside the class becomes one ["-"]; [in_run] tells that such
    a run has begun. *)
Fixpoint dash_runs (in_run : bool) (text : str) : str :=
  match text with
  | [] => []
  | c :: text' =>
      if is_ascii_alnum c then c :: dash_runs false text'
      else if in_run then dash_runs true text'
      else 45%N :: dash_runs true text'
  end.

(** [s.strip("-")] *)
Fixpoint lstrip_dash (s : str) : str :=
  match s with
  | [] => []
  | c :: s' => if (c =? 45)%N then lstrip_dash s' else s
  end.

Definition strip_dash (s : str) : str := rev (lstrip_dash (rev (lstrip_dash s))).

(** [l[:stop]] for any integer [stop]: a negative one counts from the
    end. *)
Definition upto {A} (l : list A) (stop : Z) : list A :=
  if (0 <=? stop)%Z then firstn (Z.to_nat stop) l
  else firstn (length l - Z.to_nat (- stop)) l.

(** [safe_slug(text, max_len)].  When [lower()] is called the string
    holds ASCII letters, digits and ["-"] only, on which [str.lower] is
    [ascii_lower]. *)
Definition safe_slug (text : str) (max_len : Z) : str :=
  let slug := ascii_lower (strip_dash (dash_runs false text)) in
  let slug := if nonempty slug then slug else lit "paper" in
  upto slug max_len.

(** No ["-"] of [s] follows another one; [after_dash] tells that a
    ["-"] stands in front of [s], so with [true] the string does not
    begin with one either. *)
Fixpoint single_dashed (after_dash : bool) (s : str) : bool :=
  match s with
  | [] => true
  | c :: s' =>
      if (c =? 45)%N then negb after_dash && single_dashed true s'
      else single_dashed false s'
  end.

(** ** The loop of build_ris_indexes *)

(** One turn of the loop of [build_ris_indexes]. *)
Definition index_step (lower : str -> str)
    (indexes : Ris.dict Ris.entry * Ris.dict Ris.entry) (entry : Ris.entry)
    : Ris.dict Ris.entry * Ris.dict Ris.entry :=
  ((if nonempty (lower (strip (Ris.doi entry)))
    then Ris.dict_set (fst indexes) (lower (strip (Ris.doi entry))) entry
    else fst indexes),
   (if nonempty (strip (Ris.title entry))
    then Ris.dict_set (snd indexes)
           (Ris.normalize_title lower (strip (Ris.title entry))) entry
    else snd indexes)).

(** An item of [by_doi], and one of [by_title], holds an entry of
    [entries] under the key made from that entry. *)
Definition doi_indexed (lower : str -> str) (entries : list Ris.entry)
    (item : str * Ris.entry) : Prop :=
  In (snd item) entries /\ fst item = lower (strip (Ris.doi (snd item))).

Definition title_indexed (lower : str -> str) (entries : list Ris.entry)
    (item : str * Ris.entry) : Prop :=
  In (snd item) entries /\ strip (Ris.title (snd item)) <> [] /\
  fst item = Ris.normalize_title lower (strip (Ris.title (snd item))).

(** ** research_common.extract_title_from_page *)

Module Title.

Definition banned_prefixes : list str :=
  [lit "downloaded from"; lit "contents"; lit "keywords"; lit "research";
   lit "accepted"; lit "doi"; lit "http"; lit "www"; lit "open access";
   lit "journal"; lit "article"; lit "available online"].

(** A code point of the class [[0-9.\- ]]. *)
Definition numeric_point (c : N) : bool :=
  ascii_digit c || (c =? 46)%N || (c =? 45)%N || (c =? 32)%N.

(** [re.fullmatch(r"[0-9.\- ]+", line)] on a line without line breaks. *)
Definition numeric_line (line : str) : bool :=
  nonempty line && forallb numeric_point line.

Section Tables.

(** [str.lower], and [str.isalnum] on one code point. *)
Variable lower : str -> str.
Variable isalnum : N -> bool.

(** The list [candidates] of [extract_title_from_page]. *)
Definition candidates (page_text : str) : list str :=
  let lines := map clean_whitespace (splitlines page_text) in
  let lines := filter (fun line => nonempty line) lines in
  filter
    (fun line =>
       negb (existsb (fun prefix => startswith (lower line) prefix) banned_prefixes)
       && negb (length line <? 10)
       && negb (numeric_line line))
    (firstn 50 lines).

(** [extract_title_from_page(page_text)] *)
Definition extract_title_from_page (page_text : str) : str :=
  match candidates page_text with
  | [] => []
  | title :: rest =>
      match rest with
      | nxt :: _ =>
          if (length title <? 90)
             && ((length nxt <? 90) && negb (Sys.endswith nxt (lit ":")))
             && (isalnum (last title 0%N) && isalnum (hd 0%N nxt))
             && (length (title ++ lit " " ++ nxt) <=? 180)
          then title ++ lit " " ++ nxt
          else title
      | [] => title
      end
  end.

End Tables.

End Title.

(** ** extract_assets.build_metadata *)

Module Metadata.

Section Tables.

(** [str.lower], [str.isalnum] on one code point, and the two searches
    that [re] does: [detect_doi(text)] and [YEAR_REGEX.search(text)], the
    latter giving group 0 of the first match. *)
Variable lower : str -> str.
Variable isalnum : N -> bool.
Variable detect_doi : str -> option str.
Variable year_search : str -> option str.

(** [Path(text).name]: the last component of the path, where empty
    components and components ["."] do not count; the empty string when
    no component is left, as for [""], ["."] and ["/"]. *)
Definition path_name (text : str) : str :=
  last (filter (fun part => nonempty part && negb (str_eqb part (lit ".")))
               (split_on 47%N [] text))
       [].

(** [build_metadata(paper, pages, ris_by_doi, ris_by_title, repo_root)]:
    the bibliographic keys of the dict it returns. *)
Definition build_metadata (paper : Manifest.unique_record) (pages : list str)
    (ris_by_doi ris_by_title : Ris.dict Ris.entry) : Extract.bib_fields :=
  let first_pages := join [10%N] (firstn 3 pages) in
  let first_page := match pages with first :: _ => first | [] => [] end in
  let doi := detect_doi first_pages in
  let title_candidate := Title.extract_title_from_page lower isalnum first_page in
  let ris_match :=
    Ris.find_ris_match lower doi (Some title_candidate) ris_by_doi ris_by_title in
  let year := match year_search first_pages with Some found => found | None => [] end in
  let title := title_candidate in
  let doi := or_else doi [] in
  let title :=
    match ris_match with Some m => Ris.str_or (Ris.title m) title | None => title end in
  let doi :=
    match ris_match with Some m => Ris.str_or (Ris.doi m) doi | None => doi end in
  let journal :=
    match ris_match with Some m => Ris.str_or (Ris.journal m) [] | None => [] end in
  let year :=
    match ris_match with Some m => Ris.str_or (Ris.year m) year | None => year end in
  let authors :=
    match ris_match with
    | Some m => if nonempty (Ris.authors m) then Ris.authors m else []
    | None => []
    end in
  let url :=
    match ris_match with Some m => Ris.str_or (Ris.url m) [] | None => [] end in
  let title :=
    if nonempty title then title
    else Sys.stem (path_name (Manifest.canonical_file_name paper)) in
  {| Extract.bib_title := title;
     Extract.bib_doi := doi;
     Extract.bib_journal := journal;
     Extract.bib_year := year;
     Extract.bib_authors := authors;
     Extract.bib_url := url;
     Extract.bib_ris_matched :=
       match ris_match with Some _ => true | None => false end;
     Extract.bib_vancouver_citation :=
       Ris.to_vancouver_citation
         {| Ris.type_ := []; Ris.authors := authors; Ris.title := title;
            Ris.journal := journal; Ris.year := year; Ris.doi := doi;
            Ris.url := url; Ris.volume := []; Ris.issue := []; Ris.sp := [];
            Ris.ep := []; Ris.publisher := [] |}
         title url |}.

End Tables.

End Metadata.

(* ================================================================== *)
(** * Properties *)
(* ================================================================== *)

Unset Implicit Arguments.

(** ** Strings and sorting *)

Lemma str_eqb_spec (a : str) : forall b, reflect (a = b) (str_eqb a b).
Proof.
  induction a as [|x a IH]; intros [|y b]; cbn; try (constructor; congruence).
  destruct (N.eqb_spec x y) as [->|Hne]; cbn.
  - destruct (IH b) as [->|Hne]; constructor; congruence.
  - constructor. congruence.
Qed.

Lemma str_eqb_refl (a : str) : str_eqb a a = true.
Proof. destruct (str_eqb_spec a a); congruence. Qed.

Lemma str_eqb_neq (a b : str) : a <> b -> str_eqb a b = false.
Proof. destruct (str_eqb_spec a b); congruence. Qed.

Lemma str_eqb_eq (a b : str) : str_eqb a b = true -> a = b.
Proof. destruct (str_eqb_spec a b); congruence. Qed.

Section SortedFacts.
Context {A K : Type} (leb : K -> K -> bool) (key : A -> K).

Lemma insert_sorted_perm (x : A) (l : list A) :
  Permutation (insert_sorted leb key x l) (x :: l).
Proof.
  induction l as [|y l IH]; cbn; [reflexivity|].
  destruct (leb (key x) (key y)); [reflexivity|].
  rewrite IH. apply perm_swap.
Qed.

Lemma sorted_perm (l : list A) : Permutation (sorted leb key l) l.
Proof.
  induction l as [|x l IH]; cbn; [reflexivity|].
  rewrite insert_sorted_perm. now apply perm_skip.
Qed.

Lemma sorted_length (l : list A) : length (sorted leb key l) = length l.
Proof. apply Permutation_length, sorted_perm. Qed.

Lemma sorted_nonempty (l : list A) : l <> [] -> sorted leb key l <> [].
Proof.
  intros Hne Hnil. apply Hne, length_zero_iff_nil.
  rewrite <- sorted_length, Hnil. reflexivity.
Qed.
End SortedFacts.

(** ** Chunked appends *)

Section ChunkFacts.
Import Publish.
Variable A : Type.
Variable all : list A.
Variable sz : nat.
Hypothesis sz_pos : 0 < sz.

Lemma sizes_gen_zero : sizes_gen sz 0 = [].
Proof.
  unfold sizes_gen. rewrite Nat.Div0.div_0_l, Nat.Div0.mod_0_l. reflexivity.
Qed.

Lemma sizes_gen_small m : 0 < m -> m < sz -> sizes_gen sz m = [m].
Proof.
  intros Hm Hlt. unfold sizes_gen.
  rewrite Nat.div_small, Nat.mod_small by assumption.
  destruct (Nat.eqb_spec m 0); [lia | reflexivity].
Qed.

Lemma sizes_gen_step m : sz <= m -> sizes_gen sz m = sz :: sizes_gen sz (m - sz).
Proof.
  intros Hle. unfold sizes_gen.
  assert (Hd : m / sz = S ((m - sz) / sz)).
  { replace m with ((m - sz) + 1 * sz) at 1 by lia.
    rewrite Nat.div_add by lia. lia. }
  assert (Hm : m mod sz = (m - sz) mod sz).
  { replace m with ((m - sz) + 1 * sz) at 1 by lia.
    apply Nat.Div0.mod_add. }
  rewrite Hd, Hm. reflexivity.
Qed.

Lemma range_chunks fuel : forall start,
  length all <= fuel + start ->
  let chunks := map (fun idx => slice all idx (idx + sz))
                    (range_from fuel start (length all) sz) in
  concat chunks = skipn start all /\
  map (@length A) chunks = sizes_gen sz (length all - start).
Proof.
  induction fuel as [|fuel IH]; intros start Hfuel; cbn [range_from].
  - cbn. rewrite skipn_all2 by lia.
    replace (length all - start) with 0 by lia.
    rewrite sizes_gen_zero. split; reflexivity.
  - destruct (Nat.ltb_spec start (length all)) as [Hlt|Hge].
    + destruct (IH (start + sz)) as [Hcat Hlen]; [lia|].
      cbn [map concat]. rewrite Hcat, Hlen. unfold slice.
      replace (start + sz - start) with sz by lia.
      split.
      * rewrite Nat.add_comm, <- skipn_skipn. apply firstn_skipn.
      * rewrite length_firstn, length_skipn.
        destruct (Nat.le_gt_cases sz (length all - start)) as [Hbig|Hsmall].
        -- rewrite Nat.min_l by lia.
           rewrite (sizes_gen_step _ Hbig). do 2 f_equal. lia.
        -- rewrite Nat.min_r by lia.
           replace (length all - (start + sz)) with 0 by lia.
           rewrite sizes_gen_zero. symmetry. apply sizes_gen_small; lia.
    + cbn. rewrite skipn_all2 by lia.
      replace (length all - start) with 0 by lia.
      rewrite sizes_gen_zero. split; reflexivity.
Qed.
End ChunkFacts.

Lemma chunked_100 (B : Type) (blocks : list B) :
  exists chunks,
    Publish.chunked blocks 100 = inr chunks /\
    concat chunks = blocks /\
    map (@length B) chunks = Publish.expected_sizes (length blocks).
Proof.
  eexists. split; [reflexivity|].
  change (Z.to_nat 100) with 100.
  destruct (@range_chunks B blocks 100 ltac:(lia) (length blocks) 0 ltac:(lia))
    as [Hcat Hlen].
  unfold range_step. split.
  - exact Hcat.
  - rewrite Hlen, Nat.sub_0_r. reflexivity.
Qed.

Lemma enumerate_snd (A : Type) (l : list A) : forall n, map snd (enumerate n l) = l.
Proof. induction l as [|x l IH]; intros n; cbn; [|rewrite IH]; reflexivity. Qed.

Lemma enumerate_fst (A : Type) (l : list A) :
  forall n, map fst (enumerate n l) = seq n (length l).
Proof. induction l as [|x l IH]; intros n; cbn; [|rewrite IH]; reflexivity. Qed.

Section AppendFacts.
Import Publish.
Variable B : Type.
Variable isdigit : N -> bool.
Variable sleep_float : str -> option exn.
Variable net : network.

(** Whatever the server answers, the payloads sent so far extend the
    earlier ones by a prefix of the remaining chunks, in order. *)
Lemma append_loop_prefix chunks : forall (st : pub_state B) res st',
  append_loop isdigit sleep_float net chunks st = (res, st') ->
  exists k, payloads st' = payloads st ++ firstn k (map snd chunks).
Proof.
  induction chunks as [|[idx chunk] rest IH]; intros st res st' Hrun; cbn [append_loop] in Hrun.
  - inversion Hrun; subst. exists 0. cbn. now rewrite app_nil_r.
  - destruct (request_with_retry isdigit sleep_float net (attempts_made st)) as [[e|r] n'].
    + inversion Hrun; subst. exists 1. reflexivity.
    + destruct (300 <=? status_code r)%Z.
      * inversion Hrun; subst. exists 1. reflexivity.
      * apply IH in Hrun. destruct Hrun as [k Hk]. exists (S k).
        rewrite Hk. cbn. now rewrite <- app_assoc.
Qed.

Hypothesis accepted : forall n, exists r n',
  request_with_retry isdigit sleep_float net n = (inr r, n') /\ (status_code r < 300)%Z.

Lemma append_loop_accepted chunks : forall st : pub_state B,
  exists st',
    append_loop isdigit sleep_float net chunks st = (inr tt, st') /\
    payloads st' = payloads st ++ map snd chunks /\
    map chunk_size (publish_log st') =
      map chunk_size (publish_log st) ++ map (@length B) (map snd chunks) /\
    map chunk_index (publish_log st') =
      map chunk_index (publish_log st) ++ map fst chunks.
Proof.
  induction chunks as [|[idx chunk] rest IH]; intros st; cbn [append_loop map fst snd].
  - exists st. now rewrite !app_nil_r.
  - destruct (accepted (attempts_made st)) as (r & n' & Hreq & Hlt).
    rewrite Hreq.
    destruct (Z.leb_spec 300 (status_code r)) as [Hge|_]; [lia|].
    match goal with |- context [append_loop isdigit sleep_float net rest ?s] =>
      destruct (IH s) as (st' & Hrun & Hpay & Hsz & Hidx) end.
    exists st'. cbn in Hpay, Hsz, Hidx.
    rewrite Hrun, Hpay, Hsz, Hidx, !map_app, <- !app_assoc. cbn.
    repeat split; reflexivity.
Qed.
End AppendFacts.

(** C9.  [append_blocks] cuts the block list into consecutive chunks of
    100 blocks, followed by one chunk of [N mod 100] blocks when that is
    not zero; the chunks concatenate back to the block list, and when the
    server accepts every request exactly one request per chunk is sent and
    logged, in order.  For 250 blocks the requests carry 100, 100 and 50
    blocks. *)
Theorem append_blocks_chunking :
  forall (B : Type) (isdigit : N -> bool) (sleep_float : str -> option exn)
         (net : Publish.network) (blocks : list B),
    (forall n, exists r n',
        Publish.request_with_retry isdigit sleep_float net n = (inr r, n') /\
        (Publish.status_code r < 300)%Z) ->
    exists chunks st',
      Publish.chunked blocks 100 = inr chunks /\
      concat chunks = blocks /\
      map (@length B) chunks = Publish.expected_sizes (length blocks) /\
      Publish.append_blocks isdigit sleep_float net blocks (Publish.fresh_state B)
        = (inr tt, st') /\
      Publish.payloads st' = chunks /\
      map Publish.chunk_size (Publish.publish_log st') =
        Publish.expected_sizes (length blocks) /\
      map Publish.chunk_index (Publish.publish_log st') = seq 1 (length chunks) /\
      (length blocks = 250 ->
       map (@length B) (Publish.payloads st') = [100; 100; 50]).
Proof.
  intros B isdigit sleep_float net blocks Hok.
  destruct (chunked_100 B blocks) as (chunks & Hch & Hcat & Hlen).
  destruct (@append_loop_accepted B isdigit sleep_float net Hok (enumerate 1 chunks)
              (Publish.fresh_state B))
    as (st' & Hrun & Hpay & Hsz & Hidx).
  cbn in Hpay, Hsz, Hidx.
  rewrite enumerate_snd in Hpay, Hsz. rewrite enumerate_fst in Hidx.
  exists chunks, st'. unfold Publish.append_blocks. rewrite Hch.
  repeat split; try assumption; try congruence.
  intros H250. rewrite Hpay, Hlen, H250. reflexivity.
Qed.

Lemma append_blocks_chunking_witness :
  exists chunks st',
    Publish.chunked (repeat 7 250) 100 = inr chunks /\
    concat chunks = repeat 7 250 /\
    map (@length nat) chunks = Publish.expected_sizes (length (repeat 7 250)) /\
    Publish.append_blocks ascii_digit (fun _ => None)
      (fun _ => Publish.Responded
                  {| Publish.status_code := 200; Publish.retry_after_header := None |})
      (repeat 7 250) (Publish.fresh_state nat) = (inr tt, st') /\
    Publish.payloads st' = chunks /\
    map Publish.chunk_size (Publish.publish_log st') =
      Publish.expected_sizes (length (repeat 7 250)) /\
    map Publish.chunk_index (Publish.publish_log st') = seq 1 (length chunks) /\
    (length (repeat 7 250) = 250 ->
     map (@length nat) (Publish.payloads st') = [100; 100; 50]).
Proof.
  apply (@append_blocks_chunking nat ascii_digit (fun _ => None)
           (fun _ => Publish.Responded
                  {| Publish.status_code := 200; Publish.retry_after_header := None |})
           (repeat 7 250)).
  intros n. eexists _, _. split; [reflexivity | cbn; lia].
Defined.

(** ** Figure filter *)

(** C8.  The keep/reject decision is a function of the image-list row and
    the file size alone.  A 100 x 100 image that is not a mask is rejected
    with [too_small_dimensions] whatever its page and size (12 KB
    included), and a 500 x 500 image on page 5 is kept as soon as its file
    has 8192 bytes or more (60 KB included). *)
Theorem should_keep_image_examples :
  forall (lower : str -> str) (image_type : str) (num : Z),
    str_in (lower image_type) Extract.mask_types = false ->
    (forall page file_size,
        Extract.should_keep_image lower
          {| Extract.row_page := page; Extract.row_num := num;
             Extract.row_type := Some image_type;
             Extract.row_width := Some 100%Z; Extract.row_height := Some 100%Z |}
          file_size = (false, lit "too_small_dimensions")) /\
    (forall file_size, (8192 <= file_size)%Z ->
        Extract.should_keep_image lower
          {| Extract.row_page := Some 5%Z; Extract.row_num := num;
             Extract.row_type := Some image_type;
             Extract.row_width := Some 500%Z; Extract.row_height := Some 500%Z |}
          file_size = (true, lit "kept")) /\
    Extract.should_keep_image lower
      {| Extract.row_page := Some 1%Z; Extract.row_num := num;
         Extract.row_type := Some image_type;
         Extract.row_width := Some 100%Z; Extract.row_height := Some 100%Z |}
      (12 * 1024)%Z = (false, lit "too_small_dimensions") /\
    Extract.should_keep_image lower
      {| Extract.row_page := Some 5%Z; Extract.row_num := num;
         Extract.row_type := Some image_type;
         Extract.row_width := Some 500%Z; Extract.row_height := Some 500%Z |}
      (60 * 1024)%Z = (true, lit "kept") /\
    (forall row row' size size',
        row = row' -> size = size' ->
        Extract.should_keep_image lower row size =
        Extract.should_keep_image lower row' size').
Proof.
  intros lower image_type num Hmask.
  assert (Hsmall : forall page file_size,
             Extract.should_keep_image lower
               {| Extract.row_page := page; Extract.row_num := num;
                  Extract.row_type := Some image_type;
                  Extract.row_width := Some 100%Z;
                  Extract.row_height := Some 100%Z |}
               file_size = (false, lit "too_small_dimensions")).
  { intros page file_size. unfold Extract.should_keep_image.
    cbn [get_or Extract.row_type Extract.row_width Extract.row_height].
    rewrite Hmask. reflexivity. }
  assert (Hbig : forall file_size, (8192 <= file_size)%Z ->
             Extract.should_keep_image lower
               {| Extract.row_page := Some 5%Z; Extract.row_num := num;
                  Extract.row_type := Some image_type;
                  Extract.row_width := Some 500%Z;
                  Extract.row_height := Some 500%Z |}
               file_size = (true, lit "kept")).
  { intros file_size Hsize. unfold Extract.should_keep_image.
    cbn [get_or Extract.row_type Extract.row_width Extract.row_height
         Extract.row_page].
    rewrite Hmask.
    destruct (Z.ltb_spec file_size 8192) as [Hlt|_]; [lia|].
    reflexivity. }
  repeat split.
  - exact Hsmall.
  - exact Hbig.
  - apply Hsmall.
  - apply Hbig. lia.
  - intros row row' size size' -> ->. reflexivity.
Qed.

Lemma should_keep_image_examples_witness :
  Extract.should_keep_image ascii_lower
    {| Extract.row_page := Some 1%Z; Extract.row_num := 0%Z;
       Extract.row_type := Some (lit "image");
       Extract.row_width := Some 100%Z; Extract.row_height := Some 100%Z |}
    (12 * 1024)%Z = (false, lit "too_small_dimensions") /\
  Extract.should_keep_image ascii_lower
    {| Extract.row_page := Some 5%Z; Extract.row_num := 0%Z;
       Extract.row_type := Some (lit "image");
       Extract.row_width := Some 500%Z; Extract.row_height := Some 500%Z |}
    (60 * 1024)%Z = (true, lit "kept").
Proof.
  pose proof (@should_keep_image_examples ascii_lower (lit "image") 0%Z
                ltac:(reflexivity)) as H.
  split; [apply H | apply H].
Defined.

(** ** Equation candidates *)

Section VorticityLine.
Import Extract.
Variable lower : str -> str.
Variable isdecimal : N -> bool.
Hypothesis lower_fixes_line : lower vorticity_line = vorticity_line.
Hypothesis four_is_decimal : isdecimal 52%N = true.

Lemma vorticity_line_numbered :
  re_search (equation_number_at isdecimal) vorticity_line = true.
Proof.
  unfold vorticity_line. cbn. rewrite four_is_decimal. reflexivity.
Qed.

Lemma vorticity_line_score : equation_score lower isdecimal vorticity_line = 6%Z.
Proof.
  unfold equation_score.
  rewrite lower_fixes_line, vorticity_line_numbered. reflexivity.
Qed.

Lemma vorticity_line_alone :
  extract_equation_candidates lower isdecimal [vorticity_line] 12 =
  [{| equation := vorticity_line; cand_page := 1; score := 6 |}].
Proof.
  unfold extract_equation_candidates, scan_pages.
  cbn [enumerate fold_left]. unfold scan_page. cbn [fst snd].
  replace (splitlines vorticity_line) with [vorticity_line] by reflexivity.
  cbn [fold_left]. unfold scan_line.
  replace (clean_whitespace vorticity_line) with vorticity_line by reflexivity.
  rewrite vorticity_line_score, lower_fixes_line.
  reflexivity.
Qed.
End VorticityLine.

Section ScanFacts.
Import Extract.
Variable lower : str -> str.
Variable isdecimal : N -> bool.

Lemma fold_left_flat_map (A B C : Type) (f : A -> C -> A) (g : B -> list C)
    (l : list B) : forall a,
  fold_left f (flat_map g l) a = fold_left (fun a x => fold_left f (g x) a) l a.
Proof.
  induction l as [|x l IH]; intros a; cbn; [reflexivity|].
  now rewrite fold_left_app, IH.
Qed.

Lemma fold_left_map (A B C : Type) (f : A -> C -> A) (g : B -> C) (l : list B) :
  forall a, fold_left f (map g l) a = fold_left (fun a x => f a (g x)) l a.
Proof. induction l as [|x l IH]; intros a; cbn; [reflexivity|apply IH]. Qed.

Lemma fold_left_same (A B : Type) (f g : A -> B -> A) (l : list B) :
  (forall a x, f a x = g a x) -> forall a, fold_left f l a = fold_left g l a.
Proof.
  intros Hfg. induction l as [|x l IH]; intros a; cbn; [reflexivity|].
  now rewrite Hfg, IH.
Qed.

(** The two nested loops visit the numbered lines in order. *)
Lemma scan_pages_lines (pages : list str) :
  scan_pages lower isdecimal pages =
  snd (fold_left (fun st nl => scan_line lower isdecimal (fst nl) st (snd nl))
                 (numbered_lines pages) ([], [])).
Proof.
  unfold scan_pages, numbered_lines. rewrite fold_left_flat_map. f_equal.
  apply fold_left_same. intros st page. unfold scan_page.
  now rewrite fold_left_map.
Qed.

Lemma scan_line_keeps page st raw c :
  In c (snd st) -> In c (snd (scan_line lower isdecimal page st raw)).
Proof.
  destruct st as [seen cands]. unfold scan_line. intros Hin.
  repeat match goal with
         | |- context [if ?b then _ else _] => destruct b
         end; cbn [snd] in *; try assumption.
  apply in_or_app. now left.
Qed.

Lemma scan_lines_keep (lines : list (nat * str)) : forall st c,
  In c (snd st) ->
  In c (snd (fold_left (fun st nl => scan_line lower isdecimal (fst nl) st (snd nl))
                       lines st)).
Proof.
  induction lines as [|nl lines IH]; intros st c Hin; cbn [fold_left]; [exact Hin|].
  apply IH. now apply scan_line_keeps.
Qed.

Lemma scan_line_seen page st raw x :
  In x (fst (scan_line lower isdecimal page st raw)) ->
  In x (fst st) \/ x = normalized_line lower raw.
Proof.
  destruct st as [seen cands]. unfold scan_line, normalized_line.
  repeat match goal with
         | |- context [if ?b then _ else _] => destruct b
         end; cbn [fst]; intros Hin; try (now left).
  destruct Hin as [<-|Hin]; [now right|now left].
Qed.

Lemma scan_lines_seen (lines : list (nat * str)) : forall st x,
  In x (fst (fold_left (fun st nl => scan_line lower isdecimal (fst nl) st (snd nl))
                       lines st)) ->
  In x (fst st) \/ exists nl, In nl lines /\ x = normalized_line lower (snd nl).
Proof.
  induction lines as [|nl lines IH]; intros st x Hin; cbn [fold_left] in Hin;
    [now left|].
  apply IH in Hin as [Hin|(nl' & Hnl & ->)].
  - apply scan_line_seen in Hin as [Hin| ->]; [now left|].
    right. exists nl. split; [now left|reflexivity].
  - right. exists nl'. split; [now right|reflexivity].
Qed.

Lemma str_in_false (x : str) (l : list str) :
  (forall y, In y l -> y <> x) -> str_in x l = false.
Proof.
  intros Hne. unfold str_in. destruct (existsb (str_eqb x) l) eqn:E; [|reflexivity].
  apply existsb_exists in E as (y & Hy & Heq). apply str_eqb_eq in Heq.
  exfalso. now apply (Hne y Hy).
Qed.

Hypothesis lower_fixes_line : lower vorticity_line = vorticity_line.
Hypothesis four_is_decimal : isdecimal 52%N = true.

(** Wherever the line stands in a document, it is found, with score 6,
    unless an earlier line has the same normalised form; and it is kept
    when the document has no more candidates than the limit. *)
Lemma vorticity_line_found (pages : list str) (before after : list (nat * str))
    (page : nat) (raw : str) :
  numbered_lines pages = before ++ (page, raw) :: after ->
  clean_whitespace raw = vorticity_line ->
  (forall nl, In nl before ->
              normalized_line lower (snd nl) <> normalized_line lower raw) ->
  In {| equation := vorticity_line; cand_page := page; score := 6 |}
     (scan_pages lower isdecimal pages) /\
  (length (scan_pages lower isdecimal pages) <= 12 ->
   In {| equation := vorticity_line; cand_page := page; score := 6 |}
      (extract_equation_candidates lower isdecimal pages 12)).
Proof.
  intros Hlines Hclean Hfirst.
  assert (Hfound : In {| equation := vorticity_line; cand_page := page; score := 6 |}
                      (scan_pages lower isdecimal pages)).
  { rewrite scan_pages_lines, Hlines, fold_left_app. cbn [fold_left].
    apply scan_lines_keep. cbn [fst snd].
    destruct (fold_left (fun st nl => scan_line lower isdecimal (fst nl) st (snd nl))
                        before ([], [])) as [seen cands] eqn:Hst.
    assert (Hseen : str_in (remove_ws (lower vorticity_line)) seen = false).
    { apply str_in_false. intros y Hy.
      pose proof (scan_lines_seen before ([], []) y) as Hs.
      rewrite Hst in Hs. destruct (Hs Hy) as [[]|(nl & Hnl & ->)].
      unfold normalized_line in Hfirst. rewrite <- Hclean. now apply Hfirst. }
    unfold scan_line. rewrite Hclean.
    rewrite (vorticity_line_score lower isdecimal lower_fixes_line four_is_decimal).
    replace (match vorticity_line with [] => true | _ :: _ => false end
             || negb (contains (lit "=") vorticity_line)) with false by reflexivity.
    replace ((length vorticity_line <? 8) || (220 <? length vorticity_line))
      with false by reflexivity.
    replace (6 <? 2)%Z with false by reflexivity.
    rewrite Hseen. cbn [snd]. apply in_or_app. right. now left. }
  split; [exact Hfound|].
  intros Hfew. unfold extract_equation_candidates.
  rewrite firstn_all2 by (now rewrite sorted_length).
  apply (Permutation_in _ (Permutation_sym (sorted_perm _ _ _))). exact Hfound.
Qed.
End ScanFacts.

(** C7.  The line of the example scores 6 in [extract_equation_candidates]
    (symbol token "u", trailing "(4)", Unicode symbols, arithmetic
    operators), which is at least 6, and a page that consists of this line
    yields it as the kept candidate, on page 1 with score 6.  In any
    document where the line stands on some page, no earlier line has the
    same normalised form and at most 12 candidates are found, the line is
    in the kept list, with its page and score 6. *)
Theorem vorticity_line_kept :
  forall (lower : str -> str) (isdecimal : N -> bool),
    lower Extract.vorticity_line = Extract.vorticity_line ->
    isdecimal 52%N = true ->
    (6 <= Extract.equation_score lower isdecimal Extract.vorticity_line)%Z /\
    Extract.equation_score lower isdecimal Extract.vorticity_line = 6%Z /\
    In {| Extract.equation := Extract.vorticity_line;
          Extract.cand_page := 1; Extract.score := 6 |}
       (Extract.extract_equation_candidates lower isdecimal
          [Extract.vorticity_line] 12) /\
    (forall (pages : list str) (before after : list (nat * str))
            (page : nat) (raw : str),
        Extract.numbered_lines pages = before ++ (page, raw) :: after ->
        clean_whitespace raw = Extract.vorticity_line ->
        (forall nl, In nl before ->
                    Extract.normalized_line lower (snd nl)
                    <> Extract.normalized_line lower raw) ->
        length (Extract.scan_pages lower isdecimal pages) <= 12 ->
        In {| Extract.equation := Extract.vorticity_line;
              Extract.cand_page := page; Extract.score := 6 |}
           (Extract.extract_equation_candidates lower isdecimal pages 12)).
Proof.
  intros lower isdecimal Hl Hd.
  rewrite (@vorticity_line_score lower isdecimal Hl Hd),
    (@vorticity_line_alone lower isdecimal Hl Hd).
  repeat split; [lia | left; reflexivity |].
  intros pages before after page raw Hlines Hclean Hfirst Hfew.
  now apply (vorticity_line_found lower isdecimal Hl Hd pages before after page raw).
Qed.

Lemma vorticity_line_kept_witness :
  (6 <= Extract.equation_score ascii_lower ascii_digit Extract.vorticity_line)%Z /\
  Extract.equation_score ascii_lower ascii_digit Extract.vorticity_line = 6%Z /\
  In {| Extract.equation := Extract.vorticity_line;
        Extract.cand_page := 1; Extract.score := 6 |}
     (Extract.extract_equation_candidates ascii_lower ascii_digit
        [Extract.vorticity_line] 12) /\
  In {| Extract.equation := Extract.vorticity_line;
        Extract.cand_page := 2; Extract.score := 6 |}
     (Extract.extract_equation_candidates ascii_lower ascii_digit
        [lit "The vorticity transport equation reads"; Extract.vorticity_line] 12).
Proof.
  destruct (@vorticity_line_kept ascii_lower ascii_digit eq_refl eq_refl)
    as (Hge & Hscore & Hkept & Hany).
  repeat split; try assumption.
  apply (Hany [lit "The vorticity transport equation reads"; Extract.vorticity_line]
              [(1, lit "The vorticity transport equation reads")] []
              2 Extract.vorticity_line).
  - reflexivity.
  - reflexivity.
  - intros nl [<-|[]]. vm_compute. discriminate.
  - vm_compute. lia.
Defined.


(** ** Grouping by digest *)

Section GroupFacts.
Import Manifest.

Lemma members_app k l1 l2 : members k (l1 ++ l2) = members k l1 ++ members k l2.
Proof. apply filter_app. Qed.

Lemma setdefault_append_keys groups k r :
  forall k', In k' (map fst (setdefault_append groups k r)) <->
             k' = k \/ In k' (map fst groups).
Proof.
  induction groups as [|[k0 rs] rest IH]; intros k'; cbn.
  - intuition congruence.
  - destruct (str_eqb_spec k0 k) as [->|Hne]; cbn.
    + intuition congruence.
    + rewrite IH. intuition congruence.
Qed.

Lemma setdefault_append_grouped groups l r :
  grouped groups l ->
  grouped (setdefault_append groups (sha256 r) r) (l ++ [r]).
Proof.
  revert l. induction groups as [|[k0 rs] rest IH]; intros l (Hnd & Hgrp & Hcov).
  - cbn. assert (Hl : l = []).
    { destruct l as [|r0 l]; [reflexivity|]. destruct (Hcov r0 (or_introl eq_refl)). }
    subst l. repeat split.
    + repeat constructor. intros [].
    + destruct H as [H|[]]. inversion H; subst. cbn.
      now rewrite str_eqb_refl.
    + destruct H as [H|[]]. inversion H; subst. discriminate.
    + intros r0 [<-|[]]. now left.
  - cbn [setdefault_append].
    cbn in Hnd. inversion Hnd as [|? ? Hnotin Hnd']; subst.
    destruct (str_eqb_spec k0 (sha256 r)) as [Heq|Hne].
    + repeat split.
      * exact Hnd.
      * destruct H as [H|H].
        -- inversion H; subst k grp. rewrite members_app.
           destruct (Hgrp k0 rs (or_introl eq_refl)) as [-> _].
           cbn. rewrite Heq, str_eqb_refl. reflexivity.
        -- destruct (Hgrp k grp (or_intror H)) as [-> _].
           rewrite members_app. cbn.
           assert (k <> k0).
           { intros ->. apply Hnotin. apply (in_map fst) in H. exact H. }
           rewrite str_eqb_neq by congruence. now rewrite app_nil_r.
      * destruct H as [H|H].
        -- inversion H; subst. intros Habs. now apply app_eq_nil in Habs as [_ ?].
        -- apply (Hgrp k grp (or_intror H)).
      * intros r0 Hin. apply in_app_or in Hin as [Hin|[<-|[]]].
        -- now apply Hcov.
        -- left. now symmetry.
    + assert (Hrest : grouped rest (filter (fun r0 => negb (str_eqb (sha256 r0) k0)) l)).
      { repeat split.
        - exact Hnd'.
        - destruct (Hgrp k grp (or_intror H)) as [-> _].
          assert (Hk : k <> k0).
          { intros ->. apply Hnotin. apply (in_map fst) in H. exact H. }
          unfold members. clear - Hk. induction l as [|r0 l IHl]; cbn; [reflexivity|].
          destruct (str_eqb_spec (sha256 r0) k) as [He|Hn];
            destruct (str_eqb_spec (sha256 r0) k0) as [He0|Hn0]; cbn.
          + congruence.
          + destruct (str_eqb_spec (sha256 r0) k); [|congruence]. now f_equal.
          + exact IHl.
          + destruct (str_eqb_spec (sha256 r0) k); [congruence|]. exact IHl.
        - apply (Hgrp k grp (or_intror H)).
        - intros r0 Hin. apply filter_In in Hin as [Hin Hk].
          destruct (Hcov r0 Hin) as [Heq|Hin']; [|exact Hin'].
          cbn in Heq. rewrite <- Heq, str_eqb_refl in Hk. discriminate. }
      specialize (IH _ Hrest). destruct IH as (Hnd1 & Hgrp1 & Hcov1).
      repeat split.
      * cbn. constructor; [|exact Hnd1].
        rewrite setdefault_append_keys. intros [Heq|Hin]; [congruence|contradiction].
      * destruct H as [H|H].
        -- inversion H; subst k grp.
           destruct (Hgrp k0 rs (or_introl eq_refl)) as [-> _].
           rewrite members_app. cbn. rewrite str_eqb_neq by congruence.
           now rewrite app_nil_r.
        -- destruct (Hgrp1 k grp H) as [-> _].
           assert (Hk : k <> k0).
           { intros ->. apply Hnotin.
             apply (in_map fst) in H. cbn in H.
             apply setdefault_append_keys in H as [Heq|Hin]; [congruence|exact Hin]. }
           unfold members. rewrite !filter_app. f_equal.
           clear - Hk. induction l as [|r0 l IHl]; cbn; [reflexivity|].
           destruct (str_eqb_spec (sha256 r0) k0) as [He0|Hn0]; cbn.
           ++ rewrite str_eqb_neq by congruence. exact IHl.
           ++ destruct (str_eqb (sha256 r0) k); [now f_equal|exact IHl].
      * destruct H as [H|H].
        -- inversion H; subst. apply (Hgrp _ _ (or_introl eq_refl)).
        -- apply (Hgrp1 k grp H).
      * intros r0 Hin. cbn. rewrite setdefault_append_keys.
        apply in_app_or in Hin as [Hin|[<-|[]]].
        -- destruct (Hcov r0 Hin) as [Heq|Hin']; [now left|right; now right].
        -- right. now left.
Qed.

Lemma group_records_grouped (rs : list record) : grouped (group_records rs) rs.
Proof.
  unfold group_records.
  assert (Hgen : forall l2 groups l1, grouped groups l1 ->
            grouped (fold_left (fun g r => setdefault_append g (sha256 r) r) l2 groups)
                    (l1 ++ l2)).
  { induction l2 as [|r l2 IH]; intros groups l1 Hg; cbn.
    - now rewrite app_nil_r.
    - replace (l1 ++ r :: l2) with ((l1 ++ [r]) ++ l2) by now rewrite <- app_assoc.
      apply IH. now apply setdefault_append_grouped. }
  apply (Hgen rs [] []). repeat split.
  - constructor.
  - destruct H.
  - destruct H.
  - intros r [].
Qed.
End GroupFacts.

Section UniqueFacts.
Import Manifest.
Variable lower : str -> str.

Lemma keyed_total (items : list (str * list record)) :
  (forall kv, In kv items -> snd kv <> []) ->
  exists ks, keyed lower items = inr ks /\ map snd ks = items.
Proof.
  induction items as [|kv items IH]; intros Hne; cbn.
  - now exists [].
  - destruct IH as (ks & -> & Hks); [intros; apply Hne; now right|].
    unfold bucket_key.
    destruct (sorted str_leb (fun name => name) (map file_name (snd kv))) as [|first l] eqn:Hs.
    + exfalso. apply (Hne kv (or_introl eq_refl)).
      apply (f_equal (@length _)) in Hs.
      rewrite sorted_length, length_map in Hs. now apply length_zero_iff_nil.
    + eexists. split; [reflexivity|]. cbn. now rewrite Hks.
Qed.

Lemma group_items_total (groups : list (str * list record)) :
  (forall kv, In kv groups -> snd kv <> []) ->
  exists items, group_items lower groups = inr items /\ Permutation items groups.
Proof.
  intros Hne. unfold group_items.
  destruct (keyed_total groups Hne) as (ks & -> & Hks).
  eexists. split; [reflexivity|].
  rewrite <- Hks. apply Permutation_map, sorted_perm.
Qed.

Lemma make_unique_total idx kv :
  snd kv <> [] ->
  exists u, make_unique lower idx (fst kv) (snd kv) = inr u /\
            describes lower kv u /\ paper_id u = make_paper_id idx (fst kv).
Proof.
  intros Hne. unfold make_unique.
  destruct (sorted str_leb (fun r => lower (file_name r)) (snd kv)) as [|c l] eqn:Hs.
  - exfalso. now apply (sorted_nonempty str_leb (fun r => lower (file_name r)) _ Hne).
  - assert (Hlen : S (length l) = length (snd kv)).
    { rewrite <- (sorted_length str_leb (fun r => lower (file_name r)) (snd kv)), Hs.
      reflexivity. }
    eexists. split; [reflexivity|]. unfold describes.
    cbn [u_sha256 alias_file_names duplicate_count canonical_file_name paper_id
         fst snd]. rewrite Hs.
    repeat split.
    + cbn [map length]. rewrite length_map. lia.
    + now exists c, l.
Qed.

Lemma unique_loop_total (items : list (str * list record)) : forall n,
  (forall kv, In kv items -> snd kv <> []) ->
  exists us, unique_loop lower (enumerate n items) = inr us /\
             Forall2 (describes lower) items us /\
             map paper_id us =
               map (fun ikv => make_paper_id (fst ikv) (fst (snd ikv)))
                   (enumerate n items).
Proof.
  induction items as [|kv items IH]; intros n Hne; cbn [enumerate unique_loop].
  - exists []. repeat split. constructor.
  - destruct (IH (S n)) as (us & Hus & Hall & Hids); [intros; apply Hne; now right|].
    destruct (make_unique_total n kv (Hne kv (or_introl eq_refl)))
      as (u & Hu & Hdesc & Hid).
    destruct kv as [digest group]. cbn [fst snd] in *.
    rewrite Hu, Hus. exists (u :: us). repeat split.
    + now constructor.
    + cbn. now rewrite Hid, Hids.
Qed.

(** Lines 79-124 never raise, and the unique-paper list describes a
    permutation of the buckets, bucket by bucket. *)
Lemma assemble_total now1 now2 dir (rs : list record) :
  exists items all unique,
    assemble lower now1 now2 dir rs = inr (all, unique) /\
    Permutation items (group_records rs) /\
    Forall2 (describes lower) items (papers unique) /\
    map paper_id (papers unique) =
      map (fun ikv => make_paper_id (fst ikv) (fst (snd ikv))) (enumerate 1 items) /\
    total_files all = length rs /\
    unique_files all = length (papers unique) /\
    duplicate_groups_detail all = map alias_file_names (papers unique) /\
    duplicate_groups all =
      length (filter (fun group => 1 <? length group)
                     (map alias_file_names (papers unique))) /\
    records all = rs.
Proof.
  destruct (group_records_grouped rs) as (Hnd & Hgrp & Hcov).
  assert (Hne : forall kv, In kv (group_records rs) -> snd kv <> []).
  { intros [k grp] Hin. apply (Hgrp k grp Hin). }
  destruct (group_items_total (group_records rs) Hne) as (items & Hitems & Hperm).
  assert (Hne' : forall kv, In kv items -> snd kv <> []).
  { intros kv Hin. apply Hne. now apply (Permutation_in _ Hperm). }
  destruct (unique_loop_total items 1 Hne') as (us & Hus & Hall & Hids).
  unfold assemble. rewrite Hitems, Hus.
  eexists items, _, _. split; [reflexivity|]. cbn. repeat split; assumption.
Qed.

Lemma Forall2_describes_sha items us :
  Forall2 (describes lower) items us -> map u_sha256 us = map fst items.
Proof.
  induction 1 as [|kv u items us Hd _ IH]; cbn; [reflexivity|].
  destruct Hd as (-> & _). now rewrite IH.
Qed.

Lemma Forall2_describes_find items us k grp :
  Forall2 (describes lower) items us -> In (k, grp) items ->
  exists u, In u us /\ describes lower (k, grp) u.
Proof.
  induction 1 as [|kv u items us Hd _ IH]; intros Hin; [destruct Hin|].
  destruct Hin as [->|Hin].
  - exists u. split; [now left|exact Hd].
  - destruct (IH Hin) as (u' & Hu' & Hd'). exists u'. split; [now right|exact Hd'].
Qed.
End UniqueFacts.

Lemma filter_unique_key (A : Type) (f : A -> str) (l : list A) (u : A) :
  NoDup (map f l) -> In u l ->
  filter (fun u' => str_eqb (f u') (f u)) l = [u].
Proof.
  induction l as [|x l IH]; intros Hnd Hin; [destruct Hin|].
  cbn in Hnd. inversion Hnd as [|? ? Hnotin Hnd']; subst.
  assert (Hnone : forall v, ~ In v (map f l) ->
            filter (fun u' => str_eqb (f u') v) l = []).
  { clear. intros v Hv. induction l as [|y l IHl]; cbn; [reflexivity|].
    cbn in Hv. rewrite str_eqb_neq by (intros Heq; apply Hv; now left).
    apply IHl. intros Hin. apply Hv. now right. }
  cbn. destruct Hin as [->|Hin].
  - rewrite str_eqb_refl, Hnone by assumption. reflexivity.
  - rewrite str_eqb_neq.
    + now apply IH.
    + intros Heq. apply Hnotin. rewrite Heq. now apply in_map.
Qed.

(** ** Duplicates in the manifest *)

Section ManifestFacts.
Import Manifest.
Variable lower : str -> str.
Variable sha256_file : list N -> str.
Variable repo_root : Sys.path.
Variables now1 now2 dir : str.

Lemma members_make_record k (entries : list probed_file) :
  members k (map (make_record sha256_file repo_root) entries) =
  map (make_record sha256_file repo_root)
      (filter (fun g => str_eqb (sha256_file (pf_bytes g)) k) entries).
Proof.
  unfold members.
  induction entries as [|g entries IH]; cbn [map filter]; [reflexivity|].
  cbn [make_record sha256]. fold (make_record sha256_file repo_root g).
  destruct (str_eqb (sha256_file (pf_bytes g)) k); cbn [map]; now rewrite IH.
Qed.

Lemma identical_files_one_record (entries : list probed_file) (f0 : probed_file) :
  In f0 entries ->
  (forall g, In g entries ->
             sha256_file (pf_bytes g) = sha256_file (pf_bytes f0) ->
             pf_bytes g = pf_bytes f0) ->
  let same := filter (fun g => str_eqb (pf_bytes g) (pf_bytes f0)) entries in
  exists all unique u,
    assemble lower now1 now2 dir (map (make_record sha256_file repo_root) entries)
      = inr (all, unique) /\
    filter (fun u' => str_eqb (u_sha256 u') (sha256_file (pf_bytes f0)))
           (papers unique) = [u] /\
    Permutation (alias_file_names u) (map (fun g => Sys.name (pf_path g)) same) /\
    duplicate_count u = (Z.of_nat (length same) - 1)%Z /\
    In (alias_file_names u) (duplicate_groups_detail all) /\
    total_files all = length entries /\
    unique_files all = length (papers unique).
Proof.
  intros Hin Hfree same.
  set (rs := map (make_record sha256_file repo_root) entries).
  set (h := sha256_file (pf_bytes f0)).
  destruct (assemble_total lower now1 now2 dir rs)
    as (items & all & unique & Hrun & Hperm & Hdesc & _ & Htot & Huniq & Hdet & _ & _).
  destruct (group_records_grouped rs) as (Hnd & Hgrp & Hcov).
  assert (Hkey : In h (map fst (group_records rs))).
  { apply (Hcov (make_record sha256_file repo_root f0)). unfold rs. now apply in_map. }
  apply in_map_iff in Hkey as ([k grp] & Hk & Hkv). cbn in Hk. subst k.
  destruct (Hgrp h grp Hkv) as [-> _].
  assert (Hitem : In (h, members h rs) items).
  { apply (Permutation_in _ (Permutation_sym Hperm) Hkv). }
  destruct (Forall2_describes_find lower _ _ _ _ Hdesc Hitem) as (u & Hu & Hsha & Hal & Hdup & _).
  cbn [fst snd] in Hsha, Hal, Hdup.
  assert (Hsame : filter (fun g => str_eqb (sha256_file (pf_bytes g)) h) entries = same).
  { unfold same. apply filter_ext_in. intros g Hg.
    destruct (str_eqb_spec (sha256_file (pf_bytes g)) h) as [Heq|Hne];
      destruct (str_eqb_spec (pf_bytes g) (pf_bytes f0)) as [Heq'|Hne'];
      try reflexivity.
    - exfalso. apply Hne'. now apply Hfree.
    - exfalso. apply Hne. unfold h. now rewrite Heq'. }
  exists all, unique, u. repeat split.
  - exact Hrun.
  - rewrite <- Hsha. apply filter_unique_key; [|exact Hu].
    rewrite (Forall2_describes_sha lower _ _ Hdesc).
    apply (Permutation_NoDup (Permutation_sym (Permutation_map fst Hperm)) Hnd).
  - rewrite Hal, sorted_perm. unfold rs.
    rewrite members_make_record, Hsame, map_map. reflexivity.
  - rewrite Hdup. unfold rs.
    rewrite members_make_record, Hsame, length_map. reflexivity.
  - rewrite Hdet. now apply in_map.
  - rewrite Htot. unfold rs. apply length_map.
  - exact Huniq.
Qed.
Lemma filter_all_true (A : Type) (f : A -> bool) (l : list A) :
  (forall x, In x l -> f x = true) -> filter f l = l.
Proof.
  induction l as [|x l IH]; intros Hall; cbn; [reflexivity|].
  rewrite (Hall x (or_introl eq_refl)), IH; [reflexivity|].
  intros y Hy. apply Hall. now right.
Qed.

(** A corpus whose files all hold the same bytes gives one unique record. *)
Lemma identical_corpus_one_record (entries : list probed_file) (f0 : probed_file) :
  In f0 entries ->
  (forall g, In g entries -> pf_bytes g = pf_bytes f0) ->
  exists all unique u,
    assemble lower now1 now2 dir (map (make_record sha256_file repo_root) entries)
      = inr (all, unique) /\
    papers unique = [u] /\
    Permutation (alias_file_names u) (map (fun g => Sys.name (pf_path g)) entries) /\
    duplicate_count u = (Z.of_nat (length entries) - 1)%Z /\
    total_files all = length entries /\
    unique_files all = 1 /\
    duplicate_groups_detail all = [alias_file_names u].
Proof.
  intros Hin Hsame.
  destruct (identical_files_one_record entries f0 Hin)
    as (all & unique & u & Hrun & Hone & Hal & Hdup & _ & Htot & Huniq).
  { intros g Hg _. now apply Hsame. }
  cbv zeta in Hal, Hdup.
  rewrite (filter_all_true _ _ entries) in Hal, Hdup
    by (intros g Hg; rewrite (Hsame g Hg); apply str_eqb_refl).
  set (rs := map (make_record sha256_file repo_root) entries) in *.
  destruct (assemble_total lower now1 now2 dir rs)
    as (items & all' & unique' & Hrun' & Hperm & Hdesc & _ & _ & _ & Hdet & _).
  rewrite Hrun in Hrun'. injection Hrun' as <- <-.
  destruct (group_records_grouped rs) as (_ & Hgrp & _).
  assert (Hall : forall u', In u' (papers unique) ->
            str_eqb (u_sha256 u') (sha256_file (pf_bytes f0)) = true).
  { intros u' Hu'.
    apply (in_map u_sha256) in Hu'.
    rewrite (Forall2_describes_sha lower _ _ Hdesc) in Hu'.
    apply in_map_iff in Hu' as ([k grp] & Hk & Hkv). cbn in Hk.
    apply (Permutation_in _ Hperm) in Hkv.
    destruct (Hgrp k grp Hkv) as [Hmem Hne].
    destruct grp as [|r grp']; [congruence|].
    assert (Hr : In r (members k rs)) by (rewrite <- Hmem; now left).
    apply filter_In in Hr as [Hr Hsha].
    apply str_eqb_eq in Hsha.
    apply in_map_iff in Hr as (g & <- & Hg).
    cbn [make_record sha256] in Hsha.
    rewrite <- Hk, <- Hsha, (Hsame g Hg). apply str_eqb_refl. }
  rewrite (filter_all_true _ _ _ Hall) in Hone.
  exists all, unique, u. repeat split; try assumption.
  - rewrite Huniq, Hone. reflexivity.
  - rewrite Hdet, Hone. reflexivity.
Qed.
End ManifestFacts.

Lemma name_of_child (d : Sys.path) (x : str) : Sys.name (d ++ [x]) = x.
Proof. unfold Sys.name. apply last_last. Qed.

Section ManifestExample.
Import Manifest.
Variable lower : str -> str.
Variables now1 now2 dir : str.
Variables ra rb rc : record.
Hypothesis lower_a : lower (lit "a.pdf") = lit "a.pdf".
Hypothesis lower_b : lower (lit "b.pdf") = lit "b.pdf".
Hypothesis lower_c : lower (lit "c.pdf") = lit "c.pdf".
Hypothesis name_a : file_name ra = lit "a.pdf".
Hypothesis name_b : file_name rb = lit "b.pdf".
Hypothesis name_c : file_name rc = lit "c.pdf".
Hypothesis same_ab : sha256 rb = sha256 ra.
Hypothesis distinct : sha256 ra <> sha256 rc.

Lemma three_files_groups :
  group_records [ra; rb; rc] = [(sha256 ra, [ra; rb]); (sha256 rc, [rc])].
Proof.
  unfold group_records. cbn [fold_left setdefault_append].
  rewrite same_ab, str_eqb_refl. cbn [setdefault_append app].
  rewrite (str_eqb_neq _ _ distinct). reflexivity.
Qed.

Lemma three_files_items :
  group_items lower [(sha256 ra, [ra; rb]); (sha256 rc, [rc])] =
  inr [(sha256 ra, [ra; rb]); (sha256 rc, [rc])].
Proof.
  unfold group_items, keyed, bucket_key. cbn [snd map].
  rewrite name_a, name_b, name_c.
  cbn [sorted insert_sorted].
  replace (str_leb (lit "a.pdf") (lit "b.pdf")) with true by reflexivity.
  rewrite lower_a, lower_c.
  cbn [sorted insert_sorted fst].
  replace (str_leb (lit "a.pdf") (lit "c.pdf")) with true by reflexivity.
  reflexivity.
Qed.

Lemma three_files_example :
  exists all unique ua uc,
    assemble lower now1 now2 dir [ra; rb; rc] = inr (all, unique) /\
    total_files all = 3 /\ unique_files all = 2 /\ duplicate_groups all = 1 /\
    papers unique = [ua; uc] /\
    u_sha256 ua = sha256 ra /\
    alias_file_names ua = [lit "a.pdf"; lit "b.pdf"] /\
    duplicate_count ua = 1%Z /\
    alias_file_names uc = [lit "c.pdf"] /\
    duplicate_count uc = 0%Z.
Proof.
  unfold assemble. rewrite three_files_groups, three_files_items.
  cbn [enumerate unique_loop]. unfold make_unique.
  cbn [sorted insert_sorted].
  rewrite name_a, name_b, lower_a, lower_b.
  replace (str_leb (lit "a.pdf") (lit "b.pdf")) with true by reflexivity.
  cbn [map]. rewrite name_a, name_b, name_c.
  eexists _, _, _, _. split; [reflexivity|].
  cbn. repeat split; reflexivity.
Qed.
End ManifestExample.

(** C1.  Files with identical bytes carry the same digest and end in one
    unique record: for every file of the corpus whose digest is shared
    only by files with the same bytes, exactly one unique record has that
    digest, its aliases are the names of all files with those bytes and
    its [duplicate_count] is their number minus one.  A corpus whose files
    all hold the same bytes gives a manifest with that one record, listing
    every file name.  For [a.pdf], [b.pdf]
    (same bytes) and [c.pdf] (other bytes, other digest) the manifest has
    3 files, 2 unique papers and 1 duplicate group, and the record of the
    first two has aliases [a.pdf; b.pdf] and [duplicate_count] 1. *)
Theorem build_manifest_groups_identical_files :
  forall (lower : str -> str) (sha256_file : list N -> str)
         (repo_root : Sys.path) (now1 now2 dir : str),
    (forall (entries : list Manifest.probed_file) (f0 : Manifest.probed_file),
        In f0 entries ->
        (forall g, In g entries ->
                   sha256_file (Manifest.pf_bytes g) = sha256_file (Manifest.pf_bytes f0) ->
                   Manifest.pf_bytes g = Manifest.pf_bytes f0) ->
        let same :=
          filter (fun g => str_eqb (Manifest.pf_bytes g) (Manifest.pf_bytes f0)) entries in
        exists all unique u,
          Manifest.assemble lower now1 now2 dir
            (map (Manifest.make_record sha256_file repo_root) entries)
            = inr (all, unique) /\
          filter (fun u' => str_eqb (Manifest.u_sha256 u')
                                    (sha256_file (Manifest.pf_bytes f0)))
                 (Manifest.papers unique) = [u] /\
          Permutation (Manifest.alias_file_names u)
                      (map (fun g => Sys.name (Manifest.pf_path g)) same) /\
          Manifest.duplicate_count u = (Z.of_nat (length same) - 1)%Z /\
          In (Manifest.alias_file_names u) (Manifest.duplicate_groups_detail all) /\
          Manifest.total_files all = length entries /\
          Manifest.unique_files all = length (Manifest.papers unique)) /\
    (forall (entries : list Manifest.probed_file) (f0 : Manifest.probed_file),
        In f0 entries ->
        (forall g, In g entries -> Manifest.pf_bytes g = Manifest.pf_bytes f0) ->
        exists all unique u,
          Manifest.assemble lower now1 now2 dir
            (map (Manifest.make_record sha256_file repo_root) entries)
            = inr (all, unique) /\
          Manifest.papers unique = [u] /\
          Permutation (Manifest.alias_file_names u)
                      (map (fun g => Sys.name (Manifest.pf_path g)) entries) /\
          Manifest.duplicate_count u = (Z.of_nat (length entries) - 1)%Z /\
          Manifest.total_files all = length entries /\
          Manifest.unique_files all = 1 /\
          Manifest.duplicate_groups_detail all = [Manifest.alias_file_names u]) /\
    (forall (papers_dir : Sys.path) (bytes_a bytes_c : list N)
            (ga gb gc : option Z) (qa qb qc : str * str),
        lower (lit "a.pdf") = lit "a.pdf" ->
        lower (lit "b.pdf") = lit "b.pdf" ->
        lower (lit "c.pdf") = lit "c.pdf" ->
        sha256_file bytes_a <> sha256_file bytes_c ->
        exists all unique ua uc,
          Manifest.assemble lower now1 now2 dir
            (map (Manifest.make_record sha256_file repo_root)
               [ {| Manifest.pf_path := papers_dir ++ [lit "a.pdf"];
                    Manifest.pf_bytes := bytes_a;
                    Manifest.pf_pages := ga; Manifest.pf_probe := qa |};
                 {| Manifest.pf_path := papers_dir ++ [lit "b.pdf"];
                    Manifest.pf_bytes := bytes_a;
                    Manifest.pf_pages := gb; Manifest.pf_probe := qb |};
                 {| Manifest.pf_path := papers_dir ++ [lit "c.pdf"];
                    Manifest.pf_bytes := bytes_c;
                    Manifest.pf_pages := gc; Manifest.pf_probe := qc |} ])
            = inr (all, unique) /\
          Manifest.total_files all = 3 /\
          Manifest.unique_files all = 2 /\
          Manifest.duplicate_groups all = 1 /\
          Manifest.papers unique = [ua; uc] /\
          Manifest.u_sha256 ua = sha256_file bytes_a /\
          Manifest.alias_file_names ua = [lit "a.pdf"; lit "b.pdf"] /\
          Manifest.duplicate_count ua = 1%Z /\
          Manifest.alias_file_names uc = [lit "c.pdf"] /\
          Manifest.duplicate_count uc = 0%Z).
Proof.
  intros lower sha256_file repo_root now1 now2 dir. split; [|split].
  - intros entries f0 Hin Hfree.
    apply identical_files_one_record; assumption.
  - intros entries f0 Hin Hsame.
    apply (identical_corpus_one_record lower sha256_file repo_root now1 now2 dir
             entries f0); assumption.
  - intros papers_dir bytes_a bytes_c ga gb gc qa qb qc Ha Hb Hc Hne.
    cbn [map].
    apply three_files_example; try assumption;
      try (cbn [Manifest.make_record Manifest.file_name Manifest.pf_path];
           apply name_of_child);
      reflexivity.
Qed.

Lemma build_manifest_groups_identical_files_witness :
  (exists all unique u,
      Manifest.assemble ascii_lower [] [] []
        (map (Manifest.make_record (fun bytes => bytes) [])
           [ {| Manifest.pf_path := [lit "papers"; lit "a.pdf"];
                Manifest.pf_bytes := [1%N];
                Manifest.pf_pages := None; Manifest.pf_probe := ([], []) |};
             {| Manifest.pf_path := [lit "papers"; lit "b.pdf"];
                Manifest.pf_bytes := [1%N];
                Manifest.pf_pages := None; Manifest.pf_probe := ([], []) |} ])
        = inr (all, unique) /\
      filter (fun u' => str_eqb (Manifest.u_sha256 u') [1%N])
             (Manifest.papers unique) = [u] /\
      Manifest.duplicate_count u = 1%Z) /\
  (exists all unique ua uc,
      Manifest.assemble ascii_lower [] [] []
        (map (Manifest.make_record (fun bytes => bytes) [])
           [ {| Manifest.pf_path := [lit "papers"] ++ [lit "a.pdf"];
                Manifest.pf_bytes := [1%N];
                Manifest.pf_pages := None; Manifest.pf_probe := ([], []) |};
             {| Manifest.pf_path := [lit "papers"] ++ [lit "b.pdf"];
                Manifest.pf_bytes := [1%N];
                Manifest.pf_pages := None; Manifest.pf_probe := ([], []) |};
             {| Manifest.pf_path := [lit "papers"] ++ [lit "c.pdf"];
                Manifest.pf_bytes := [2%N];
                Manifest.pf_pages := None; Manifest.pf_probe := ([], []) |} ])
        = inr (all, unique) /\
      Manifest.total_files all = 3 /\
      Manifest.unique_files all = 2 /\
      Manifest.duplicate_groups all = 1 /\
      Manifest.papers unique = [ua; uc] /\
      Manifest.alias_file_names ua = [lit "a.pdf"; lit "b.pdf"] /\
      Manifest.duplicate_count ua = 1%Z).
Proof.
  pose proof (build_manifest_groups_identical_files
                ascii_lower (fun bytes => bytes) [] [] [] []) as (Hgen & _ & Hex).
  split.
  - destruct (Hgen
                [ {| Manifest.pf_path := [lit "papers"; lit "a.pdf"];
                     Manifest.pf_bytes := [1%N];
                     Manifest.pf_pages := None; Manifest.pf_probe := ([], []) |};
                  {| Manifest.pf_path := [lit "papers"; lit "b.pdf"];
                     Manifest.pf_bytes := [1%N];
                     Manifest.pf_pages := None; Manifest.pf_probe := ([], []) |} ]
                {| Manifest.pf_path := [lit "papers"; lit "a.pdf"];
                   Manifest.pf_bytes := [1%N];
                   Manifest.pf_pages := None; Manifest.pf_probe := ([], []) |}
                ltac:(left; reflexivity) ltac:(intros g _ H; exact H))
      as (all & unique & u & Hrun & Hone & _ & Hdup & _).
    exists all, unique, u. repeat split; assumption.
  - destruct (Hex [lit "papers"] [1%N] [2%N] None None None ([], []) ([], []) ([], [])
                ltac:(reflexivity) ltac:(reflexivity) ltac:(reflexivity)
                ltac:(discriminate))
      as (all & unique & ua & uc & Hrun & H3 & H2 & H1 & Hp & _ & Hal & Hdup & _).
    exists all, unique, ua, uc. repeat split; assumption.
Defined.

(** ** Order of the buckets *)

Section BucketOrder.
Import Manifest.
Variable lower : str -> str.
Variables now1 now2 dir : str.
Variables rb rc rz : record.
Hypothesis lower_b : lower (lit "b.pdf") = lit "b.pdf".
Hypothesis lower_c : lower (lit "c.pdf") = lit "c.pdf".
Hypothesis lower_z : lower (lit "Z.pdf") = lit "z.pdf".
Hypothesis name_b : file_name rb = lit "b.pdf".
Hypothesis name_c : file_name rc = lit "c.pdf".
Hypothesis name_z : file_name rz = lit "Z.pdf".
Hypothesis same_bz : sha256 rz = sha256 rb.
Hypothesis distinct : sha256 rb <> sha256 rc.

Lemma mixed_case_groups :
  group_records [rb; rc; rz] = [(sha256 rb, [rb; rz]); (sha256 rc, [rc])].
Proof.
  unfold group_records. cbn [fold_left setdefault_append].
  rewrite (str_eqb_neq _ _ distinct). cbn [setdefault_append].
  rewrite same_bz, str_eqb_refl. reflexivity.
Qed.

Lemma mixed_case_key : bucket_key lower [rb; rz] = inr (lit "z.pdf").
Proof.
  unfold bucket_key. cbn [map]. rewrite name_b, name_z.
  cbn [sorted insert_sorted].
  replace (str_leb (lit "b.pdf") (lit "Z.pdf")) with false by reflexivity.
  now rewrite lower_z.
Qed.

Lemma single_key : bucket_key lower [rc] = inr (lit "c.pdf").
Proof.
  unfold bucket_key. cbn [map sorted insert_sorted]. now rewrite name_c, lower_c.
Qed.

Lemma mixed_case_items :
  group_items lower [(sha256 rb, [rb; rz]); (sha256 rc, [rc])] =
  inr [(sha256 rc, [rc]); (sha256 rb, [rb; rz])].
Proof.
  unfold group_items. cbn [keyed snd].
  rewrite mixed_case_key, single_key.
  cbn [sorted insert_sorted fst].
  replace (str_leb (lit "z.pdf") (lit "c.pdf")) with false by reflexivity.
  reflexivity.
Qed.

Lemma mixed_case_order :
  exists all unique ub uc,
    assemble lower now1 now2 dir [rb; rc; rz] = inr (all, unique) /\
    papers unique = [uc; ub] /\
    paper_id uc = make_paper_id 1 (sha256 rc) /\
    paper_id ub = make_paper_id 2 (sha256 rb) /\
    canonical_file_name uc = lit "c.pdf" /\
    canonical_file_name ub = lit "b.pdf" /\
    alias_file_names ub = [lit "b.pdf"; lit "Z.pdf"] /\
    bucket_key lower [rb; rz] = inr (lit "z.pdf") /\
    bucket_key lower [rc] = inr (lit "c.pdf") /\
    case_insensitive_min lower [rb; rz] = lit "b.pdf" /\
    case_insensitive_min lower [rc] = lit "c.pdf" /\
    str_leb (lit "b.pdf") (lit "c.pdf") = true /\
    str_leb (lit "c.pdf") (lit "b.pdf") = false.
Proof.
  unfold assemble. rewrite mixed_case_groups, mixed_case_items.
  cbn [enumerate unique_loop]. unfold make_unique.
  cbn [sorted insert_sorted].
  rewrite name_b, name_z, lower_b, lower_z.
  replace (str_leb (lit "b.pdf") (lit "z.pdf")) with true by reflexivity.
  cbn [map]. rewrite name_b, name_c, name_z.
  eexists _, _, _, _. split; [reflexivity|].
  cbn [papers paper_id canonical_file_name alias_file_names].
  rewrite mixed_case_key, single_key.
  unfold case_insensitive_min. cbn [map].
  rewrite name_b, name_c, name_z, lower_b, lower_c, lower_z.
  repeat split; reflexivity.
Qed.
End BucketOrder.

(** C2, evaluated on the corpus [b.pdf], [Z.pdf] (same bytes as [b.pdf])
    and [c.pdf] (other bytes).  The records arrive sorted by lower-cased
    name.  The bucket of [b.pdf] and [Z.pdf] has the case-insensitive
    minimum [b.pdf], which is below [c.pdf], yet its sort key is the
    lower-cased case-sensitive minimum [z.pdf]: the bucket of [c.pdf]
    receives sequence number 1 and the bucket of [b.pdf] number 2. *)
Theorem bucket_order_mixed_case :
  forall (lower : str -> str) (sha256_file : list N -> str)
         (repo_root papers_dir : Sys.path) (now1 now2 dir : str)
         (bytes_b bytes_c : list N)
         (gb gc gz : option Z) (qb qc qz : str * str),
    lower (lit "b.pdf") = lit "b.pdf" ->
    lower (lit "c.pdf") = lit "c.pdf" ->
    lower (lit "Z.pdf") = lit "z.pdf" ->
    sha256_file bytes_b <> sha256_file bytes_c ->
    let fb := {| Manifest.pf_path := papers_dir ++ [lit "b.pdf"];
                 Manifest.pf_bytes := bytes_b;
                 Manifest.pf_pages := gb; Manifest.pf_probe := qb |} in
    let fc := {| Manifest.pf_path := papers_dir ++ [lit "c.pdf"];
                 Manifest.pf_bytes := bytes_c;
                 Manifest.pf_pages := gc; Manifest.pf_probe := qc |} in
    let fz := {| Manifest.pf_path := papers_dir ++ [lit "Z.pdf"];
                 Manifest.pf_bytes := bytes_b;
                 Manifest.pf_pages := gz; Manifest.pf_probe := qz |} in
    let rb := Manifest.make_record sha256_file repo_root fb in
    let rc := Manifest.make_record sha256_file repo_root fc in
    let rz := Manifest.make_record sha256_file repo_root fz in
    exists all unique ub uc,
      Manifest.assemble lower now1 now2 dir [rb; rc; rz] = inr (all, unique) /\
      Manifest.papers unique = [uc; ub] /\
      Manifest.paper_id uc = Manifest.make_paper_id 1 (sha256_file bytes_c) /\
      Manifest.paper_id ub = Manifest.make_paper_id 2 (sha256_file bytes_b) /\
      Manifest.canonical_file_name uc = lit "c.pdf" /\
      Manifest.canonical_file_name ub = lit "b.pdf" /\
      Manifest.alias_file_names ub = [lit "b.pdf"; lit "Z.pdf"] /\
      Manifest.bucket_key lower [rb; rz] = inr (lit "z.pdf") /\
      Manifest.bucket_key lower [rc] = inr (lit "c.pdf") /\
      Manifest.case_insensitive_min lower [rb; rz] = lit "b.pdf" /\
      Manifest.case_insensitive_min lower [rc] = lit "c.pdf" /\
      str_leb (lit "b.pdf") (lit "c.pdf") = true /\
      str_leb (lit "c.pdf") (lit "b.pdf") = false.
Proof.
  intros lower sha256_file repo_root papers_dir now1 now2 dir bytes_b bytes_c
         gb gc gz qb qc qz Hb Hc Hz Hne fb fc fz rb rc rz.
  apply (mixed_case_order lower now1 now2 dir rb rc rz); try assumption;
    try (cbn [Manifest.make_record Manifest.file_name Manifest.pf_path];
         apply name_of_child);
    reflexivity.
Qed.

Lemma bucket_order_mixed_case_witness :
  exists all unique ub uc,
    Manifest.assemble ascii_lower [] [] []
      [ Manifest.make_record (fun bytes => bytes) []
          {| Manifest.pf_path := [lit "papers"] ++ [lit "b.pdf"];
             Manifest.pf_bytes := lit "11111111";
             Manifest.pf_pages := None; Manifest.pf_probe := ([], []) |};
        Manifest.make_record (fun bytes => bytes) []
          {| Manifest.pf_path := [lit "papers"] ++ [lit "c.pdf"];
             Manifest.pf_bytes := lit "22222222";
             Manifest.pf_pages := None; Manifest.pf_probe := ([], []) |};
        Manifest.make_record (fun bytes => bytes) []
          {| Manifest.pf_path := [lit "papers"] ++ [lit "Z.pdf"];
             Manifest.pf_bytes := lit "11111111";
             Manifest.pf_pages := None; Manifest.pf_probe := ([], []) |} ]
      = inr (all, unique) /\
    Manifest.papers unique = [uc; ub] /\
    Manifest.paper_id uc = lit "paper_001_22222222" /\
    Manifest.paper_id ub = lit "paper_002_11111111" /\
    Manifest.canonical_file_name uc = lit "c.pdf" /\
    Manifest.canonical_file_name ub = lit "b.pdf".
Proof.
  destruct (bucket_order_mixed_case ascii_lower (fun bytes => bytes) []
              [lit "papers"] [] [] [] (lit "11111111") (lit "22222222")
              None None None ([], []) ([], []) ([], [])
              ltac:(reflexivity) ltac:(reflexivity) ltac:(reflexivity)
              ltac:(discriminate))
    as (all & unique & ub & uc & Hrun & Hp & Hidc & Hidb & Hcc & Hcb & _).
  exists all, unique, ub, uc. repeat split; assumption.
Defined.

(** ** The summary corpus *)

Lemma in_enumerate (A : Type) (l : list A) : forall n i x,
  In (i, x) (enumerate n l) -> In x l.
Proof.
  induction l as [|y l IH]; intros n i x Hin; cbn in Hin; [destruct Hin|].
  destruct Hin as [Heq|Hin].
  - inversion Heq; subst. now left.
  - right. now apply (IH (S n) i x).
Qed.

Lemma or_else_nonempty (a : option str) (b : str) : b <> [] -> or_else a b <> [].
Proof. destruct a as [[|c a]|]; cbn; intros Hb; try exact Hb. discriminate. Qed.

Lemma or_else_empty (a : option str) (b : str) :
  or_else a b = [] -> b = [].
Proof. destruct a as [[|c a]|]; cbn; intros Hb; try exact Hb. discriminate. Qed.

Section SummaryFacts.
Import Summarize.
Variable lower : str -> str.
Variable abstract_search : str -> option str.

Lemma unique_anchors_incl (anchors : list anchor) : forall seen a,
  In a (unique_anchors lower seen anchors) -> In a anchors.
Proof.
  induction anchors as [|x anchors IH]; intros seen a Hin; cbn in Hin; [destruct Hin|].
  destruct (existsb (anchor_key_eqb lower x) seen).
  - right. now apply (IH seen).
  - destruct Hin as [<-|Hin]; [now left|right; now apply (IH (x :: seen))].
Qed.

Lemma unique_anchors_nonempty (anchors : list anchor) :
  anchors <> [] -> unique_anchors lower [] anchors <> [].
Proof. destruct anchors as [|x anchors]; [congruence|]. cbn. discriminate. Qed.

Lemma in_firstn (A : Type) (n : nat) : forall (l : list A) x,
  In x (firstn n l) -> In x l.
Proof.
  induction n as [|n IH]; intros [|y l] x Hin; cbn in Hin; try contradiction.
  destruct Hin as [<-|Hin]; [now left|right; now apply IH].
Qed.

Lemma firstn_nonempty (A : Type) (n : nat) (l : list A) :
  l <> [] -> firstn (S n) l <> [].
Proof. destruct l; [congruence|]. cbn. discriminate. Qed.

Lemma equation_anchors_nonempty (equations : list eq_entry) :
  Exists has_text equations -> equation_anchors equations <> [].
Proof.
  induction 1 as [e rest He|e rest _ IH]; unfold equation_anchors; cbn [flat_map].
  - unfold add_item at 1. unfold has_text in He.
    destruct (clean_whitespace (get_or [] (eq_equation e))); [congruence|].
    cbn. discriminate.
  - intros Hnil. apply app_eq_nil in Hnil as [_ Hnil]. now apply IH.
Qed.

Lemma build_evidence_anchors_nonempty o m f l (equations : list eq_entry) :
  Exists has_text equations ->
  build_evidence_anchors lower o m f l equations <> [].
Proof.
  intros Hex. unfold build_evidence_anchors.
  apply firstn_nonempty, unique_anchors_nonempty.
  intros Hnil.
  repeat (apply app_eq_nil in Hnil as [_ Hnil]).
  now apply (equation_anchors_nonempty equations).
Qed.

Lemma fallback_equation_has_text : has_text fallback_equation.
Proof. unfold has_text. cbn [fallback_equation eq_equation get_or]. vm_compute. discriminate. Qed.

Lemma sentence_anchors_tag tag_name items a :
  In a (sentence_anchors tag_name items) -> tag a = tag_name.
Proof.
  unfold sentence_anchors. rewrite in_flat_map. intros (item & _ & Hin).
  unfold add_item in Hin.
  destruct (clean_whitespace (s_text item)); [destruct Hin|].
  destruct Hin as [<-|[]]. reflexivity.
Qed.

Lemma equation_anchors_tag equations a :
  In a (equation_anchors equations) -> tag a = lit "equation".
Proof.
  unfold equation_anchors. rewrite in_flat_map. intros (item & _ & Hin).
  unfold add_item in Hin.
  destruct (clean_whitespace (get_or [] (eq_equation item))); [destruct Hin|].
  destruct Hin as [<-|[]]. reflexivity.
Qed.

Lemma build_evidence_anchors_tag o m f l equations a :
  In a (build_evidence_anchors lower o m f l equations) ->
  tag a <> lit "fallback".
Proof.
  unfold build_evidence_anchors. intros Hin.
  apply in_firstn, unique_anchors_incl in Hin.
  repeat (apply in_app_or in Hin as [Hin|Hin];
          [apply sentence_anchors_tag in Hin; rewrite Hin; discriminate|]).
  apply equation_anchors_tag in Hin. rewrite Hin. discriminate.
Qed.

(** The record that [summarize_one] emits, field by field. *)
Lemma summarize_one_fields n p a :
  let s := fst (summarize_one lower abstract_search n p a) in
  key_equations s <> [] /\
  evidence_anchors s <> [] /\
  paper_id s = p_paper_id p /\
  citation s =
    or_else (md_vancouver_citation (a_metadata a))
      (or_else (md_title (a_metadata a))
         (or_else (p_canonical_file_name p) (p_paper_id p))) /\
  (Exists has_text (key_equations s) ->
   forall x, In x (evidence_anchors s) -> tag x <> lit "fallback") /\
  ((forall x, In x (evidence_anchors s) -> tag x <> lit "fallback") \/
   evidence_anchors s =
     [fallback_anchor (fst (extract_abstract_snippet abstract_search
                              (load_pages (a_text a)))) 1%Z]) /\
  (match a_equations a with
   | Some (EqList (_ :: _)) => True
   | _ => key_equations s = [fallback_equation]
   end).
Proof.
  unfold summarize_one.
  destruct (extract_abstract_snippet abstract_search (load_pages (a_text a)))
    as [abstract_text abstract_page] eqn:Habs.
  assert (Hpage : abstract_page = 1%Z).
  { unfold extract_abstract_snippet in Habs.
    destruct (load_pages (a_text a)); [now inversion Habs|].
    destruct (abstract_search _); now inversion Habs. }
  subst abstract_page.
  cbn [fst key_equations evidence_anchors paper_id citation].
  set (key_eqs := match match a_equations a with
                        | Some (EqList entries) => firstn 5 entries
                        | _ => []
                        end with
                  | [] => [fallback_equation]
                  | _ => _
                  end).
  set (built := build_evidence_anchors lower _ _ _ _ key_eqs).
  assert (Hkey : key_eqs <> []).
  { unfold key_eqs. destruct (match a_equations a with
                              | Some (EqList entries) => firstn 5 entries
                              | _ => [] end); discriminate. }
  repeat split.
  - exact Hkey.
  - destruct built; discriminate.
  - intros Hex x Hx.
    pose proof (build_evidence_anchors_nonempty
                  (pick_sentences lower (collect_sentences_with_pages (load_pages (a_text a)) 10) objective_keywords 2)
                  (pick_sentences lower (collect_sentences_with_pages (load_pages (a_text a)) 10) methods_keywords 3)
                  (pick_sentences lower (collect_sentences_with_pages (load_pages (a_text a)) 10) findings_keywords 3)
                  (pick_sentences lower (collect_sentences_with_pages (load_pages (a_text a)) 10) limitations_keywords 2)
                  key_eqs Hex) as Hne.
    fold built in Hne.
    destruct built as [|b0 built'] eqn:Hb; [congruence|].
    rewrite <- Hb in Hx. unfold built in Hx.
    now apply build_evidence_anchors_tag in Hx.
  - destruct built as [|b0 built'] eqn:Hb.
    + right. reflexivity.
    + left. intros x Hx. rewrite <- Hb in Hx. unfold built in Hx.
      now apply build_evidence_anchors_tag in Hx.
  - unfold key_eqs. destruct (a_equations a) as [[[|e entries]|]|]; cbn; auto.
Qed.

Lemma summarize_loop_in assets items s b :
  In (s, b) (summarize_loop lower abstract_search assets items) ->
  exists n p a, In (n, ItemDict p) items /\ assets (p_paper_id p) = Some a /\
                (s, b) = summarize_one lower abstract_search n p a.
Proof.
  unfold summarize_loop. rewrite in_flat_map.
  intros ([n [p|]] & Hin & Hs); cbn [fst snd] in Hs; [|destruct Hs].
  destruct (assets (p_paper_id p)) as [a|] eqn:Ha; [|destruct Hs].
  destruct Hs as [<-|[]]. now exists n, p, a.
Qed.
End SummaryFacts.

(** C3 as stated fails: two runs over the same manifest and assets differ
    as soon as the clock read by [utc_now_iso()] differs, and so do the
    output files that two runs of the stage leave on the same disk. *)
Lemma summary_runs_differ_in_timestamp :
  (let m := {| Summarize.m_papers := Some [];
               Summarize.m_source_total_files := Some 0%Z;
               Summarize.m_source_unique_files := Some 0%Z |} in
   Summarize.summarize_papers ascii_lower (fun _ => None)
     (lit "2026-02-11T10:00:00Z") (lit "/out/manifest_unique.json") (lit "/out")
     m (fun _ => None)
   <>
   Summarize.summarize_papers ascii_lower (fun _ => None)
     (lit "2026-02-11T10:00:01Z") (lit "/out/manifest_unique.json") (lit "/out")
     m (fun _ => None)) /\
  fst (Fixture.summarizer Fixture.clock Fixture.extracted) = inr tt /\
  fst (Fixture.summarizer Fixture.later_clock Fixture.extracted) = inr tt /\
  Sys.read (snd (Fixture.summarizer Fixture.clock Fixture.extracted))
    Fixture.out_json
  <> Sys.read (snd (Fixture.summarizer Fixture.later_clock Fixture.extracted))
       Fixture.out_json.
Proof.
  split; [|split; [|split]].
  - cbv zeta. intros Heq. vm_compute in Heq. discriminate Heq.
  - vm_compute. reflexivity.
  - vm_compute. reflexivity.
  - intros Heq. vm_compute in Heq. discriminate Heq.
Qed.

(** ** The manifest builder and the disk *)

Section ManifestMain.
Import Sys Disk ManifestStage.
Variable lower : str -> str.
Variable sha256_file : list N -> str.
Variable encode : artifact -> list N.
Variable parse_pdfinfo_pages : str -> option Z.
Variable repo_root : path.
Variable utc_now_iso : nat -> str.
Variable tool : list str -> tool_outcome.

Lemma prefixes_are_prefixes (p d : path) : In d (prefixes p) -> is_prefix d p = true.
Proof.
  unfold prefixes. rewrite in_map_iff. intros (k & <- & _).
  revert k. induction p as [|x p IH]; intros [|k]; cbn; try reflexivity.
  now rewrite str_eqb_refl, IH.
Qed.

Lemma main_without_papers_dir (papers_dir out_dir : path) (s : fs) :
  exists_ (ensure_dir out_dir s) papers_dir = false ->
  exists msg,
    main lower sha256_file encode parse_pdfinfo_pages repo_root utc_now_iso tool
      papers_dir out_dir s = (inl (SystemExit msg), ensure_dir out_dir s).
Proof.
  intros Hmissing. unfold main, bind, modify, get.
  rewrite Hmissing. cbn. eexists. reflexivity.
Qed.

Lemma ensure_dir_effect (p : path) (s : fs) :
  files (ensure_dir p s) = files s /\
  (forall d, In d (dirs (ensure_dir p s)) -> In d (dirs s) \/ is_prefix d p = true) /\
  (forall d, In d (dirs s) -> In d (dirs (ensure_dir p s))).
Proof.
  unfold ensure_dir. cbn. repeat split.
  - intros d Hin. apply in_app_or in Hin as [Hin|Hin]; [now left|right].
    apply filter_In in Hin as [Hin _]. now apply prefixes_are_prefixes.
  - intros d Hin. apply in_or_app. now left.
Qed.
End ManifestMain.

(** C5 as stated fails: with neither directory on the disk, [main] stops
    with [SystemExit], and the output directory has been created by then. *)
Lemma main_creates_out_dir_before_check :
  let empty := {| Sys.dirs := []; Sys.files := [] |} : Disk.fs in
  let papers_dir := [lit "data"; lit "papers"] in
  let out_dir := [lit "artifacts"; lit "report"] in
  exists msg after,
    ManifestStage.main ascii_lower (fun bytes => bytes) (fun _ => [])
      (fun _ => None) [] (fun _ => []) (fun _ => Sys.TimedOut)
      papers_dir out_dir empty = (inl (SystemExit msg), after) /\
    Sys.exists_ empty papers_dir = false /\
    Sys.is_dir empty out_dir = false /\
    Sys.is_dir after out_dir = true /\
    Sys.dirs after = [[lit "artifacts"]; [lit "artifacts"; lit "report"]].
Proof.
  cbv zeta. eexists _, _. split; [reflexivity|]. repeat split; reflexivity.
Qed.

(** C5, amended.  When the papers directory is missing at the time of
    the check, [main] stops with [SystemExit] before [build_manifest]
    starts: no file is written or removed and no staging directory is
    made; the only change on the disk is that the output directory and
    its missing ancestors exist. *)
Theorem main_missing_papers_dir :
  forall (lower : str -> str) (sha256_file : list N -> str)
         (encode : Disk.artifact -> list N) (parse_pdfinfo_pages : str -> option Z)
         (repo_root : Sys.path) (utc_now_iso : nat -> str)
         (tool : list str -> Sys.tool_outcome)
         (papers_dir out_dir : Sys.path) (s : Disk.fs),
    Sys.exists_ (Sys.ensure_dir out_dir s) papers_dir = false ->
    exists msg after,
      ManifestStage.main lower sha256_file encode parse_pdfinfo_pages repo_root
        utc_now_iso tool papers_dir out_dir s = (inl (SystemExit msg), after) /\
      Sys.files after = Sys.files s /\
      (forall d, In d (Sys.dirs s) -> In d (Sys.dirs after)) /\
      (forall d, In d (Sys.dirs after) ->
                 In d (Sys.dirs s) \/ Sys.is_prefix d out_dir = true) /\
      Sys.is_dir after (out_dir ++ [lit "temp_probe"]) =
        Sys.is_dir s (out_dir ++ [lit "temp_probe"]).
Proof.
  intros lower sha256_file encode parse_pdfinfo_pages repo_root utc_now_iso tool
         papers_dir out_dir s Hmissing.
  destruct (main_without_papers_dir lower sha256_file encode parse_pdfinfo_pages
              repo_root utc_now_iso tool papers_dir out_dir s Hmissing) as [msg Hrun].
  destruct (ensure_dir_effect out_dir s) as (Hfiles & Hnew & Hold).
  exists msg, (Sys.ensure_dir out_dir s). repeat split; try assumption.
  unfold Sys.is_dir.
  destruct (out_dir ++ [lit "temp_probe"]) as [|x rest] eqn:Hp.
  { now destruct out_dir. }
  rewrite <- Hp. clear x rest Hp.
  destruct (existsb (Sys.path_eqb (out_dir ++ [lit "temp_probe"])) (Sys.dirs s)) eqn:Hs.
  - apply existsb_exists in Hs as (d & Hd & Heq).
    apply existsb_exists. exists d. split; [now apply Hold|exact Heq].
  - destruct (existsb (Sys.path_eqb (out_dir ++ [lit "temp_probe"]))
                      (Sys.dirs (Sys.ensure_dir out_dir s))) eqn:Ha; [|reflexivity].
    apply existsb_exists in Ha as (d & Hd & Heq).
    destruct (Hnew d Hd) as [Hin|Hpre].
    + assert (Hex : existsb (Sys.path_eqb (out_dir ++ [lit "temp_probe"])) (Sys.dirs s) = true).
      { apply existsb_exists. now exists d. }
      congruence.
    + exfalso. clear - Heq Hpre.
      revert d Heq Hpre. induction out_dir as [|x p IH]; intros [|y d] Heq Hpre;
        cbn in *; try discriminate.
      apply andb_prop in Heq as [_ Heq]. apply andb_prop in Hpre as [_ Hpre].
      now apply (IH d).
Qed.

Lemma main_missing_papers_dir_witness :
  exists msg after,
    ManifestStage.main ascii_lower (fun bytes => bytes) (fun _ => [])
      (fun _ => None) [] (fun _ => []) (fun _ => Sys.TimedOut)
      [lit "data"; lit "papers"] [lit "artifacts"; lit "report"]
      ({| Sys.dirs := []; Sys.files := [] |} : Disk.fs)
      = (inl (SystemExit msg), after) /\
    Sys.files after = [].
Proof.
  destruct (main_missing_papers_dir ascii_lower (fun bytes => bytes) (fun _ => [])
              (fun _ => None) [] (fun _ => []) (fun _ => Sys.TimedOut)
              [lit "data"; lit "papers"] [lit "artifacts"; lit "report"]
              ({| Sys.dirs := []; Sys.files := [] |} : Disk.fs) eq_refl)
    as (msg & after & Hrun & Hfiles & _).
  exists msg, after. split; assumption.
Defined.

(** ** Paths and the disk *)

Lemma path_eqb_spec (a : Sys.path) : forall b, reflect (a = b) (Sys.path_eqb a b).
Proof.
  induction a as [|x a IH]; intros [|y b]; cbn; try (constructor; congruence).
  destruct (str_eqb_spec x y) as [->|Hne]; cbn.
  - destruct (IH b) as [->|Hne]; constructor; congruence.
  - constructor. congruence.
Qed.

Lemma path_eqb_refl (a : Sys.path) : Sys.path_eqb a a = true.
Proof. destruct (path_eqb_spec a a); congruence. Qed.

Lemma is_prefix_refl (a : Sys.path) : Sys.is_prefix a a = true.
Proof. induction a as [|x a IH]; cbn; [reflexivity|]. now rewrite str_eqb_refl. Qed.

Lemma is_prefix_app (a b : Sys.path) : Sys.is_prefix a (a ++ b) = true.
Proof. induction a as [|x a IH]; cbn; [reflexivity|]. now rewrite str_eqb_refl. Qed.

Lemma is_prefix_trans (a b c : Sys.path) :
  Sys.is_prefix a b = true -> Sys.is_prefix b c = true -> Sys.is_prefix a c = true.
Proof.
  revert b c. induction a as [|x a IH]; intros [|y b] [|z c] Hab Hbc; cbn in *;
    try reflexivity; try discriminate.
  apply andb_prop in Hab as [Hxy Hab]. apply andb_prop in Hbc as [Hyz Hbc].
  apply str_eqb_eq in Hxy. apply str_eqb_eq in Hyz. subst.
  rewrite str_eqb_refl. cbn. now apply (IH b c).
Qed.

Section DiskFacts.
Import Sys.
Variable A : Type.
Implicit Types (s : fs A) (p q d : path).

Lemma in_prefixes_self p : p <> [] -> In p (prefixes p).
Proof.
  intros Hne. unfold prefixes. apply in_map_iff. exists (length p). split.
  - apply firstn_all.
  - apply in_seq. destruct p; [congruence|cbn; lia].
Qed.

Lemma is_dir_in s p : p <> [] -> (is_dir s p = true <-> In p (dirs s)).
Proof.
  intros Hne. unfold is_dir. destruct p as [|x p]; [congruence|].
  rewrite existsb_exists. split.
  - intros (d & Hd & Heq). destruct (path_eqb_spec (x :: p) d); [now subst|discriminate].
  - intros Hin. exists (x :: p). split; [exact Hin|apply path_eqb_refl].
Qed.

Lemma ensure_dir_is_dir s p : is_dir (ensure_dir p s) p = true.
Proof.
  destruct p as [|x p]; [reflexivity|].
  apply is_dir_in; [discriminate|]. unfold ensure_dir. cbn [dirs].
  destruct (is_dir s (x :: p)) eqn:Hd.
  - apply in_or_app. left. apply is_dir_in in Hd; [exact Hd|discriminate].
  - apply in_or_app. right. apply filter_In. split.
    + apply in_prefixes_self. discriminate.
    + now rewrite Hd.
Qed.

Lemma ensure_dir_keeps_dir s p d : is_dir s d = true -> is_dir (ensure_dir p s) d = true.
Proof.
  destruct d as [|x d]; [reflexivity|]. intros Hd.
  apply is_dir_in; [discriminate|]. apply is_dir_in in Hd; [|discriminate].
  unfold ensure_dir. cbn. apply in_or_app. now left.
Qed.

Lemma is_dir_dirs s s' d : dirs s = dirs s' -> is_dir s d = is_dir s' d.
Proof. unfold is_dir. now intros ->. Qed.

Lemma json_dump_keeps_dir s p (data : A) d :
  is_dir s d = true -> is_dir (json_dump p data s) d = true.
Proof.
  intros Hd. unfold json_dump.
  rewrite (is_dir_dirs _ (ensure_dir (parent p) s) d) by reflexivity.
  now apply ensure_dir_keeps_dir.
Qed.

Lemma lookup_filter_none (keep : path -> bool) p (l : list (path * content A)) :
  keep p = false ->
  lookup p (filter (fun e => keep (fst e)) l) = None.
Proof.
  intros Hk. induction l as [|[q c] l IH]; cbn; [reflexivity|].
  destruct (keep q) eqn:Hq; cbn; [|exact IH].
  destruct (path_eqb_spec q p) as [->|_]; [congruence|exact IH].
Qed.

Lemma lookup_filter_keep (keep : path -> bool) p (l : list (path * content A)) :
  keep p = true ->
  lookup p (filter (fun e => keep (fst e)) l) = lookup p l.
Proof.
  intros Hk. induction l as [|[q c] l IH]; cbn; [reflexivity|].
  destruct (keep q) eqn:Hq; cbn.
  - destruct (path_eqb q p); [reflexivity|exact IH].
  - destruct (path_eqb_spec q p) as [->|_]; [congruence|exact IH].
Qed.

(** Nothing at or below [q] is left after [rmtree q]. *)
Lemma rmtree_removes s q p :
  q <> [] -> is_prefix q p = true -> exists_ (rmtree q s) p = false.
Proof.
  intros Hq Hpre.
  assert (Hp : p <> []).
  { destruct p; [|discriminate]. destruct q; [congruence|discriminate]. }
  unfold exists_. apply orb_false_iff. split.
  - destruct (is_dir (rmtree q s) p) eqn:Hd; [|reflexivity].
    apply is_dir_in in Hd; [|exact Hp]. unfold rmtree in Hd. cbn in Hd.
    apply filter_In in Hd as [_ Hd]. now rewrite Hpre in Hd.
  - unfold is_file, read, rmtree. cbn [files].
    rewrite (lookup_filter_none (fun d => negb (is_prefix q d))); [reflexivity|].
    now rewrite Hpre.
Qed.
End DiskFacts.

Section ManifestCleanup.
Import Sys Disk ManifestStage.
Variable lower : str -> str.
Variable sha256_file : list N -> str.
Variable encode : artifact -> list N.
Variable parse_pdfinfo_pages : str -> option Z.
Variable repo_root : path.
Variable utc_now_iso : nat -> str.
Variable tool : list str -> tool_outcome.

Lemma probe_extractability_dirs pdf_path staging_dir (s : fs) :
  dirs (snd (probe_extractability tool pdf_path staging_dir s)) = dirs s.
Proof.
  unfold probe_extractability, bind, lift, ret.
  destruct (run_command (tool (pdftotext_first_page pdf_path))) as [e|direct];
    [reflexivity|].
  destruct (probe_ok direct); [reflexivity|].
  unfold copy2.
  destruct (read s pdf_path) as [c|]; [|reflexivity].
  destruct (path_eqb pdf_path _); [reflexivity|].
  destruct (run_command _) as [e|staged]; [reflexivity|].
  destruct (probe_ok staged); reflexivity.
Qed.

Lemma probe_files_dirs pdf_files staging_dir : forall s : fs,
  dirs (snd (probe_files sha256_file parse_pdfinfo_pages repo_root tool
               pdf_files staging_dir s)) = dirs s.
Proof.
  induction pdf_files as [|pdf rest IH]; intros s; [reflexivity|].
  cbn [probe_files]. destruct (snd pdf) as [bytes|]; [|reflexivity].
  unfold bind at 1. unfold lift at 1.
  destruct (run_command (tool [lit "pdfinfo"; path_str (fst pdf)])) as [e|info];
    [reflexivity|].
  unfold bind at 1.
  pose proof (probe_extractability_dirs (fst pdf) staging_dir s) as Hp.
  destruct (probe_extractability tool (fst pdf) staging_dir s) as [[e|probe] s1];
    cbn [snd] in Hp; [exact Hp|].
  unfold bind at 1.
  specialize (IH s1).
  destruct (probe_files sha256_file parse_pdfinfo_pages repo_root tool rest
              staging_dir s1) as [[e|records] s2]; unfold ret; cbn [snd] in *; congruence.
Qed.

Lemma probe_extractability_total pdf_path staging_dir (s : fs) :
  (forall cmd, exists r, tool cmd = Exited r) ->
  exists probe s', probe_extractability tool pdf_path staging_dir s = (inr probe, s').
Proof.
  intros Hlive. unfold probe_extractability, bind, lift, ret.
  destruct (Hlive (pdftotext_first_page pdf_path)) as [direct ->].
  cbn [run_command].
  destruct (probe_ok direct); [eexists _, _; reflexivity|].
  destruct (copy2 pdf_path _ s) as [e|s1]; [eexists _, _; reflexivity|].
  destruct (Hlive (pdftotext_first_page (choose_stage_path s staging_dir pdf_path)))
    as [staged ->].
  cbn [run_command].
  destruct (probe_ok staged); eexists _, _; reflexivity.
Qed.

Lemma probe_files_total pdf_files staging_dir :
  (forall cmd, exists r, tool cmd = Exited r) ->
  Forall (fun pdf => snd pdf <> None) pdf_files ->
  forall s : fs, exists records s',
    probe_files sha256_file parse_pdfinfo_pages repo_root tool
      pdf_files staging_dir s = (inr records, s').
Proof.
  intros Hlive Hfiles. induction Hfiles as [|pdf rest Hpdf _ IH]; intros s.
  - eexists _, _; reflexivity.
  - cbn [probe_files]. destruct (snd pdf) as [bytes|]; [|contradiction].
    unfold bind at 1. unfold lift at 1.
    destruct (Hlive [lit "pdfinfo"; path_str (fst pdf)]) as [info ->].
    cbn [run_command].
    unfold bind at 1.
    destruct (probe_extractability_total (fst pdf) staging_dir s Hlive)
      as (probe & s1 & ->).
    unfold bind at 1.
    destruct (IH s1) as (records & s2 & ->).
    eexists _, _; reflexivity.
Qed.

(** When [build_manifest] returns, nothing is left at or below the
    staging directory [out_dir / "temp_probe"]. *)
Lemma build_manifest_cleans papers_dir out_dir (s s' : fs) :
  build_manifest lower sha256_file encode parse_pdfinfo_pages repo_root
    utc_now_iso tool papers_dir out_dir s = (inr tt, s') ->
  forall p, is_prefix (out_dir ++ [lit "temp_probe"]) p = true ->
            exists_ s' p = false.
Proof.
  intros Hrun p Hp.
  unfold build_manifest in Hrun.
  unfold bind at 1 in Hrun. unfold modify at 1 in Hrun.
  unfold bind at 1 in Hrun. unfold get at 1 in Hrun.
  unfold bind at 1 in Hrun.
  set (s1 := ensure_dir (out_dir ++ [lit "temp_probe"]) s) in *.
  pose proof (probe_files_dirs
                (sorted str_leb (fun pdf => lower (name (fst pdf)))
                        (glob_pdf encode papers_dir s1))
                (out_dir ++ [lit "temp_probe"]) s1) as Hdirs.
  destruct (probe_files _ _ _ _ _ _ s1) as [[e|records] s2]; [discriminate|].
  cbn [snd] in Hdirs.
  unfold bind at 1 in Hrun. unfold lift at 1 in Hrun.
  destruct (Manifest.assemble _ _ _ _ records) as [e|assembled]; [discriminate|].
  unfold bind, modify in Hrun.
  injection Hrun as <-.
  set (s4 := json_dump _ _ (json_dump _ _ s2)).
  assert (Hstaging : exists_ s4 (out_dir ++ [lit "temp_probe"]) = true).
  { unfold exists_. apply orb_true_iff. left.
    unfold s4. do 2 apply json_dump_keeps_dir.
    rewrite (is_dir_dirs _ s2 s1 _ Hdirs). apply ensure_dir_is_dir. }
  rewrite Hstaging.
  apply rmtree_removes; [|exact Hp].
  now destruct out_dir.
Qed.

Lemma is_prefix_snoc (d a : path) (x : str) :
  is_prefix d (a ++ [x]) = true -> is_prefix d a = true \/ d = a ++ [x].
Proof.
  revert a. induction d as [|y d IH]; intros a Hpre; [now left|].
  destruct a as [|z a]; cbn in Hpre |- *.
  - apply andb_true_iff in Hpre as [Hy Hd]. right.
    apply str_eqb_eq in Hy as ->. destruct d; [reflexivity|discriminate].
  - apply andb_true_iff in Hpre as [Hy Hd]. rewrite Hy. cbn.
    apply IH in Hd as [Hd| ->]; [now left|right].
    apply str_eqb_eq in Hy as ->. reflexivity.
Qed.

(** Where the papers directory holds no directory named like a PDF, the
    listing of the stage holds regular files only. *)
Lemma glob_pdf_regular papers_dir out_dir (s : fs) :
  no_pdf_directory papers_dir out_dir s ->
  Forall (fun pdf => snd pdf <> None)
         (glob_pdf encode papers_dir (ensure_dir (out_dir ++ [lit "temp_probe"]) s)).
Proof.
  intros Hnone. unfold glob_pdf. apply Forall_app. split.
  - apply Forall_forall. intros pdf Hin. apply in_map_iff in Hin as (e & <- & _).
    discriminate.
  - apply Forall_forall. intros pdf Hin. apply in_map_iff in Hin as (d & <- & Hin).
    exfalso. apply filter_In in Hin as [Hin Hd].
    apply andb_true_iff in Hd as [Hd Hpdf]. apply andb_true_iff in Hd as [Hpar Hne].
    destruct (path_eqb_spec (parent d) papers_dir) as [Hparent|]; [|discriminate].
    destruct (Hnone d Hparent Hpdf) as [Hdir Hout].
    assert (Hd : d <> []) by (destruct d; [discriminate|discriminate]).
    apply (ensure_dir_effect (out_dir ++ [lit "temp_probe"]) s) in Hin as [Hin|Hin].
    + apply (is_dir_in _ s d Hd) in Hin. congruence.
    + apply is_prefix_snoc in Hin as [Hin| ->]; [congruence|].
      unfold name in Hpdf. rewrite last_last in Hpdf. discriminate.
Qed.

(** With tools that start and end within their time limits, and regular
    files only in the listing, the run returns. *)
Lemma build_manifest_total papers_dir out_dir (s : fs) :
  (forall cmd, exists r, tool cmd = Exited r) ->
  no_pdf_directory papers_dir out_dir s ->
  exists s',
    build_manifest lower sha256_file encode parse_pdfinfo_pages repo_root
      utc_now_iso tool papers_dir out_dir s = (inr tt, s').
Proof.
  intros Hlive Hnone. unfold build_manifest.
  unfold bind at 1. unfold modify at 1.
  unfold bind at 1. unfold get at 1.
  unfold bind at 1.
  destruct (probe_files_total
              (sorted str_leb (fun pdf => lower (name (fst pdf)))
                 (glob_pdf encode papers_dir
                    (ensure_dir (out_dir ++ [lit "temp_probe"]) s)))
              (out_dir ++ [lit "temp_probe"]) Hlive
              (Permutation_Forall
                 (Permutation_sym (sorted_perm _ _ _))
                 (glob_pdf_regular papers_dir out_dir s Hnone))
              (ensure_dir (out_dir ++ [lit "temp_probe"]) s))
    as (records & s2 & ->).
  unfold bind at 1. unfold lift at 1.
  destruct (assemble_total lower (utc_now_iso 0) (utc_now_iso 1)
              (path_str papers_dir) records)
    as (items & all & unique & -> & _).
  unfold bind, modify. eexists; reflexivity.
Qed.
End ManifestCleanup.

(** ** What a stage leaves alone *)

Section Frame.
Import Sys.
Variable A : Type.
Implicit Types (s : fs A) (p q d root : path).

Lemma kept_outside_refl root s : kept_outside A root s s.
Proof. intros p _. split; trivial. Qed.

Lemma kept_outside_trans root s1 s2 s3 :
  kept_outside A root s1 s2 -> kept_outside A root s2 s3 -> kept_outside A root s1 s3.
Proof.
  intros H12 H23 p Hp. destruct (H12 p Hp) as [Hd Hf], (H23 p Hp) as [Hd' Hf'].
  split; auto.
Qed.

Lemma ensure_dir_kept root q s : kept_outside A root s (ensure_dir q s).
Proof.
  intros p _. split.
  - apply ensure_dir_keeps_dir.
  - trivial.
Qed.

Lemma is_file_write_file q (c : content A) s p :
  is_file (write_file q c s) p = path_eqb q p || is_file s p.
Proof.
  unfold is_file, read, write_file. cbn [files lookup].
  destruct (path_eqb_spec q p) as [->|Hne]; [reflexivity|]. cbn [orb].
  rewrite (lookup_filter_keep A (fun d => negb (path_eqb d q))); [reflexivity|].
  destruct (path_eqb_spec p q); [congruence|reflexivity].
Qed.

Lemma write_file_kept root q (c : content A) s : kept_outside A root s (write_file q c s).
Proof.
  intros p _. split.
  - trivial.
  - intros Hf. rewrite is_file_write_file, Hf. apply orb_true_r.
Qed.

Lemma json_dump_kept root q (data : A) s : kept_outside A root s (json_dump q data s).
Proof.
  unfold json_dump. eapply kept_outside_trans.
  - apply ensure_dir_kept.
  - apply write_file_kept.
Qed.

Lemma unlink_kept root q s :
  is_prefix root q = true -> kept_outside A root s (unlink q s).
Proof.
  intros Hq p Hp. split; [trivial|].
  unfold is_file, read, unlink. cbn [files].
  rewrite (lookup_filter_keep A (fun d => negb (path_eqb d q))); [trivial|].
  destruct (path_eqb_spec p q); [congruence|reflexivity].
Qed.

Lemma rmtree_kept root q s :
  is_prefix root q = true -> kept_outside A root s (rmtree q s).
Proof.
  intros Hq p Hp.
  assert (Hqp : is_prefix q p = false).
  { destruct (is_prefix q p) eqn:E; [|reflexivity].
    now rewrite (is_prefix_trans root q p Hq E) in Hp. }
  split.
  - unfold is_dir. destruct p as [|x p]; [trivial|].
    rewrite !existsb_exists. intros (d & Hd & Heq).
    exists d. split; [|exact Heq]. unfold rmtree. cbn [dirs].
    apply filter_In. split; [exact Hd|].
    destruct (path_eqb_spec (x :: p) d) as [<-|]; [|discriminate].
    now rewrite Hqp.
  - unfold is_file, read, rmtree. cbn [files].
    rewrite (lookup_filter_keep A (fun d => negb (is_prefix q d))); [trivial|].
    now rewrite Hqp.
Qed.

Lemma move_kept root src dst s :
  is_prefix root src = true -> kept_outside A root s (move src dst s).
Proof.
  intros Hsrc. unfold move. destruct (read s src) as [c|].
  - apply (kept_outside_trans root s (unlink src s));
      [apply unlink_kept; exact Hsrc|apply write_file_kept].
  - apply kept_outside_refl.
Qed.

Lemma copy2_kept root src dst s s' :
  copy2 src dst s = inr s' -> kept_outside A root s s'.
Proof.
  unfold copy2. destruct (read s src) as [c|]; [|discriminate].
  destruct (path_eqb src dst); [discriminate|].
  intros Heq. injection Heq as <-. apply write_file_kept.
Qed.

Lemma write_many_kept root (written : list (path * list N)) : forall s,
  kept_outside A root s
    (fold_left (fun acc f => write_file (fst f) (Raw (snd f)) acc) written s).
Proof.
  induction written as [|f rest IH]; intros s; cbn [fold_left].
  - apply kept_outside_refl.
  - eapply kept_outside_trans; [apply write_file_kept|apply IH].
Qed.

Lemma frames_ret {R} root (r : R) : frames A root (ret r).
Proof. intros s. apply kept_outside_refl. Qed.

Lemma frames_raise {R} root e : frames A root (@raise A R e).
Proof. intros s. apply kept_outside_refl. Qed.

Lemma frames_lift {R} root (r : exn + R) : frames A root (lift r).
Proof. intros s. apply kept_outside_refl. Qed.

Lemma frames_get root : frames A root (@get A).
Proof. intros s. apply kept_outside_refl. Qed.

Lemma frames_modify root (op : fs A -> fs A) :
  (forall s, kept_outside A root s (op s)) -> frames A root (modify op).
Proof. intros Hop s. apply Hop. Qed.

Lemma frames_bind {R T} root (c : M A R) (k : R -> M A T) :
  frames A root c -> (forall r, frames A root (k r)) -> frames A root (bind c k).
Proof.
  intros Hc Hk s. unfold bind. specialize (Hc s).
  destruct (c s) as [[e|r] s1]; cbn [snd] in *; [exact Hc|].
  eapply kept_outside_trans; [exact Hc|apply Hk].
Qed.

Lemma frames_if {R} root (b : bool) (c1 c2 : M A R) :
  frames A root c1 -> frames A root c2 -> frames A root (if b then c1 else c2).
Proof. destruct b; trivial. Qed.

End Frame.

(** ** The extraction stage and the disk *)

Section ExtractFrame.
Import Sys Disk ExtractStage.
Variable lib : library.
Variable tools : toolchain.
Variable utc_now_iso : nat -> str.
Variable root : path.

Lemma frames_run_writing outcome written : frames artifact root (run_writing outcome written).
Proof. intros s. unfold run_writing. cbn [snd]. apply write_many_kept. Qed.

Lemma frames_try_extract_text pdf_path text_out :
  frames artifact root (try_extract_text tools pdf_path text_out).
Proof.
  unfold try_extract_text.
  apply frames_bind; [apply frames_run_writing|]. intros result.
  apply frames_bind; [apply frames_get|]. intros s.
  apply frames_if; apply frames_ret.
Qed.

Lemma frames_copy2 src dst :
  frames artifact root
    (fun s : fs => match copy2 src dst s with
                   | inl e => (inl e, s)
                   | inr s' => (inr tt, s')
                   end).
Proof.
  intros s. destruct (copy2 src dst s) as [e|s'] eqn:Hc; cbn [snd].
  - apply kept_outside_refl.
  - now apply (copy2_kept artifact root src dst).
Qed.

Lemma frames_full_text_loop source_pdf staging_pdf text_out candidates :
  frames artifact root (full_text_loop tools source_pdf staging_pdf text_out candidates).
Proof.
  induction candidates as [|candidate rest IH]; cbn [full_text_loop].
  - apply frames_ret.
  - apply frames_bind.
    + apply frames_if; [|apply frames_ret].
      apply frames_bind; [apply frames_modify; intros s; apply ensure_dir_kept|].
      intros _. apply frames_copy2.
    + intros _. apply frames_bind; [apply frames_try_extract_text|].
      intros attempt. apply frames_if; [apply frames_ret|exact IH].
Qed.

Lemma listdir_under (d : path) (s : fs) (e : path * content artifact) :
  In e (listdir d s) -> is_prefix d (fst e) = true.
Proof.
  unfold listdir. rewrite filter_In. intros [_ Hc].
  apply andb_prop in Hc as [Hpar Hne].
  destruct (path_eqb_spec (parent (fst e)) d) as [<-|]; [|discriminate].
  destruct (fst e) as [|x p] eqn:Hp; [discriminate|].
  unfold parent. rewrite (app_removelast_last [] (l := x :: p)) at 2 by discriminate.
  apply is_prefix_app.
Qed.

Lemma glob_png_under (raw_dir : path) (prefix : str) (s : fs) (p : path) :
  In p (glob_png raw_dir prefix s) -> is_prefix raw_dir p = true.
Proof.
  unfold glob_png. rewrite in_map_iff. intros (e & <- & He).
  apply filter_In in He as [He _]. now apply listdir_under in He.
Qed.

Lemma assign_values idx file (d : list (Z * path)) k v :
  lookup_index k (assign idx file d) = Some v ->
  v = file \/ lookup_index k d = Some v.
Proof.
  induction d as [|[k0 v0] d IH]; cbn.
  - destruct (Z.eqb idx k); intros H; inversion H. now left.
  - destruct (Z.eqb_spec k0 idx) as [->|Hne]; cbn.
    + destruct (Z.eqb idx k); [intros H; inversion H; now left|now right].
    + destruct (Z.eqb k0 k); [now right|exact IH].
Qed.

Lemma file_index_values (files : list path) k v :
  lookup_index k (file_index lib files) = Some v -> In v files.
Proof.
  unfold file_index.
  assert (Hgen : forall l d,
            lookup_index k
              (fold_left
                 (fun d file =>
                    match lib_image_index_from_filename lib (name file) with
                    | Some idx => assign idx file d
                    | None => d
                    end) l d) = Some v ->
            In v l \/ lookup_index k d = Some v).
  { induction l as [|f l IH]; intros d Hl; cbn [fold_left] in Hl; [now right|].
    apply IH in Hl as [Hin|Hl]; [left; now right|].
    destruct (lib_image_index_from_filename lib (name f)); [|now right].
    apply assign_values in Hl as [->|Hl]; [left; now left|now right]. }
  intros Hl. apply Hgen in Hl as [Hin|Hl]; [exact Hin|discriminate].
Qed.

Lemma frames_filter_row figures_dir file_by_index st row :
  (forall k v, lookup_index k file_by_index = Some v -> is_prefix root v = true) ->
  frames artifact root (filter_row lib figures_dir file_by_index st row).
Proof.
  intros Hunder s. unfold filter_row.
  destruct (lookup_index (Extract.row_num row) file_by_index) as [image_path|] eqn:Hl;
    [|apply kept_outside_refl].
  apply Hunder in Hl.
  destruct (read s image_path) as [c|]; [|apply kept_outside_refl].
  destruct (negb (fst (Extract.should_keep_image _ row _))); cbn [snd];
    [now apply unlink_kept|].
  destruct (str_in _ _); cbn [snd]; [now apply unlink_kept|now apply move_kept].
Qed.

Lemma frames_filter_rows figures_dir file_by_index rows : forall st,
  (forall k v, lookup_index k file_by_index = Some v -> is_prefix root v = true) ->
  frames artifact root (filter_rows lib figures_dir file_by_index rows st).
Proof.
  induction rows as [|row rest IH]; intros st Hunder; cbn [filter_rows].
  - apply frames_ret.
  - apply frames_bind; [now apply frames_filter_row|].
    intros st'. now apply IH.
Qed.

Lemma frames_move_rendered figures_dir rendered : forall acc,
  (forall idx p, In (idx, p) rendered -> is_prefix root p = true) ->
  frames artifact root (move_rendered lib figures_dir rendered acc).
Proof.
  induction rendered as [|[idx page_img] rest IH]; intros acc Hunder;
    cbn [move_rendered].
  - apply frames_ret.
  - intros s.
    eapply kept_outside_trans.
    + apply (move_kept artifact root page_img
               (figures_dir ++ [lit "render_" ++ format_04d idx ++ lit ".png"]) s).
      apply (Hunder idx). now left.
    + apply IH. intros i p Hin. apply (Hunder i). now right.
Qed.

Lemma frames_extract_figures working_pdf figures_dir raw_dir pages_count :
  is_prefix root raw_dir = true ->
  frames artifact root
    (extract_figures lib tools working_pdf figures_dir raw_dir pages_count).
Proof.
  intros Hraw. unfold extract_figures.
  apply frames_bind; [apply frames_modify; intros s; apply ensure_dir_kept|]. intros _.
  apply frames_bind; [apply frames_modify; intros s; apply ensure_dir_kept|]. intros _.
  apply frames_bind; [apply frames_lift|]. intros list_result.
  apply frames_bind; [apply frames_run_writing|]. intros extract_result.
  apply frames_bind; [apply frames_get|]. intros s1.
  apply frames_bind.
  { apply frames_filter_rows. intros k v Hl.
    apply file_index_values in Hl.
    apply (Permutation_in _ (sorted_perm _ _ _)) in Hl.
    apply glob_png_under in Hl. now apply (is_prefix_trans root raw_dir v). }
  intros st.
  apply frames_bind.
  { apply frames_if; [|apply frames_ret].
    apply frames_bind; [apply frames_run_writing|]. intros render_result.
    apply frames_if; [|apply frames_ret].
    apply frames_bind; [apply frames_get|]. intros s2.
    apply frames_move_rendered. intros idx p Hin.
    apply in_enumerate in Hin.
    apply (Permutation_in _ (sorted_perm _ _ _)) in Hin.
    apply glob_png_under in Hin. now apply (is_prefix_trans root raw_dir p). }
  intros final_kept.
  apply frames_bind; [|intros _; apply frames_ret].
  apply frames_modify. intros s.
  destruct (exists_ s raw_dir); [now apply rmtree_kept|apply kept_outside_refl].
Qed.
End ExtractFrame.

Section ExtractPaperFrame.
Import Sys Disk ExtractStage.
Variable lib : library.
Variable tools : toolchain.
Variable utc_now_iso : nat -> str.
Variable out_dir : path.

Lemma under_papers_root (rest : path) :
  is_prefix (out_dir ++ [lit "papers"]) ((out_dir ++ [lit "papers"]) ++ rest) = true.
Proof. apply is_prefix_app. Qed.

Lemma frames_extract_paper staging_root ris force rows_so_far paper :
  frames artifact (out_dir ++ [lit "papers"])
    (extract_paper lib tools utc_now_iso (out_dir ++ [lit "papers"]) staging_root
       ris force rows_so_far paper).
Proof.
  unfold extract_paper.
  apply frames_bind; [apply frames_modify; intros s; apply ensure_dir_kept|]. intros _.
  apply frames_bind; [apply frames_modify; intros s; apply ensure_dir_kept|]. intros _.
  apply frames_bind; [apply frames_get|]. intros s0.
  apply frames_if; [apply frames_ret|].
  apply frames_bind.
  { apply frames_modify. intros s.
    destruct (force && exists_ s _); [|apply kept_outside_refl].
    eapply kept_outside_trans; [|apply ensure_dir_kept].
    eapply kept_outside_trans; [|apply ensure_dir_kept].
    apply rmtree_kept, under_papers_root. }
  intros _.
  apply frames_bind; [apply frames_full_text_loop|]. intros extracted.
  apply frames_bind; [apply frames_get|]. intros s1.
  apply frames_bind.
  { apply frames_extract_figures. rewrite <- app_assoc. apply under_papers_root. }
  intros figure_info.
  repeat (apply frames_bind;
          [apply frames_modify; intros s; apply json_dump_kept|intros _]).
  apply frames_ret.
Qed.

Lemma frames_extract_loop staging_root ris force papers : forall rows_so_far,
  frames artifact (out_dir ++ [lit "papers"])
    (extract_loop lib tools utc_now_iso (out_dir ++ [lit "papers"]) staging_root
       ris force papers rows_so_far).
Proof.
  induction papers as [|paper rest IH]; intros rows_so_far; cbn [extract_loop].
  - apply frames_ret.
  - apply frames_bind; [apply frames_extract_paper|]. intros rows'. apply IH.
Qed.

Lemma staging_outside_papers :
  is_prefix (out_dir ++ [lit "papers"]) (out_dir ++ [lit "staging"]) = false.
Proof. induction out_dir as [|x p IH]; cbn; [reflexivity|]. now rewrite str_eqb_refl. Qed.

(** Once the manifest is loaded, [extract_assets] ends, whether it returns
    or raises, with its staging directory [out_dir / "staging"] on the
    disk. *)
Lemma extract_assets_keeps_staging manifest_path ris_path force (s : fs)
    (m : Manifest.manifest_unique) :
  read s manifest_path = Some (Json (ManifestUnique m)) ->
  is_dir (snd (extract_assets lib tools utc_now_iso manifest_path out_dir ris_path
                 force s))
         (out_dir ++ [lit "staging"]) = true.
Proof.
  intros Hm. unfold extract_assets.
  unfold bind at 1. unfold load_manifest at 1. rewrite Hm.
  unfold bind at 1. unfold get at 1.
  unfold bind at 1. unfold modify at 1.
  unfold bind at 1. unfold modify at 1.
  set (s2 := ensure_dir (out_dir ++ [lit "staging"])
               (ensure_dir (out_dir ++ [lit "papers"]) s)).
  assert (H2 : is_dir s2 (out_dir ++ [lit "staging"]) = true)
    by apply ensure_dir_is_dir.
  match goal with
  | |- is_dir (snd (bind ?c ?k s2)) _ = true =>
      assert (Hframe : frames artifact (out_dir ++ [lit "papers"]) (bind c k))
  end.
  { apply frames_bind; [apply frames_extract_loop|]. intros rows.
    apply frames_modify. intros s'. apply json_dump_kept. }
  apply (Hframe s2 (out_dir ++ [lit "staging"]) staging_outside_papers).
  exact H2.
Qed.
End ExtractPaperFrame.

(** ** Where a stage works *)

Section Away.
Import Sys.
Variable A : Type.
Implicit Types (s : fs A) (p q d x : path) (roots : list path).

Lemma is_prefix_app_inv (a b x : path) :
  is_prefix (a ++ b) x = true -> is_prefix a x = true.
Proof.
  revert x. induction a as [|y a IH]; intros x H; [reflexivity|].
  destruct x as [|z x]; [discriminate|]. cbn in H |- *.
  apply andb_true_iff in H as [Hy Ha]. rewrite Hy. cbn. now apply IH.
Qed.

Lemma is_prefix_cancel (a b c : path) : is_prefix (a ++ b) (a ++ c) = is_prefix b c.
Proof. induction a as [|y a IH]; cbn; [reflexivity|]. now rewrite str_eqb_refl. Qed.

Lemma is_prefix_comparable (d r q : path) :
  is_prefix d q = true -> is_prefix r q = true ->
  is_prefix r d || is_prefix d r = true.
Proof.
  revert r q. induction d as [|y d IH]; intros r q Hd Hr.
  - destruct r; reflexivity.
  - destruct r as [|z r]; [reflexivity|].
    destruct q as [|w q]; [discriminate|]. cbn in Hd, Hr |- *.
    apply andb_true_iff in Hd as [Hy Hd]. apply andb_true_iff in Hr as [Hz Hr].
    apply str_eqb_eq in Hy as ->. apply str_eqb_eq in Hz as ->.
    rewrite str_eqb_refl. cbn. now apply (IH r q).
Qed.

Lemma parent_is_prefix q : is_prefix (parent q) q = true.
Proof.
  unfold parent. destruct q as [|x q]; [reflexivity|].
  rewrite (app_removelast_last [] (l := x :: q)) at 2 by discriminate.
  apply is_prefix_app.
Qed.

Lemma near_true roots p :
  near roots p = true <->
  exists r, In r roots /\ (is_prefix r p = true \/ is_prefix p r = true).
Proof.
  unfold near. rewrite existsb_exists.
  split; intros (r & Hin & H); exists r; (split; [exact Hin|]).
  - now apply orb_true_iff in H.
  - now apply orb_true_iff.
Qed.

Lemma near_prefix roots q d :
  near roots q = true -> is_prefix d q = true -> near roots d = true.
Proof.
  intros Hq Hd. apply near_true in Hq as (r & Hin & [Hr|Hr]);
    apply near_true; exists r; (split; [exact Hin|]).
  - apply orb_true_iff. now apply (is_prefix_comparable d r q).
  - right. now apply (is_prefix_trans d q r).
Qed.

Lemma under_below roots q x :
  under roots q = true -> is_prefix q x = true -> under roots x = true.
Proof.
  unfold under. rewrite !existsb_exists. intros (r & Hin & Hr) Hx.
  exists r. split; [exact Hin|]. now apply (is_prefix_trans r q x).
Qed.

Lemma under_app roots q rest : under roots q = true -> under roots (q ++ rest) = true.
Proof. intros Hq. apply (under_below roots q); [exact Hq|apply is_prefix_app]. Qed.

Lemma under_near roots q : under roots q = true -> near roots q = true.
Proof.
  unfold under, near. rewrite !existsb_exists. intros (r & Hin & Hr).
  exists r. split; [exact Hin|]. now rewrite Hr.
Qed.

Lemma same_away_refl roots s : same_away A roots s s.
Proof. intros p _. split; reflexivity. Qed.

Lemma same_away_trans roots s1 s2 s3 :
  same_away A roots s1 s2 -> same_away A roots s2 s3 -> same_away A roots s1 s3.
Proof.
  intros H12 H23 p Hp. destruct (H12 p Hp) as [Hr Hd], (H23 p Hp) as [Hr' Hd'].
  split; congruence.
Qed.

Lemma same_away_exists roots s s' p :
  same_away A roots s s' -> near roots p = false -> exists_ s' p = exists_ s p.
Proof.
  intros H Hp. destruct (H p Hp) as [Hr Hd]. unfold exists_, is_file.
  now rewrite Hr, Hd.
Qed.

Lemma ensure_dir_away roots q s :
  near roots q = true -> same_away A roots s (ensure_dir q s).
Proof.
  intros Hq p Hp. split; [reflexivity|].
  unfold is_dir. destruct p as [|x p]; [reflexivity|].
  unfold ensure_dir. cbn [dirs]. rewrite existsb_app.
  match goal with
  | |- _ || ?b = _ => destruct b eqn:Hnew; [|apply orb_false_r]
  end.
  exfalso. apply existsb_exists in Hnew as (d & Hd & Heq).
  apply filter_In in Hd as [Hd _].
  destruct (path_eqb_spec (x :: p) d) as [<-|]; [|discriminate].
  apply prefixes_are_prefixes in Hd.
  rewrite (near_prefix roots q (x :: p) Hq Hd) in Hp. discriminate.
Qed.

Lemma write_file_away roots q (c : content A) s :
  near roots q = true -> same_away A roots s (write_file q c s).
Proof.
  intros Hq p Hp. split; [|reflexivity].
  unfold read, write_file. cbn [files lookup].
  destruct (path_eqb_spec q p) as [->|Hne]; [congruence|].
  apply (lookup_filter_keep A (fun d => negb (path_eqb d q))).
  destruct (path_eqb_spec p q); [congruence|reflexivity].
Qed.

Lemma json_dump_away roots q (data : A) s :
  near roots q = true -> same_away A roots s (json_dump q data s).
Proof.
  intros Hq. unfold json_dump. eapply same_away_trans.
  - apply ensure_dir_away, (near_prefix roots q); [exact Hq|apply parent_is_prefix].
  - now apply write_file_away.
Qed.

Lemma unlink_away roots q s :
  near roots q = true -> same_away A roots s (unlink q s).
Proof.
  intros Hq p Hp. split; [|reflexivity].
  unfold read, unlink. cbn [files].
  apply (lookup_filter_keep A (fun d => negb (path_eqb d q))).
  destruct (path_eqb_spec p q); [congruence|reflexivity].
Qed.

Lemma rmtree_away roots q s :
  under roots q = true -> same_away A roots s (rmtree q s).
Proof.
  intros Hq p Hp.
  assert (Hqp : is_prefix q p = false).
  { destruct (is_prefix q p) eqn:E; [|reflexivity].
    rewrite (under_near roots p (under_below roots q p Hq E)) in Hp. discriminate. }
  split.
  - unfold read, rmtree. cbn [files].
    apply (lookup_filter_keep A (fun d => negb (is_prefix q d))). now rewrite Hqp.
  - unfold is_dir. destruct p as [|x p]; [reflexivity|].
    unfold rmtree. cbn [dirs].
    induction (dirs s) as [|d l IH]; [reflexivity|]. cbn [filter].
    destruct (is_prefix q d) eqn:Hd; cbn [negb existsb].
    + destruct (path_eqb_spec (x :: p) d) as [<-|]; [congruence|]. exact IH.
    + now rewrite IH.
Qed.

Lemma move_away roots src dst s :
  near roots src = true -> near roots dst = true ->
  same_away A roots s (move src dst s).
Proof.
  intros Hsrc Hdst. unfold move. destruct (read s src) as [c|].
  - apply (same_away_trans roots s (unlink src s));
      [now apply unlink_away|now apply write_file_away].
  - apply same_away_refl.
Qed.

Lemma copy2_away roots src dst s s' :
  near roots dst = true -> copy2 src dst s = inr s' -> same_away A roots s s'.
Proof.
  intros Hdst. unfold copy2. destruct (read s src) as [c|]; [|discriminate].
  destruct (path_eqb src dst); [discriminate|].
  intros Heq. injection Heq as <-. now apply write_file_away.
Qed.

Lemma write_many_away roots (written : list (path * list N)) :
  Forall (fun f => near roots (fst f) = true) written ->
  forall s,
    same_away A roots s
      (fold_left (fun acc f => write_file (fst f) (Raw (snd f)) acc) written s).
Proof.
  induction 1 as [|f rest Hf _ IH]; intros s; cbn [fold_left].
  - apply same_away_refl.
  - apply (same_away_trans roots s (write_file (fst f) (Raw (snd f)) s));
      [now apply write_file_away|apply IH].
Qed.

Lemma works_ret {R} roots (r : R) : works_near A roots (ret r).
Proof. intros s. apply same_away_refl. Qed.

Lemma works_lift {R} roots (r : exn + R) : works_near A roots (lift r).
Proof. intros s. apply same_away_refl. Qed.

Lemma works_get roots : works_near A roots (@get A).
Proof. intros s. apply same_away_refl. Qed.

Lemma works_modify roots (op : fs A -> fs A) :
  (forall s, same_away A roots s (op s)) -> works_near A roots (modify op).
Proof. intros Hop s. apply Hop. Qed.

Lemma works_bind {R T} roots (c : M A R) (k : R -> M A T) :
  works_near A roots c -> (forall r, works_near A roots (k r)) ->
  works_near A roots (bind c k).
Proof.
  intros Hc Hk s. unfold bind. specialize (Hc s).
  destruct (c s) as [[e|r] s1]; cbn [snd] in *; [exact Hc|].
  eapply same_away_trans; [exact Hc|apply Hk].
Qed.

Lemma works_if {R} roots (b : bool) (c1 c2 : M A R) :
  works_near A roots c1 -> works_near A roots c2 ->
  works_near A roots (if b then c1 else c2).
Proof. destruct b; trivial. Qed.

(** Making a directory changes no path that is not on the way to it. *)
Lemma ensure_dir_exists_other q s x :
  is_prefix x q = false -> exists_ (ensure_dir q s) x = exists_ s x.
Proof.
  intros Hx. unfold exists_. f_equal.
  destruct x as [|y x]; [discriminate|].
  unfold is_dir, ensure_dir. cbn [dirs]. rewrite existsb_app.
  match goal with
  | |- _ || ?b = _ => destruct b eqn:Hnew; [|apply orb_false_r]
  end.
  exfalso. apply existsb_exists in Hnew as (d & Hd & Heq).
  apply filter_In in Hd as [Hd _].
  destruct (path_eqb_spec (y :: x) d) as [<-|]; [|discriminate].
  apply prefixes_are_prefixes in Hd. congruence.
Qed.

Lemma json_dump_is_file q (data : A) s : is_file (json_dump q data s) q = true.
Proof.
  unfold json_dump. rewrite is_file_write_file. now rewrite path_eqb_refl.
Qed.

Lemma json_dump_keeps_file q (data : A) s p :
  is_file s p = true -> is_file (json_dump q data s) p = true.
Proof.
  intros Hp. unfold json_dump. rewrite is_file_write_file.
  change (is_file (ensure_dir (parent q) s) p) with (is_file s p).
  rewrite Hp. apply orb_true_r.
Qed.
End Away.

Section ExtractAway.
Import Sys Disk ExtractStage.
Variable lib : library.
Variable tools : toolchain.
Variable utc_now_iso : nat -> str.
Variable roots : list path.

Lemma works_run_writing outcome written :
  Forall (fun f => near roots (fst f) = true) written ->
  works_near artifact roots (run_writing outcome written).
Proof. intros Hw s. unfold run_writing. cbn [snd]. now apply write_many_away. Qed.

Lemma works_try_extract_text pdf_path text_out :
  near roots text_out = true ->
  works_near artifact roots (try_extract_text tools pdf_path text_out).
Proof.
  intros Hout. unfold try_extract_text.
  apply works_bind.
  { apply works_run_writing. destruct (snd (run_pdftotext tools _)); repeat constructor.
    exact Hout. }
  intros result.
  apply works_bind; [apply works_get|]. intros s.
  apply works_if; apply works_ret.
Qed.

Lemma works_copy2 src dst :
  near roots dst = true ->
  works_near artifact roots
    (fun s : fs => match copy2 src dst s with
                   | inl e => (inl e, s)
                   | inr s' => (inr tt, s')
                   end).
Proof.
  intros Hdst s. destruct (copy2 src dst s) as [e|s'] eqn:Hc; cbn [snd].
  - apply same_away_refl.
  - now apply (copy2_away artifact roots src dst).
Qed.

Lemma works_full_text_loop source_pdf staging_pdf text_out candidates :
  near roots staging_pdf = true -> near roots text_out = true ->
  works_near artifact roots
    (full_text_loop tools source_pdf staging_pdf text_out candidates).
Proof.
  intros Hstage Hout.
  induction candidates as [|candidate rest IH]; cbn [full_text_loop].
  - apply works_ret.
  - apply works_bind.
    + apply works_if; [|apply works_ret].
      apply works_bind.
      * apply works_modify. intros s. apply ensure_dir_away.
        apply (near_prefix roots staging_pdf); [exact Hstage|apply parent_is_prefix].
      * intros _. now apply works_copy2.
    + intros _. apply works_bind; [now apply works_try_extract_text|].
      intros attempt. apply works_if; [apply works_ret|exact IH].
Qed.

Lemma works_filter_row figures_dir file_by_index st row :
  under roots figures_dir = true ->
  (forall k v, lookup_index k file_by_index = Some v -> under roots v = true) ->
  works_near artifact roots (filter_row lib figures_dir file_by_index st row).
Proof.
  intros Hfig Hunder s. unfold filter_row.
  destruct (lookup_index (Extract.row_num row) file_by_index) as [image_path|] eqn:Hl;
    [|apply same_away_refl].
  apply Hunder, under_near in Hl.
  destruct (read s image_path) as [c|]; [|apply same_away_refl].
  destruct (negb (fst (Extract.should_keep_image _ row _))); cbn [snd];
    [now apply unlink_away|].
  destruct (str_in _ _); cbn [snd]; [now apply unlink_away|].
  apply move_away; [exact Hl|]. now apply under_near, under_app.
Qed.

Lemma works_filter_rows figures_dir file_by_index rows : forall st,
  under roots figures_dir = true ->
  (forall k v, lookup_index k file_by_index = Some v -> under roots v = true) ->
  works_near artifact roots (filter_rows lib figures_dir file_by_index rows st).
Proof.
  induction rows as [|row rest IH]; intros st Hfig Hunder; cbn [filter_rows].
  - apply works_ret.
  - apply works_bind; [now apply works_filter_row|].
    intros st'. now apply IH.
Qed.

Lemma works_move_rendered figures_dir rendered : forall acc,
  under roots figures_dir = true ->
  (forall idx p, In (idx, p) rendered -> under roots p = true) ->
  works_near artifact roots (move_rendered lib figures_dir rendered acc).
Proof.
  induction rendered as [|[idx page_img] rest IH]; intros acc Hfig Hunder;
    cbn [move_rendered].
  - apply works_ret.
  - intros s.
    eapply same_away_trans.
    + apply (move_away artifact roots page_img
               (figures_dir ++ [lit "render_" ++ format_04d idx ++ lit ".png"]) s).
      * apply under_near, (Hunder idx). now left.
      * now apply under_near, under_app.
    + apply IH; [exact Hfig|]. intros i p Hin. apply (Hunder i). now right.
Qed.

Lemma written_under raw_dir (files : list (str * list N)) :
  under roots raw_dir = true ->
  Forall (fun f : path * list N => near roots (fst f) = true)
         (map (fun f => (raw_dir ++ [fst f], snd f)) files).
Proof.
  intros Hraw. apply Forall_forall. intros f Hin.
  apply in_map_iff in Hin as (g & <- & _). cbn [fst].
  now apply under_near, under_app.
Qed.

Lemma works_extract_figures working_pdf figures_dir raw_dir pages_count :
  under roots figures_dir = true -> under roots raw_dir = true ->
  works_near artifact roots
    (extract_figures lib tools working_pdf figures_dir raw_dir pages_count).
Proof.
  intros Hfig Hraw. unfold extract_figures.
  apply works_bind;
    [apply works_modify; intros s; now apply ensure_dir_away, under_near|]. intros _.
  apply works_bind;
    [apply works_modify; intros s; now apply ensure_dir_away, under_near|]. intros _.
  apply works_bind; [apply works_lift|]. intros list_result.
  apply works_bind; [now apply works_run_writing, written_under|].
  intros extract_result.
  apply works_bind; [apply works_get|]. intros s1.
  apply works_bind.
  { apply works_filter_rows; [exact Hfig|]. intros k v Hl.
    apply file_index_values in Hl.
    apply (Permutation_in _ (sorted_perm _ _ _)) in Hl.
    apply glob_png_under in Hl. now apply (under_below roots raw_dir v). }
  intros st.
  apply works_bind.
  { apply works_if; [|apply works_ret].
    apply works_bind; [now apply works_run_writing, written_under|].
    intros render_result.
    apply works_if; [|apply works_ret].
    apply works_bind; [apply works_get|]. intros s2.
    apply works_move_rendered; [exact Hfig|]. intros idx p Hin.
    apply in_enumerate in Hin.
    apply (Permutation_in _ (sorted_perm _ _ _)) in Hin.
    apply glob_png_under in Hin. now apply (under_below roots raw_dir p). }
  intros final_kept.
  apply works_bind; [|intros _; apply works_ret].
  apply works_modify. intros s.
  destruct (exists_ s raw_dir); [now apply rmtree_away|apply same_away_refl].
Qed.
End ExtractAway.

Section ExtractPaperAway.
Import Sys Disk ExtractStage.
Variable lib : library.
Variable tools : toolchain.
Variable utc_now_iso : nat -> str.
Variable out_dir : path.

(** The body of the loop for one paper works in that paper's directory
    and in the staging directory. *)
Lemma works_extract_paper ris force rows_so_far paper :
  works_near artifact
    [(out_dir ++ [lit "papers"]) ++ [Manifest.paper_id paper];
     out_dir ++ [lit "staging"]]
    (extract_paper lib tools utc_now_iso (out_dir ++ [lit "papers"])
       (out_dir ++ [lit "staging"]) ris force rows_so_far paper).
Proof.
  set (paper_dir := (out_dir ++ [lit "papers"]) ++ [Manifest.paper_id paper]).
  set (roots := [paper_dir; out_dir ++ [lit "staging"]]).
  assert (Hdir : under roots paper_dir = true).
  { cbn. now rewrite is_prefix_refl. }
  assert (Hstage : forall x, under roots ((out_dir ++ [lit "staging"]) ++ x) = true).
  { intros x. cbn. rewrite is_prefix_app. now rewrite orb_true_r. }
  assert (Hin : forall x, under roots (paper_dir ++ x) = true).
  { intros x. now apply under_app. }
  unfold extract_paper. fold paper_dir.
  apply works_bind;
    [apply works_modify; intros s; now apply ensure_dir_away, under_near|]. intros _.
  apply works_bind;
    [apply works_modify; intros s; apply ensure_dir_away, under_near, Hin|]. intros _.
  apply works_bind; [apply works_get|]. intros s0.
  apply works_if; [apply works_ret|].
  apply works_bind.
  { apply works_modify. intros s.
    destruct (force && exists_ s _); [|apply same_away_refl].
    eapply same_away_trans; [|apply ensure_dir_away, under_near, Hin].
    eapply same_away_trans; [|now apply ensure_dir_away, under_near].
    now apply rmtree_away. }
  intros _.
  apply works_bind.
  { apply works_full_text_loop; apply under_near; [apply Hstage|apply Hin]. }
  intros extracted.
  apply works_bind; [apply works_get|]. intros s1.
  apply works_bind; [apply works_extract_figures; apply Hin|].
  intros figure_info.
  repeat (apply works_bind;
          [apply works_modify; intros s; apply json_dump_away, under_near, Hin
          |intros _]).
  apply works_ret.
Qed.
End ExtractPaperAway.

(** ** Papers whose text cannot be extracted *)

Section ExtractTotal.
Import Sys Disk ExtractStage.
Variable lib : library.
Variable tools : toolchain.
Variable utc_now_iso : nat -> str.

Hypothesis live : tools_end tools.

Lemma is_file_ensure_dir (q p : path) (s : fs) :
  is_file (ensure_dir q s) p = is_file s p.
Proof. reflexivity. Qed.

Lemma is_file_write_many (written : list (path * list N)) (p : path) : forall s : fs,
  is_file s p = true ->
  is_file (fold_left (fun acc f => write_file (fst f) (Raw (snd f)) acc) written s) p
  = true.
Proof.
  induction written as [|f rest IH]; intros s Hf; cbn [fold_left]; [exact Hf|].
  apply IH. rewrite is_file_write_file, Hf. apply orb_true_r.
Qed.

Lemma try_extract_text_total pdf_path text_out (s : fs) :
  exists ok note s',
    try_extract_text tools pdf_path text_out s = (inr (ok, note), s') /\
    (text_fails tools pdf_path -> ok = false) /\
    (forall p, is_file s p = true -> is_file s' p = true).
Proof.
  unfold try_extract_text, bind, run_writing, get.
  destruct live as (Htext & _).
  destruct (Htext (path_str pdf_path)) as [r Hout]. rewrite Hout.
  cbn [run_command].
  set (s1 := fold_left (fun acc f => write_file (fst f) (Raw (snd f)) acc) _ s).
  assert (Hmono : forall p, is_file s p = true -> is_file s1 p = true).
  { intros p. apply is_file_write_many. }
  destruct (Z.eqb_spec (code r) 0) as [Hz|Hnz]; cbn [andb].
  - destruct (exists_ s1 text_out).
    + eexists _, _, _. split; [reflexivity|]. split; [|exact Hmono].
      intros (r' & Hr' & Hcode). congruence.
    + eexists _, _, _. split; [reflexivity|]. split; [reflexivity|exact Hmono].
  - eexists _, _, _. split; [reflexivity|]. split; [reflexivity|exact Hmono].
Qed.

Lemma full_text_loop_total source_pdf staging_pdf text_out candidates : forall s : fs,
  source_pdf <> staging_pdf ->
  is_file s source_pdf = true ->
  exists ok note working s',
    full_text_loop tools source_pdf staging_pdf text_out candidates s
      = (inr (ok, note, working), s') /\
    ((forall c, In c candidates -> text_fails tools c) -> ok = false).
Proof.
  induction candidates as [|candidate rest IH]; intros s Hne Hsrc;
    cbn [full_text_loop].
  - eexists _, _, _, _. split; reflexivity.
  - unfold bind at 1.
    assert (Hprep : exists s1,
               (if path_eqb candidate staging_pdf
                then bind (modify (ensure_dir (parent staging_pdf)))
                       (fun _ s0 => match copy2 source_pdf staging_pdf s0 with
                                    | inl e => (inl e, s0)
                                    | inr s' => (inr tt, s')
                                    end)
                else ret tt) s = (inr tt, s1) /\
               is_file s1 source_pdf = true).
    { destruct (path_eqb candidate staging_pdf).
      - unfold bind, modify, copy2. unfold read.
        change (files (ensure_dir (parent staging_pdf) s)) with (files s).
        unfold is_file, read in Hsrc.
        destruct (lookup source_pdf (files s)) as [c|] eqn:Hl; [|discriminate].
        destruct (path_eqb_spec source_pdf staging_pdf) as [|_]; [contradiction|].
        eexists. split; [reflexivity|].
        rewrite is_file_write_file. unfold is_file, read.
        change (files (ensure_dir (parent staging_pdf) s)) with (files s).
        rewrite Hl. apply orb_true_r.
      - exists s. split; [reflexivity|exact Hsrc]. }
    destruct Hprep as (s1 & -> & Hsrc1).
    unfold bind at 1.
    destruct (try_extract_text_total candidate text_out s1)
      as (ok & note & s2 & -> & Hfail & Hmono).
    cbn [fst snd]. destruct ok.
    + eexists _, _, _, _. split; [reflexivity|].
      intros Hall. apply Hfail, Hall. now left.
    + destruct (IH s2 Hne (Hmono _ Hsrc1))
        as (ok' & note' & working & s3 & -> & Hrest).
      eexists _, _, _, _. split; [reflexivity|].
      intros Hall. apply Hrest. intros c Hc. apply Hall. now right.
Qed.

Lemma filter_rows_total figures_dir file_by_index rows : forall st (s : fs),
  exists st' s', filter_rows lib figures_dir file_by_index rows st s = (inr st', s').
Proof.
  induction rows as [|row rest IH]; intros st s; cbn [filter_rows].
  - eexists _, _. reflexivity.
  - unfold bind.
    assert (Hrow : exists st1 s1,
               filter_row lib figures_dir file_by_index st row s = (inr st1, s1)).
    { unfold filter_row.
      destruct (lookup_index _ _) as [image_path|]; [|eexists _, _; reflexivity].
      destruct (read s image_path) as [c|]; [|eexists _, _; reflexivity].
      destruct (negb _); [eexists _, _; reflexivity|].
      destruct (str_in _ _); eexists _, _; reflexivity. }
    destruct Hrow as (st1 & s1 & ->). apply IH.
Qed.

Lemma move_rendered_total figures_dir rendered : forall acc (s : fs),
  exists kept' s', move_rendered lib figures_dir rendered acc s = (inr kept', s').
Proof.
  induction rendered as [|[idx page_img] rest IH]; intros acc s; cbn [move_rendered].
  - eexists _, _. reflexivity.
  - apply IH.
Qed.

Lemma extract_figures_total working_pdf figures_dir raw_dir pages_count (s : fs) :
  exists info s',
    extract_figures lib tools working_pdf figures_dir raw_dir pages_count s
      = (inr info, s').
Proof.
  destruct live as (_ & Hlist & Hpng & Hppm).
  unfold extract_figures.
  unfold bind at 1. unfold modify at 1.
  unfold bind at 1. unfold modify at 1.
  unfold bind at 1. unfold lift at 1.
  destruct (Hlist (path_str working_pdf)) as [list_result ->].
  cbn [run_command].
  unfold bind at 1. unfold run_writing at 1.
  destruct (Hpng (path_str working_pdf)) as [extract_result ->].
  cbn [run_command].
  unfold bind at 1. unfold get at 1.
  unfold bind at 1.
  match goal with
  | |- context [filter_rows lib ?fd ?fi ?rows ?st ?s1] =>
      destruct (filter_rows_total fd fi rows st s1) as (st' & s2 & ->)
  end.
  unfold bind at 1.
  match goal with
  | |- context [(if ?b then ?c1 else ?c2) s2] =>
      assert (Hfb : exists final s3, (if b then c1 else c2) s2 = (inr final, s3))
  end.
  { destruct (_ && _); [|eexists _, _; reflexivity].
    unfold bind at 1. unfold run_writing at 1.
    destruct (Hppm (path_str working_pdf)
                (Z.to_nat (Z.min 12 (Z.max 0 pages_count)))) as [render_result ->].
    cbn [run_command].
    destruct (code render_result =? 0)%Z; [|eexists _, _; reflexivity].
    unfold bind, get. apply move_rendered_total. }
  destruct Hfb as (final & s3 & ->).
  unfold bind, modify, ret. eexists _, _. reflexivity.
Qed.
End ExtractTotal.

Section ExtractBatch.
Import Sys Disk ExtractStage.
Variable lib : library.
Variable tools : toolchain.
Variable utc_now_iso : nat -> str.
Variable out_dir : path.
Hypothesis live : tools_end tools.

Lemma source_present_kept (s s' : fs) paper :
  kept_outside artifact (out_dir ++ [lit "papers"]) s s' ->
  source_present out_dir s paper -> source_present out_dir s' paper.
Proof.
  intros Hk [Hf Hout]. split; [|exact Hout].
  apply (Hk (path_of_str (Manifest.canonical_absolute_path paper))); [|exact Hf].
  destruct (is_prefix (out_dir ++ [lit "papers"]) _) eqn:E; [|reflexivity].
  apply is_prefix_app_inv in E. congruence.
Qed.

Lemma source_not_staged (s : fs) paper (x : path) :
  source_present out_dir s paper ->
  path_of_str (Manifest.canonical_absolute_path paper)
  <> (out_dir ++ [lit "staging"]) ++ x.
Proof.
  intros [_ Hout] Heq. rewrite Heq, <- app_assoc, is_prefix_app in Hout.
  discriminate.
Qed.

Lemma metadata_not_on_the_way (id : str) :
  is_prefix (metadata_file out_dir id) (out_dir ++ [lit "papers"]) = false /\
  is_prefix (metadata_file out_dir id) (out_dir ++ [lit "staging"]) = false /\
  is_prefix (metadata_file out_dir id) ((out_dir ++ [lit "papers"]) ++ [id]) = false /\
  is_prefix (metadata_file out_dir id)
    (((out_dir ++ [lit "papers"]) ++ [id]) ++ [lit "figures"]) = false.
Proof.
  unfold metadata_file. rewrite <- !app_assoc, !is_prefix_cancel. cbn [app].
  cbn. rewrite !str_eqb_refl. repeat split.
Qed.

(** The metadata file of a paper is not near what the loop body writes
    for a paper of another name. *)
Lemma metadata_other (id other : str) :
  other <> id ->
  near [(out_dir ++ [lit "papers"]) ++ [other]; out_dir ++ [lit "staging"]]
       (metadata_file out_dir id) = false.
Proof.
  intros Hne. unfold metadata_file, near. cbn [existsb].
  rewrite <- !app_assoc, !is_prefix_cancel. cbn [app]. cbn.
  rewrite (str_eqb_neq _ _ Hne). now rewrite andb_false_r.
Qed.

Lemma extract_paper_total ris force rows_so_far paper (s : fs) :
  source_present out_dir s paper ->
  exists row s',
    extract_paper lib tools utc_now_iso (out_dir ++ [lit "papers"])
      (out_dir ++ [lit "staging"]) ris force rows_so_far paper s
      = (inr (rows_so_far ++ [row]), s') /\
    Extract.row_paper_id row = Manifest.paper_id paper /\
    (if negb force && exists_ s (metadata_file out_dir (Manifest.paper_id paper))
     then Extract.status row = lit "skipped" /\ Extract.row_text_extracted row = None
     else
       Extract.status row = lit "processed" /\
       exists ok, Extract.row_text_extracted row = Some ok /\
         (text_fails tools (path_of_str (Manifest.canonical_absolute_path paper)) ->
          text_fails tools
            ((out_dir ++ [lit "staging"])
               ++ [choose_ascii_stage_name (Manifest.paper_id paper)]) ->
          ok = false)) /\
    exists_ s' (metadata_file out_dir (Manifest.paper_id paper)) = true.
Proof.
  intros Hsrc. unfold extract_paper.
  unfold bind at 1. unfold modify at 1.
  unfold bind at 1. unfold modify at 1.
  unfold bind at 1. unfold get at 1.
  set (paper_dir := (out_dir ++ [lit "papers"]) ++ [Manifest.paper_id paper]).
  set (s0 := ensure_dir (paper_dir ++ [lit "figures"]) (ensure_dir paper_dir s)).
  change (metadata_file out_dir (Manifest.paper_id paper))
    with (paper_dir ++ [lit "metadata.json"]).
  assert (Hsrc0 : source_present out_dir s0 paper).
  { apply (source_present_kept s); [|exact Hsrc].
    unfold s0. eapply kept_outside_trans; apply ensure_dir_kept. }
  assert (Hcond : negb force && exists_ s (paper_dir ++ [lit "metadata.json"])
                  = exists_ s0 (paper_dir ++ [lit "metadata.json"]) && negb force).
  { destruct (metadata_not_on_the_way (Manifest.paper_id paper))
      as (_ & _ & Hdir & Hfig).
    unfold s0.
    rewrite (ensure_dir_exists_other artifact _ _ _ Hfig).
    rewrite (ensure_dir_exists_other artifact _ _ _ Hdir).
    apply andb_comm. }
  destruct (exists_ s0 (paper_dir ++ [lit "metadata.json"]) && negb force) eqn:Hskip.
  { eexists _, _. split; [reflexivity|]. split; [reflexivity|].
    rewrite Hcond. split; [now split|].
    now apply andb_true_iff in Hskip. }
  unfold bind at 1. unfold modify at 1.
  set (s1 := if force && exists_ s0 paper_dir
             then ensure_dir (paper_dir ++ [lit "figures"])
                    (ensure_dir paper_dir (rmtree paper_dir s0))
             else s0).
  assert (Hsrc1 : source_present out_dir s1 paper).
  { apply (source_present_kept s0); [|exact Hsrc0].
    unfold s1. destruct (force && exists_ s0 paper_dir); [|apply kept_outside_refl].
    eapply kept_outside_trans; [|apply ensure_dir_kept].
    eapply kept_outside_trans; [|apply ensure_dir_kept].
    apply rmtree_kept, is_prefix_app. }
  unfold bind at 1. unfold extract_full_text.
  match goal with
  | |- context [full_text_loop tools ?src ?stg ?out ?cands s1] =>
      destruct (full_text_loop_total tools live src stg out cands s1
                  (source_not_staged s1 paper _ Hsrc1) (proj1 Hsrc1))
        as (ok & note & working & s2 & -> & Hfail)
  end.
  unfold bind at 1. unfold get at 1.
  unfold bind at 1.
  match goal with
  | |- context [extract_figures lib tools ?w ?fd ?rd ?pc s2] =>
      destruct (extract_figures_total lib tools live w fd rd pc s2)
        as (info & s3 & ->)
  end.
  unfold bind, modify, ret. cbn [fst snd].
  eexists _, _. split; [reflexivity|].
  split; [reflexivity|]. rewrite Hcond. split.
  - split; [reflexivity|].
    exists ok. split; [reflexivity|].
    intros Hdirect Hstaged. apply Hfail. intros c Hc.
    destruct (str_eqb _ _); cbn in Hc; destruct Hc as [<-|[<-|[]]]; assumption.
  - unfold exists_. apply orb_true_iff. right.
    do 3 apply json_dump_keeps_file. apply json_dump_is_file.
Qed.

(** The loop, started after the papers [earlier] on a disk [s_i] on which
    exactly the metadata files of [s] and of [earlier] exist. *)
Lemma extract_loop_total ris force (s : fs) papers :
  forall earlier rows_so_far (s_i : fs),
  Forall (source_present out_dir s_i) papers ->
  (forall id,
      exists_ s_i (metadata_file out_dir id)
      = exists_ s (metadata_file out_dir id)
        || existsb (fun q => str_eqb (Manifest.paper_id q) id) earlier) ->
  exists new_rows s',
    extract_loop lib tools utc_now_iso (out_dir ++ [lit "papers"])
      (out_dir ++ [lit "staging"]) ris force papers rows_so_far s_i
      = (inr (rows_so_far ++ new_rows), s') /\
    rows_of tools out_dir force s earlier papers new_rows.
Proof.
  induction papers as [|paper rest IH]; intros earlier rows_so_far s_i Hall Hinv;
    cbn [extract_loop].
  - exists [], s_i. rewrite app_nil_r. split; [reflexivity|exact I].
  - inversion Hall as [|? ? Hsrc Hrest]; subst.
    unfold bind.
    pose proof (frames_extract_paper lib tools utc_now_iso out_dir
                  (out_dir ++ [lit "staging"]) ris force rows_so_far paper s_i)
      as Hkept.
    pose proof (works_extract_paper lib tools utc_now_iso out_dir
                  ris force rows_so_far paper s_i) as Haway.
    destruct (extract_paper_total ris force rows_so_far paper s_i Hsrc)
      as (row & s1 & Hrun & Hid & Hrow & Hdone).
    rewrite Hrun in Hkept, Haway |- *. cbn [snd] in Hkept, Haway.
    destruct (IH (earlier ++ [paper]) (rows_so_far ++ [row]) s1)
      as (new_rows & s2 & -> & Hrows).
    { apply Forall_forall. intros p Hp.
      apply (source_present_kept s_i); [exact Hkept|].
      now apply (proj1 (Forall_forall _ _) Hrest). }
    { intros id. rewrite existsb_app. cbn [existsb]. rewrite orb_false_r.
      destruct (str_eqb_spec (Manifest.paper_id paper) id) as [<-|Hne].
      - rewrite Hdone. now rewrite !orb_true_r.
      - rewrite orb_false_r, <- Hinv.
        apply (same_away_exists artifact _ s_i s1 _ Haway).
        now apply metadata_other. }
    exists (row :: new_rows), s2. rewrite <- app_assoc. split; [reflexivity|].
    cbn [rows_of]. split; [|exact Hrows].
    unfold row_of, done_before. rewrite <- Hinv. split; [exact Hid|exact Hrow].
Qed.

(** With tools that start and end in time and every source file in
    place, the stage returns and its summary holds one row per paper, in
    manifest order. *)
Lemma extract_assets_total manifest_path ris_path force (s : fs)
    (m : Manifest.manifest_unique) :
  read s manifest_path = Some (Json (ManifestUnique m)) ->
  Forall (source_present out_dir s) (Manifest.papers m) ->
  exists s' summary,
    extract_assets lib tools utc_now_iso manifest_path out_dir ris_path force s
      = (inr tt, s') /\
    read s' (out_dir ++ [lit "extraction_summary.json"])
      = Some (Json (ExtractionSummaryJson summary)) /\
    rows_of tools out_dir force s [] (Manifest.papers m) (Extract.rows summary) /\
    Extract.total_records summary = length (Manifest.papers m).
Proof.
  intros Hm Hall. unfold extract_assets.
  unfold bind at 1. unfold load_manifest at 1. rewrite Hm.
  unfold bind at 1. unfold get at 1.
  unfold bind at 1. unfold modify at 1.
  unfold bind at 1. unfold modify at 1.
  unfold bind at 1.
  set (s2 := ensure_dir (out_dir ++ [lit "staging"])
               (ensure_dir (out_dir ++ [lit "papers"]) s)).
  match goal with
  | |- context [extract_loop lib tools utc_now_iso ?pr ?sr ?ris force ?ps [] s2] =>
      destruct (extract_loop_total ris force s ps [] [] s2) as (rows & s3 & -> & Hrows)
  end.
  { apply Forall_forall. intros p Hp.
    apply (source_present_kept s).
    - unfold s2. eapply kept_outside_trans; apply ensure_dir_kept.
    - now apply (proj1 (Forall_forall _ _) Hall). }
  { intros id. cbn [existsb]. rewrite orb_false_r.
    destruct (metadata_not_on_the_way id) as (Hpapers & Hstaging & _).
    unfold s2.
    rewrite (ensure_dir_exists_other artifact _ _ _ Hstaging).
    now rewrite (ensure_dir_exists_other artifact _ _ _ Hpapers). }
  cbn [app]. unfold modify.
  eexists _, _. split; [reflexivity|]. split.
  - unfold json_dump, read, write_file. cbn [files lookup].
    now rewrite path_eqb_refl.
  - cbn [Extract.rows Extract.total_records]. split; [exact Hrows|].
    clear - Hrows. revert Hrows. generalize (@nil Manifest.unique_record).
    generalize (Manifest.papers m).
    induction rows as [|row rows IH]; intros [|paper papers] earlier Hrows;
      cbn in Hrows |- *; try contradiction; [reflexivity|].
    f_equal. apply (IH papers (earlier ++ [paper])), Hrows.
Qed.
End ExtractBatch.







(** ** summarize_papers: what a run depends on *)

Section SummarizeDisk.
Import Sys Summarize SummarizeStage.
Variable lower : str -> str.
Variable abstract_search : str -> option str.
Variable decode : list N -> str.
Variable encode : output -> list N.
Variable loads_error : str -> option exn.
Variable as_manifest : str -> exn + manifest.
Variable as_metadata : str -> exn + metadata.
Variable as_equations : str -> eq_file.
Variable as_figures : str -> fig_file.
Implicit Types (domain : path -> Prop) (s : fs) (p : path).

Lemma reads_only_ret {R} domain (r : R) : reads_only domain (ret r : M R).
Proof. split; reflexivity. Qed.

Lemma reads_only_raise {R} domain e : reads_only domain (raise e : M R).
Proof. split; reflexivity. Qed.

Lemma reads_only_lift {R} domain (r : exn + R) : reads_only domain (lift r : M R).
Proof. split; reflexivity. Qed.

Lemma reads_only_bind {R T} domain (c : M R) (k : R -> M T) :
  reads_only domain c -> (forall r, reads_only domain (k r)) ->
  reads_only domain (bind c k).
Proof.
  intros [Hkeep Hsame] Hk. split.
  - intros s. unfold bind. specialize (Hkeep s).
    destruct (c s) as [[e|r] s']; cbn [snd] in *; [exact Hkeep|].
    subst s'. apply (Hk r).
  - intros s1 s2 Hd. unfold bind.
    pose proof (Hkeep s1) as H1. pose proof (Hkeep s2) as H2.
    pose proof (Hsame s1 s2 Hd) as H12.
    destruct (c s1) as [r1 t1], (c s2) as [r2 t2]. cbn [fst snd] in *. subst.
    destruct r2 as [e|r]; [reflexivity|]. now apply (Hk r).
Qed.

Lemma reads_only_if {R} domain (b : bool) (c1 c2 : M R) :
  reads_only domain c1 -> reads_only domain c2 ->
  reads_only domain (if b then c1 else c2).
Proof. now destruct b. Qed.

Lemma reads_only_path_exists domain p : domain p -> reads_only domain (path_exists p).
Proof.
  intros Hp. split; [reflexivity|]. intros s1 s2 Hd.
  destruct (Hd p Hp) as [Hr Hdir]. unfold path_exists, exists_, is_file. cbn [fst].
  now rewrite Hr, Hdir.
Qed.

Lemma reads_only_read_text domain p :
  domain p -> reads_only domain (read_text decode encode p).
Proof.
  intros Hp. split.
  - intros s. unfold read_text. now destruct (read s p).
  - intros s1 s2 Hd. destruct (Hd p Hp) as [Hr Hdir].
    unfold read_text. rewrite Hr, Hdir. now destruct (read s2 p).
Qed.

Lemma reads_only_load_json domain p :
  domain p -> reads_only domain (load_json decode encode loads_error p).
Proof.
  intros Hp. unfold load_json.
  apply reads_only_bind; [now apply reads_only_read_text|]. intros text.
  destruct (loads_error text); [apply reads_only_raise|apply reads_only_ret].
Qed.

Lemma reads_only_load_text domain p :
  domain p -> reads_only domain (load_text decode encode p).
Proof.
  intros Hp. unfold load_text.
  apply reads_only_bind; [now apply reads_only_path_exists|]. intros present.
  apply reads_only_if; [apply reads_only_ret|].
  apply reads_only_bind; [now apply reads_only_read_text|]. intros text.
  apply reads_only_ret.
Qed.

Lemma reads_only_load_optional domain p :
  domain p -> reads_only domain (load_optional decode encode loads_error p).
Proof.
  intros Hp. unfold load_optional.
  apply reads_only_bind; [now apply reads_only_path_exists|]. intros present.
  apply reads_only_if; [|apply reads_only_ret].
  apply reads_only_bind; [now apply reads_only_load_json|]. intros text.
  apply reads_only_ret.
Qed.

(** The loop body reads in the papers directory only. *)
Lemma reads_only_load_assets assets_dir paper_id :
  reads_only (fun p => is_prefix (assets_dir ++ [lit "papers"]) p = true)
    (load_assets decode encode loads_error as_metadata as_equations as_figures
       assets_dir paper_id).
Proof.
  assert (Hin : forall file,
            is_prefix (assets_dir ++ [lit "papers"])
              (((assets_dir ++ [lit "papers"]) ++ [paper_id]) ++ [file]) = true).
  { intros file. rewrite <- app_assoc. apply is_prefix_app. }
  unfold load_assets.
  apply reads_only_bind; [apply reads_only_path_exists, Hin|]. intros present.
  apply reads_only_if; [apply reads_only_ret|].
  apply reads_only_bind; [apply reads_only_load_json, Hin|]. intros metadata.
  apply reads_only_bind; [apply reads_only_load_text, Hin|]. intros text.
  apply reads_only_bind; [apply reads_only_load_optional, Hin|]. intros equations.
  apply reads_only_bind; [apply reads_only_load_optional, Hin|]. intros figures_index.
  apply reads_only_bind; [apply reads_only_lift|]. intros md.
  apply reads_only_ret.
Qed.

Lemma reads_only_summarize_loop assets_dir items :
  reads_only (fun p => is_prefix (assets_dir ++ [lit "papers"]) p = true)
    (SummarizeStage.summarize_loop lower abstract_search decode encode loads_error
       as_metadata as_equations as_figures assets_dir items).
Proof.
  induction items as [|[citation_number [p|]] rest IH];
    cbn [SummarizeStage.summarize_loop]; [apply reads_only_ret| |exact IH].
  apply reads_only_bind; [apply reads_only_load_assets|]. intros [a|]; [|exact IH].
  apply reads_only_bind; [exact IH|]. intros results. apply reads_only_ret.
Qed.

Lemma reads_only_weaken {R} (domain domain' : path -> Prop) (c : M R) :
  (forall p, domain p -> domain' p) -> reads_only domain c -> reads_only domain' c.
Proof.
  intros Hsub [Hkeep Hsame]. split; [exact Hkeep|].
  intros s1 s2 Hd. apply Hsame. intros p Hp. now apply Hd, Hsub.
Qed.

Lemma read_json_dump p (data : output) s : read (json_dump p data s) p = Some (Json data).
Proof.
  unfold json_dump, read, write_file. cbn [files lookup]. now rewrite path_eqb_refl.
Qed.

(** A run is what it gathers, followed by the write of the output. *)
Lemma summarize_papers_gather (utc_now_iso : nat -> str)
    manifest_path assets_dir out_json s :
  SummarizeStage.summarize_papers lower abstract_search decode encode
    loads_error as_manifest as_metadata as_equations as_figures utc_now_iso
    manifest_path assets_dir out_json s
  = match gather lower abstract_search decode encode loads_error as_manifest
            as_metadata as_equations as_figures manifest_path assets_dir s with
    | (inl e, s') => (inl e, s')
    | (inr (m, items, results), s') =>
        (inr tt,
         json_dump out_json
           (build_output (utc_now_iso 0) (path_str manifest_path)
              (path_str assets_dir) m items results) s')
    end.
Proof.
  unfold SummarizeStage.summarize_papers, gather, bind, lift, raise, ret, modify.
  destruct (load_json decode encode loads_error manifest_path s) as [[e|text] s1];
    [reflexivity|].
  destruct (as_manifest text) as [e|m]; [reflexivity|].
  destruct (m_papers m) as [items|]; [|reflexivity].
  destruct (SummarizeStage.summarize_loop _ _ _ _ _ _ _ _ _ _ s1)
    as [[e|results] s2]; reflexivity.
Qed.

Lemma reads_only_gather manifest_path assets_dir :
  reads_only
    (fun p => p = manifest_path \/ is_prefix (assets_dir ++ [lit "papers"]) p = true)
    (gather lower abstract_search decode encode loads_error as_manifest
       as_metadata as_equations as_figures manifest_path assets_dir).
Proof.
  unfold gather.
  apply reads_only_bind; [apply reads_only_load_json; now left|]. intros text.
  apply reads_only_bind; [apply reads_only_lift|]. intros m.
  destruct (m_papers m) as [items|]; [|apply reads_only_raise].
  apply reads_only_bind; [|intros results; apply reads_only_ret].
  apply (reads_only_weaken
           (fun p => is_prefix (assets_dir ++ [lit "papers"]) p = true));
    [intros p Hp; now right|apply reads_only_summarize_loop].
Qed.

(** Runs on two disks with the same input end alike up to the time
    stamp. *)
Lemma summarize_papers_same (utc1 utc2 : nat -> str)
    manifest_path assets_dir out_json s1 s2 :
  same_input manifest_path assets_dir s1 s2 ->
  same_up_to_timestamp out_json (utc1 0) (utc2 0)
    (SummarizeStage.summarize_papers lower abstract_search decode encode
       loads_error as_manifest as_metadata as_equations as_figures utc1
       manifest_path assets_dir out_json s1)
    (SummarizeStage.summarize_papers lower abstract_search decode encode
       loads_error as_manifest as_metadata as_equations as_figures utc2
       manifest_path assets_dir out_json s2).
Proof.
  intros Hin. rewrite !summarize_papers_gather.
  destruct (reads_only_gather manifest_path assets_dir) as [Hkeep Hsame].
  pose proof (Hkeep s1) as H1. pose proof (Hkeep s2) as H2.
  pose proof (Hsame s1 s2 Hin) as H12.
  destruct (gather _ _ _ _ _ _ _ _ _ manifest_path assets_dir s1) as [g1 t1].
  destruct (gather _ _ _ _ _ _ _ _ _ manifest_path assets_dir s2) as [g2 t2].
  cbn [fst snd] in *. subst t1 t2 g2.
  destruct g1 as [e|[[m items] results]]; unfold same_up_to_timestamp; cbn [fst snd].
  - reflexivity.
  - eexists _, _. split; [apply read_json_dump|]. split; [apply read_json_dump|].
    split; [reflexivity|]. split; [reflexivity|]. split; [reflexivity|].
    intros Hnow. unfold build_output. now rewrite Hnow.
Qed.

(** A run changes the output file and the directories on the way to it,
    and nothing else. *)
Lemma summarize_papers_writes (utc_now_iso : nat -> str)
    manifest_path assets_dir out_json s :
  same_away output [out_json] s
    (snd (SummarizeStage.summarize_papers lower abstract_search decode encode
            loads_error as_manifest as_metadata as_equations as_figures utc_now_iso
            manifest_path assets_dir out_json s)).
Proof.
  rewrite summarize_papers_gather.
  destruct (reads_only_gather manifest_path assets_dir) as [Hkeep _].
  specialize (Hkeep s).
  destruct (gather _ _ _ _ _ _ _ _ _ manifest_path assets_dir s) as [g t].
  cbn [snd] in Hkeep. subst t.
  destruct g as [e|[[m items] results]]; cbn [snd]; [apply same_away_refl|].
  apply json_dump_away. cbn. now rewrite is_prefix_refl.
Qed.

(** With the output file apart from the input, a run leaves the input as
    it found it. *)
Lemma summarize_papers_keeps_input (utc_now_iso : nat -> str)
    manifest_path assets_dir out_json s :
  output_apart manifest_path assets_dir out_json ->
  same_input manifest_path assets_dir s
    (snd (SummarizeStage.summarize_papers lower abstract_search decode encode
            loads_error as_manifest as_metadata as_equations as_figures utc_now_iso
            manifest_path assets_dir out_json s)).
Proof.
  intros [Hmanifest Hpapers] p Hp.
  pose proof (summarize_papers_writes utc_now_iso manifest_path assets_dir
                out_json s) as Haway.
  assert (Hnear : near [out_json] p = false).
  { destruct Hp as [->|Hp]; [exact Hmanifest|].
    cbn [near existsb] in Hpapers |- *. rewrite orb_false_r in Hpapers |- *.
    apply orb_false_iff in Hpapers as [Hout Hin]. apply orb_false_iff. split.
    - destruct (is_prefix out_json p) eqn:Hop; [|reflexivity].
      pose proof (is_prefix_comparable _ _ _ Hop Hp) as Hcmp.
      rewrite Hin, Hout in Hcmp. discriminate.
    - destruct (is_prefix p out_json) eqn:Hpo; [|reflexivity].
      rewrite (is_prefix_trans _ _ _ Hp Hpo) in Hin. discriminate. }
  destruct (Haway p Hnear) as [Hr Hd]. now split.
Qed.
End SummarizeDisk.

(** C3, amended.  A run of the summariser depends on its extraction
    input and on the clock only.  Two runs over the same input - the
    manifest, whose paper identifiers are plain names, and what lies at
    or below the papers directory - whatever else differs on their
    disks, provided the output file can be written on both, end alike
    up to the time stamp: both raise the same exception, or both write an
    output, and the two outputs agree on
    every key except [generated_at_utc], which holds the clock reading of
    each run; with the same reading they are the same.  A run changes
    nothing but the output file and the directories on the way to it, so
    that, with the output file apart from the input, a second run on the
    disk that the first one leaves ends like the first up to the time
    stamp. *)
Theorem summary_same_up_to_timestamp :
  forall (lower : str -> str) (abstract_search : str -> option str)
         (decode : list N -> str) (encode : Summarize.output -> list N)
         (loads_error : str -> option exn)
         (as_manifest : str -> exn + Summarize.manifest)
         (as_metadata : str -> exn + Summarize.metadata)
         (as_equations : str -> Summarize.eq_file)
         (as_figures : str -> Summarize.fig_file)
         (utc1 utc2 : nat -> str)
         (manifest_path assets_dir out_json : Sys.path),
    let run := fun utc_now_iso =>
      SummarizeStage.summarize_papers lower abstract_search decode encode
        loads_error as_manifest as_metadata as_equations as_figures utc_now_iso
        manifest_path assets_dir out_json in
    (forall s1 s2,
        SummarizeStage.plain_ids decode encode loads_error as_manifest
          manifest_path s1 ->
        SummarizeStage.can_write out_json s1 = true ->
        SummarizeStage.can_write out_json s2 = true ->
        SummarizeStage.same_input manifest_path assets_dir s1 s2 ->
        SummarizeStage.same_up_to_timestamp out_json (utc1 0) (utc2 0)
          (run utc1 s1) (run utc2 s2)) /\
    (forall s,
        Sys.same_away Summarize.output [out_json] s (snd (run utc1 s))) /\
    (forall s,
        SummarizeStage.plain_ids decode encode loads_error as_manifest
          manifest_path s ->
        SummarizeStage.can_write out_json s = true ->
        SummarizeStage.output_apart manifest_path assets_dir out_json ->
        SummarizeStage.same_up_to_timestamp out_json (utc1 0) (utc2 0)
          (run utc1 s) (run utc2 (snd (run utc1 s)))).
Proof.
  intros lower abstract_search decode encode loads_error as_manifest as_metadata
         as_equations as_figures utc1 utc2 manifest_path assets_dir out_json run.
  split; [|split].
  - intros s1 s2 _ _ _ Hin. now apply summarize_papers_same.
  - intros s. apply summarize_papers_writes.
  - intros s _ _ Hapart. apply summarize_papers_same.
    now apply summarize_papers_keeps_input.
Qed.

Lemma summary_same_up_to_timestamp_witness :
  SummarizeStage.same_up_to_timestamp Fixture.out_json
    (lit "2026-02-11T10:00:00Z") (lit "2026-02-11T10:00:01Z")
    (Fixture.summarizer Fixture.clock Fixture.extracted)
    (Fixture.summarizer Fixture.later_clock Fixture.extracted_with_notes) /\
  SummarizeStage.same_up_to_timestamp Fixture.out_json
    (lit "2026-02-11T10:00:00Z") (lit "2026-02-11T10:00:01Z")
    (Fixture.summarizer Fixture.clock Fixture.extracted)
    (Fixture.summarizer Fixture.later_clock
       (snd (Fixture.summarizer Fixture.clock Fixture.extracted))).
Proof.
  destruct (summary_same_up_to_timestamp ascii_lower (fun _ => None)
              (fun bytes => bytes) (fun _ => [])
              (fun _ => None) (fun _ => inr Fixture.summary_manifest)
              (fun _ => inr Fixture.summary_metadata)
              (fun _ => Summarize.EqList []) (fun _ => Summarize.FigDict None)
              Fixture.clock Fixture.later_clock
              Fixture.manifest_path Fixture.out_dir Fixture.out_json)
    as (Hsame & _ & Hagain).
  assert (Hplain : SummarizeStage.plain_ids (fun bytes => bytes) (fun _ => [])
                     (fun _ => None) (fun _ => inr Fixture.summary_manifest)
                     Fixture.manifest_path Fixture.extracted).
  { intros text m items p _ Hm Hitems Hin.
    injection Hm as <-. injection Hitems as <-.
    destruct Hin as [Hp|[]]. injection Hp as <-. reflexivity. }
  split.
  - apply (Hsame Fixture.extracted Fixture.extracted_with_notes Hplain);
      [reflexivity|reflexivity|].
    intros p [->|Hp]; [split; reflexivity|].
    unfold Fixture.out_dir in Hp. cbn [app] in Hp.
    destruct p as [|a [|b rest]]; cbn [Sys.is_prefix] in Hp;
      [discriminate|rewrite andb_false_r in Hp; discriminate|].
    apply andb_true_iff in Hp as [Ha Hp].
    apply andb_true_iff in Hp as [Hb _].
    apply str_eqb_eq in Ha as <-. apply str_eqb_eq in Hb as <-.
    split; reflexivity.
  - apply (Hagain Fixture.extracted Hplain); [reflexivity|]. split; reflexivity.
Defined.

(* ================================================================== *)
(** * Further properties of the pipeline code *)
(* ================================================================== *)

(** ** research_common.chunked for any chunk size *)

Section SizesFacts.
Import Publish.
Variable sz : nat.
Hypothesis sz_pos : 0 < sz.

Lemma sizes_gen_bounds m : Forall (fun n => 0 < n <= sz) (sizes_gen sz m).
Proof.
  unfold sizes_gen. apply Forall_app. split.
  - apply Forall_forall. intros n Hn. apply repeat_spec in Hn. lia.
  - destruct (Nat.eqb_spec (m mod sz) 0) as [|Hne]; constructor; [|constructor].
    pose proof (Nat.mod_upper_bound m sz). lia.
Qed.

Lemma sizes_gen_full m n : In n (removelast (sizes_gen sz m)) -> n = sz.
Proof.
  unfold sizes_gen. destruct (Nat.eqb_spec (m mod sz) 0) as [|Hne].
  - rewrite app_nil_r. intros Hn.
    assert (Hin : In n (repeat sz (m / sz))).
    { clear - Hn. induction (repeat sz (m / sz)) as [|x l IH]; [contradiction|].
      cbn in Hn. destruct l; [contradiction|].
      destruct Hn as [->|Hn]; [now left | right; now apply IH]. }
    now apply repeat_spec in Hin.
  - rewrite removelast_app by discriminate. cbn. rewrite app_nil_r.
    apply repeat_spec.
Qed.

Lemma sizes_gen_length m : length (sizes_gen sz m) = (m + sz - 1) / sz.
Proof.
  unfold sizes_gen. rewrite length_app, repeat_length.
  pose proof (Nat.div_mod_eq m sz) as Hm.
  pose proof (Nat.mod_upper_bound m sz ltac:(lia)) as Hr.
  destruct (Nat.eqb_spec (m mod sz) 0) as [Hz|Hne]; cbn [length].
  - apply Nat.div_unique with (r := sz - 1); lia.
  - apply Nat.div_unique with (r := m mod sz - 1); lia.
Qed.
End SizesFacts.

Lemma map_length_forall (A : Type) (P : nat -> Prop) (l : list (list A)) :
  Forall P (map (@length A) l) -> Forall (fun c => P (length c)) l.
Proof. intros H. apply Forall_forall. intros c Hc.
  rewrite Forall_forall in H. apply H. now apply in_map. Qed.

Lemma in_removelast_map (A B : Type) (f : A -> B) (l : list A) (x : A) :
  In x (removelast l) -> In (f x) (removelast (map f l)).
Proof.
  induction l as [|y l IH]; [contradiction|].
  cbn [removelast map]. destruct l as [|z l]; [contradiction|].
  cbn [map]. intros [->|Hin]; [now left | right; now apply IH].
Qed.

(** X1.  [chunked] refuses a chunk size that is not positive with
    [ValueError].  For a positive size the chunks, concatenated in order,
    are the input list; no chunk is empty or longer than the size; every
    chunk but the last one has exactly the size; and there are
    [ceil(len(items) / size)] chunks, none for an empty list. *)
Theorem chunked_partitions :
  forall (A : Type) (items : list A) (size : Z),
    ((size <= 0)%Z ->
     Publish.chunked items size = inl (ValueError (lit "chunk size must be > 0"))) /\
    ((0 < size)%Z ->
     exists chunks,
       Publish.chunked items size = inr chunks /\
       concat chunks = items /\
       Forall (fun c => 0 < length c <= Z.to_nat size) chunks /\
       (forall c, In c (removelast chunks) -> length c = Z.to_nat size) /\
       length chunks = (length items + Z.to_nat size - 1) / Z.to_nat size).
Proof.
  intros A items size. unfold Publish.chunked. split; intros Hsize.
  - destruct (Z.leb_spec size 0); [reflexivity | lia].
  - destruct (Z.leb_spec size 0); [lia|].
    assert (Hpos : 0 < Z.to_nat size) by lia.
    eexists. split; [reflexivity|].
    destruct (@range_chunks A items (Z.to_nat size) Hpos (length items) 0 ltac:(lia))
      as [Hcat Hlen].
    unfold range_step. rewrite Nat.sub_0_r in Hlen. cbn [skipn] in Hcat.
    split; [exact Hcat|]. split; [|split].
    + apply (map_length_forall A (fun n => 0 < n <= Z.to_nat size)).
      rewrite Hlen. now apply sizes_gen_bounds.
    + intros c Hc. apply (in_removelast_map _ _ (@length A)) in Hc.
      rewrite Hlen in Hc. now apply sizes_gen_full in Hc.
    + rewrite <- (length_map (@length A)), Hlen. now apply sizes_gen_length.
Qed.

Lemma chunked_partitions_witness :
  Publish.chunked [1; 2; 3; 4; 5; 6; 7] 0 = inl (ValueError (lit "chunk size must be > 0")) /\
  exists chunks,
    Publish.chunked [1; 2; 3; 4; 5; 6; 7] 3 = inr chunks /\
    concat chunks = [1; 2; 3; 4; 5; 6; 7] /\
    length chunks = 3.
Proof.
  split.
  - apply (proj1 (chunked_partitions nat [1; 2; 3; 4; 5; 6; 7] 0)). lia.
  - destruct (proj2 (chunked_partitions nat [1; 2; 3; 4; 5; 6; 7] 3) ltac:(lia))
      as (chunks & Hrun & Hcat & _ & _ & Hlen).
    exists chunks. repeat split; assumption.
Defined.

(** ** publish_notion.request_with_retry and append_blocks *)

Section RetryFacts.
Import Publish.
Variable isdigit : N -> bool.
Variable sleep_float : str -> option exn.
Variable net : network.

Lemma request_attempts_spec k : forall attempt_no max_attempts n res n',
  attempt_no + k = S max_attempts ->
  request_attempts isdigit sleep_float net k attempt_no max_attempts n = (res, n') ->
  n <= n' <= n + k /\
  (0 < k -> n < n') /\
  (forall j, n <= j -> S j < n' -> retried net j) /\
  (forall j r, n <= j -> S j < n' -> net j = Responded r ->
               retry_pause isdigit sleep_float r = None) /\
  match res with
  | inr r => 0 < n' /\ net (n' - 1) = Responded r /\
             (retryable (status_code r) = true -> n' = n + k)
  | inl e =>
      (n' = n + k /\ (0 < k -> net (n' - 1) = NetworkError) /\
       e = RuntimeError (lit "request failed after retries")) \/
      (0 < n' /\ n' < n + k /\
       exists r, net (n' - 1) = Responded r /\
                 retryable (status_code r) = true /\
                 retry_pause isdigit sleep_float r = Some e)
  end.
Proof.
  induction k as [|k IH]; intros attempt_no max_attempts n res n' Hsum Hrun;
    cbn [request_attempts] in Hrun.
  - inversion Hrun; subst. split; [lia|]. split; [lia|].
    split; [intros; lia|]. split; [intros; lia|].
    left. repeat split; lia.
  - destruct (net n) as [|r] eqn:Hnet.
    + apply IH in Hrun; [|lia].
      destruct Hrun as (Hb & Hlt & Hmid & Hquiet & Hres).
      split; [lia|]. split; [lia|]. split; [|split].
      * intros j Hj1 Hj2. destruct (Nat.eq_dec j n) as [->|Hne].
        -- now left.
        -- apply Hmid; lia.
      * intros j r Hj1 Hj2 Hr. destruct (Nat.eq_dec j n) as [->|Hne].
        -- congruence.
        -- apply (Hquiet j); [lia | lia | exact Hr].
      * destruct res as [e|r].
        -- destruct Hres as [(Hn' & Hlast & He)|(Hpos & Hn' & Hraised)].
           ++ left. split; [lia|]. split; [|exact He].
              intros _. destruct k; [|apply Hlast; lia].
              replace (n' - 1) with n by lia. exact Hnet.
           ++ right. split; [exact Hpos|]. split; [lia | exact Hraised].
        -- destruct Hres as (Hpos & Hlast & Hretry). split; [exact Hpos|].
           split; [exact Hlast|]. intros Hr. rewrite (Hretry Hr). lia.
    + destruct (retryable (status_code r) && (attempt_no <? max_attempts)) eqn:Hagain.
      * apply andb_prop in Hagain as [Hr Hlt'].
        destruct (retry_pause isdigit sleep_float r) as [raised|] eqn:Hpause.
        -- inversion Hrun; subst. apply Nat.ltb_lt in Hlt'.
           split; [lia|]. split; [lia|].
           split; [intros; lia|]. split; [intros; lia|].
           right. split; [lia|]. split; [lia|]. exists r.
           replace (S n - 1) with n by lia. repeat split; assumption.
        -- apply IH in Hrun; [|lia].
           destruct Hrun as (Hb & Hlt & Hmid & Hquiet & Hres).
           split; [lia|]. split; [lia|]. split; [|split].
           ++ intros j Hj1 Hj2. destruct (Nat.eq_dec j n) as [->|Hne].
              ** right. now exists r.
              ** apply Hmid; lia.
           ++ intros j r0 Hj1 Hj2 Hr0. destruct (Nat.eq_dec j n) as [->|Hne].
              ** congruence.
              ** apply (Hquiet j); [lia | lia | exact Hr0].
           ++ destruct res as [e|r0].
              ** destruct Hres as [(Hn' & Hlast & He)|(Hpos & Hn' & Hraised)].
                 --- left. split; [lia|]. split; [|exact He].
                     intros _. apply Nat.ltb_lt in Hlt'.
                     destruct k; [lia | apply Hlast; lia].
                 --- right. split; [exact Hpos|]. split; [lia | exact Hraised].
              ** destruct Hres as (Hpos & Hlast & Hretry). split; [exact Hpos|].
                 split; [exact Hlast|]. intros Hr0. rewrite (Hretry Hr0). lia.
      * inversion Hrun; subst. split; [lia|]. split; [lia|].
        split; [intros; lia|]. split; [intros; lia|].
        split; [lia|]. replace (S n - 1) with n by lia. split; [exact Hnet|].
        intros Hr. rewrite Hr in Hagain. cbn in Hagain.
        apply Nat.ltb_ge in Hagain. lia.
Qed.
End RetryFacts.

(** X2.  [request_with_retry] makes at least one and at most six HTTP
    attempts.  Every attempt before the last one made was retried because
    the connection failed or the status was 429, 500, 502, 503 or 504,
    and the pause after it went through.  A response that is returned is
    the one of the last attempt, and it can carry a retry status only
    when it is the sixth.  An exception is either the [RuntimeError]
    after six attempts, the sixth of which failed to connect, or the one
    that [float] or [time.sleep] raised on the [Retry-After] header, made
    of digits, of a response with a retry status that was not the sixth
    attempt. *)
Theorem request_with_retry_attempts :
  forall (isdigit : N -> bool) (sleep_float : str -> option exn)
         (net : Publish.network) (n : nat) (res : exn + Publish.response) (n' : nat),
    Publish.request_with_retry isdigit sleep_float net n = (res, n') ->
    n < n' <= n + 6 /\
    (forall j, n <= j -> S j < n' -> retried net j) /\
    (forall j r, n <= j -> S j < n' -> net j = Publish.Responded r ->
                 Publish.retry_pause isdigit sleep_float r = None) /\
    match res with
    | inr r => net (n' - 1) = Publish.Responded r /\
               (Publish.retryable (Publish.status_code r) = true -> n' = n + 6)
    | inl e =>
        (n' = n + 6 /\ net (n + 5) = Publish.NetworkError /\
         e = RuntimeError (lit "request failed after retries")) \/
        (n' < n + 6 /\
         exists r header,
           net (n' - 1) = Publish.Responded r /\
           Publish.retryable (Publish.status_code r) = true /\
           Publish.retry_after_header r = Some header /\
           header <> [] /\ forallb isdigit header = true /\
           sleep_float header = Some e)
    end.
Proof.
  intros isdigit sleep_float net n res n' Hrun.
  unfold Publish.request_with_retry in Hrun.
  apply request_attempts_spec in Hrun; [|reflexivity].
  destruct Hrun as (Hb & Hlt & Hmid & Hquiet & Hres).
  split; [split; [apply Hlt; lia | lia]|]. split; [exact Hmid|].
  split; [exact Hquiet|].
  destruct res as [e|r].
  - destruct Hres as [(Hn' & Hlast & He)|(Hpos & Hn' & r & Hr & Hretry & Hpause)].
    + left. split; [exact Hn'|]. split; [|exact He].
      replace (n + 5) with (n' - 1) by lia. apply Hlast. lia.
    + right. split; [exact Hn'|]. unfold Publish.retry_pause in Hpause.
      destruct (Publish.retry_after_header r) as [header|] eqn:Hheader;
        [|discriminate].
      destruct (nonempty header && forallb isdigit header) eqn:Hdigits;
        [|discriminate].
      apply andb_true_iff in Hdigits as [Hne Hall].
      exists r, header. split; [exact Hr|]. split; [exact Hretry|].
      split; [exact Hheader|]. split; [|split; assumption].
      destruct header; [discriminate Hne | discriminate].
  - destruct Hres as (_ & Hlast & Hretry). split; assumption.
Qed.

Lemma request_with_retry_attempts_witness :
  let net := fun k => if k <? 2 then Publish.NetworkError
                      else Publish.Responded
                             {| Publish.status_code := 200;
                                Publish.retry_after_header := None |} in
  Publish.request_with_retry ascii_digit (fun _ => None) net 0 =
    (inr {| Publish.status_code := 200; Publish.retry_after_header := None |}, 3) /\
  Publish.request_with_retry
    (fun c => ascii_digit c || (c =? 178)%N)
    (fun text => if forallb ascii_digit text then None
                 else Some (ValueError (lit "could not convert string to float")))
    (fun _ => Publish.Responded
                {| Publish.status_code := 429;
                   Publish.retry_after_header := Some [178%N] |}) 0
  = (inl (ValueError (lit "could not convert string to float")), 1) /\
  retried net 0 /\ retried net 1.
Proof.
  cbv zeta. split; [reflexivity|]. split; [reflexivity|].
  pose proof (request_with_retry_attempts ascii_digit (fun _ => None)
                (fun k => if k <? 2 then Publish.NetworkError
                          else Publish.Responded
                                 {| Publish.status_code := 200;
                                    Publish.retry_after_header := None |})
                0 _ 3 eq_refl) as (_ & Hmid & _).
  split; apply Hmid; lia.
Defined.

Lemma length_enumerate (A : Type) (l : list A) :
  forall n, length (enumerate n l) = length l.
Proof. induction l as [|x l IH]; intros n; cbn; [|rewrite IH]; reflexivity. Qed.

Lemma firstn_seq_prefix (k start len : nat) :
  k <= len -> firstn k (seq start len) = seq start k.
Proof.
  revert start len. induction k as [|k IH]; intros start len Hk; [reflexivity|].
  destruct len as [|len]; [lia|]. cbn. f_equal. apply IH. lia.
Qed.

Section AppendStops.
Import Publish.
Variable B : Type.
Variable isdigit : N -> bool.
Variable sleep_float : str -> option exn.
Variable net : network.

Lemma append_loop_log chunks : forall (st : pub_state B) res st',
  append_loop isdigit sleep_float net chunks st = (res, st') ->
  exists k new,
    k <= length chunks /\
    payloads st' = payloads st ++ firstn k (map snd chunks) /\
    publish_log st' = publish_log st ++ new /\
    map chunk_index new = firstn (length new) (map fst chunks) /\
    map chunk_size new = firstn (length new) (map (fun c => length (snd c)) chunks) /\
    Forall (fun ev => (logged_status ev < 300)%Z) (removelast new) /\
    match res with
    | inr _ => k = length chunks /\ length new = k /\
               Forall (fun ev => (logged_status ev < 300)%Z) new
    | inl e =>
        0 < k /\
        ((length new = k /\ (300 <= logged_status (last new
                               {| chunk_index := 0; chunk_size := 0;
                                  logged_status := 300 |}))%Z /\
          e = RuntimeError (lit "append blocks failed")) \/
         (S (length new) = k /\
          exists n n',
            request_with_retry isdigit sleep_float net n = (inl e, n')))
    end.
Proof.
  induction chunks as [|[idx chunk] rest IH]; intros st res st' Hrun;
    cbn [append_loop] in Hrun.
  - inversion Hrun; subst. exists 0, []. cbn. rewrite !app_nil_r.
    split; [lia|]. do 4 (split; [reflexivity|]). split; [constructor|].
    split; [reflexivity|]. split; [reflexivity | constructor].
  - destruct (request_with_retry isdigit sleep_float net (attempts_made st)) as [[e|r] n'] eqn:Hreq.
    + inversion Hrun; subst. exists 1, []. cbn. rewrite app_nil_r.
      split; [lia|]. do 4 (split; [reflexivity|]). split; [constructor|].
      split; [lia|]. right. split; [reflexivity|].
      exists (attempts_made st), n'. exact Hreq.
    + destruct (Z.leb_spec 300 (status_code r)) as [Hbad|Hgood].
      * inversion Hrun; subst.
        exists 1, [{| chunk_index := idx; chunk_size := length chunk;
                      logged_status := status_code r |}].
        cbn. split; [lia|]. do 4 (split; [reflexivity|]). split; [constructor|].
        split; [lia|]. left. split; [reflexivity|]. split; [exact Hbad | reflexivity].
      * apply IH in Hrun.
        destruct Hrun as (k & new & Hk & Hpay & Hlog & Hidx & Hsz & Hinit & Hres).
        cbn [payloads publish_log] in Hpay, Hlog.
        set (ev := {| chunk_index := idx; chunk_size := length chunk;
                      logged_status := status_code r |}) in *.
        exists (S k), (ev :: new). cbn [length map firstn fst snd].
        split; [lia|]. split; [now rewrite Hpay, <- app_assoc|].
        split; [now rewrite Hlog, <- app_assoc|].
        split; [now rewrite Hidx|]. split; [now rewrite Hsz|].
        split.
        { destruct new as [|ev' new']; [constructor|].
          change (removelast (ev :: ev' :: new')) with (ev :: removelast (ev' :: new')).
          constructor; [exact Hgood | exact Hinit]. }
        destruct res as [e|u].
        -- destruct Hres as (Hpos & [(Hlen & Hlast & He)|(Hlen & He)]).
           ++ split; [lia|]. left. split; [lia|]. split; [|exact He].
              destruct new as [|ev' new']; [cbn in Hlen; lia | exact Hlast].
           ++ split; [lia|]. right. split; [lia | exact He].
        -- destruct Hres as (Hk' & Hlen & Hall).
           split; [lia|]. split; [lia|]. constructor; [exact Hgood | exact Hall].
Qed.
End AppendStops.

(** X3.  [append_blocks] sends the chunks in order and stops at the first
    one that fails: the payloads sent are the first [k] chunks, the log
    gained one entry per chunk that got a response, numbered from 1 and
    carrying the chunk sizes, and every logged status but the last is below
    300.  It returns only when all chunks were sent and accepted.  It
    raises [RuntimeError] right after logging a status of 300 or more, or
    it passes on the exception that [request_with_retry] raised for the
    chunk, which then has no log entry; no later chunk is sent in either
    case. *)
Theorem append_blocks_stops_at_first_failure :
  forall (B : Type) (isdigit : N -> bool) (sleep_float : str -> option exn)
         (net : Publish.network) (blocks : list B)
         (st : Publish.pub_state B) (res : exn + unit) (st' : Publish.pub_state B),
    Publish.append_blocks isdigit sleep_float net blocks st = (res, st') ->
    exists chunks k new,
      Publish.chunked blocks 100 = inr chunks /\
      k <= length chunks /\
      Publish.payloads st' = Publish.payloads st ++ firstn k chunks /\
      Publish.publish_log st' = Publish.publish_log st ++ new /\
      map Publish.chunk_index new = seq 1 (length new) /\
      map Publish.chunk_size new = firstn (length new) (map (@length B) chunks) /\
      Forall (fun ev => (Publish.logged_status ev < 300)%Z) (removelast new) /\
      match res with
      | inr _ => k = length chunks /\ length new = k /\
                 Forall (fun ev => (Publish.logged_status ev < 300)%Z) new
      | inl e =>
          0 < k /\
          ((length new = k /\
            (300 <= Publish.logged_status
                      (last new {| Publish.chunk_index := 0; Publish.chunk_size := 0;
                                   Publish.logged_status := 300 |}))%Z /\
            e = RuntimeError (lit "append blocks failed")) \/
           (S (length new) = k /\
            exists n n',
              Publish.request_with_retry isdigit sleep_float net n = (inl e, n')))
      end.
Proof.
  intros B isdigit sleep_float net blocks st res st' Hrun.
  unfold Publish.append_blocks in Hrun.
  destruct (chunked_100 B blocks) as (chunks & Hch & _ & _).
  rewrite Hch in Hrun.
  apply append_loop_log in Hrun.
  destruct Hrun as (k & new & Hk & Hpay & Hlog & Hidx & Hsz & Hinit & Hres).
  rewrite enumerate_snd in Hpay. rewrite enumerate_fst in Hidx.
  rewrite length_enumerate in Hk, Hres.
  assert (Hlen : length new <= length chunks).
  { destruct res as [e|u].
    - destruct Hres as (_ & [(Hl & _)|(Hl & _)]); lia.
    - destruct Hres as (_ & Hl & _). lia. }
  exists chunks, k, new. split; [exact Hch|]. split; [exact Hk|].
  split; [exact Hpay|]. split; [exact Hlog|].
  split; [rewrite Hidx; now apply firstn_seq_prefix|].
  split; [|split; assumption].
  rewrite Hsz. f_equal. clear. generalize 1.
  induction chunks as [|c l IH]; intros n; cbn; [|rewrite IH]; reflexivity.
Qed.

Lemma append_blocks_stops_at_first_failure_witness :
  let net := fun k => Publish.Responded
                        {| Publish.status_code := if k =? 1 then 400 else 200;
                           Publish.retry_after_header := None |} in
  let run := Publish.append_blocks ascii_digit (fun _ => None) net (repeat 7 250) (Publish.fresh_state nat) in
  fst run = inl (RuntimeError (lit "append blocks failed")) /\
  map (@length nat) (Publish.payloads (snd run)) = [100; 100] /\
  map Publish.logged_status (Publish.publish_log (snd run)) = [200; 400]%Z /\
  exists chunks k,
    Publish.chunked (repeat 7 250) 100 = inr chunks /\
    Publish.payloads (snd run) = firstn k chunks.
Proof.
  cbv zeta. split; [reflexivity|]. split; [reflexivity|]. split; [reflexivity|].
  destruct (append_blocks_stops_at_first_failure nat ascii_digit (fun _ => None)
              (fun k => Publish.Responded
                          {| Publish.status_code := if k =? 1 then 400 else 200;
                             Publish.retry_after_header := None |})
              (repeat 7 250) (Publish.fresh_state nat) _ _
              (surjective_pairing _))
    as (chunks & k & new & Hch & _ & Hpay & _).
  exists chunks, k. split; [exact Hch | exact Hpay].
Defined.

(** ** extract_assets.should_keep_image *)

(** X4.  For an image whose width and height are below [2^51] pixels
    (up to there the float division of the source decides as the
    integers do): when [should_keep_image] keeps it, it is not a mask, is
    at least 160 pixels wide and high with an area of at least 60000, has
    its longer side at most six times the shorter one, weighs at least
    8192 bytes and, when it lies on the first two pages within 420 x 420
    pixels, at least 50000 bytes.  A rejection carries one of six reason
    codes; the code [invalid_dimensions] is never produced, because a
    zero dimension is rejected as [too_small_dimensions] first. *)
Theorem kept_image_meets_thresholds :
  forall (lower : str -> str) (row : Extract.image_row) (file_size : Z),
    (get_or 0 (Extract.row_width row) < 2 ^ 51)%Z ->
    (get_or 0 (Extract.row_height row) < 2 ^ 51)%Z ->
    let width := get_or 0%Z (Extract.row_width row) in
    let height := get_or 0%Z (Extract.row_height row) in
    let decision := Extract.should_keep_image lower row file_size in
    (fst decision = true ->
     snd decision = lit "kept" /\
     str_in (lower (get_or [] (Extract.row_type row))) Extract.mask_types = false /\
     (160 <= width)%Z /\ (160 <= height)%Z /\ (60000 <= width * height)%Z /\
     (Z.max width height <= 6 * Z.min width height)%Z /\
     (8192 <= file_size)%Z /\
     ((get_or 0 (Extract.row_page row) <= 2)%Z -> (width <= 420)%Z ->
      (height <= 420)%Z -> (50000 <= file_size)%Z)) /\
    (fst decision = false ->
     In (snd decision)
        [lit "mask_or_stencil"; lit "too_small_dimensions"; lit "too_small_area";
         lit "extreme_aspect_ratio"; lit "too_small_file";
         lit "likely_decorative_frontmatter"]) /\
    snd decision <> lit "invalid_dimensions".
Proof.
  intros lower row file_size _ _ width height decision.
  subst decision. unfold Extract.should_keep_image.
  fold width. fold height.
  destruct (str_in (lower (get_or [] (Extract.row_type row))) Extract.mask_types);
    [cbn; split; [discriminate|]; split; [intros _; now left | discriminate]|].
  destruct (Z.ltb_spec width 160) as [Hw|Hw];
    [cbn; split; [discriminate|]; split; [intros _; right; now left | discriminate]|].
  destruct (Z.ltb_spec height 160) as [Hh|Hh];
    [cbn; split; [discriminate|]; split; [intros _; right; now left | discriminate]|].
  cbn [orb].
  destruct (Z.ltb_spec (width * height) 60000) as [Ha|Ha];
    [cbn; split; [discriminate|]; split;
       [intros _; right; right; now left | discriminate]|].
  destruct (Z.eqb_spec (Z.min width height) 0) as [Hz|Hz]; [lia|].
  destruct (Z.ltb_spec (6 * Z.min width height) (Z.max width height)) as [Hr|Hr];
    [cbn; split; [discriminate|]; split;
       [intros _; do 3 right; now left | discriminate]|].
  destruct (Z.ltb_spec file_size 8192) as [Hf|Hf];
    [cbn; split; [discriminate|]; split;
       [intros _; do 4 right; now left | discriminate]|].
  destruct (Z.leb_spec (get_or 0%Z (Extract.row_page row)) 2) as [Hp|Hp];
    destruct (Z.leb_spec width 420) as [Hw4|Hw4];
    destruct (Z.leb_spec height 420) as [Hh4|Hh4];
    destruct (Z.ltb_spec file_size 50000) as [Hf5|Hf5]; cbn;
    (split; [|split; [|discriminate]]);
    try discriminate;
    try (intros _; do 5 right; now left);
    intros _; (split; [reflexivity|]); repeat split; try assumption; lia.
Qed.

Lemma kept_image_meets_thresholds_witness :
  let row := {| Extract.row_page := Some 5%Z; Extract.row_num := 0%Z;
                Extract.row_type := Some (lit "image");
                Extract.row_width := Some 500%Z;
                Extract.row_height := Some 500%Z |} in
  Extract.should_keep_image ascii_lower row 61440 = (true, lit "kept") /\
  (8192 <= 61440)%Z /\ (60000 <= 500 * 500)%Z.
Proof.
  cbv zeta. split; [reflexivity|].
  destruct (kept_image_meets_thresholds ascii_lower
              {| Extract.row_page := Some 5%Z; Extract.row_num := 0%Z;
                 Extract.row_type := Some (lit "image");
                 Extract.row_width := Some 500%Z;
                 Extract.row_height := Some 500%Z |} 61440) as (Hkept & _);
    [reflexivity | reflexivity |].
  destruct (Hkept eq_refl) as (_ & _ & _ & _ & Ha & _ & Hf & _).
  split; [exact Hf | exact Ha].
Defined.

(** ** extract_assets.extract_equation_candidates *)

Section SortedOrder.
Context {A K : Type} (leb : K -> K -> bool) (key : A -> K).
Hypothesis leb_total : forall a b, leb a b = false -> leb b a = true.
Hypothesis leb_trans : forall a b c, leb a b = true -> leb b c = true -> leb a c = true.

Lemma insert_sorted_in (x y : A) (l : list A) :
  In y (insert_sorted leb key x l) -> y = x \/ In y l.
Proof.
  intros Hin. apply (Permutation_in _ (insert_sorted_perm leb key x l)) in Hin.
  destruct Hin as [<-|Hin]; [now left | now right].
Qed.

Lemma insert_sorted_ordered (x : A) (l : list A) :
  StronglySorted (fun a b => leb (key a) (key b) = true) l ->
  StronglySorted (fun a b => leb (key a) (key b) = true) (insert_sorted leb key x l).
Proof.
  induction 1 as [|y l Hl IH Hy]; cbn.
  - repeat constructor.
  - destruct (leb (key x) (key y)) eqn:Hxy.
    + constructor; [now constructor|].
      constructor; [exact Hxy|].
      rewrite Forall_forall in *. intros z Hz.
      apply (leb_trans _ _ _ Hxy). now apply Hy.
    + constructor; [exact IH|].
      rewrite Forall_forall in *. intros z Hz.
      apply insert_sorted_in in Hz as [->|Hz]; [now apply leb_total | now apply Hy].
Qed.

Lemma sorted_ordered (l : list A) :
  StronglySorted (fun a b => leb (key a) (key b) = true) (sorted leb key l).
Proof.
  induction l as [|x l IH]; cbn; [constructor | now apply insert_sorted_ordered].
Qed.
End SortedOrder.

Lemma pair_leb_total (a b : Z * Z) : pair_leb a b = false -> pair_leb b a = true.
Proof.
  unfold pair_leb.
  destruct (Z.ltb_spec (fst a) (fst b)), (Z.ltb_spec (fst b) (fst a)),
           (Z.leb_spec (snd a) (snd b)), (Z.leb_spec (snd b) (snd a));
    try discriminate; try reflexivity; lia.
Qed.

Lemma pair_leb_trans (a b c : Z * Z) :
  pair_leb a b = true -> pair_leb b c = true -> pair_leb a c = true.
Proof.
  unfold pair_leb.
  destruct (Z.ltb_spec (fst a) (fst b)), (Z.ltb_spec (fst b) (fst a)),
           (Z.ltb_spec (fst b) (fst c)), (Z.ltb_spec (fst c) (fst b)),
           (Z.ltb_spec (fst a) (fst c)), (Z.ltb_spec (fst c) (fst a)),
           (Z.leb_spec (snd a) (snd b)), (Z.leb_spec (snd b) (snd c)),
           (Z.leb_spec (snd a) (snd c));
    try discriminate; try reflexivity; lia.
Qed.

Lemma rank_key_ranks (a b : Extract.candidate) :
  pair_leb (Extract.rank_key a) (Extract.rank_key b) = true -> ranks_before a b.
Proof.
  unfold pair_leb, Extract.rank_key, ranks_before. cbn [fst snd].
  destruct (Z.ltb_spec (- Extract.score a) (- Extract.score b)); [intros _; left; lia|].
  destruct (Z.ltb_spec (- Extract.score b) (- Extract.score a)); [discriminate|].
  intros Hle. apply Z.leb_le in Hle. right. lia.
Qed.

Lemma StronglySorted_weaken (A : Type) (R S : A -> A -> Prop) (l : list A) :
  (forall a b, R a b -> S a b) -> StronglySorted R l -> StronglySorted S l.
Proof.
  intros HRS. induction 1 as [|x l Hl IH Hx]; constructor; [exact IH|].
  rewrite Forall_forall in *. intros y Hy. now apply HRS, Hx.
Qed.

Lemma StronglySorted_firstn (A : Type) (R : A -> A -> Prop) (k : nat) :
  forall l, StronglySorted R l -> StronglySorted R (firstn k l).
Proof.
  induction k as [|k IH]; intros l Hl; [constructor|].
  destruct Hl as [|x l Hl Hx]; cbn; constructor; [now apply IH|].
  rewrite Forall_forall in *. intros y Hy. apply Hx. now apply in_firstn in Hy.
Qed.

Lemma StronglySorted_split (A : Type) (R : A -> A -> Prop) (k : nat) :
  forall l, StronglySorted R l ->
  forall d c, In d (firstn k l) -> In c (skipn k l) -> R d c.
Proof.
  induction k as [|k IH]; intros l Hl d c Hd Hc; [contradiction|].
  destruct Hl as [|x l Hl Hx]; [contradiction|]. cbn in Hd, Hc.
  destruct Hd as [<-|Hd].
  - rewrite Forall_forall in Hx. apply Hx.
    rewrite <- (firstn_skipn k l). apply in_or_app. now right.
  - now apply (IH l Hl).
Qed.

Lemma NoDup_firstn_of (A : Type) (k : nat) (l : list A) :
  NoDup l -> NoDup (firstn k l).
Proof.
  intros Hl. rewrite <- (firstn_skipn k l) in Hl.
  now apply NoDup_app_remove_r in Hl.
Qed.

Lemma in_enumerate_bounds (A : Type) (l : list A) : forall n i x,
  In (i, x) (enumerate n l) -> n <= i < n + length l.
Proof.
  induction l as [|y l IH]; intros n i x Hin; [contradiction|].
  cbn in Hin. destruct Hin as [Heq|Hin].
  - inversion Heq; subst. cbn. lia.
  - apply IH in Hin. cbn. lia.
Qed.

Section CandidateFacts.
Import Extract.
Variable lower : str -> str.
Variable isdecimal : N -> bool.

Lemma equation_score_bounds (line : str) :
  (0 <= equation_score lower isdecimal line <= 8)%Z.
Proof.
  unfold equation_score.
  repeat match goal with
         | |- context [if ?b then _ else _] => destruct b
         end; lia.
Qed.

(** What one pass of the inner loop can add to [candidates]. *)
Lemma scan_line_adds page st raw c :
  In c (snd (scan_line lower isdecimal page st raw)) ->
  In c (snd st) \/
  (c = {| equation := clean_whitespace raw; cand_page := page;
          score := equation_score lower isdecimal (clean_whitespace raw) |} /\
   contains (lit "=") (clean_whitespace raw) = true /\
   8 <= length (clean_whitespace raw) <= 220 /\
   (2 <= equation_score lower isdecimal (clean_whitespace raw))%Z).
Proof.
  destruct st as [seen cands]. unfold scan_line.
  destruct (match clean_whitespace raw with [] => true | _ :: _ => false end
            || negb (contains (lit "=") (clean_whitespace raw))) eqn:Hskip;
    [now left|].
  apply orb_false_elim in Hskip as [_ Heq]. apply negb_false_iff in Heq.
  destruct ((length (clean_whitespace raw) <? 8)
            || (220 <? length (clean_whitespace raw))) eqn:Hlen; [now left|].
  apply orb_false_elim in Hlen as [Hlo Hhi].
  apply Nat.ltb_ge in Hlo, Hhi.
  destruct (Z.ltb_spec (equation_score lower isdecimal (clean_whitespace raw)) 2)
    as [|Hsc]; [now left|].
  destruct (str_in (remove_ws (lower (clean_whitespace raw))) seen); [now left|].
  cbn [snd]. intros Hin. apply in_app_or in Hin as [Hin|[<-|[]]]; [now left|].
  right. repeat split; assumption.
Qed.

Lemma scan_lines_add (lines : list (nat * str)) : forall st c,
  In c (snd (fold_left (fun st nl => scan_line lower isdecimal (fst nl) st (snd nl))
                       lines st)) ->
  In c (snd st) \/
  exists nl, In nl lines /\
    c = {| equation := clean_whitespace (snd nl); cand_page := fst nl;
           score := equation_score lower isdecimal (clean_whitespace (snd nl)) |} /\
    contains (lit "=") (clean_whitespace (snd nl)) = true /\
    8 <= length (clean_whitespace (snd nl)) <= 220 /\
    (2 <= equation_score lower isdecimal (clean_whitespace (snd nl)))%Z.
Proof.
  induction lines as [|nl lines IH]; intros st c Hin; cbn [fold_left] in Hin;
    [now left|].
  apply IH in Hin as [Hin|(nl' & Hnl & Hrest)].
  - apply scan_line_adds in Hin as [Hin|Hnew]; [now left|].
    right. exists nl. split; [now left | exact Hnew].
  - right. exists nl'. split; [now right | exact Hrest].
Qed.

(** [seen] holds the remembered forms of the candidates, newest first,
    and no form twice. *)
Lemma scan_line_seen_forms page st raw :
  fst st = rev (map (seen_form lower) (snd st)) -> NoDup (fst st) ->
  let st' := scan_line lower isdecimal page st raw in
  fst st' = rev (map (seen_form lower) (snd st')) /\ NoDup (fst st').
Proof.
  destruct st as [seen cands]. cbn [fst snd]. intros Hseen Hnd. unfold scan_line.
  repeat match goal with
         | |- context [if ?b then _ else _] => destruct b eqn:?
         end; cbn [fst snd]; try (split; assumption).
  split.
  - rewrite map_app, rev_app_distr. cbn. now rewrite Hseen.
  - constructor; [|exact Hnd]. intros Hin.
    match goal with
    | H : str_in _ seen = false |- _ =>
        unfold str_in in H; apply Bool.not_true_iff_false in H; apply H
    end.
    apply existsb_exists. eexists. split; [exact Hin | apply str_eqb_refl].
Qed.

Lemma scan_lines_seen_forms (lines : list (nat * str)) : forall st,
  fst st = rev (map (seen_form lower) (snd st)) -> NoDup (fst st) ->
  let st' := fold_left (fun st nl => scan_line lower isdecimal (fst nl) st (snd nl))
                       lines st in
  fst st' = rev (map (seen_form lower) (snd st')) /\ NoDup (fst st').
Proof.
  induction lines as [|nl lines IH]; intros st Hseen Hnd; cbn [fold_left];
    [split; assumption|].
  destruct (scan_line_seen_forms (fst nl) st (snd nl) Hseen Hnd) as [Hs Hn].
  now apply IH.
Qed.

Lemma scan_pages_distinct (pages : list str) :
  NoDup (map (seen_form lower) (scan_pages lower isdecimal pages)).
Proof.
  rewrite scan_pages_lines.
  destruct (scan_lines_seen_forms (numbered_lines pages) ([], []) eq_refl
              (NoDup_nil _)) as [Hs Hn].
  cbv zeta in Hs, Hn. rewrite Hs in Hn.
  apply NoDup_rev in Hn. now rewrite rev_involutive in Hn.
Qed.

Lemma numbered_lines_page (pages : list str) (page : nat) (raw : str) :
  In (page, raw) (numbered_lines pages) ->
  1 <= page <= length pages /\
  In raw (splitlines (nth (page - 1) pages [])).
Proof.
  unfold numbered_lines. intros Hin.
  apply in_flat_map in Hin as ([i text] & Hpage & Hline).
  apply in_map_iff in Hline as (raw' & Heq & Hraw). cbn [fst snd] in *.
  inversion Heq; subst.
  pose proof (in_enumerate_bounds _ _ _ _ _ Hpage) as Hb.
  split; [lia|].
  assert (Hnth : forall (l : list str) n i x,
             In (i, x) (enumerate n l) -> nth (i - n) l [] = x).
  { clear. induction l as [|y l IH]; intros n i x Hin; [contradiction|].
    cbn in Hin. destruct Hin as [Heq|Hin].
    - inversion Heq; subst. now rewrite Nat.sub_diag.
    - pose proof (in_enumerate_bounds _ _ _ _ _ Hin) as Hb.
      apply IH in Hin. replace (i - n) with (S (i - S n)) by lia. exact Hin. }
  now rewrite (Hnth _ _ _ _ Hpage).
Qed.
End CandidateFacts.

(** X5.  Every equation candidate that [extract_equation_candidates]
    returns is a cleaned line of the page it names: the page number lies
    between 1 and the number of pages, the text is [clean_whitespace] of a
    line of that page, it contains "=", it is 8 to 220 code points long,
    and its score is the score of that text, between 2 and 8. *)
Theorem equation_candidates_well_formed :
  forall (lower : str -> str) (isdecimal : N -> bool) (pages : list str)
         (limit : nat) (c : Extract.candidate),
    In c (Extract.extract_equation_candidates lower isdecimal pages limit) ->
    1 <= Extract.cand_page c <= length pages /\
    (exists raw,
        In raw (splitlines (nth (Extract.cand_page c - 1) pages [])) /\
        Extract.equation c = clean_whitespace raw) /\
    contains (lit "=") (Extract.equation c) = true /\
    8 <= length (Extract.equation c) <= 220 /\
    Extract.score c = Extract.equation_score lower isdecimal (Extract.equation c) /\
    (2 <= Extract.score c <= 8)%Z.
Proof.
  intros lower isdecimal pages limit c Hin.
  unfold Extract.extract_equation_candidates in Hin.
  apply in_firstn in Hin.
  apply (Permutation_in _ (sorted_perm _ _ _)) in Hin.
  rewrite scan_pages_lines in Hin.
  apply scan_lines_add in Hin as [[]|([page raw] & Hnl & -> & Heq & Hlen & Hsc)].
  cbn [fst snd Extract.cand_page Extract.equation Extract.score] in *.
  apply numbered_lines_page in Hnl as [Hpage Hraw].
  split; [exact Hpage|]. split; [now exists raw|].
  split; [exact Heq|]. split; [exact Hlen|]. split; [reflexivity|].
  pose proof (equation_score_bounds lower isdecimal (clean_whitespace raw)). lia.
Qed.

Lemma equation_candidates_well_formed_witness :
  let c := {| Extract.equation := lit "E = m c^2 (1)"; Extract.cand_page := 1;
              Extract.score := 2 |} in
  In c (Extract.extract_equation_candidates ascii_lower ascii_digit
          [lit "E = m c^2 (1)"] 12) /\
  contains (lit "=") (Extract.equation c) = true /\
  (2 <= Extract.score c <= 8)%Z.
Proof.
  cbv zeta.
  assert (Hin : In {| Extract.equation := lit "E = m c^2 (1)"; Extract.cand_page := 1;
                      Extract.score := 2 |}
                   (Extract.extract_equation_candidates ascii_lower ascii_digit
                      [lit "E = m c^2 (1)"] 12)) by (vm_compute; now left).
  split; [exact Hin|].
  destruct (equation_candidates_well_formed ascii_lower ascii_digit
              [lit "E = m c^2 (1)"] 12 _ Hin) as (_ & _ & Heq & _ & _ & Hsc).
  split; [exact Heq | exact Hsc].
Defined.

(** X6.  [extract_equation_candidates] returns at most [limit] candidates,
    ordered by falling score and, within a score, by rising page.  No two
    of them have the same text once lower-cased and stripped of white
    space.  A candidate that was found but is not returned is ranked no
    earlier than every returned one, so the truncation drops only the
    lowest-ranked candidates. *)
Theorem equation_candidates_ranked :
  forall (lower : str -> str) (isdecimal : N -> bool) (pages : list str)
         (limit : nat),
    let result := Extract.extract_equation_candidates lower isdecimal pages limit in
    length result <= limit /\
    StronglySorted ranks_before result /\
    NoDup (map (seen_form lower) result) /\
    (forall c d,
        In c (Extract.scan_pages lower isdecimal pages) -> ~ In c result ->
        In d result -> ranks_before d c).
Proof.
  intros lower isdecimal pages limit result. subst result.
  unfold Extract.extract_equation_candidates.
  set (found := Extract.scan_pages lower isdecimal pages).
  set (ranked := sorted pair_leb Extract.rank_key found).
  assert (Hsorted : StronglySorted ranks_before ranked).
  { apply (StronglySorted_weaken _
             (fun a b => pair_leb (Extract.rank_key a) (Extract.rank_key b) = true)).
    - apply rank_key_ranks.
    - apply sorted_ordered; [apply pair_leb_total | apply pair_leb_trans]. }
  split; [apply firstn_le_length|]. split; [now apply StronglySorted_firstn|]. split.
  - rewrite <- firstn_map. apply NoDup_firstn_of.
    apply (Permutation_NoDup
             (Permutation_map _ (Permutation_sym (sorted_perm pair_leb Extract.rank_key found)))).
    apply scan_pages_distinct.
  - intros c d Hc Hnot Hd.
    apply (StronglySorted_split _ _ limit ranked Hsorted d c Hd).
    apply (Permutation_in _ (Permutation_sym (sorted_perm pair_leb Extract.rank_key found)))
      in Hc.
    fold ranked in Hc. rewrite <- (firstn_skipn limit ranked) in Hc.
    apply in_app_or in Hc as [Hc|Hc]; [contradiction | exact Hc].
Qed.

Lemma equation_candidates_ranked_witness :
  let pages := [lit "h = a + b"; lit "u = v + w (2)"] in
  Extract.scan_pages ascii_lower ascii_digit pages =
    [{| Extract.equation := lit "h = a + b"; Extract.cand_page := 1;
        Extract.score := 2 |};
     {| Extract.equation := lit "u = v + w (2)"; Extract.cand_page := 2;
        Extract.score := 4 |}] /\
  Extract.extract_equation_candidates ascii_lower ascii_digit pages 1 =
    [{| Extract.equation := lit "u = v + w (2)"; Extract.cand_page := 2;
        Extract.score := 4 |}] /\
  ranks_before
    {| Extract.equation := lit "u = v + w (2)"; Extract.cand_page := 2;
       Extract.score := 4 |}
    {| Extract.equation := lit "h = a + b"; Extract.cand_page := 1;
       Extract.score := 2 |}.
Proof.
  cbv zeta. split; [reflexivity|]. split; [reflexivity|].
  destruct (equation_candidates_ranked ascii_lower ascii_digit
              [lit "h = a + b"; lit "u = v + w (2)"] 1) as (_ & _ & _ & Hdrop).
  apply Hdrop.
  - vm_compute. now left.
  - vm_compute. intros [H|[]]. discriminate H.
  - vm_compute. now left.
Defined.

(** ** research_common.clean_whitespace and sentence_tokenize *)

Lemma collapse_ws_single_spaced (text : str) : forall b,
  single_spaced b (collapse_ws b text) = true.
Proof.
  induction text as [|c text IH]; intros b; cbn [collapse_ws single_spaced lstrip starts_clean remove_ws filter negb app forallb contains startswith]; [reflexivity|].
  destruct (isspace c) eqn:Hc.
  - destruct b; [apply IH|]. cbn [collapse_ws single_spaced lstrip starts_clean remove_ws filter negb app forallb contains startswith]. rewrite (IH true). reflexivity.
  - cbn [collapse_ws single_spaced lstrip starts_clean remove_ws filter negb app forallb contains startswith]. rewrite Hc. apply IH.
Qed.

Lemma single_spaced_fixed (s : str) : forall b,
  single_spaced b s = true -> collapse_ws b s = s.
Proof.
  induction s as [|c s IH]; intros b H; cbn [collapse_ws single_spaced lstrip starts_clean remove_ws filter negb app forallb contains startswith] in *; [reflexivity|].
  destruct (isspace c) eqn:Hc.
  - apply andb_prop in H as [H Hs]. apply andb_prop in H as [H32 Hb].
    apply N.eqb_eq in H32. subst c. destruct b; [discriminate|].
    now rewrite (IH true Hs).
  - now rewrite (IH false H).
Qed.

Lemma single_spaced_weaken (s : str) :
  single_spaced true s = true -> single_spaced false s = true.
Proof.
  destruct s as [|c s]; cbn [collapse_ws single_spaced lstrip starts_clean remove_ws filter negb app forallb contains startswith]; [reflexivity|].
  destruct (isspace c); [|exact (fun H => H)].
  rewrite andb_false_r. discriminate.
Qed.

Lemma single_spaced_any (s : str) (b : bool) :
  single_spaced b s = true -> single_spaced false s = true.
Proof. destruct b; [apply single_spaced_weaken | exact (fun H => H)]. Qed.

Lemma single_spaced_lstrip (s : str) : forall b,
  single_spaced b s = true -> single_spaced false (lstrip s) = true.
Proof.
  induction s as [|c s IH]; intros b H; cbn [collapse_ws single_spaced lstrip starts_clean remove_ws filter negb app forallb contains startswith] in *; [reflexivity|].
  destruct (isspace c) eqn:Hc.
  - apply andb_prop in H as [_ Hs]. now apply (IH true).
  - cbn [collapse_ws single_spaced lstrip starts_clean remove_ws filter negb app forallb contains startswith]. now rewrite Hc.
Qed.

Lemma single_spaced_prefix (s1 s2 : str) : forall b,
  single_spaced b (s1 ++ s2) = true -> single_spaced b s1 = true.
Proof.
  induction s1 as [|c s1 IH]; intros b H; cbn [collapse_ws single_spaced lstrip starts_clean remove_ws filter negb app forallb contains startswith] in *; [reflexivity|].
  destruct (isspace c).
  - apply andb_prop in H as [H Hs]. rewrite H. now apply IH.
  - now apply IH.
Qed.

(** [lstrip] and [rstrip] cut white space off one end. *)
Lemma lstrip_cut (s : str) :
  exists ws, s = ws ++ lstrip s /\ forallb isspace ws = true.
Proof.
  induction s as [|c s (ws & Hs & Hws)]; [now exists []|]. cbn [collapse_ws single_spaced lstrip starts_clean remove_ws filter negb app forallb contains startswith].
  destruct (isspace c) eqn:Hc.
  - exists (c :: ws). cbn [collapse_ws single_spaced lstrip starts_clean remove_ws filter negb app forallb contains startswith]. rewrite Hc, Hws. split; [now f_equal | reflexivity].
  - now exists [].
Qed.

Lemma rstrip_cut (s : str) :
  exists ws, s = rstrip s ++ ws /\ forallb isspace ws = true.
Proof.
  unfold rstrip. destruct (lstrip_cut (rev s)) as (ws & Hs & Hws).
  exists (rev ws). split.
  - rewrite <- rev_app_distr, <- Hs. now rewrite rev_involutive.
  - rewrite forallb_forall in *. intros x Hx. apply Hws. now apply in_rev.
Qed.

Lemma lstrip_starts_clean (s : str) : starts_clean (lstrip s) = true.
Proof.
  induction s as [|c s IH]; [reflexivity|]. cbn [collapse_ws single_spaced lstrip starts_clean remove_ws filter negb app forallb contains startswith].
  destruct (isspace c) eqn:Hc; [exact IH|]. cbn [collapse_ws single_spaced lstrip starts_clean remove_ws filter negb app forallb contains startswith]. now rewrite Hc.
Qed.

Lemma lstrip_fixed (s : str) : starts_clean s = true -> lstrip s = s.
Proof.
  destruct s as [|c s]; [reflexivity|]. cbn [collapse_ws single_spaced lstrip starts_clean remove_ws filter negb app forallb contains startswith]. now destruct (isspace c).
Qed.

Lemma rstrip_ends_clean (s : str) : ends_clean (rstrip s) = true.
Proof.
  unfold ends_clean, rstrip. rewrite rev_involutive. apply lstrip_starts_clean.
Qed.

Lemma rstrip_fixed (s : str) : ends_clean s = true -> rstrip s = s.
Proof.
  unfold ends_clean, rstrip. intros H. rewrite (lstrip_fixed _ H).
  apply rev_involutive.
Qed.

Lemma rstrip_starts_clean (s : str) :
  starts_clean s = true -> starts_clean (rstrip s) = true.
Proof.
  intros H. destruct (rstrip_cut s) as (ws & Hs & _).
  destruct (rstrip s) as [|c r]; [reflexivity|].
  rewrite Hs in H. exact H.
Qed.

Lemma strip_clean (s : str) :
  starts_clean (strip s) = true /\ ends_clean (strip s) = true.
Proof.
  unfold strip. split.
  - apply rstrip_starts_clean, lstrip_starts_clean.
  - apply rstrip_ends_clean.
Qed.

Lemma strip_fixed (s : str) :
  starts_clean s = true -> ends_clean s = true -> strip s = s.
Proof.
  intros Hs He. unfold strip. rewrite (lstrip_fixed _ Hs). now apply rstrip_fixed.
Qed.

Lemma single_spaced_strip (s : str) (b : bool) :
  single_spaced b s = true -> single_spaced false (strip s) = true.
Proof.
  intros H. apply single_spaced_lstrip in H. unfold strip.
  destruct (rstrip_cut (lstrip s)) as (ws & Hs & _).
  rewrite Hs in H. now apply single_spaced_prefix in H.
Qed.

Lemma clean_whitespace_shape (text : str) :
  single_spaced false (clean_whitespace text) = true /\
  starts_clean (clean_whitespace text) = true /\
  ends_clean (clean_whitespace text) = true.
Proof.
  unfold clean_whitespace. split.
  - apply (single_spaced_strip _ false), collapse_ws_single_spaced.
  - apply strip_clean.
Qed.

Lemma remove_ws_all_space (ws : str) : forallb isspace ws = true -> remove_ws ws = [].
Proof.
  induction ws as [|c ws IH]; cbn [collapse_ws single_spaced lstrip starts_clean remove_ws filter negb app forallb contains startswith]; [reflexivity|]. intros H.
  apply andb_prop in H as [Hc Hws]. rewrite Hc. cbn [collapse_ws single_spaced lstrip starts_clean remove_ws filter negb app forallb contains startswith]. now apply IH.
Qed.

Lemma remove_ws_app (s1 s2 : str) : remove_ws (s1 ++ s2) = remove_ws s1 ++ remove_ws s2.
Proof. apply filter_app. Qed.

Lemma remove_ws_strip (s : str) : remove_ws (strip s) = remove_ws s.
Proof.
  unfold strip.
  destruct (lstrip_cut s) as (ws1 & Hs1 & Hws1).
  destruct (rstrip_cut (lstrip s)) as (ws2 & Hs2 & Hws2).
  rewrite Hs1 at 2. rewrite Hs2 at 2.
  rewrite !remove_ws_app, (remove_ws_all_space _ Hws1), (remove_ws_all_space _ Hws2).
  now rewrite app_nil_r.
Qed.

Lemma remove_ws_collapse (text : str) : forall b,
  remove_ws (collapse_ws b text) = remove_ws text.
Proof.
  induction text as [|c text IH]; intros b; cbn [collapse_ws single_spaced lstrip starts_clean remove_ws filter negb app forallb contains startswith]; [reflexivity|].
  destruct (isspace c) eqn:Hc; cbn [collapse_ws single_spaced lstrip starts_clean remove_ws filter negb app forallb contains startswith].
  - destruct b; cbn [collapse_ws single_spaced lstrip starts_clean remove_ws filter negb app forallb contains startswith]; now rewrite IH.
  - rewrite Hc. cbn [collapse_ws single_spaced lstrip starts_clean remove_ws filter negb app forallb contains startswith]. now rewrite IH.
Qed.

Lemma single_spaced_spaces (s : str) : forall b,
  single_spaced b s = true ->
  (forall x, In x s -> isspace x = true -> x = 32%N) /\
  contains [32; 32]%N s = false.
Proof.
  induction s as [|c s IH]; intros b H; [split; [contradiction | reflexivity]|].
  cbn [single_spaced] in H. destruct (isspace c) eqn:Hc.
  - apply andb_prop in H as [H Hs]. apply andb_prop in H as [H32 _].
    apply N.eqb_eq in H32. subst c.
    destruct (IH true Hs) as [Hall Hno]. split.
    + intros x [<-|Hx] Hsp; [reflexivity | now apply Hall].
    + cbn [contains startswith]. rewrite Hno, orb_false_r.
      destruct s as [|d s]; [reflexivity|].
      cbn [collapse_ws single_spaced lstrip starts_clean remove_ws filter negb app forallb contains startswith] in Hs. cbn [startswith].
      destruct (N.eqb_spec 32 d) as [<-|]; [|reflexivity].
      cbn [collapse_ws single_spaced lstrip starts_clean remove_ws filter negb app forallb contains startswith] in Hs. discriminate Hs.
  - destruct (IH false H) as [Hall Hno]. split.
    + intros x [<-|Hx] Hsp; [congruence | now apply Hall].
    + cbn [contains startswith]. rewrite Hno, orb_false_r.
      destruct (N.eqb_spec 32 c) as [<-|]; [discriminate Hc | reflexivity].
Qed.

(** X7.  [clean_whitespace] is idempotent.  Its result neither begins nor
    ends with white space, its only white-space code points are single
    spaces (no two in a row), and it has the code points of the input
    that are not white space, in the same order. *)
Theorem clean_whitespace_normal_form :
  forall text : str,
    let cleaned := clean_whitespace text in
    clean_whitespace cleaned = cleaned /\
    strip cleaned = cleaned /\
    (forall x, In x cleaned -> isspace x = true -> x = 32%N) /\
    contains (lit "  ") cleaned = false /\
    remove_ws cleaned = remove_ws text.
Proof.
  intros text cleaned.
  destruct (clean_whitespace_shape text) as (Hsp & Hstart & Hend).
  fold cleaned in Hsp, Hstart, Hend.
  assert (Hstrip : strip cleaned = cleaned) by now apply strip_fixed.
  destruct (single_spaced_spaces cleaned false Hsp) as [Hall Hno].
  split; [|split; [exact Hstrip | split; [exact Hall | split; [exact Hno|]]]].
  - unfold clean_whitespace at 1. now rewrite (single_spaced_fixed _ _ Hsp).
  - subst cleaned. unfold clean_whitespace.
    now rewrite remove_ws_strip, remove_ws_collapse.
Qed.

Lemma terminal_not_space (c : N) : is_terminal c = true -> isspace c = false.
Proof.
  unfold is_terminal. cbn [existsb]. rewrite !orb_true_iff.
  intros [H|[H|[H|H]]]; try discriminate H; apply N.eqb_eq in H; subst c; reflexivity.
Qed.

Lemma split_sentences_nonempty (s : str) : forall skipping a cur,
  split_sentences skipping a cur s <> [].
Proof.
  induction s as [|c s IH]; intros skipping a cur; cbn [split_sentences];
    [discriminate|].
  destruct skipping.
  - destruct (isspace c); apply IH.
  - destruct (isspace c && a); [discriminate | apply IH].
Qed.

Lemma starts_clean_app (s1 s2 : str) :
  s1 <> [] -> starts_clean (s1 ++ s2) = starts_clean s1.
Proof. destruct s1; [congruence | reflexivity]. Qed.

Lemma ends_clean_cons (c : N) (s : str) :
  s <> [] -> ends_clean (c :: s) = ends_clean s.
Proof.
  intros Hs. unfold ends_clean. cbn [rev]. apply starts_clean_app.
  intros Hnil. apply Hs. apply (f_equal (@rev N)) in Hnil.
  now rewrite rev_involutive in Hnil.
Qed.

Lemma ends_clean_app (s1 s2 : str) :
  s2 <> [] -> ends_clean (s1 ++ s2) = ends_clean s2.
Proof.
  intros Hs. unfold ends_clean. rewrite rev_app_distr. apply starts_clean_app.
  intros Hnil. apply Hs. apply (f_equal (@rev N)) in Hnil.
  now rewrite rev_involutive in Hnil.
Qed.

(** The pieces cut by [split_sentences] from cleaned text. *)
Lemma split_sentences_pieces (s : str) : forall (skipping a : bool) (cur : str) (b : bool),
  single_spaced b s = true ->
  ends_clean (rev cur ++ s) = true ->
  (if skipping then cur = [] /\ s <> [] /\ starts_clean s = true
   else cur <> [] /\ starts_clean (rev cur) = true /\
        (a = true -> exists t cur0, cur = t :: cur0 /\ is_terminal t = true)) ->
  let pieces := split_sentences skipping a cur s in
  join [32%N] pieces = rev cur ++ s /\
  Forall trimmed pieces /\
  Forall (fun p => is_terminal (last p 0%N) = true) (removelast pieces).
Proof.
  induction s as [|c s IH]; intros skipping a cur b Hsp Hend Hmode.
  - destruct skipping; [destruct Hmode as (_ & Hne & _); congruence|].
    destruct Hmode as (Hcur & Hstart & _). cbn [split_sentences join removelast].
    rewrite app_nil_r in *. split; [reflexivity|]. split; [|constructor].
    constructor; [|constructor]. split; [|split; assumption].
    intros Hnil. apply Hcur. apply (f_equal (@rev N)) in Hnil.
    now rewrite rev_involutive in Hnil.
  - cbn [split_sentences]. cbn [single_spaced] in Hsp. destruct skipping.
    + destruct Hmode as (-> & _ & Hc). cbn [starts_clean] in Hc.
      apply negb_true_iff in Hc. rewrite Hc in *.
      apply (IH false (is_terminal c) [c] false Hsp).
      * exact Hend.
      * split; [discriminate|]. split; [cbn [rev app starts_clean]; now rewrite Hc|].
        intros Ht. now exists c, [].
    + destruct Hmode as (Hcur & Hstart & Hterm).
      assert (Hrev : rev cur <> []).
      { intros Hnil. apply Hcur. apply (f_equal (@rev N)) in Hnil.
        now rewrite rev_involutive in Hnil. }
      destruct (isspace c) eqn:Hc.
      * apply andb_prop in Hsp as [H32 Hs]. apply andb_prop in H32 as [H32 _].
        apply N.eqb_eq in H32. subst c.
        assert (Hrest : s <> [] /\ starts_clean s = true).
        { destruct s as [|d s].
          - rewrite ends_clean_app in Hend by discriminate. discriminate Hend.
          - split; [discriminate|]. cbn [single_spaced] in Hs. cbn [starts_clean].
            destruct (isspace d); [|reflexivity].
            rewrite andb_false_r in Hs. discriminate Hs. }
        destruct a; cbn [andb].
        -- destruct (Hterm eq_refl) as (t & cur0 & -> & Ht).
           assert (Hend' : ends_clean (rev [] ++ s) = true).
           { rewrite ends_clean_app in Hend by discriminate.
             cbn [rev app]. now rewrite ends_clean_cons in Hend by apply Hrest. }
           destruct (IH true false [] true Hs Hend' (conj eq_refl Hrest))
             as (Hjoin & Hgood & Hlast).
           cbn [rev app] in Hjoin.
           destruct (split_sentences true false [] s) as [|p rest] eqn:Hp;
             [now apply split_sentences_nonempty in Hp|].
           cbv zeta. split; [|split].
           ++ change (join [32%N] (rev (t :: cur0) :: p :: rest))
                with (rev (t :: cur0) ++ [32%N] ++ join [32%N] (p :: rest)).
              now rewrite Hjoin.
           ++ constructor; [|exact Hgood]. split; [exact Hrev|].
              split; [exact Hstart|].
              unfold ends_clean. rewrite rev_involutive. cbn [starts_clean].
              now rewrite (terminal_not_space _ Ht).
           ++ change (removelast (rev (t :: cur0) :: p :: rest))
                with (rev (t :: cur0) :: removelast (p :: rest)).
              constructor; [|exact Hlast].
              cbn [rev]. now rewrite last_last.
        -- assert (Hend' : ends_clean (rev (32%N :: cur) ++ s) = true).
           { cbn [rev]. now rewrite <- app_assoc. }
           destruct (IH false (is_terminal 32) (32%N :: cur) true Hs Hend')
             as (Hjoin & Hgood & Hlast).
           { split; [discriminate|]. split.
             - cbn [rev]. now rewrite starts_clean_app.
             - discriminate. }
           cbv zeta. split; [|split; assumption].
           rewrite Hjoin. cbn [rev]. now rewrite <- app_assoc.
      * cbn [andb].
        assert (Hend' : ends_clean (rev (c :: cur) ++ s) = true).
        { cbn [rev]. now rewrite <- app_assoc. }
        destruct (IH false (is_terminal c) (c :: cur) false Hsp Hend')
          as (Hjoin & Hgood & Hlast).
        { split; [discriminate|]. split.
          - cbn [rev]. now rewrite starts_clean_app.
          - intros Ht. now exists c, cur. }
        cbv zeta. split; [|split; assumption].
        rewrite Hjoin. cbn [rev]. now rewrite <- app_assoc.
Qed.

Lemma trimmed_strip (p : str) : trimmed p -> strip p = p.
Proof. intros (_ & Hs & He). now apply strip_fixed. Qed.

Lemma sentence_tokenize_pieces (text : str) :
  clean_whitespace text <> [] ->
  let pieces := split_sentences false false [] (clean_whitespace text) in
  sentence_tokenize text = pieces /\
  join [32%N] pieces = clean_whitespace text /\
  Forall trimmed pieces /\
  Forall (fun p => is_terminal (last p 0%N) = true) (removelast pieces).
Proof.
  intros Hne pieces.
  destruct (clean_whitespace_shape text) as (Hsp & Hstart & Hend).
  assert (Hpieces : join [32%N] pieces = clean_whitespace text /\
                    Forall trimmed pieces /\
                    Forall (fun p => is_terminal (last p 0%N) = true)
                           (removelast pieces)).
  { subst pieces. destruct (clean_whitespace text) as [|c s]; [congruence|].
    cbn [starts_clean] in Hstart. apply negb_true_iff in Hstart.
    cbn [split_sentences single_spaced] in *. rewrite Hstart in *. cbn [andb].
    apply (split_sentences_pieces s false (is_terminal c) [c] false Hsp Hend).
    split; [discriminate|]. split; [cbn [rev app starts_clean]; now rewrite Hstart|].
    intros Ht. now exists c, []. }
  split; [|exact Hpieces].
  destruct Hpieces as (_ & Hgood & _).
  unfold sentence_tokenize. fold pieces.
  destruct (clean_whitespace text) as [|c s]; [congruence|].
  assert (Hkeep : filter (fun p => nonempty (strip p)) pieces = pieces).
  { apply filter_all_true. intros p Hp. rewrite Forall_forall in Hgood.
    rewrite (trimmed_strip p (Hgood p Hp)).
    destruct (Hgood p Hp) as (Hp0 & _). now destruct p. }
  rewrite Hkeep. clear Hkeep.
  induction Hgood as [|p l Hp Hl IH]; [reflexivity|].
  cbn [map]. now rewrite (trimmed_strip p Hp), IH.
Qed.

(** X8.  The sentences of [sentence_tokenize], joined by single spaces,
    are [clean_whitespace] of the text: nothing is lost or added.  No
    sentence is empty or has white space at an end, and every sentence
    but the last ends with a full stop, exclamation mark or question mark.
    The list is empty exactly when the text holds nothing but white
    space. *)
Theorem sentence_tokenize_round_trip :
  forall text : str,
    let sentences := sentence_tokenize text in
    join (lit " ") sentences = clean_whitespace text /\
    Forall (fun p => p <> [] /\ strip p = p) sentences /\
    Forall (fun p => is_terminal (last p 0%N) = true) (removelast sentences) /\
    (sentences = [] <-> clean_whitespace text = []).
Proof.
  intros text sentences. subst sentences.
  destruct (clean_whitespace text) as [|c s] eqn:Hflat.
  - unfold sentence_tokenize. rewrite Hflat. cbn [join removelast].
    repeat split; constructor.
  - assert (Hne : clean_whitespace text <> []) by (rewrite Hflat; discriminate).
    destruct (sentence_tokenize_pieces text Hne) as (-> & Hjoin & Hgood & Hlast).
    rewrite Hflat in *.
    split; [exact Hjoin|]. split; [|split; [exact Hlast|]].
    + apply Forall_forall. intros p Hp. rewrite Forall_forall in Hgood.
      split; [apply (Hgood p Hp) | apply trimmed_strip, (Hgood p Hp)].
    + split; [|discriminate]. intros Hnil.
      now apply split_sentences_nonempty in Hnil.
Qed.

(** ** research_common.split_pages_from_pdftotext *)

Lemma split_on_nonempty (sep : N) (s : str) : forall cur, split_on sep cur s <> [].
Proof.
  induction s as [|c s IH]; intros cur; cbn [split_on]; [discriminate|].
  destruct (c =? sep)%N; [discriminate | apply IH].
Qed.

Lemma split_on_pieces (sep : N) (s : str) : forall cur,
  ~ In sep cur ->
  let pieces := split_on sep cur s in
  join [sep] pieces = rev cur ++ s /\
  Forall (fun p => ~ In sep p) pieces /\
  length pieces = S (count_occ N.eq_dec s sep).
Proof.
  induction s as [|c s IH]; intros cur Hcur; cbn [split_on count_occ].
  - cbv zeta. cbn [join length]. rewrite app_nil_r. split; [reflexivity|].
    split; [|reflexivity]. constructor; [|constructor].
    intros Hin. apply Hcur. now apply in_rev.
  - destruct (N.eqb_spec c sep) as [->|Hne].
    + destruct (IH [] (fun H => H)) as (Hjoin & Hall & Hlen).
      cbv zeta in *. cbn [rev app] in Hjoin.
      destruct (N.eq_dec sep sep) as [_|Hn]; [|congruence].
      destruct (split_on sep [] s) as [|p rest] eqn:Hp;
        [now apply split_on_nonempty in Hp|].
      split; [|split].
      * change (join [sep] (rev cur :: p :: rest))
          with (rev cur ++ [sep] ++ join [sep] (p :: rest)).
        now rewrite Hjoin.
      * constructor; [|exact Hall]. intros Hin. apply Hcur. now apply in_rev.
      * cbn [length] in *. now rewrite Hlen.
    + destruct (IH (c :: cur)) as (Hjoin & Hall & Hlen).
      { intros [Heq|Hin]; [congruence | now apply Hcur]. }
      cbv zeta in *. destruct (N.eq_dec c sep) as [Heq|_]; [congruence|].
      split; [|split; assumption].
      rewrite Hjoin. cbn [rev]. now rewrite <- app_assoc.
Qed.

Lemma rev_head_last (A : Type) (l : list A) (x : A) (rest : list A) :
  rev l = x :: rest -> l = removelast l ++ [x] /\ last l x = x.
Proof.
  intros Hrev. apply (f_equal (@rev A)) in Hrev. rewrite rev_involutive in Hrev.
  cbn [rev] in Hrev. subst l. rewrite removelast_last, last_last. now split.
Qed.

(** X9.  [split_pages_from_pdftotext] cuts the text at its form feeds, so
    no page holds a form feed.  When the piece after the last form feed
    holds more than white space, the pages joined by form feeds are the
    text again and there is one page more than form feeds.  Otherwise
    that one blank piece is dropped: the pages followed by it give the
    text back, and there are as many pages as form feeds; text without
    form feed that is blank yields no page. *)
Theorem split_pages_round_trip :
  forall full_text : str,
    let pages := Summarize.split_pages_from_pdftotext full_text in
    let feeds := count_occ N.eq_dec full_text 12%N in
    Forall (fun page => ~ In 12%N page) pages /\
    ((join [12%N] pages = full_text /\ length pages = S feeds /\
      strip (last pages []) <> []) \/
     (exists tail,
         strip tail = [] /\ join [12%N] (pages ++ [tail]) = full_text /\
         length pages = feeds)).
Proof.
  intros full_text pages feeds. subst pages feeds.
  unfold Summarize.split_pages_from_pdftotext.
  destruct (split_on_pieces 12%N full_text [] (fun H => H)) as (Hjoin & Hall & Hlen).
  cbv zeta in *. cbn [rev app] in Hjoin.
  set (pieces := split_on 12%N [] full_text) in *.
  destruct (rev pieces) as [|final rest] eqn:Hrev.
  { apply (f_equal (@length str)) in Hrev. rewrite length_rev, Hlen in Hrev.
    discriminate Hrev. }
  destruct (rev_head_last _ pieces final rest Hrev) as [Hsplit Hlast].
  destruct (strip final) as [|c r] eqn:Hfinal; cbn [nonempty].
  - split.
    + rewrite Hsplit in Hall. now apply Forall_app in Hall as [Hall _].
    + right. exists final. split; [exact Hfinal|]. rewrite <- Hsplit.
      split; [exact Hjoin|].
      rewrite Hsplit, length_app in Hlen. cbn [length] in Hlen. lia.
  - split; [exact Hall|]. left. split; [exact Hjoin|]. split; [exact Hlen|].
    rewrite Hsplit, last_last, Hfinal. discriminate.
Qed.

(** ** build_manifest: every file is accounted for *)

Section Conservation.
Import Manifest.
Variable lower : str -> str.

Lemma setdefault_append_perm groups k r :
  Permutation (concat (map snd (setdefault_append groups k r)))
              (concat (map snd groups) ++ [r]).
Proof.
  induction groups as [|[k0 rs0] rest IH]; cbn [setdefault_append]; [reflexivity|].
  destruct (str_eqb k0 k); cbn [map snd concat].
  - rewrite <- !app_assoc. apply Permutation_app_head, Permutation_app_comm.
  - rewrite <- app_assoc. now apply Permutation_app_head.
Qed.

Lemma group_records_perm (rs : list record) :
  Permutation (concat (map snd (group_records rs))) rs.
Proof.
  unfold group_records.
  assert (Hgen : forall l groups,
            Permutation
              (concat (map snd (fold_left
                                  (fun g r => setdefault_append g (sha256 r) r) l groups)))
              (concat (map snd groups) ++ l)).
  { induction l as [|r l IH]; intros groups; cbn [fold_left].
    - now rewrite app_nil_r.
    - rewrite IH, setdefault_append_perm, <- app_assoc. reflexivity. }
  apply (Hgen rs []).
Qed.

Lemma concat_perm (A : Type) (l l' : list (list A)) :
  Permutation l l' -> Permutation (concat l) (concat l').
Proof.
  induction 1; cbn [concat].
  - reflexivity.
  - now apply Permutation_app_head.
  - rewrite !app_assoc. apply Permutation_app_tail, Permutation_app_comm.
  - etransitivity; eassumption.
Qed.

Lemma describes_aliases items us :
  Forall2 (describes lower) items us ->
  Permutation (concat (map alias_file_names us))
              (map file_name (concat (map snd items))).
Proof.
  induction 1 as [|kv u items us Hd _ IH]; cbn [map concat]; [reflexivity|].
  destruct Hd as (_ & -> & _). rewrite map_app.
  apply Permutation_app; [|exact IH].
  apply Permutation_map, sorted_perm.
Qed.

Lemma describes_counts items us :
  Forall2 (describes lower) items us ->
  Forall (fun kv => snd kv <> []) items ->
  Forall (fun u => alias_file_names u <> [] /\
                   duplicate_count u =
                     (Z.of_nat (length (alias_file_names u)) - 1)%Z /\
                   canonical_file_name u = hd [] (alias_file_names u)) us.
Proof.
  induction 1 as [|kv u items us Hd _ IH]; intros Hne; constructor.
  - inversion Hne as [|? ? Hkv _]; subst.
    destruct Hd as (_ & Hal & Hdup & (c & rest & Hs & Hcan)).
    rewrite Hal, Hs, Hdup. cbn [map hd]. split; [discriminate|]. split; [|exact Hcan].
    rewrite <- (sorted_length str_leb (fun r => lower (file_name r)) (snd kv)), Hs.
    cbn [length]. rewrite length_map. reflexivity.
  - apply IH. now inversion Hne.
Qed.

Lemma grouped_keys groups (l : list record) :
  grouped groups l ->
  forall k, In k (map fst groups) <-> In k (map sha256 l).
Proof.
  intros (_ & Hgrp & Hcov) k. split.
  - intros Hin. apply in_map_iff in Hin as ([k' grp] & <- & Hin). cbn [fst].
    destruct (Hgrp k' grp Hin) as [Hmem Hne].
    destruct grp as [|r grp]; [congruence|].
    assert (Hr : In r (members k' l)) by (rewrite <- Hmem; now left).
    apply filter_In in Hr as [Hr Hk]. apply str_eqb_eq in Hk. subst k'.
    now apply in_map.
  - intros Hin. apply in_map_iff in Hin as (r & <- & Hr). now apply Hcov.
Qed.

Lemma sum_counts us :
  Forall (fun u => alias_file_names u <> [] /\
                   duplicate_count u =
                     (Z.of_nat (length (alias_file_names u)) - 1)%Z /\
                   canonical_file_name u = hd [] (alias_file_names u)) us ->
  fold_right Z.add 0%Z (map (fun u => (duplicate_count u + 1)%Z) us) =
  Z.of_nat (length (concat (map alias_file_names us))).
Proof.
  induction 1 as [|u us (_ & Hdup & _) _ IH]; cbn [map fold_right concat]; [reflexivity|].
  rewrite IH, Hdup, length_app. lia.
Qed.

Lemma filter_map_swap (A B : Type) (f : A -> B) (p : B -> bool) (l : list A) :
  filter p (map f l) = map f (filter (fun x => p (f x)) l).
Proof.
  induction l as [|x l IH]; cbn; [reflexivity|].
  destruct (p (f x)); cbn; now rewrite IH.
Qed.
End Conservation.

(** X10.  Lines 79-124 of [build_manifest] account for every file exactly
    once: the alias lists of the unique records, taken together, are a
    rearrangement of the file names of all records, so the duplicate
    counts plus one add up to [total_files].  There is one unique record
    per digest that occurs and none for a digest that does not; every
    record has a non-empty alias list headed by its canonical name; and
    [duplicate_groups] counts the unique records with a positive
    [duplicate_count]. *)
Theorem manifest_accounts_for_every_file :
  forall (lower : str -> str) (now1 now2 dir : str) (rs : list Manifest.record),
    exists all unique,
      Manifest.assemble lower now1 now2 dir rs = inr (all, unique) /\
      Permutation (concat (map Manifest.alias_file_names (Manifest.papers unique)))
                  (map Manifest.file_name rs) /\
      NoDup (map Manifest.u_sha256 (Manifest.papers unique)) /\
      (forall k, In k (map Manifest.u_sha256 (Manifest.papers unique)) <->
                 In k (map Manifest.sha256 rs)) /\
      Forall (fun u => Manifest.alias_file_names u <> [] /\
                       Manifest.duplicate_count u =
                         (Z.of_nat (length (Manifest.alias_file_names u)) - 1)%Z /\
                       Manifest.canonical_file_name u =
                         hd [] (Manifest.alias_file_names u))
             (Manifest.papers unique) /\
      fold_right Z.add 0%Z
        (map (fun u => (Manifest.duplicate_count u + 1)%Z) (Manifest.papers unique))
        = Z.of_nat (Manifest.total_files all) /\
      Manifest.total_files all = length rs /\
      Manifest.unique_files all = length (Manifest.papers unique) /\
      Manifest.duplicate_groups all =
        length (filter (fun u => (0 <? Manifest.duplicate_count u)%Z)
                       (Manifest.papers unique)).
Proof.
  intros lower now1 now2 dir rs.
  destruct (assemble_total lower now1 now2 dir rs)
    as (items & all & unique & Hrun & Hperm & Hdesc & _ & Htot & Huniq & _ & Hdup & _).
  pose proof (group_records_grouped rs) as Hgrouped.
  assert (Hne : Forall (fun kv => snd kv <> []) items).
  { apply Forall_forall. intros [k grp] Hin.
    apply (Permutation_in _ Hperm) in Hin.
    destruct Hgrouped as (_ & Hgrp & _). apply (Hgrp k grp Hin). }
  pose proof (describes_counts lower _ _ Hdesc Hne) as Hcounts.
  assert (Hal : Permutation
                  (concat (map Manifest.alias_file_names (Manifest.papers unique)))
                  (map Manifest.file_name rs)).
  { rewrite (describes_aliases lower _ _ Hdesc).
    apply Permutation_map.
    rewrite (concat_perm _ _ _ (Permutation_map snd Hperm)).
    apply group_records_perm. }
  exists all, unique. split; [exact Hrun|]. split; [exact Hal|].
  rewrite (Forall2_describes_sha lower _ _ Hdesc).
  split; [|split; [|split; [exact Hcounts|split; [|split; [exact Htot|split; [exact Huniq|]]]]]].
  - apply (Permutation_NoDup (Permutation_sym (Permutation_map fst Hperm))).
    apply Hgrouped.
  - intros k. rewrite <- (grouped_keys _ _ Hgrouped k). split; intros Hin.
    + now apply (Permutation_in _ (Permutation_map fst Hperm)).
    + now apply (Permutation_in _ (Permutation_sym (Permutation_map fst Hperm))).
  - rewrite (sum_counts _ Hcounts), (Permutation_length Hal), length_map, Htot.
    reflexivity.
  - rewrite Hdup, filter_map_swap, length_map. f_equal.
    clear - Hcounts. induction Hcounts as [|u us (_ & Hd & _) _ IH]; [reflexivity|].
    cbn [filter]. rewrite IH, Hd.
    destruct (Nat.ltb_spec 1 (length (Manifest.alias_file_names u)));
      destruct (Z.ltb_spec 0 (Z.of_nat (length (Manifest.alias_file_names u)) - 1));
      try reflexivity; lia.
Qed.

(** ** build_manifest: paper identifiers *)

Lemma decimal_digits_acc (fuel : nat) : forall n acc,
  decimal_digits fuel n acc = decimal_digits fuel n [] ++ acc.
Proof.
  induction fuel as [|fuel IH]; intros n acc; cbn [decimal_digits]; [reflexivity|].
  destruct (n / 10 =? 0); [reflexivity|].
  rewrite (IH _ (_ :: acc)), (IH _ [_]), <- app_assoc. reflexivity.
Qed.

Lemma decimal_digits_fuel (fuel1 : nat) : forall fuel2 n acc,
  n < fuel1 -> n < fuel2 ->
  decimal_digits fuel1 n acc = decimal_digits fuel2 n acc.
Proof.
  induction fuel1 as [|fuel1 IH]; intros fuel2 n acc H1 H2; [lia|].
  destruct fuel2 as [|fuel2]; [lia|]. cbn [decimal_digits].
  destruct (Nat.eqb_spec (n / 10) 0) as [|Hne]; [reflexivity|].
  assert (Hlt : n / 10 < n) by (apply Nat.div_lt; [destruct n; [now cbn in Hne | lia] | lia]).
  apply IH; lia.
Qed.

Lemma decimal_small (n : nat) : n < 10 -> decimal n = [(48 + N.of_nat n)%N].
Proof.
  intros Hn. unfold decimal. cbn [decimal_digits].
  rewrite Nat.div_small, Nat.mod_small by exact Hn. reflexivity.
Qed.

Lemma decimal_step (n : nat) :
  10 <= n -> decimal n = decimal (n / 10) ++ [(48 + N.of_nat (n mod 10))%N].
Proof.
  intros Hn. unfold decimal at 1. cbn [decimal_digits].
  assert (Hq : 0 < n / 10) by (apply Nat.div_str_pos; lia).
  destruct (Nat.eqb_spec (n / 10) 0) as [|_]; [lia|].
  rewrite decimal_digits_acc. f_equal. unfold decimal.
  assert (Hlt : n / 10 < n) by (apply Nat.div_lt; lia).
  apply decimal_digits_fuel; lia.
Qed.

Lemma digits_value_snoc (s : str) (c : N) :
  digits_value (s ++ [c]) = 10 * digits_value s + (N.to_nat c - 48).
Proof. unfold digits_value. now rewrite fold_left_app. Qed.

Lemma digits_value_decimal (n : nat) : digits_value (decimal n) = n.
Proof.
  induction n as [n IH] using lt_wf_ind.
  destruct (Nat.lt_ge_cases n 10) as [Hsmall|Hbig].
  - rewrite (decimal_small n Hsmall). unfold digits_value. cbn [fold_left]. lia.
  - rewrite (decimal_step n Hbig), digits_value_snoc, IH
      by (apply Nat.div_lt; lia).
    pose proof (Nat.div_mod_eq n 10). pose proof (Nat.mod_upper_bound n 10). lia.
Qed.

Lemma digits_value_zeros (k : nat) (s : str) :
  digits_value (repeat 48%N k ++ s) = digits_value s.
Proof.
  unfold digits_value. rewrite fold_left_app. f_equal.
  induction k as [|k IH]; [reflexivity | exact IH].
Qed.

Lemma format_03d_value (n : nat) : digits_value (format_03d n) = n.
Proof. unfold format_03d. now rewrite digits_value_zeros, digits_value_decimal. Qed.

Lemma decimal_is_digits (n : nat) : Forall (fun c => ascii_digit c = true) (decimal n).
Proof.
  induction n as [n IH] using lt_wf_ind.
  assert (Hd : forall m, m < 10 -> ascii_digit (48 + N.of_nat m) = true).
  { intros m Hm. unfold ascii_digit. apply andb_true_intro.
    split; apply N.leb_le; lia. }
  destruct (Nat.lt_ge_cases n 10) as [Hsmall|Hbig].
  - rewrite (decimal_small n Hsmall). constructor; [now apply Hd | constructor].
  - rewrite (decimal_step n Hbig). apply Forall_app. split.
    + apply IH, Nat.div_lt; lia.
    + constructor; [|constructor]. apply Hd, Nat.mod_upper_bound. lia.
Qed.

Lemma format_03d_is_digits (n : nat) :
  Forall (fun c => ascii_digit c = true) (format_03d n).
Proof.
  unfold format_03d. apply Forall_app. split; [|apply decimal_is_digits].
  apply Forall_forall. intros c Hc. apply repeat_spec in Hc. now subst c.
Qed.

(** Two digit strings that are each followed by an underscore and agree
    up to there are the same. *)
Lemma digits_delimited (d1 : str) : forall d2 x y,
  Forall (fun c => ascii_digit c = true) d1 ->
  Forall (fun c => ascii_digit c = true) d2 ->
  d1 ++ 95%N :: x = d2 ++ 95%N :: y -> d1 = d2.
Proof.
  induction d1 as [|a d1 IH]; intros d2 x y H1 H2 Heq.
  - destruct d2 as [|b d2]; [reflexivity|]. cbn in Heq. inversion Heq; subst b.
    inversion H2 as [|? ? Hb _]; subst. discriminate Hb.
  - destruct d2 as [|b d2].
    + cbn in Heq. inversion Heq; subst a.
      inversion H1 as [|? ? Ha _]; subst. discriminate Ha.
    + cbn in Heq. inversion Heq; subst b. f_equal.
      inversion H1; inversion H2; subst. now apply (IH d2 x y).
Qed.

Lemma make_paper_id_number (i j : nat) (d1 d2 : str) :
  Manifest.make_paper_id i d1 = Manifest.make_paper_id j d2 -> i = j.
Proof.
  unfold Manifest.make_paper_id. intros Heq.
  apply app_inv_head in Heq.
  change (lit "_") with [95%N] in Heq. cbn [app] in Heq.
  apply digits_delimited in Heq; try apply format_03d_is_digits.
  apply (f_equal digits_value) in Heq. now rewrite !format_03d_value in Heq.
Qed.

Lemma enumerate_ids_distinct (items : list (str * list Manifest.record)) : forall n,
  NoDup (map (fun ikv => Manifest.make_paper_id (fst ikv) (fst (snd ikv)))
             (enumerate n items)).
Proof.
  induction items as [|kv items IH]; intros n; cbn [enumerate map]; constructor.
  - intros Hin. apply in_map_iff in Hin as ([i kv'] & Heq & Hin).
    cbn [fst snd] in Heq. apply make_paper_id_number in Heq. subst i.
    apply in_enumerate_bounds in Hin. lia.
  - apply IH.
Qed.

Lemma enumerate_nth (A : Type) (l : list A) : forall n i x,
  nth_error l i = Some x -> nth_error (enumerate n l) i = Some (n + i, x).
Proof.
  induction l as [|y l IH]; intros n i x Hnth; [now destruct i|].
  destruct i as [|i]; cbn in *.
  - inversion Hnth; subst. now rewrite Nat.add_0_r.
  - rewrite (IH (S n) i x Hnth). do 2 f_equal. lia.
Qed.

(** X11.  The paper identifiers of one manifest are pairwise distinct,
    even when digests share their first eight characters: the record at
    position [i] (counted from 0) has the identifier
    [paper_<i+1>_<first 8 characters of its digest>], the number written
    with at least three digits, and two such identifiers with different
    numbers are different strings. *)
Theorem paper_ids_are_distinct :
  forall (lower : str -> str) (now1 now2 dir : str) (rs : list Manifest.record),
    exists all unique,
      Manifest.assemble lower now1 now2 dir rs = inr (all, unique) /\
      NoDup (map Manifest.paper_id (Manifest.papers unique)) /\
      (forall i u,
          nth_error (Manifest.papers unique) i = Some u ->
          Manifest.paper_id u =
            lit "paper_" ++ format_03d (S i) ++ lit "_" ++ firstn 8 (Manifest.u_sha256 u)) /\
      (forall i j d1 d2,
          Manifest.make_paper_id i d1 = Manifest.make_paper_id j d2 -> i = j).
Proof.
  intros lower now1 now2 dir rs.
  destruct (assemble_total lower now1 now2 dir rs)
    as (items & all & unique & Hrun & _ & Hdesc & Hids & _).
  exists all, unique. split; [exact Hrun|]. split; [|split].
  - rewrite Hids. apply enumerate_ids_distinct.
  - intros i u Hu.
    assert (Hid : nth_error (map Manifest.paper_id (Manifest.papers unique)) i
                  = Some (Manifest.paper_id u)) by (now rewrite nth_error_map, Hu).
    rewrite Hids, nth_error_map in Hid.
    assert (Hsha : nth_error (map Manifest.u_sha256 (Manifest.papers unique)) i
                   = Some (Manifest.u_sha256 u)) by (now rewrite nth_error_map, Hu).
    rewrite (Forall2_describes_sha lower _ _ Hdesc), nth_error_map in Hsha.
    destruct (nth_error items i) as [kv|] eqn:Hkv; [|discriminate Hsha].
    rewrite (enumerate_nth _ items 1 i kv Hkv) in Hid. cbn in Hid, Hsha.
    inversion Hid as [Hid']. inversion Hsha as [Hsha']. reflexivity.
  - apply make_paper_id_number.
Qed.

Lemma paper_ids_are_distinct_witness :
  let record_of := fun (file digest : str) =>
    {| Manifest.file_name := file; Manifest.absolute_path := lit "/papers/" ++ file;
       Manifest.relative_path := lit "papers/" ++ file; Manifest.sha256 := digest;
       Manifest.size_bytes := 4; Manifest.pages := None;
       Manifest.extractability_status := lit "direct_ok";
       Manifest.extractability_note := [] |} in
  exists all unique,
    Manifest.assemble ascii_lower [] [] []
      [record_of (lit "a.pdf") (lit "0123456789ab");
       record_of (lit "b.pdf") (lit "0123456789cd")] = inr (all, unique) /\
    map Manifest.paper_id (Manifest.papers unique) =
      [lit "paper_001_01234567"; lit "paper_002_01234567"] /\
    NoDup (map Manifest.paper_id (Manifest.papers unique)).
Proof.
  cbv zeta.
  destruct (paper_ids_are_distinct ascii_lower [] [] []
              [ {| Manifest.file_name := lit "a.pdf";
                   Manifest.absolute_path := lit "/papers/" ++ lit "a.pdf";
                   Manifest.relative_path := lit "papers/" ++ lit "a.pdf";
                   Manifest.sha256 := lit "0123456789ab";
                   Manifest.size_bytes := 4; Manifest.pages := None;
                   Manifest.extractability_status := lit "direct_ok";
                   Manifest.extractability_note := [] |};
                {| Manifest.file_name := lit "b.pdf";
                   Manifest.absolute_path := lit "/papers/" ++ lit "b.pdf";
                   Manifest.relative_path := lit "papers/" ++ lit "b.pdf";
                   Manifest.sha256 := lit "0123456789cd";
                   Manifest.size_bytes := 4; Manifest.pages := None;
                   Manifest.extractability_status := lit "direct_ok";
                   Manifest.extractability_note := [] |} ])
    as (all & unique & Hrun & Hnd & _).
  exists all, unique. split; [exact Hrun|]. split; [|exact Hnd].
  vm_compute in Hrun. inversion Hrun; subst. reflexivity.
Defined.

(** ** A stage writes only below its output directory *)

Section Confined.
Import Sys.
Variable A : Type.
Implicit Types (s : fs A) (p q d root : path).

Lemma untouched_refl root s : untouched_outside A root s s.
Proof. intros p _. reflexivity. Qed.

Lemma untouched_trans root s1 s2 s3 :
  untouched_outside A root s1 s2 -> untouched_outside A root s2 s3 ->
  untouched_outside A root s1 s3.
Proof. intros H12 H23 p Hp. now rewrite (H23 p Hp), (H12 p Hp). Qed.

Lemma under_differs root q p :
  is_prefix root q = true -> is_prefix root p = false -> path_eqb q p = false.
Proof.
  intros Hq Hp. destruct (path_eqb_spec q p) as [->|]; [congruence | reflexivity].
Qed.

Lemma below_outside root q p :
  is_prefix root q = true -> is_prefix root p = false -> is_prefix q p = false.
Proof.
  intros Hq Hp. destruct (is_prefix q p) eqn:Hqp; [|reflexivity].
  now rewrite (is_prefix_trans root q p Hq Hqp) in Hp.
Qed.

Lemma read_write_file q (c : content A) s p :
  read (write_file q c s) p = if path_eqb q p then Some c else read s p.
Proof.
  unfold read, write_file. cbn [files lookup].
  destruct (path_eqb_spec q p) as [->|Hne]; [reflexivity|].
  apply (lookup_filter_keep A (fun e => negb (path_eqb e q))).
  destruct (path_eqb_spec p q); [congruence | reflexivity].
Qed.

Lemma read_write_file_other q (c : content A) s p :
  path_eqb q p = false -> read (write_file q c s) p = read s p.
Proof.
  intros Hne. unfold read, write_file. cbn [files lookup]. rewrite Hne.
  apply (lookup_filter_keep A (fun e => negb (path_eqb e q))).
  destruct (path_eqb_spec p q) as [->|]; [|reflexivity].
  now rewrite path_eqb_refl in Hne.
Qed.

Lemma read_unlink_other q s p :
  path_eqb q p = false -> read (unlink q s) p = read s p.
Proof.
  intros Hne. unfold read, unlink. cbn [files].
  apply (lookup_filter_keep A (fun e => negb (path_eqb e q))).
  destruct (path_eqb_spec p q) as [->|]; [|reflexivity].
  now rewrite path_eqb_refl in Hne.
Qed.

Lemma ensure_dir_untouched root q s : untouched_outside A root s (ensure_dir q s).
Proof. intros p _. reflexivity. Qed.

Lemma write_file_untouched root q (c : content A) s :
  is_prefix root q = true -> untouched_outside A root s (write_file q c s).
Proof.
  intros Hq p Hp. apply read_write_file_other. now apply (under_differs root).
Qed.

Lemma json_dump_untouched root q (data : A) s :
  is_prefix root q = true -> untouched_outside A root s (json_dump q data s).
Proof.
  intros Hq. unfold json_dump.
  apply (untouched_trans root s (ensure_dir (parent q) s)).
  - apply ensure_dir_untouched.
  - now apply write_file_untouched.
Qed.

Lemma unlink_untouched root q s :
  is_prefix root q = true -> untouched_outside A root s (unlink q s).
Proof.
  intros Hq p Hp. apply read_unlink_other. now apply (under_differs root).
Qed.

Lemma rmtree_untouched root q s :
  is_prefix root q = true -> untouched_outside A root s (rmtree q s).
Proof.
  intros Hq p Hp. unfold read, rmtree. cbn [files].
  apply (lookup_filter_keep A (fun d => negb (is_prefix q d))).
  now rewrite (below_outside root q p Hq Hp).
Qed.

Lemma move_untouched root src dst s :
  is_prefix root src = true -> is_prefix root dst = true ->
  untouched_outside A root s (move src dst s).
Proof.
  intros Hsrc Hdst. unfold move.
  destruct (read s src) as [c|]; [|apply untouched_refl].
  apply (untouched_trans root s (unlink src s)).
  - now apply unlink_untouched.
  - now apply write_file_untouched.
Qed.

Lemma copy2_untouched root src dst s s' :
  is_prefix root dst = true -> copy2 src dst s = inr s' ->
  untouched_outside A root s s'.
Proof.
  intros Hdst. unfold copy2. destruct (read s src) as [c|]; [|discriminate].
  destruct (path_eqb src dst); [discriminate|].
  intros H. inversion H; subst. now apply write_file_untouched.
Qed.

Lemma write_many_untouched root (written : list (path * list N)) :
  (forall f, In f written -> is_prefix root (fst f) = true) ->
  forall s, untouched_outside A root s
              (fold_left (fun acc f => write_file (fst f) (Raw (snd f)) acc) written s).
Proof.
  induction written as [|f written IH]; intros Hunder s; cbn [fold_left].
  - apply untouched_refl.
  - apply (untouched_trans root s (write_file (fst f) (Raw (snd f)) s)).
    + apply write_file_untouched, Hunder. now left.
    + apply IH. intros g Hg. apply Hunder. now right.
Qed.

Lemma confined_ret {R} root (r : R) : confined A root (ret r).
Proof. intros s. apply untouched_refl. Qed.

Lemma confined_raise {R} root e : confined A root (@raise A R e).
Proof. intros s. apply untouched_refl. Qed.

Lemma confined_lift {R} root (r : exn + R) : confined A root (lift r).
Proof. intros s. apply untouched_refl. Qed.

Lemma confined_get root : confined A root (@get A).
Proof. intros s. apply untouched_refl. Qed.

Lemma confined_modify root (op : fs A -> fs A) :
  (forall s, untouched_outside A root s (op s)) -> confined A root (modify op).
Proof. intros Hop s. apply Hop. Qed.

Lemma confined_bind {R T} root (c : M A R) (k : R -> M A T) :
  confined A root c -> (forall r, confined A root (k r)) -> confined A root (bind c k).
Proof.
  intros Hc Hk s. unfold bind. specialize (Hc s).
  destruct (c s) as [[e|r] s1]; cbn [snd] in *; [exact Hc|].
  apply (untouched_trans root s s1); [exact Hc | apply Hk].
Qed.

Lemma confined_if {R} root (b : bool) (c1 c2 : M A R) :
  confined A root c1 -> confined A root c2 -> confined A root (if b then c1 else c2).
Proof. now destruct b. Qed.
End Confined.

(** ** build_manifest.probe_extractability *)

Lemma rfind_dot_none (b : str) : forall pos found,
  ~ In 46%N b -> Sys.rfind_dot b pos found = found.
Proof.
  induction b as [|c b IH]; intros pos found Hno; cbn [Sys.rfind_dot]; [reflexivity|].
  destruct (N.eqb_spec c 46) as [->|_]; [exfalso; apply Hno; now left|].
  apply IH. intros Hin. apply Hno. now right.
Qed.

Lemma rfind_dot_last (a b : str) : forall pos found,
  ~ In 46%N b ->
  Sys.rfind_dot (a ++ 46%N :: b) pos found = Some (pos + length a).
Proof.
  induction a as [|c a IH]; intros pos found Hno; cbn [app Sys.rfind_dot length].
  - rewrite rfind_dot_none by exact Hno. cbn. f_equal. lia.
  - rewrite IH by exact Hno. f_equal. lia.
Qed.

Lemma stem_pdf (x : str) : x <> [] -> Sys.stem (x ++ lit ".pdf") = x.
Proof.
  intros Hx. unfold Sys.stem, Sys.suffix_start.
  change (lit ".pdf") with (46%N :: lit "pdf").
  rewrite rfind_dot_last
    by (cbn; intros [H|[H|[H|[]]]]; discriminate H).
  rewrite length_app.
  change (length (46%N :: lit "pdf")) with 4. cbn [Nat.add].
  assert (Hlen : 0 < length x) by (destruct x; [congruence | cbn; lia]).
  destruct (Nat.ltb_spec 0 (length x)); [|lia].
  destruct (Nat.ltb_spec (length x) (length x + 4 - 1)); [|lia].
  cbn [andb]. rewrite firstn_app, Nat.sub_diag, firstn_all. cbn. apply app_nil_r.
Qed.

Lemma stem_nonempty (file : str) : file <> [] -> Sys.stem file <> [].
Proof.
  intros Hne. unfold Sys.stem.
  assert (Hpos : 0 < Sys.suffix_start file).
  { unfold Sys.suffix_start.
    assert (Hlen : 0 < length file) by (destruct file; [congruence | cbn; lia]).
    destruct (Sys.rfind_dot file 0 None) as [i|]; [|exact Hlen].
    destruct (Nat.ltb_spec 0 i); cbn [andb]; [|exact Hlen].
    destruct (i <? length file - 1); [assumption | exact Hlen]. }
  destruct file as [|c file]; [congruence|].
  destruct (Sys.suffix_start (c :: file)); [lia | discriminate].
Qed.

Section StagePath.
Import Sys Disk ManifestStage.

Lemma lookup_some_in (A : Type) (p : path) (l : list (path * content A)) c :
  lookup p l = Some c -> In p (map fst l).
Proof.
  induction l as [|[q c'] l IH]; cbn; [discriminate|].
  destruct (path_eqb_spec q p) as [->|_]; [now left | right; now apply IH].
Qed.

Lemma exists_in_entries (s : fs) (p : path) :
  p <> [] -> exists_ s p = true -> In p (entries s).
Proof.
  intros Hp Hex. unfold exists_ in Hex. unfold entries. apply in_or_app.
  apply orb_prop in Hex as [Hd|Hf].
  - left. now apply (is_dir_in artifact s p Hp).
  - right. unfold is_file, read in Hf.
    destruct (lookup p (files s)) as [c|] eqn:Hl; [|discriminate].
    now apply lookup_some_in in Hl.
Qed.

Lemma free_stage_path_under root fuel (s : fs) staging_dir : forall stage_path idx,
  is_prefix root staging_dir = true ->
  is_prefix root stage_path = true ->
  is_prefix root (free_stage_path fuel s staging_dir stage_path idx) = true.
Proof.
  induction fuel as [|fuel IH]; intros stage_path idx Hdir Hp; cbn [free_stage_path];
    [exact Hp|].
  destruct (exists_ s stage_path); [|exact Hp].
  apply IH; [exact Hdir|].
  apply (is_prefix_trans root staging_dir _ Hdir), is_prefix_app.
Qed.

Lemma stem_pdf_length (x : str) : length x <= length (stem (x ++ lit ".pdf")).
Proof.
  destruct x as [|c x]; [cbn; lia|].
  rewrite stem_pdf by discriminate. lia.
Qed.

(** The names tried by the loop grow, so the loop meets a free one before
    it has tried more names than the disk has entries. *)
Lemma free_stage_path_fresh fuel (s : fs) staging_dir : forall p x idx seen,
  p <> [] -> name p = x ++ lit ".pdf" -> NoDup seen ->
  (forall q, In q seen ->
     exists_ s q = true /\ q <> [] /\ length (name q) < length (name p)) ->
  length (entries s) < fuel + length seen ->
  exists_ s (free_stage_path fuel s staging_dir p idx) = false.
Proof.
  induction fuel as [|fuel IH]; intros p x idx seen Hp Hname Hnd Hseen Hlen.
  - exfalso. assert (Hincl : incl seen (entries s)).
    { intros q Hq. destruct (Hseen q Hq) as (Hex & Hne & _).
      now apply exists_in_entries. }
    pose proof (NoDup_incl_length Hnd Hincl). cbn in Hlen. lia.
  - cbn [free_stage_path].
    destruct (exists_ s p) eqn:Hex; [|exact Hex].
    assert (Hgrow : length (name p)
                    < length (name (staging_dir ++
                        [stem (name p) ++ lit "_" ++ decimal idx ++ lit ".pdf"]))).
    { rewrite name_of_child, Hname. pose proof (stem_pdf_length x).
      rewrite !length_app. cbn [length lit]. 
      change (length (lit ".pdf")) with 4. change (length (lit "_")) with 1. lia. }
    apply (IH _ (stem (name p) ++ lit "_" ++ decimal idx) (S idx) (p :: seen)).
    + now destruct staging_dir.
    + rewrite name_of_child. now rewrite <- !app_assoc.
    + constructor; [|exact Hnd]. intros Hin.
      destruct (Hseen _ Hin) as (_ & _ & Hlt). lia.
    + intros q [<-|Hq].
      * split; [exact Hex|]. split; [exact Hp|exact Hgrow].
      * destruct (Hseen q Hq) as (Hq1 & Hq2 & Hq3).
        split; [exact Hq1|]. split; [exact Hq2|lia].
    + cbn [length]. lia.
Qed.

Lemma parent_of_child (d : path) (x : str) : parent (d ++ [x]) = d.
Proof. unfold parent. apply removelast_last. Qed.

(** The path chosen for the staged copy is not taken.  It lies in the
    staging directory, or, for a file whose ASCII stem is a single dot,
    next to it. *)
Lemma choose_stage_path_fresh (s : fs) staging_dir pdf_path :
  exists_ s (choose_stage_path s staging_dir pdf_path) = false /\
  is_prefix (parent staging_dir) (choose_stage_path s staging_dir pdf_path) = true /\
  (ascii_only (stem (name pdf_path)) <> lit "." ->
   is_prefix staging_dir (choose_stage_path s staging_dir pdf_path) = true).
Proof.
  unfold choose_stage_path, with_pdf_suffix.
  set (base := match ascii_only (stem (name pdf_path)) with
               | [] => lit "paper"
               | b => b
               end).
  set (stage_path := if str_eqb base (lit ".") then staging_dir
                     else staging_dir ++ [base]).
  split; [|split].
  - apply (free_stage_path_fresh _ s staging_dir _ (stem (name stage_path)) 1 []).
    + now destruct (parent stage_path).
    + apply name_of_child.
    + constructor.
    + intros q [].
    + unfold entries. rewrite length_app, length_map. cbn. lia.
  - apply free_stage_path_under; [apply parent_is_prefix|].
    unfold stage_path. destruct (str_eqb base (lit ".")); [apply is_prefix_app|].
    rewrite parent_of_child.
    apply (is_prefix_trans _ staging_dir); [apply parent_is_prefix|apply is_prefix_app].
  - intros Hdot. apply free_stage_path_under; [apply is_prefix_refl|].
    unfold stage_path. destruct (str_eqb_spec base (lit ".")) as [Hbase|_].
    + exfalso. apply Hdot. unfold base in Hbase.
      destruct (ascii_only (stem (name pdf_path))); [discriminate|exact Hbase].
    + rewrite parent_of_child. apply is_prefix_app.
Qed.
End StagePath.

(** X12.  [probe_extractability], run with a staging directory that is
    not the root, reports one of the three statuses [direct_ok],
    [requires_staging] and [failed], and the only exceptions it lets
    through are the time-out of a tool and the error of a tool that
    cannot be started.  It creates no directory and writes at most one
    file, under a name that was not taken, so that no path that existed
    reads differently afterwards.  The file is written next to or inside
    the staging directory, and inside it unless the ASCII stem of the
    file name is a single dot; with status [direct_ok] the disk has not
    been touched at all. *)
Theorem probe_never_overwrites :
  forall (tool : list str -> Sys.tool_outcome) (pdf_path staging_dir : Sys.path)
         (s : Disk.fs) (res : exn + str * str) (s' : Disk.fs),
    staging_dir <> [] ->
    ManifestStage.probe_extractability tool pdf_path staging_dir s = (res, s') ->
    Sys.dirs s' = Sys.dirs s /\
    (forall p, Sys.exists_ s p = true -> Sys.read s' p = Sys.read s p) /\
    (forall p, Sys.is_prefix (Sys.parent staging_dir) p = false ->
               Sys.read s' p = Sys.read s p) /\
    (ManifestStage.ascii_only (Sys.stem (Sys.name pdf_path)) <> lit "." ->
     forall p, Sys.is_prefix staging_dir p = false -> Sys.read s' p = Sys.read s p) /\
    match res with
    | inl e => e = TimeoutExpired \/ e = OSError (lit "No such file or directory")
    | inr probe =>
        In (fst probe) [lit "direct_ok"; lit "requires_staging"; lit "failed"] /\
        (fst probe = lit "direct_ok" -> s' = s)
    end.
Proof.
  intros tool pdf_path staging_dir s res s' _ Hrun.
  unfold ManifestStage.probe_extractability, Sys.bind, Sys.lift, Sys.ret in Hrun.
  destruct (tool (ManifestStage.pdftotext_first_page pdf_path)) as [|direct|];
    cbn [Sys.run_command] in Hrun.
  { inversion Hrun; subst. repeat split; try reflexivity. now left. }
  2:{ inversion Hrun; subst. repeat split; try reflexivity. now right. }
  destruct (ManifestStage.probe_ok direct).
  { inversion Hrun; subst. cbn [fst]. do 4 (split; [reflexivity|]).
    split; [now left | reflexivity]. }
  destruct (choose_stage_path_fresh s staging_dir pdf_path)
    as (Hfresh & Hnext & Hunder).
  set (stage_path := ManifestStage.choose_stage_path s staging_dir pdf_path) in *.
  unfold Sys.copy2 in Hrun.
  destruct (Sys.read s pdf_path) as [c|].
  2:{ inversion Hrun; subst. cbn [fst]. do 4 (split; [reflexivity|]).
      split; [right; right; now left | discriminate]. }
  destruct (Sys.path_eqb pdf_path stage_path).
  { inversion Hrun; subst. cbn [fst]. do 4 (split; [reflexivity|]).
    split; [right; right; now left | discriminate]. }
  assert (Hold : forall p, Sys.exists_ s p = true ->
            Sys.read (Sys.write_file stage_path c s) p = Sys.read s p).
  { intros p Hp. apply read_write_file_other.
    destruct (path_eqb_spec stage_path p) as [<-|]; [congruence | reflexivity]. }
  assert (Hout : forall p, Sys.is_prefix (Sys.parent staging_dir) p = false ->
            Sys.read (Sys.write_file stage_path c s) p = Sys.read s p).
  { intros p Hp. now apply (write_file_untouched _ (Sys.parent staging_dir)). }
  assert (Hin : ManifestStage.ascii_only (Sys.stem (Sys.name pdf_path)) <> lit "." ->
            forall p, Sys.is_prefix staging_dir p = false ->
            Sys.read (Sys.write_file stage_path c s) p = Sys.read s p).
  { intros Hdot p Hp. apply (write_file_untouched _ staging_dir); [|exact Hp].
    now apply Hunder. }
  destruct (tool (ManifestStage.pdftotext_first_page stage_path)) as [|staged|];
    cbn [Sys.run_command] in Hrun.
  { inversion Hrun; subst. split; [reflexivity|]. split; [exact Hold|].
    split; [exact Hout|]. split; [exact Hin|now left]. }
  2:{ inversion Hrun; subst. split; [reflexivity|]. split; [exact Hold|].
      split; [exact Hout|]. split; [exact Hin|now right]. }
  destruct (ManifestStage.probe_ok staged); inversion Hrun; subst; cbn [fst];
    (split; [reflexivity|]); (split; [exact Hold|]); (split; [exact Hout|]);
    (split; [exact Hin|]); (split; [|discriminate]).
  - right. now left.
  - right. right. now left.
Qed.

Lemma probe_never_overwrites_witness :
  let tool := fun _ : list str => Sys.Exited Fixture.exit_error in
  let staging := [lit "out"; lit "temp_probe"] in
  let run := ManifestStage.probe_extractability tool
               [lit "data"; lit "papers"; lit "a.pdf"] staging Fixture.raw_corpus in
  fst run = inr (lit "failed", lit "pdftotext failed on direct and staged path") /\
  Sys.read (snd run) [lit "data"; lit "papers"; lit "a.pdf"] =
    Sys.read Fixture.raw_corpus [lit "data"; lit "papers"; lit "a.pdf"] /\
  Sys.is_file (snd run) [lit "out"; lit "temp_probe"; lit "a.pdf"] = true.
Proof.
  cbv zeta. split; [reflexivity|]. split; [|reflexivity].
  destruct (probe_never_overwrites (fun _ => Sys.Exited Fixture.exit_error)
              [lit "data"; lit "papers"; lit "a.pdf"] [lit "out"; lit "temp_probe"]
              Fixture.raw_corpus _ _ ltac:(discriminate) (surjective_pairing _))
    as (_ & Hold & _).
  apply Hold. reflexivity.
Defined.

(** ** The stages write only below the output directory *)

Section ManifestConfined.
Import Sys Disk ManifestStage.
Variable lower : str -> str.
Variable sha256_file : list N -> str.
Variable encode : artifact -> list N.
Variable parse_pdfinfo_pages : str -> option Z.
Variable repo_root : path.
Variable utc_now_iso : nat -> str.
Variable tool : list str -> tool_outcome.
Variable root : path.

Lemma confined_probe_extractability pdf_path staging_dir :
  is_prefix root (parent staging_dir) = true ->
  confined artifact root (probe_extractability tool pdf_path staging_dir).
Proof.
  intros Hunder s p Hp.
  destruct (probe_extractability tool pdf_path staging_dir s) as [res s'] eqn:Hrun.
  unfold probe_extractability, bind, lift, ret in Hrun. cbn [snd].
  destruct (run_command (tool (pdftotext_first_page pdf_path))) as [e|direct];
    [now inversion Hrun|].
  destruct (probe_ok direct); [now inversion Hrun|].
  destruct (copy2 pdf_path (choose_stage_path s staging_dir pdf_path) s)
    as [e|s1] eqn:Hcopy; [now inversion Hrun|].
  assert (Hs1 : read s1 p = read s p).
  { apply (copy2_untouched artifact root _ _ s s1) in Hcopy; [now apply Hcopy|].
    apply (is_prefix_trans root (parent staging_dir) _ Hunder).
    apply choose_stage_path_fresh. }
  destruct (run_command _) as [e|staged]; [now inversion Hrun; subst|].
  destruct (probe_ok staged); now inversion Hrun; subst.
Qed.

Lemma confined_probe_files pdf_files staging_dir :
  is_prefix root (parent staging_dir) = true ->
  confined artifact root
    (probe_files sha256_file parse_pdfinfo_pages repo_root tool pdf_files staging_dir).
Proof.
  intros Hunder. induction pdf_files as [|pdf rest IH]; cbn [probe_files].
  - apply confined_ret.
  - destruct (snd pdf) as [bytes|]; [|apply confined_raise].
    apply confined_bind; [apply confined_lift|]. intros info.
    apply confined_bind; [now apply confined_probe_extractability|]. intros probe.
    apply confined_bind; [exact IH|]. intros records. apply confined_ret.
Qed.

Lemma confined_build_manifest papers_dir out_dir :
  is_prefix root out_dir = true ->
  confined artifact root
    (build_manifest lower sha256_file encode parse_pdfinfo_pages repo_root
       utc_now_iso tool papers_dir out_dir).
Proof.
  intros Hout. unfold build_manifest.
  assert (Hchild : forall x, is_prefix root (out_dir ++ [x]) = true).
  { intros x. apply (is_prefix_trans root out_dir _ Hout), is_prefix_app. }
  apply confined_bind;
    [apply confined_modify; intros s; apply ensure_dir_untouched|]. intros _.
  apply confined_bind; [apply confined_get|]. intros s0.
  apply confined_bind.
  { apply confined_probe_files. now rewrite parent_of_child. }
  intros records.
  apply confined_bind; [apply confined_lift|]. intros assembled.
  apply confined_bind;
    [apply confined_modify; intros s; apply json_dump_untouched, Hchild|]. intros _.
  apply confined_bind;
    [apply confined_modify; intros s; apply json_dump_untouched, Hchild|]. intros _.
  apply confined_modify. intros s.
  destruct (exists_ s _); [apply rmtree_untouched, Hchild | apply untouched_refl].
Qed.
End ManifestConfined.

(** X13.  A run of the manifest builder, from [main] on, changes no file
    outside its output directory, whether it returns, stops with
    [SystemExit] or is ended by a tool that times out: every path that
    does not lie at or below [out_dir] reads after the run as it did
    before.  In particular the PDF files of a papers directory that is
    not inside [out_dir] are neither rewritten nor removed. *)
Theorem manifest_stage_writes_below_out_dir :
  forall (lower : str -> str) (sha256_file : list N -> str)
         (encode : Disk.artifact -> list N) (parse_pdfinfo_pages : str -> option Z)
         (repo_root : Sys.path) (utc_now_iso : nat -> str)
         (tool : list str -> Sys.tool_outcome)
         (papers_dir out_dir : Sys.path) (s : Disk.fs) (p : Sys.path),
    Sys.is_prefix out_dir p = false ->
    Sys.read
      (snd (ManifestStage.main lower sha256_file encode parse_pdfinfo_pages
              repo_root utc_now_iso tool papers_dir out_dir s)) p
    = Sys.read s p.
Proof.
  intros lower sha256_file encode parse_pdfinfo_pages repo_root utc_now_iso tool
         papers_dir out_dir s p Hp.
  assert (Hmain : confined Disk.artifact out_dir
                    (ManifestStage.main lower sha256_file encode parse_pdfinfo_pages
                       repo_root utc_now_iso tool papers_dir out_dir)).
  { unfold ManifestStage.main.
    apply confined_bind;
      [apply confined_modify; intros s0; apply ensure_dir_untouched|]. intros _.
    apply confined_bind; [apply confined_get|]. intros s0.
    apply confined_if; [apply confined_raise|].
    apply confined_build_manifest, is_prefix_refl. }
  now apply Hmain.
Qed.

Lemma manifest_stage_writes_below_out_dir_witness :
  let run := ManifestStage.main ascii_lower (fun bytes => bytes) (fun _ => [])
               (fun _ => None) [] Fixture.clock
               (fun _ => Sys.Exited Fixture.exit_error)
               [lit "data"; lit "papers"] [lit "out"] Fixture.raw_corpus in
  fst run = inr tt /\
  Sys.read (snd run) [lit "data"; lit "papers"; lit "a.pdf"] =
    Some (Sys.Raw [37; 80; 68; 70]%N) /\
  Sys.is_file (snd run) [lit "out"; lit "manifest_all.json"] = true.
Proof.
  cbv zeta. split; [reflexivity|]. split; [|reflexivity].
  rewrite (manifest_stage_writes_below_out_dir ascii_lower (fun bytes => bytes)
             (fun _ => []) (fun _ => None) [] Fixture.clock
             (fun _ => Sys.Exited Fixture.exit_error)
             [lit "data"; lit "papers"] [lit "out"] Fixture.raw_corpus
             [lit "data"; lit "papers"; lit "a.pdf"] eq_refl).
  reflexivity.
Defined.

Section ExtractConfined.
Import Sys Disk ExtractStage.
Variable lib : library.
Variable tools : toolchain.
Variable utc_now_iso : nat -> str.
Variable root : path.

Lemma under_child (d : path) (x : str) :
  is_prefix root d = true -> is_prefix root (d ++ [x]) = true.
Proof. intros Hd. apply (is_prefix_trans root d _ Hd), is_prefix_app. Qed.

Lemma confined_run_writing outcome written :
  (forall f, In f written -> is_prefix root (fst f) = true) ->
  confined artifact root (run_writing outcome written).
Proof.
  intros Hunder s. unfold run_writing. cbn [snd].
  now apply write_many_untouched.
Qed.

Lemma confined_try_extract_text pdf_path text_out :
  is_prefix root text_out = true ->
  confined artifact root (try_extract_text tools pdf_path text_out).
Proof.
  intros Hout. unfold try_extract_text.
  apply confined_bind.
  - apply confined_run_writing. intros f Hf.
    destruct (snd (run_pdftotext tools (path_str pdf_path))); [|destruct Hf].
    destruct Hf as [<-|[]]. exact Hout.
  - intros result. apply confined_bind; [apply confined_get|]. intros s.
    apply confined_if; apply confined_ret.
Qed.

Lemma confined_copy2 src dst :
  is_prefix root dst = true ->
  confined artifact root
    (fun s : fs => match copy2 src dst s with
                   | inl e => (inl e, s)
                   | inr s' => (inr tt, s')
                   end).
Proof.
  intros Hdst s. destruct (copy2 src dst s) as [e|s'] eqn:Hc; cbn [snd].
  - apply untouched_refl.
  - now apply (copy2_untouched artifact root src dst).
Qed.

Lemma confined_full_text_loop source_pdf staging_pdf text_out candidates :
  is_prefix root staging_pdf = true -> is_prefix root text_out = true ->
  confined artifact root
    (full_text_loop tools source_pdf staging_pdf text_out candidates).
Proof.
  intros Hstage Hout. induction candidates as [|candidate rest IH];
    cbn [full_text_loop].
  - apply confined_ret.
  - apply confined_bind.
    + apply confined_if; [|apply confined_ret].
      apply confined_bind;
        [apply confined_modify; intros s; apply ensure_dir_untouched|].
      intros _. now apply confined_copy2.
    + intros _. apply confined_bind; [now apply confined_try_extract_text|].
      intros attempt. apply confined_if; [apply confined_ret | exact IH].
Qed.

Lemma confined_filter_row figures_dir file_by_index st row :
  is_prefix root figures_dir = true ->
  (forall k v, lookup_index k file_by_index = Some v -> is_prefix root v = true) ->
  confined artifact root (filter_row lib figures_dir file_by_index st row).
Proof.
  intros Hfig Hunder s. unfold filter_row.
  destruct (lookup_index (Extract.row_num row) file_by_index) as [image_path|] eqn:Hl;
    [|apply untouched_refl].
  apply Hunder in Hl.
  destruct (read s image_path) as [c|]; [|apply untouched_refl].
  destruct (negb (fst (Extract.should_keep_image _ row _))); cbn [snd];
    [now apply unlink_untouched|].
  destruct (str_in _ _); cbn [snd]; [now apply unlink_untouched|].
  apply move_untouched; [exact Hl | now apply under_child].
Qed.

Lemma confined_filter_rows figures_dir file_by_index rows : forall st,
  is_prefix root figures_dir = true ->
  (forall k v, lookup_index k file_by_index = Some v -> is_prefix root v = true) ->
  confined artifact root (filter_rows lib figures_dir file_by_index rows st).
Proof.
  induction rows as [|row rest IH]; intros st Hfig Hunder; cbn [filter_rows].
  - apply confined_ret.
  - apply confined_bind; [now apply confined_filter_row|].
    intros st'. now apply IH.
Qed.

Lemma confined_move_rendered figures_dir rendered : forall acc,
  is_prefix root figures_dir = true ->
  (forall idx p, In (idx, p) rendered -> is_prefix root p = true) ->
  confined artifact root (move_rendered lib figures_dir rendered acc).
Proof.
  induction rendered as [|[idx page_img] rest IH]; intros acc Hfig Hunder;
    cbn [move_rendered].
  - apply confined_ret.
  - intros s.
    eapply untouched_trans.
    + apply (move_untouched artifact root page_img
               (figures_dir ++ [lit "render_" ++ format_04d idx ++ lit ".png"]) s).
      * apply (Hunder idx). now left.
      * now apply under_child.
    + apply IH; [exact Hfig|]. intros i p Hin. apply (Hunder i). now right.
Qed.

Lemma confined_extract_figures working_pdf figures_dir raw_dir pages_count :
  is_prefix root figures_dir = true -> is_prefix root raw_dir = true ->
  confined artifact root
    (extract_figures lib tools working_pdf figures_dir raw_dir pages_count).
Proof.
  intros Hfig Hraw. unfold extract_figures.
  assert (Hwritten : forall (l : list (str * list N)) f,
            In f (map (fun f => (raw_dir ++ [fst f], snd f)) l) ->
            is_prefix root (fst f) = true).
  { intros l f Hf. apply in_map_iff in Hf as (g & <- & _). cbn [fst].
    now apply under_child. }
  apply confined_bind;
    [apply confined_modify; intros s; apply ensure_dir_untouched|]. intros _.
  apply confined_bind;
    [apply confined_modify; intros s; apply ensure_dir_untouched|]. intros _.
  apply confined_bind; [apply confined_lift|]. intros list_result.
  apply confined_bind; [apply confined_run_writing, Hwritten|]. intros extract_result.
  apply confined_bind; [apply confined_get|]. intros s1.
  apply confined_bind.
  { apply confined_filter_rows; [exact Hfig|]. intros k v Hl.
    apply file_index_values in Hl.
    apply (Permutation_in _ (sorted_perm _ _ _)) in Hl.
    apply glob_png_under in Hl. now apply (is_prefix_trans root raw_dir v). }
  intros st.
  apply confined_bind.
  { apply confined_if; [|apply confined_ret].
    apply confined_bind; [apply confined_run_writing, Hwritten|]. intros render_result.
    apply confined_if; [|apply confined_ret].
    apply confined_bind; [apply confined_get|]. intros s2.
    apply confined_move_rendered; [exact Hfig|]. intros idx p Hin.
    apply in_enumerate in Hin.
    apply (Permutation_in _ (sorted_perm _ _ _)) in Hin.
    apply glob_png_under in Hin. now apply (is_prefix_trans root raw_dir p). }
  intros final_kept.
  apply confined_bind; [|intros _; apply confined_ret].
  apply confined_modify. intros s.
  destruct (exists_ s raw_dir); [now apply rmtree_untouched | apply untouched_refl].
Qed.

Lemma confined_extract_paper papers_root staging_root ris force rows_so_far paper :
  is_prefix root papers_root = true -> is_prefix root staging_root = true ->
  confined artifact root
    (extract_paper lib tools utc_now_iso papers_root staging_root ris force
       rows_so_far paper).
Proof.
  intros Hpapers Hstaging. unfold extract_paper.
  assert (Hdir : is_prefix root (papers_root ++ [Manifest.paper_id paper]) = true)
    by now apply under_child.
  apply confined_bind;
    [apply confined_modify; intros s; apply ensure_dir_untouched|]. intros _.
  apply confined_bind;
    [apply confined_modify; intros s; apply ensure_dir_untouched|]. intros _.
  apply confined_bind; [apply confined_get|]. intros s0.
  apply confined_if; [apply confined_ret|].
  apply confined_bind.
  { apply confined_modify. intros s.
    destruct (force && exists_ s _); [|apply untouched_refl].
    eapply untouched_trans; [|apply ensure_dir_untouched].
    eapply untouched_trans; [|apply ensure_dir_untouched].
    now apply rmtree_untouched. }
  intros _.
  apply confined_bind.
  { apply confined_full_text_loop; now apply under_child. }
  intros extracted.
  apply confined_bind; [apply confined_get|]. intros s1.
  apply confined_bind.
  { apply confined_extract_figures; now apply under_child. }
  intros figure_info.
  repeat (apply confined_bind;
          [apply confined_modify; intros s;
           apply json_dump_untouched; now apply under_child|intros _]).
  apply confined_ret.
Qed.

Lemma confined_extract_loop papers_root staging_root ris force papers :
  is_prefix root papers_root = true -> is_prefix root staging_root = true ->
  forall rows_so_far,
  confined artifact root
    (extract_loop lib tools utc_now_iso papers_root staging_root ris force papers
       rows_so_far).
Proof.
  intros Hpapers Hstaging.
  induction papers as [|paper rest IH]; intros rows_so_far; cbn [extract_loop].
  - apply confined_ret.
  - apply confined_bind; [now apply confined_extract_paper|]. intros rows'. apply IH.
Qed.

Lemma confined_load_manifest manifest_path :
  confined artifact root (load_manifest manifest_path).
Proof.
  intros s. unfold load_manifest.
  destruct (read s manifest_path) as [[b|[]]|]; cbn [snd]; apply untouched_refl.
Qed.

Lemma confined_extract_assets manifest_path out_dir ris_path force :
  is_prefix root out_dir = true ->
  confined artifact root
    (extract_assets lib tools utc_now_iso manifest_path out_dir ris_path force).
Proof.
  intros Hout. unfold extract_assets.
  apply confined_bind; [apply confined_load_manifest|]. intros loaded.
  apply confined_bind; [apply confined_get|]. intros s0.
  apply confined_bind;
    [apply confined_modify; intros s; apply ensure_dir_untouched|]. intros _.
  apply confined_bind;
    [apply confined_modify; intros s; apply ensure_dir_untouched|]. intros _.
  apply confined_bind.
  { apply confined_extract_loop; now apply under_child. }
  intros rows. apply confined_modify. intros s.
  apply json_dump_untouched. now apply under_child.
Qed.
End ExtractConfined.

(** X14.  A run of the extraction stage, from [main] on, over a manifest
    whose paper identifiers are plain names, changes no file outside its
    output directory, whether it returns or raises and whatever the tools
    do: every path that does not lie at or below [out_dir] reads after
    the run as it did before.  The PDF files named by the manifest are
    only read; the staged copies, the text, the figures and the JSON
    files all go below [out_dir]. *)
Theorem extract_stage_writes_below_out_dir :
  forall (lib : ExtractStage.library) (tools : ExtractStage.toolchain)
         (utc_now_iso : nat -> str)
         (manifest_path out_dir ris_path : Sys.path) (force : bool)
         (s : Disk.fs) (p : Sys.path),
    (forall m, Sys.read s manifest_path = Some (Sys.Json (Disk.ManifestUnique m)) ->
               ExtractStage.plain_ids m) ->
    Sys.is_prefix out_dir p = false ->
    Sys.read
      (snd (ExtractStage.main lib tools utc_now_iso manifest_path out_dir
              ris_path force s)) p
    = Sys.read s p.
Proof.
  intros lib tools utc_now_iso manifest_path out_dir ris_path force s p _ Hp.
  assert (Hmain : confined Disk.artifact out_dir
                    (ExtractStage.main lib tools utc_now_iso manifest_path out_dir
                       ris_path force)).
  { unfold ExtractStage.main.
    apply confined_bind;
      [apply confined_modify; intros s0; apply ensure_dir_untouched|]. intros _.
    apply confined_bind; [apply confined_get|]. intros s0.
    apply confined_if; [apply confined_raise|].
    apply confined_extract_assets, is_prefix_refl. }
  now apply Hmain.
Qed.

Lemma extract_stage_writes_below_out_dir_witness :
  let run := ExtractStage.main Fixture.plain_library Fixture.working_tools
               Fixture.clock Fixture.manifest_path Fixture.out_dir
               Fixture.ris_path true Fixture.corpus in
  fst run = inr tt /\
  Sys.read (snd run) [lit "data"; lit "papers"; lit "a.pdf"] =
    Some (Sys.Raw [37; 80; 68; 70]%N) /\
  Sys.is_file (snd run) [lit "out"; lit "papers"; lit "paper_001_0a0a0a0a";
                         lit "text.txt"] = true.
Proof.
  cbv zeta. split; [vm_compute; reflexivity|]. split; [|vm_compute; reflexivity].
  rewrite (extract_stage_writes_below_out_dir Fixture.plain_library
             Fixture.working_tools Fixture.clock Fixture.manifest_path
             Fixture.out_dir Fixture.ris_path true Fixture.corpus
             [lit "data"; lit "papers"; lit "a.pdf"]).
  - reflexivity.
  - intros m Hm.
    change (Some (Sys.Json (Disk.ManifestUnique Fixture.two_papers))
            = Some (Sys.Json (Disk.ManifestUnique m))) in Hm.
    injection Hm as <-. repeat constructor.
  - reflexivity.
Defined.

(** ** extract_assets: papers that are already processed *)

Section SkipFacts.
Import Sys Disk ExtractStage.

Lemma exists_ensure_dir (s : fs) (q p : path) :
  exists_ s p = true -> exists_ (ensure_dir q s) p = true.
Proof.
  unfold exists_. intros Hex. apply orb_prop in Hex as [Hd|Hf]; apply orb_true_iff.
  - left. now apply ensure_dir_keeps_dir.
  - right. exact Hf.
Qed.
End SkipFacts.



(** ** extract_assets.extract_figures *)

Section FigureFacts.
Import Sys Disk ExtractStage Extract.
Variable lib : library.
Variable tools : toolchain.

Lemma dirs_write_many (written : list (path * list N)) : forall s : fs,
  dirs (fold_left (fun acc f => write_file (fst f) (Raw (snd f)) acc) written s) = dirs s.
Proof.
  induction written as [|f rest IH]; intros s; cbn [fold_left]; [reflexivity|].
  now rewrite IH.
Qed.

Lemma dirs_move (src dst : path) (s : fs) : dirs (move src dst s) = dirs s.
Proof. unfold move. now destruct (read s src). Qed.

Lemma filter_rows_account figures_dir file_by_index rows : forall st (s : fs),
  exists st' s',
    filter_rows lib figures_dir file_by_index rows st s = (inr st', s') /\
    dirs s' = dirs s /\
    length (kept st') + length (rejected st') =
      length (kept st) + length (rejected st) + length rows /\
    (Forall embedded (kept st) -> Forall embedded (kept st')).
Proof.
  induction rows as [|row rest IH]; intros st s; cbn [filter_rows].
  - exists st, s. split; [reflexivity|]. split; [reflexivity|].
    split; [cbn; lia | trivial].
  - unfold bind.
    assert (Hrow : exists st1 s1,
               filter_row lib figures_dir file_by_index st row s = (inr st1, s1) /\
               dirs s1 = dirs s /\
               length (kept st1) + length (rejected st1) =
                 S (length (kept st) + length (rejected st)) /\
               (Forall embedded (kept st) -> Forall embedded (kept st1))).
    { unfold filter_row.
      assert (Hrej : forall reason,
                length (kept st) + length (rejected st ++ [(row_num row, reason)]) =
                S (length (kept st) + length (rejected st)))
        by (intros reason; rewrite length_app; cbn; lia).
      destruct (lookup_index _ _) as [image_path|].
      2:{ eexists _, _. split; [reflexivity|]. cbn [kept rejected].
          split; [reflexivity|]. split; [apply Hrej | trivial]. }
      destruct (read s image_path) as [c|].
      2:{ eexists _, _. split; [reflexivity|]. cbn [kept rejected].
          split; [reflexivity|]. split; [apply Hrej | trivial]. }
      destruct (negb _).
      { eexists _, _. split; [reflexivity|]. cbn [kept rejected].
        split; [reflexivity|]. split; [apply Hrej | trivial]. }
      destruct (str_in _ _).
      { eexists _, _. split; [reflexivity|]. cbn [kept rejected].
        split; [reflexivity|]. split; [apply Hrej | trivial]. }
      eexists _, _. split; [reflexivity|]. cbn [kept rejected].
      split; [apply dirs_move|]. split.
      - rewrite length_app. cbn. lia.
      - intros Hall. apply Forall_app. split; [exact Hall|].
        constructor; [reflexivity | constructor]. }
    destruct Hrow as (st1 & s1 & -> & Hd1 & Hc1 & He1).
    destruct (IH st1 s1) as (st' & s' & -> & Hd & Hc & He).
    exists st', s'. split; [reflexivity|]. split; [congruence|].
    split; [cbn [length]; lia | tauto].
Qed.

Lemma move_rendered_account figures_dir rendered : forall acc (s : fs),
  exists pages s',
    move_rendered lib figures_dir rendered acc s = (inr (acc ++ pages), s') /\
    dirs s' = dirs s /\
    map figure_id pages = map (fun ip => render_name (fst ip)) rendered /\
    Forall rendered_page pages.
Proof.
  induction rendered as [|[idx page_img] rest IH]; intros acc s; cbn [move_rendered].
  - exists [], s. rewrite app_nil_r. repeat split. constructor.
  - match goal with
    | |- context [move_rendered lib figures_dir rest (acc ++ [?f]) ?s1] =>
        destruct (IH (acc ++ [f]) s1) as (pages & s' & Hrun & Hd & Hids & Hall);
        exists (f :: pages), s'
    end.
    rewrite Hrun, <- app_assoc. split; [reflexivity|].
    split; [now rewrite Hd, dirs_move|].
    split; [cbn [map figure_id fst]; now rewrite Hids|].
    constructor; [reflexivity | exact Hall].
Qed.
End FigureFacts.

(** X16.  When [extract_figures] returns, the scratch directory
    [_raw_figures] and everything below it is gone.  The summary is
    consistent: [kept_count] is the number of listed figures, at most 200
    rejections are listed, and every row of the image list was either kept
    or rejected.  Without the fallback all figures are embedded images;
    with it no embedded image was kept, every row was rejected, and the
    figures are rendered pages named [render_0001.png], [render_0002.png]
    and so on in order. *)
Theorem extract_figures_accounts :
  forall (lib : ExtractStage.library) (tools : ExtractStage.toolchain)
         (working_pdf figures_dir raw_dir : Sys.path) (pages_count : Z)
         (s : Disk.fs) (info : Extract.figure_summary) (s' : Disk.fs),
    raw_dir <> [] ->
    ExtractStage.extract_figures lib tools working_pdf figures_dir raw_dir
      pages_count s = (inr info, s') ->
    (forall p, Sys.is_prefix raw_dir p = true -> Sys.exists_ s' p = false) /\
    Extract.kept_count info = length (Extract.figures info) /\
    length (Extract.rejections info) = Nat.min 200 (Extract.rejected_count info) /\
    (Extract.fallback_used info = false ->
     Forall embedded (Extract.figures info) /\
     Extract.kept_count info + Extract.rejected_count info =
       Extract.pdfimages_rows info) /\
    (Extract.fallback_used info = true ->
     (0 < pages_count)%Z /\
     Extract.rejected_count info = Extract.pdfimages_rows info /\
     Forall rendered_page (Extract.figures info) /\
     map Extract.figure_id (Extract.figures info) =
       map render_name (seq 1 (Extract.kept_count info))).
Proof.
  intros lib tools working_pdf figures_dir raw_dir pages_count s info s' Hraw Hrun.
  unfold ExtractStage.extract_figures in Hrun.
  unfold Sys.bind at 1 in Hrun. unfold Sys.modify at 1 in Hrun.
  unfold Sys.bind at 1 in Hrun. unfold Sys.modify at 1 in Hrun.
  unfold Sys.bind at 1 in Hrun. unfold Sys.lift at 1 in Hrun.
  destruct (Sys.run_command (ExtractStage.run_pdfimages_list tools _))
    as [e|list_result]; [discriminate Hrun|].
  unfold Sys.bind at 1 in Hrun. unfold ExtractStage.run_writing at 1 in Hrun.
  destruct (Sys.run_command (fst (ExtractStage.run_pdfimages_png tools _)))
    as [e|extract_result]; [discriminate Hrun|].
  unfold Sys.bind at 1 in Hrun. unfold Sys.get at 1 in Hrun.
  unfold Sys.bind at 1 in Hrun.
  set (s0 := Sys.ensure_dir raw_dir (Sys.ensure_dir figures_dir s)) in *.
  match type of Hrun with
  | context [ExtractStage.filter_rows lib ?fd ?fi ?rows ?st ?s1] =>
      destruct (filter_rows_account lib fd fi rows st s1)
        as (st' & s2 & Hrows & Hd2 & Hcount & Hemb);
      set (image_rows := rows) in *
  end.
  rewrite Hrows in Hrun. cbn [ExtractStage.kept ExtractStage.rejected length] in Hcount.
  specialize (Hemb (Forall_nil _)).
  rewrite dirs_write_many in Hd2.
  unfold Sys.bind at 1 in Hrun.
  set (fallback_pages := Z.to_nat (Z.min 12 (Z.max 0 pages_count))) in *.
  assert (Hclean : forall s3 : Disk.fs,
            Sys.dirs s3 = Sys.dirs s0 ->
            forall p, Sys.is_prefix raw_dir p = true ->
              Sys.exists_ (if Sys.exists_ s3 raw_dir then Sys.rmtree raw_dir s3 else s3) p
              = false).
  { intros s3 Hd3 p Hp.
    assert (Hex : Sys.exists_ s3 raw_dir = true).
    { unfold Sys.exists_. apply orb_true_iff. left.
      rewrite (is_dir_dirs Disk.artifact s3 s0 raw_dir Hd3).
      apply ensure_dir_is_dir. }
    rewrite Hex. now apply rmtree_removes. }
  destruct ((length (ExtractStage.kept st') =? 0) && (0 <? fallback_pages)) eqn:Hfb.
  - apply andb_prop in Hfb as [Hnone Hpages].
    apply Nat.eqb_eq in Hnone. apply Nat.ltb_lt in Hpages.
    assert (Hkept0 : ExtractStage.kept st' = [])
      by (now apply length_zero_iff_nil).
    assert (Hpos : (0 < pages_count)%Z) by (unfold fallback_pages in Hpages; lia).
    rewrite Hkept0 in Hrun, Hcount. cbn [length Nat.add] in Hcount.
    unfold Sys.bind at 1 in Hrun. unfold ExtractStage.run_writing at 1 in Hrun.
    destruct (Sys.run_command (fst (ExtractStage.run_pdftoppm tools _ _)))
      as [e|render_result]; [discriminate Hrun|].
    destruct (Sys.code render_result =? 0)%Z.
    + unfold Sys.bind at 1 in Hrun. unfold Sys.get at 1 in Hrun.
      match type of Hrun with
      | context [ExtractStage.move_rendered lib ?fd ?rendered ?acc ?s3] =>
          destruct (move_rendered_account lib fd rendered acc s3)
            as (pages & s4 & Hmove & Hd4 & Hids & Hall)
      end.
      rewrite Hmove in Hrun. rewrite dirs_write_many in Hd4.
      unfold Sys.bind, Sys.modify, Sys.ret in Hrun.
      remember (firstn 200 (ExtractStage.rejected st')) as listed eqn:Hlisted.
      injection Hrun as <- <-.
      cbn [Extract.kept_count Extract.figures Extract.rejections
           Extract.rejected_count Extract.fallback_used Extract.pdfimages_rows].
      cbn [app].
      split; [apply Hclean; congruence|]. split; [reflexivity|].
      split; [rewrite Hlisted; apply length_firstn|]. split; [discriminate|]. intros _.
      split; [exact Hpos|]. split; [lia|]. split; [exact Hall|].
      rewrite <- (length_map Extract.figure_id pages), Hids, length_map.
      rewrite length_enumerate, <- (enumerate_fst _ _ 1), map_map. reflexivity.
    + unfold Sys.bind, Sys.modify, Sys.ret in Hrun.
      remember (firstn 200 (ExtractStage.rejected st')) as listed eqn:Hlisted.
      injection Hrun as <- <-.
      cbn [Extract.kept_count Extract.figures Extract.rejections
           Extract.rejected_count Extract.fallback_used Extract.pdfimages_rows].
      cbn [length].
      split; [apply Hclean; now rewrite dirs_write_many|]. split; [reflexivity|].
      split; [rewrite Hlisted; apply length_firstn|]. split; [discriminate|]. intros _.
      split; [exact Hpos|]. split; [lia|]. split; constructor.
  - unfold Sys.bind, Sys.modify, Sys.ret in Hrun.
      remember (firstn 200 (ExtractStage.rejected st')) as listed eqn:Hlisted.
      injection Hrun as <- <-.
    cbn [Extract.kept_count Extract.figures Extract.rejections
         Extract.rejected_count Extract.fallback_used Extract.pdfimages_rows].
    split; [now apply Hclean|]. split; [reflexivity|].
    split; [rewrite Hlisted; apply length_firstn|]. split; [|discriminate]. intros _.
    split; [exact Hemb | lia].
Qed.

Lemma extract_figures_accounts_witness :
  let raw := [lit "out"; lit "papers"; lit "p"; lit "_raw_figures"] in
  let tools :=
    {| ExtractStage.run_pdftotext := fun _ => (Sys.Exited Fixture.exit_ok, None);
       ExtractStage.run_pdfimages_list := fun _ => Sys.Exited Fixture.exit_ok;
       ExtractStage.run_pdfimages_png := fun _ => (Sys.Exited Fixture.exit_ok, []);
       ExtractStage.run_pdftoppm :=
         fun _ _ => (Sys.Exited Fixture.exit_ok,
                     [(lit "page-1.png", [1%N]); (lit "page-2.png", [2%N])]) |} in
  let run := ExtractStage.extract_figures Fixture.plain_library tools
               [lit "data"; lit "papers"; lit "a.pdf"]
               [lit "out"; lit "papers"; lit "p"; lit "figures"] raw 2
               Fixture.corpus in
  (exists info, fst run = inr info /\
     map Extract.figure_id (Extract.figures info) =
       [lit "render_0001.png"; lit "render_0002.png"]) /\
  Sys.exists_ (snd run) raw = false.
Proof.
  cbv zeta. split; [eexists; split; [vm_compute; reflexivity | reflexivity]|].
  match goal with
  | |- Sys.exists_ (snd ?r) ?raw = false =>
      destruct r as [[e|info] s'] eqn:Hrun; [vm_compute in Hrun; discriminate Hrun|];
      destruct (extract_figures_accounts _ _ _ _ raw _ _ info s'
                  ltac:(discriminate) Hrun) as (Hclean & _)
  end.
  apply Hclean. reflexivity.
Defined.

(** ** summarize_papers.pick_sentences *)

Section PickFacts.
Import Summarize.
Variable lower : str -> str.
Variable limit : nat.

Lemma str_in_true (x : str) (l : list str) : str_in x l = true -> In x l.
Proof.
  unfold str_in. intros H. apply existsb_exists in H as (y & Hy & Heq).
  apply str_eqb_eq in Heq. now subst.
Qed.

Lemma str_in_not (x : str) (l : list str) : str_in x l = false -> ~ In x l.
Proof.
  unfold str_in. intros H Hin.
  assert (Ht : existsb (str_eqb x) l = true).
  { apply existsb_exists. exists x. split; [exact Hin | apply str_eqb_refl]. }
  congruence.
Qed.

(** Appending one unseen sentence. *)
Lemma picking_step chosen seen item :
  picking lower limit (chosen, seen) ->
  str_in (sentence_key lower item) seen = false ->
  let st' := (chosen ++ [item], sentence_key lower item :: seen) in
  snd st' = rev (map (sentence_key lower) (fst st')) /\
  NoDup (snd st') /\
  length (fst st') <= Nat.max limit 1 /\
  ((limit <=? length (fst st')) = false -> picking lower limit st').
Proof.
  intros (Hseen & Hnd & Hlen) Hnew. cbn [fst snd] in *.
  assert (Hs : sentence_key lower item :: seen =
               rev (map (sentence_key lower) (chosen ++ [item]))).
  { rewrite map_app, rev_app_distr. cbn. now rewrite Hseen. }
  assert (Hn : NoDup (sentence_key lower item :: seen)).
  { constructor; [now apply str_in_not | exact Hnd]. }
  split; [exact Hs|]. split; [exact Hn|]. rewrite length_app. cbn [length].
  split.
  - destruct Hlen as [Hlt| ->]; cbn [length]; lia.
  - intros Hgo. apply Nat.leb_gt in Hgo. split; [exact Hs|]. split; [exact Hn|].
    left. cbn [fst]. rewrite length_app. cbn [length]. lia.
Qed.

Lemma pick_matching_spec lower_keywords (sentences : list sentence) : forall st,
  picking lower limit st ->
  let result := pick_matching lower lower_keywords limit sentences st in
  snd (snd result) = rev (map (sentence_key lower) (fst (snd result))) /\
  NoDup (snd (snd result)) /\
  length (fst (snd result)) <= Nat.max limit 1 /\
  (forall x, In x (fst (snd result)) -> In x (fst st) \/ In x sentences) /\
  (fst result = false -> picking lower limit (snd result)) /\
  (fst result = true -> limit <= length (fst (snd result))).
Proof.
  induction sentences as [|item rest IH]; intros [chosen seen] Hst;
    cbn [pick_matching].
  - cbv zeta. cbn [fst snd]. destruct Hst as (Hs & Hn & Hl). cbn [fst snd] in *.
    split; [exact Hs|]. split; [exact Hn|]. split; [destruct Hl as [Hl| ->]; cbn; lia|].
    split; [intros x Hx; now left|]. split; [|discriminate].
    intros _. now repeat split.
  - cbv zeta.
    assert (Hskip :
      let result := pick_matching lower lower_keywords limit rest (chosen, seen) in
      snd (snd result) = rev (map (sentence_key lower) (fst (snd result))) /\
      NoDup (snd (snd result)) /\
      length (fst (snd result)) <= Nat.max limit 1 /\
      (forall x, In x (fst (snd result)) -> In x chosen \/ In x (item :: rest)) /\
      (fst result = false -> picking lower limit (snd result)) /\
      (fst result = true -> limit <= length (fst (snd result)))).
    { destruct (IH (chosen, seen) Hst) as (H1 & H2 & H3 & H4 & H5).
      cbv zeta. split; [exact H1|]. split; [exact H2|]. split; [exact H3|].
      split; [|exact H5]. intros x Hx. destruct (H4 x Hx) as [H|H];
        [now left | right; now right]. }
    destruct (existsb _ lower_keywords); [|exact Hskip].
    fold (sentence_key lower item).
    destruct (str_in (sentence_key lower item) seen) eqn:Hseen; [exact Hskip|].
    destruct (picking_step chosen seen item Hst Hseen) as (H1 & H2 & H3 & H4).
    cbn [fst snd] in *.
    destruct (limit <=? length (chosen ++ [item])) eqn:Hfull.
    + cbn [fst snd]. split; [exact H1|]. split; [exact H2|]. split; [exact H3|].
      split; [|split; [discriminate | intros _; now apply Nat.leb_le]]. intros x Hx.
      apply in_app_or in Hx as [Hx|[<-|[]]]; [now left | right; now left].
    + destruct (IH _ (H4 eq_refl)) as (G1 & G2 & G3 & G4 & G5). cbv zeta in *.
      split; [exact G1|]. split; [exact G2|]. split; [exact G3|]. split; [|exact G5].
      intros x Hx. destruct (G4 x Hx) as [H|H]; [|right; now right].
      cbn [fst] in H. apply in_app_or in H as [H|[<-|[]]];
        [now left | right; now left].
Qed.

Lemma pick_padding_spec (sentences : list sentence) : forall st,
  picking lower limit st ->
  let result := pick_padding lower limit sentences st in
  snd result = rev (map (sentence_key lower) (fst result)) /\
  NoDup (snd result) /\
  length (fst result) <= Nat.max limit 1 /\
  (forall x, In x (fst result) -> In x (fst st) \/ In x sentences) /\
  (forall k, In k (snd st) -> In k (snd result)) /\
  (length (fst result) < limit ->
   forall x, In x sentences -> In (sentence_key lower x) (snd result)).
Proof.
  induction sentences as [|item rest IH]; intros [chosen seen] Hst;
    cbn [pick_padding].
  - cbv zeta. cbn [fst snd]. destruct Hst as (Hs & Hn & Hl). cbn [fst snd] in *.
    split; [exact Hs|]. split; [exact Hn|]. split; [destruct Hl as [Hl| ->]; cbn; lia|].
    split; [intros x Hx; now left|]. split; [trivial|]. intros _ x [].
  - cbv zeta. fold (sentence_key lower item).
    destruct (str_in (sentence_key lower item) seen) eqn:Hseen.
    + destruct (IH (chosen, seen) Hst) as (H1 & H2 & H3 & H4 & H5 & H6).
      cbv zeta in *. split; [exact H1|]. split; [exact H2|]. split; [exact H3|].
      split; [|split; [exact H5|]].
      * intros x Hx. destruct (H4 x Hx) as [H|H]; [now left | right; now right].
      * intros Hlt x [<-|Hx]; [|now apply H6].
        apply H5. cbn [snd]. now apply str_in_true.
    + destruct (picking_step chosen seen item Hst Hseen) as (H1 & H2 & H3 & H4).
      cbn [fst snd] in *.
      destruct (limit <=? length (chosen ++ [item])) eqn:Hfull.
      * cbn [fst snd]. split; [exact H1|]. split; [exact H2|]. split; [exact H3|].
        split; [|split].
        -- intros x Hx. apply in_app_or in Hx as [Hx|[<-|[]]];
             [now left | right; now left].
        -- intros k Hk. now right.
        -- intros Hlt. apply Nat.leb_le in Hfull. lia.
      * destruct (IH _ (H4 eq_refl)) as (G1 & G2 & G3 & G4 & G5 & G6). cbv zeta in *.
        split; [exact G1|]. split; [exact G2|]. split; [exact G3|].
        split; [|split].
        -- intros x Hx. destruct (G4 x Hx) as [H|H]; [|right; now right].
           cbn [fst] in H. apply in_app_or in H as [H|[<-|[]]];
             [now left | right; now left].
        -- intros k Hk. apply G5. cbn [snd]. now right.
        -- intros Hlt x [<-|Hx]; [|now apply G6].
           apply G5. cbn [snd]. now left.
Qed.
End PickFacts.

(** X17.  [pick_sentences] chooses sentences of the pool, never two with
    the same lower-cased, space-collapsed text, and at most [limit] of
    them; for [limit = 0] it can still return one sentence, because the
    limit is tested only after a sentence was appended.  When it returns
    fewer than [limit] sentences the pool is exhausted: the text of every
    sentence of the pool is, in that form, among the chosen ones. *)
Theorem pick_sentences_bounds :
  forall (lower : str -> str) (sentences : list Summarize.sentence)
         (keywords : list str) (limit : nat),
    let chosen := Summarize.pick_sentences lower sentences keywords limit in
    length chosen <= Nat.max limit 1 /\
    (forall x, In x chosen -> In x sentences) /\
    NoDup (map (sentence_key lower) chosen) /\
    (length chosen < limit ->
     forall x, In x sentences ->
       In (sentence_key lower x) (map (sentence_key lower) chosen)).
Proof.
  intros lower sentences keywords limit chosen. subst chosen.
  unfold Summarize.pick_sentences.
  assert (Hinit : picking lower limit ([], [])).
  { split; [reflexivity|]. split; [constructor | now right]. }
  destruct (pick_matching_spec lower limit (map lower keywords) sentences _ Hinit)
    as (H1 & H2 & H3 & H4 & H5 & H6). cbv zeta in *.
  destruct (Summarize.pick_matching lower (map lower keywords) limit sentences ([], []))
    as [flag [picked seen]]. cbn [fst snd] in *.
  assert (Hkeys : forall l keys, keys = rev (map (sentence_key lower) l) ->
            NoDup keys -> NoDup (map (sentence_key lower) l)).
  { intros l keys -> Hn. apply NoDup_rev in Hn. now rewrite rev_involutive in Hn. }
  destruct flag.
  - split; [exact H3|]. split; [|split].
    + intros x Hx. destruct (H4 x Hx) as [[]|H]. exact H.
    + now apply (Hkeys picked seen).
    + intros Hlt. specialize (H6 eq_refl). lia.
  - destruct (pick_padding_spec lower limit sentences _ (H5 eq_refl))
      as (G1 & G2 & G3 & G4 & _ & G6). cbv zeta in *.
    destruct (Summarize.pick_padding lower limit sentences (picked, seen))
      as [padded seen']. cbn [fst snd] in *.
    split; [exact G3|]. split; [|split].
    + intros x Hx. destruct (G4 x Hx) as [H|H]; [|exact H].
      destruct (H4 x H) as [[]|H']. exact H'.
    + now apply (Hkeys padded seen').
    + intros Hlt x Hx. specialize (G6 Hlt x Hx). rewrite G1 in G6.
      now apply in_rev in G6.
Qed.

Lemma pick_sentences_bounds_witness :
  let s1 := {| Summarize.s_page := 1%Z;
               Summarize.s_text := lit "The aim of this work is modest." |} in
  Summarize.pick_sentences ascii_lower [s1] [lit "aim"] 0 = [s1] /\
  length (Summarize.pick_sentences ascii_lower [s1] [lit "aim"] 0) <= 1.
Proof.
  cbv zeta. split; [reflexivity|].
  apply (pick_sentences_bounds ascii_lower
           [{| Summarize.s_page := 1%Z;
               Summarize.s_text := lit "The aim of this work is modest." |}]
           [lit "aim"] 0).
Defined.

(** ** summarize_papers.collect_sentences_with_pages *)

(** X18.  Every sentence that [collect_sentences_with_pages] puts in the
    pool comes from one of the first [page_limit] pages and carries that
    page's number, counted from 1; its text is 25 to 320 code points
    long and is a sentence of a cleaned line of that page, cut after 320
    code points. *)
Theorem collected_sentences_bounds :
  forall (pages : list str) (page_limit : nat) (x : Summarize.sentence),
    In x (Summarize.collect_sentences_with_pages pages page_limit) ->
    (1 <= Summarize.s_page x <= Z.of_nat (Nat.min page_limit (length pages)))%Z /\
    25 <= length (Summarize.s_text x) <= 320 /\
    exists raw sent,
      In raw (splitlines (nth (Z.to_nat (Summarize.s_page x) - 1) pages [])) /\
      20 <= length (clean_whitespace raw) /\
      In sent (sentence_tokenize (clean_whitespace raw)) /\
      Summarize.s_text x = firstn 320 sent.
Proof.
  intros pages page_limit x Hin.
  unfold Summarize.collect_sentences_with_pages in Hin.
  apply in_flat_map in Hin as ([page text] & Hpage & Hin). cbn [fst snd] in Hin.
  apply in_flat_map in Hin as (line & Hline & Hin).
  apply in_flat_map in Hin as (sent & Hsent & Hx).
  apply filter_In in Hline as [Hline Hlong]. apply Nat.leb_le in Hlong.
  apply in_map_iff in Hline as (raw & <- & Hraw).
  destruct (Nat.ltb_spec (length sent) 25) as [|Hlen]; [destruct Hx|].
  destruct Hx as [<-|[]]. cbn [Summarize.s_page Summarize.s_text].
  pose proof (in_enumerate_bounds _ _ _ _ _ Hpage) as Hb.
  rewrite length_firstn in Hb.
  assert (Hnth : forall (l : list str) n i y,
             In (i, y) (enumerate n l) -> nth (i - n) l [] = y).
  { clear. induction l as [|z l IH]; intros n i y Hin; [contradiction|].
    cbn in Hin. destruct Hin as [Heq|Hin].
    - inversion Heq; subst. now rewrite Nat.sub_diag.
    - pose proof (in_enumerate_bounds _ _ _ _ _ Hin) as Hb.
      apply IH in Hin. replace (i - n) with (S (i - S n)) by lia. exact Hin. }
  pose proof (Hnth _ _ _ _ Hpage) as Htext.
  assert (Hfirst : forall i n (l : list str), i < n -> nth i (firstn n l) [] = nth i l []).
  { clear. induction i as [|i IH]; intros [|n] [|y l] Hi; cbn; try lia; try reflexivity.
    apply IH. lia. }
  assert (Hsame : nth (page - 1) pages [] = text).
  { rewrite <- Htext. symmetry. apply Hfirst. lia. }
  split; [lia|]. split.
  - destruct (Nat.ltb_spec 320 (length sent)).
    + rewrite length_firstn. lia.
    + lia.
  - exists raw, sent. rewrite Nat2Z.id, Hsame.
    split; [exact Hraw|]. split; [exact Hlong|]. split; [exact Hsent|].
    destruct (Nat.ltb_spec 320 (length sent)); [reflexivity|].
    symmetry. apply firstn_all2. lia.
Qed.

Lemma collected_sentences_bounds_witness :
  let x := {| Summarize.s_page := 1%Z;
              Summarize.s_text := lit "We propose a finite volume scheme." |} in
  In x (Summarize.collect_sentences_with_pages
          [lit "We propose a finite volume scheme."] 10) /\
  25 <= length (Summarize.s_text x) <= 320.
Proof.
  cbv zeta.
  assert (Hin : In {| Summarize.s_page := 1%Z;
                      Summarize.s_text := lit "We propose a finite volume scheme." |}
                   (Summarize.collect_sentences_with_pages
                      [lit "We propose a finite volume scheme."] 10))
    by (vm_compute; now left).
  split; [exact Hin|].
  apply (collected_sentences_bounds _ _ _ Hin).
Defined.

(** ** summarize_papers.build_evidence_anchors *)

Section AnchorFacts.
Import Summarize.
Variable lower : str -> str.

Lemma anchor_key_eqb_spec (a b : anchor) :
  anchor_key_eqb lower a b = true <-> anchor_key lower a = anchor_key lower b.
Proof.
  unfold anchor_key_eqb, anchor_key. rewrite !andb_true_iff. split.
  - intros [[Ht Hp] Hq]. apply str_eqb_eq in Ht, Hq. apply Z.eqb_eq in Hp.
    congruence.
  - intros Heq. inversion Heq as [[Ht Hp Hq]]. rewrite Ht, Hp, Hq.
    now rewrite !str_eqb_refl, Z.eqb_refl.
Qed.

Lemma unique_anchors_distinct (anchors : list anchor) : forall seen,
  NoDup (map (anchor_key lower) (unique_anchors lower seen anchors)) /\
  (forall a, In a (unique_anchors lower seen anchors) ->
             ~ In (anchor_key lower a) (map (anchor_key lower) seen)).
Proof.
  induction anchors as [|a rest IH]; intros seen; cbn [unique_anchors].
  - split; [constructor | intros a []].
  - destruct (existsb (anchor_key_eqb lower a) seen) eqn:Hseen; [apply IH|].
    destruct (IH (a :: seen)) as [Hnd Hfresh]. split.
    + cbn [map]. constructor; [|exact Hnd]. intros Hin.
      apply in_map_iff in Hin as (b & Hkey & Hb).
      apply (Hfresh b Hb). cbn [map]. now left.
    + intros b [<-|Hb].
      * intros Hin. apply in_map_iff in Hin as (c & Hkey & Hc).
        assert (Ht : existsb (anchor_key_eqb lower a) seen = true).
        { apply existsb_exists. exists c. split; [exact Hc|].
          now apply anchor_key_eqb_spec. }
        congruence.
      * intros Hin. apply (Hfresh b Hb). cbn [map]. now right.
Qed.

Lemma add_item_shape tag_name text page a :
  In a (add_item tag_name text page) ->
  tag a = tag_name /\ a_page a = page /\ quote a <> [] /\
  quote a = firstn 280 (clean_whitespace text).
Proof.
  unfold add_item. destruct (clean_whitespace text) as [|c r] eqn:Hc; [intros []|].
  intros [<-|[]]. cbn [tag a_page quote]. repeat split. discriminate.
Qed.
End AnchorFacts.

(** X19.  [build_evidence_anchors] returns at most 14 anchors.  Each has
    one of the tags objective, methods, findings, limitations and
    equation, and a quote that is not empty, is at most 280 code points
    long and is the beginning of the cleaned text of one of the given
    sentences or equations, with the page of that item.  No two anchors
    agree in tag, page and lower-cased quote. *)
Theorem evidence_anchors_well_formed :
  forall (lower : str -> str)
         (objective_s methods_s findings_s limitations_s : list Summarize.sentence)
         (equations : list Summarize.eq_entry),
    let anchors := Summarize.build_evidence_anchors lower objective_s methods_s
                     findings_s limitations_s equations in
    length anchors <= 14 /\
    NoDup (map (anchor_key lower) anchors) /\
    (forall a, In a anchors ->
       In (Summarize.tag a) anchor_tags /\
       Summarize.quote a <> [] /\
       length (Summarize.quote a) <= 280 /\
       ((exists x,
           In x (objective_s ++ methods_s ++ findings_s ++ limitations_s) /\
           Summarize.a_page a = Summarize.s_page x /\
           Summarize.quote a = firstn 280 (clean_whitespace (Summarize.s_text x))) \/
        (exists e,
           In e equations /\ Summarize.tag a = lit "equation" /\
           Summarize.a_page a = get_or 1%Z (Summarize.eq_page e) /\
           Summarize.quote a =
             firstn 280 (clean_whitespace (get_or [] (Summarize.eq_equation e)))))).
Proof.
  intros lower o m f l equations anchors. subst anchors.
  unfold Summarize.build_evidence_anchors.
  set (all := Summarize.sentence_anchors (lit "objective") o ++ _).
  destruct (unique_anchors_distinct lower all []) as [Hnd _].
  split; [apply firstn_le_length|]. split.
  - rewrite <- firstn_map. now apply NoDup_firstn_of.
  - intros a Ha. apply in_firstn in Ha. apply unique_anchors_incl in Ha.
    assert (Hsent : forall tag_name items,
              In tag_name anchor_tags ->
              In a (Summarize.sentence_anchors tag_name items) ->
              In (Summarize.tag a) anchor_tags /\
              Summarize.quote a <> [] /\
              length (Summarize.quote a) <= 280 /\
              exists x, In x items /\ Summarize.a_page a = Summarize.s_page x /\
                Summarize.quote a =
                  firstn 280 (clean_whitespace (Summarize.s_text x))).
    { intros tag_name items Htag Hin. unfold Summarize.sentence_anchors in Hin.
      apply in_flat_map in Hin as (x & Hx & Hin).
      apply add_item_shape in Hin as (Ht & Hp & Hq & Hquote).
      rewrite Ht. split; [exact Htag|]. split; [exact Hq|].
      split; [rewrite Hquote; apply firstn_le_length|]. now exists x. }
    unfold all in Ha.
    repeat (apply in_app_or in Ha as [Ha|Ha]).
    + apply Hsent in Ha as (H1 & H2 & H3 & x & Hx & H4); [|now left].
      split; [exact H1|]. split; [exact H2|]. split; [exact H3|].
      left. exists x. split; [|exact H4]. apply in_or_app. now left.
    + apply Hsent in Ha as (H1 & H2 & H3 & x & Hx & H4); [|right; now left].
      split; [exact H1|]. split; [exact H2|]. split; [exact H3|].
      left. exists x. split; [|exact H4].
      apply in_or_app. right. apply in_or_app. now left.
    + apply Hsent in Ha as (H1 & H2 & H3 & x & Hx & H4); [|do 2 right; now left].
      split; [exact H1|]. split; [exact H2|]. split; [exact H3|].
      left. exists x. split; [|exact H4].
      do 2 (apply in_or_app; right). apply in_or_app. now left.
    + apply Hsent in Ha as (H1 & H2 & H3 & x & Hx & H4); [|do 3 right; now left].
      split; [exact H1|]. split; [exact H2|]. split; [exact H3|].
      left. exists x. split; [|exact H4].
      do 3 (apply in_or_app; right). exact Hx.
    + unfold Summarize.equation_anchors in Ha.
      apply in_flat_map in Ha as (e & He & Hin).
      apply add_item_shape in Hin as (Ht & Hp & Hq & Hquote).
      split; [rewrite Ht; do 4 right; now left|]. split; [exact Hq|].
      split; [rewrite Hquote; apply firstn_le_length|].
      right. now exists e.
Qed.

Lemma evidence_anchors_well_formed_witness :
  let x := {| Summarize.s_page := 3%Z;
              Summarize.s_text := lit "  We study   tsunami vortices. " |} in
  Summarize.build_evidence_anchors ascii_lower [x] [] [x] [] []
  = [{| Summarize.tag := lit "objective"; Summarize.a_page := 3%Z;
        Summarize.quote := lit "We study tsunami vortices." |};
     {| Summarize.tag := lit "findings"; Summarize.a_page := 3%Z;
        Summarize.quote := lit "We study tsunami vortices." |}] /\
  In (lit "findings") anchor_tags /\
  length (lit "We study tsunami vortices.") <= 280.
Proof.
  cbv zeta. split; [vm_compute; reflexivity|].
  destruct (evidence_anchors_well_formed ascii_lower
              [{| Summarize.s_page := 3%Z;
                  Summarize.s_text := lit "  We study   tsunami vortices. " |}] []
              [{| Summarize.s_page := 3%Z;
                  Summarize.s_text := lit "  We study   tsunami vortices. " |}] [] [])
    as (_ & _ & Hall).
  destruct (Hall {| Summarize.tag := lit "findings"; Summarize.a_page := 3%Z;
                    Summarize.quote := lit "We study tsunami vortices." |})
    as (Htag & _ & Hlen & _).
  - vm_compute. right. now left.
  - split; [exact Htag | exact Hlen].
Defined.

(** ** summarize_papers: citation numbers and the bibliography *)

Section NumberingFacts.
Import Summarize.
Variable lower : str -> str.
Variable abstract_search : str -> option str.

Lemma summarize_one_mirror n p a :
  let s := fst (summarize_one lower abstract_search n p a) in
  let b := snd (summarize_one lower abstract_search n p a) in
  citation_number s = n /\ paper_id s = p_paper_id p /\
  b_id b = n /\ b_paper_id b = paper_id s /\ b_title b = title s /\
  b_citation b = citation s /\ b_doi b = doi s /\ b_url b = url s.
Proof.
  unfold summarize_one.
  destruct (extract_abstract_snippet abstract_search (load_pages (a_text a)))
    as [abstract_text abstract_page].
  cbn. repeat split.
Qed.

Lemma summarize_loop_numbers assets (items : list manifest_item) : forall n,
  let results := summarize_loop lower abstract_search assets (enumerate n items) in
  StronglySorted lt (map (fun r => citation_number (fst r)) results) /\
  Forall (fun r => n <= citation_number (fst r)) results.
Proof.
  induction items as [|item rest IH]; intros n; cbn [enumerate].
  - cbn. split; constructor.
  - destruct (IH (S n)) as [Hsorted Hge]. cbv zeta in *.
    unfold summarize_loop in *. cbn [flat_map fst snd].
    assert (Hge' : Forall (fun r => n <= citation_number (fst r))
                     (flat_map
                        (fun numbered =>
                           match snd numbered with
                           | ItemDict p =>
                               match assets (p_paper_id p) with
                               | Some a =>
                                   [summarize_one lower abstract_search
                                      (fst numbered) p a]
                               | None => []
                               end
                           | ItemOther => []
                           end) (enumerate (S n) rest))).
    { eapply Forall_impl; [|exact Hge]. intros r Hr. cbn in Hr. lia. }
    destruct item as [p|]; [|split; assumption].
    destruct (assets (p_paper_id p)) as [a|]; [|split; assumption].
    cbn [app map].
    destruct (summarize_one_mirror n p a) as (Hn & _). cbv zeta in Hn.
    split.
    + constructor; [exact Hsorted|]. rewrite Hn.
      apply Forall_map. eapply Forall_impl; [|exact Hge]. intros r Hr. cbn in Hr. lia.
    + constructor; [lia | exact Hge'].
Qed.
End NumberingFacts.

(** X20.  In the output of [summarize_papers] the citation number of a
    summary is the position of its paper in the manifest's list, counted
    from 1, so the numbers rise strictly and a paper that is skipped
    (no [metadata.json]) leaves a gap; every manifest entry that has its
    metadata is summarised.  The bibliography repeats the summaries entry
    by entry, with the same number, paper id, title, citation, DOI and
    URL, and [summarized_records] is their count, at most the length of
    the manifest's list. *)
Theorem citation_numbers_follow_manifest :
  forall (lower : str -> str) (abstract_search : str -> option str)
         (now manifest_path assets_dir : str)
         (m : Summarize.manifest) (assets : str -> option Summarize.paper_assets)
         (items : list Summarize.manifest_item),
    Summarize.m_papers m = Some items ->
    exists out,
      Summarize.summarize_papers lower abstract_search now manifest_path
        assets_dir m assets = inr out /\
      StronglySorted lt (map Summarize.citation_number (Summarize.papers out)) /\
      (forall s, In s (Summarize.papers out) ->
         exists p,
           1 <= Summarize.citation_number s /\
           nth_error items (Summarize.citation_number s - 1)
             = Some (Summarize.ItemDict p) /\
           Summarize.paper_id s = Summarize.p_paper_id p /\
           assets (Summarize.p_paper_id p) <> None) /\
      (forall i p,
         nth_error items i = Some (Summarize.ItemDict p) ->
         assets (Summarize.p_paper_id p) <> None ->
         exists s, In s (Summarize.papers out) /\
                   Summarize.citation_number s = S i /\
                   Summarize.paper_id s = Summarize.p_paper_id p) /\
      map (fun b => (Summarize.b_id b, Summarize.b_paper_id b, Summarize.b_title b,
                     Summarize.b_citation b, Summarize.b_doi b, Summarize.b_url b))
          (Summarize.bibliography out)
      = map (fun s => (Summarize.citation_number s, Summarize.paper_id s,
                       Summarize.title s, Summarize.citation s, Summarize.doi s,
                       Summarize.url s))
            (Summarize.papers out) /\
      Summarize.summarized_records (Summarize.corpus out)
        = length (Summarize.papers out) /\
      length (Summarize.papers out) <= length items.
Proof.
  intros lower abstract_search now manifest_path assets_dir m assets items Hm.
  unfold Summarize.summarize_papers, Summarize.build_output. rewrite Hm.
  eexists. split; [reflexivity|].
  cbn [Summarize.papers Summarize.bibliography Summarize.corpus
       Summarize.summarized_records].
  set (results := Summarize.summarize_loop lower abstract_search assets
                    (enumerate 1 items)).
  destruct (summarize_loop_numbers lower abstract_search assets items 1)
    as [Hsorted _]. cbv zeta in Hsorted. fold results in Hsorted.
  split; [now rewrite map_map|]. split; [|split; [|split; [|split]]].
  - intros s Hs. apply in_map_iff in Hs as ([s' b] & Heq & Hin).
    cbn [fst] in Heq. subst s'. unfold results in Hin.
    apply summarize_loop_in in Hin as (n & p & a & Hitem & Ha & Hone).
    destruct (summarize_one_mirror lower abstract_search n p a) as (Hn & Hid & _).
    cbv zeta in Hn, Hid. rewrite <- Hone in Hn, Hid. cbn [fst] in Hn, Hid.
    pose proof (in_enumerate_bounds _ _ _ _ _ Hitem) as Hb.
    exists p. rewrite Hn. split; [lia|]. split; [|split; [exact Hid | congruence]].
    clear - Hitem. revert Hitem. generalize 1 as k.
    induction items as [|x l IH]; intros k Hin; [contradiction|].
    cbn in Hin. destruct Hin as [Heq|Hin].
    + inversion Heq; subst. now rewrite Nat.sub_diag.
    + pose proof (in_enumerate_bounds _ _ _ _ _ Hin) as Hb.
      apply IH in Hin. replace (n - k) with (S (n - S k)) by lia. exact Hin.
  - intros i p Hnth Ha.
    destruct (assets (Summarize.p_paper_id p)) as [a|] eqn:Hassets; [|congruence].
    exists (fst (Summarize.summarize_one lower abstract_search (S i) p a)).
    destruct (summarize_one_mirror lower abstract_search (S i) p a) as (Hn & Hid & _).
    split; [|split; assumption].
    apply in_map. unfold results, Summarize.summarize_loop.
    apply in_flat_map. exists (S i, Summarize.ItemDict p). split.
    + apply (enumerate_nth _ items 1 i) in Hnth. now apply nth_error_In in Hnth.
    + cbn [fst snd]. rewrite Hassets. now left.
  - rewrite !map_map. apply map_ext_in. intros [s b] Hin. unfold results in Hin.
    apply summarize_loop_in in Hin as (n & p & a & _ & _ & Hone).
    destruct (summarize_one_mirror lower abstract_search n p a)
      as (H1 & H2 & H3 & H4 & H5 & H6 & H7 & H8).
    cbv zeta in *. rewrite <- Hone in *. cbn [fst snd] in *. congruence.
  - reflexivity.
  - rewrite length_map. unfold results, Summarize.summarize_loop.
    rewrite <- (length_enumerate _ items 1).
    generalize (enumerate 1 items) as l. induction l as [|[n item] l IH];
      [cbn; lia|].
    cbn [flat_map fst snd]. rewrite length_app. cbn [length].
    destruct item as [p|]; [destruct (assets (Summarize.p_paper_id p))|];
      cbn [length]; lia.
Qed.

Lemma citation_numbers_follow_manifest_witness :
  let paper := fun id : str =>
    Summarize.ItemDict
      {| Summarize.p_paper_id := id; Summarize.p_canonical_file_name := None;
         Summarize.p_alias_file_names := None;
         Summarize.p_duplicate_count := None |} in
  let md := {| Summarize.md_title := None; Summarize.md_vancouver_citation := None;
               Summarize.md_doi := None; Summarize.md_url := None;
               Summarize.md_year := None; Summarize.md_journal := None;
               Summarize.md_authors := None; Summarize.md_text_quality := None |} in
  let assets := fun id : str =>
    if str_eqb id (lit "b") then None
    else Some {| Summarize.a_metadata := md; Summarize.a_text := None;
                 Summarize.a_equations := None; Summarize.a_figures := None |} in
  exists out,
    Summarize.summarize_papers ascii_lower (fun _ => None) [] [] []
      {| Summarize.m_papers := Some [paper (lit "a"); paper (lit "b"); paper (lit "c")];
         Summarize.m_source_total_files := None;
         Summarize.m_source_unique_files := None |} assets = inr out /\
    map Summarize.citation_number (Summarize.papers out) = [1; 3] /\
    StronglySorted lt (map Summarize.citation_number (Summarize.papers out)).
Proof.
  cbv zeta.
  match goal with
  | |- exists out, Summarize.summarize_papers ?lo ?ab ?no ?mp ?ad ?m ?assets = _ /\ _ =>
      destruct (citation_numbers_follow_manifest lo ab no mp ad m assets _ eq_refl)
        as (out & Hrun & Hsorted & _)
  end.
  exists out. split; [exact Hrun|]. split; [|exact Hsorted].
  vm_compute in Hrun. inversion Hrun; subst. reflexivity.
Defined.

(** ** publish_notion: rich_text and paragraph_blocks *)

Lemma lstrip_length (s : str) : length (lstrip s) <= length s.
Proof.
  induction s as [|c s IH]; cbn [lstrip length]; [lia|].
  destruct (isspace c); cbn [length]; lia.
Qed.

Lemma strip_length (s : str) : length (strip s) <= length s.
Proof.
  unfold strip, rstrip. rewrite length_rev.
  pose proof (lstrip_length (rev (lstrip s))) as H1. rewrite length_rev in H1.
  pose proof (lstrip_length s). lia.
Qed.

Lemma lstrip_no_space (s : str) :
  forallb (fun c => negb (isspace c)) s = true -> lstrip s = s.
Proof.
  destruct s as [|c s]; [reflexivity|]. cbn [forallb lstrip].
  intros H. apply andb_true_iff in H as [Hc _].
  destruct (isspace c); [discriminate | reflexivity].
Qed.

Lemma strip_no_space (s : str) :
  forallb (fun c => negb (isspace c)) s = true -> strip s = s.
Proof.
  intros H. unfold strip, rstrip. rewrite (lstrip_no_space s H).
  rewrite lstrip_no_space; [apply rev_involutive|].
  rewrite forallb_forall in *. intros c Hc. apply H. now apply in_rev.
Qed.

Lemma rich_text_spec (text : str) :
  let chunks := Notion.rich_text text in
  concat chunks = strip text /\
  map (@length N) chunks = Publish.sizes_gen 1800 (length (strip text)).
Proof.
  cbv zeta. unfold Notion.rich_text.
  destruct (strip text) as [|c t] eqn:Hs.
  - split; reflexivity.
  - cbn [nonempty]. rewrite <- Hs.
    destruct (@range_chunks N (strip text) 1800 ltac:(lia) (length (strip text)) 0
                ltac:(lia)) as [Hcat Hlen].
    unfold range_step. rewrite Nat.sub_0_r in Hlen. cbn [skipn] in Hcat.
    split; assumption.
Qed.

(** X21.  [rich_text] loses nothing of the stripped text: the contents
    of its items, joined in order, are [text.strip()].  No item is empty
    or longer than 1800 code points, every item but the last holds
    exactly 1800, and there are [ceil(len(text.strip()) / 1800)] items,
    so none for a text of white space only. *)
Theorem rich_text_partitions :
  forall text : str,
    concat (Notion.rich_text text) = strip text /\
    Forall (fun c => 0 < length c <= 1800) (Notion.rich_text text) /\
    (forall c, In c (removelast (Notion.rich_text text)) -> length c = 1800) /\
    length (Notion.rich_text text) = (length (strip text) + 1799) / 1800.
Proof.
  intros text. destruct (rich_text_spec text) as [Hcat Hlen].
  split; [exact Hcat|]. split; [|split].
  - apply (map_length_forall N (fun n => 0 < n <= 1800)).
    rewrite Hlen. apply sizes_gen_bounds. lia.
  - intros c Hc. apply (in_removelast_map _ _ (@length N)) in Hc.
    rewrite Hlen in Hc. now apply sizes_gen_full in Hc.
  - rewrite <- (length_map (@length N)), Hlen, sizes_gen_length by lia.
    f_equal. lia.
Qed.

Lemma rich_text_partitions_witness :
  Notion.rich_text (lit "  vortex sheet  ") = [lit "vortex sheet"] /\
  (forall c, In c (removelast (Notion.rich_text (lit "  vortex sheet  "))) ->
             length c = 1800).
Proof.
  split; [vm_compute; reflexivity|].
  apply (rich_text_partitions (lit "  vortex sheet  ")).
Defined.

Lemma carried_parts (parts : list str) :
  Notion.carried
    (map (fun p => {| Notion.p_rich_text := Notion.rich_text p |}) parts)
  = concat (map strip parts).
Proof.
  unfold Notion.carried. rewrite map_map. cbn [Notion.p_rich_text].
  f_equal. apply map_ext. intros p. now destruct (rich_text_spec p).
Qed.

Lemma concat_strip_length (parts : list str) :
  length (concat (map strip parts)) <= length (concat parts).
Proof.
  induction parts as [|p parts IH]; [reflexivity|].
  cbn [map concat]. rewrite !length_app. pose proof (strip_length p). lia.
Qed.

Lemma rich_text_items (p : str) :
  length p <= (1800 * 8) ->
  length (Notion.rich_text p) <= 8 /\
  Forall (fun c => 0 < length c <= 1800) (Notion.rich_text p).
Proof.
  intros Hp. destruct (rich_text_spec p) as [_ Hlen]. split.
  - rewrite <- (length_map (@length N)), Hlen, sizes_gen_length by lia.
    pose proof (strip_length p) as Hs.
    assert ((length (strip p) + 1800 - 1) / 1800 < 9); [|lia].
    apply Nat.Div0.div_lt_upper_bound. lia.
  - apply (map_length_forall N (fun n => 0 < n <= 1800)).
    rewrite Hlen. apply sizes_gen_bounds. lia.
Qed.

(** X22.  [paragraph_blocks] makes [ceil(len(text.strip()) / (1800 * 8))]
    paragraph blocks, none for a text of white space only.  A block
    carries at most 8 rich-text items, each of 1 to 1800 code points (a
    block made from a slice of white space carries none).  The blocks
    never carry more than the stripped text, and a text without any white
    space is carried whole and in order. *)
Theorem paragraph_blocks_shape :
  forall text : str,
    length (Notion.paragraph_blocks text) = (length (strip text) + (1800 * 8 - 1)) / (1800 * 8) /\
    Forall (fun b => length (Notion.p_rich_text b) <= 8 /\
                     Forall (fun c => 0 < length c <= 1800) (Notion.p_rich_text b))
           (Notion.paragraph_blocks text) /\
    length (Notion.carried (Notion.paragraph_blocks text)) <= length (strip text) /\
    (forallb (fun c => negb (isspace c)) text = true ->
     Notion.carried (Notion.paragraph_blocks text) = text).
Proof.
  intros text. unfold Notion.paragraph_blocks.
  destruct (strip text) as [|c t] eqn:Hs.
  - cbn [nonempty]. split; [reflexivity|]. split; [constructor|].
    split; [reflexivity|]. intros Hws. rewrite (strip_no_space text Hws) in Hs.
    now subst text.
  - cbn [nonempty]. rewrite <- Hs.
    destruct (@range_chunks N (strip text) (1800 * 8) ltac:(lia) (length (strip text)) 0
                ltac:(lia)) as [Hcat Hlen].
    rewrite Nat.sub_0_r in Hlen. cbn [skipn] in Hcat. unfold range_step.
    set (parts := map (fun idx => slice (strip text) idx (idx + (1800 * 8)))
                      (range_from (length (strip text)) 0 (length (strip text)) (1800 * 8)))
      in *.
    assert (Hblocks :
      map (fun idx => {| Notion.p_rich_text :=
                           Notion.rich_text (slice (strip text) idx (idx + (1800 * 8))) |})
          (range_from (length (strip text)) 0 (length (strip text)) (1800 * 8))
      = map (fun p => {| Notion.p_rich_text := Notion.rich_text p |}) parts).
    { unfold parts. now rewrite map_map. }
    rewrite Hblocks. clear Hblocks.
    assert (Hsizes : Forall (fun p : str => length p <= (1800 * 8)) parts).
    { apply (map_length_forall N (fun n => n <= (1800 * 8))). rewrite Hlen.
      eapply Forall_impl; [|apply (sizes_gen_bounds (1800 * 8)); lia].
      intros n Hn. cbv beta in Hn. lia. }
    split; [|split; [|split]].
    + rewrite length_map, <- (length_map (@length N)), Hlen, sizes_gen_length by lia.
      f_equal. lia.
    + apply Forall_map. eapply Forall_impl; [|exact Hsizes].
      intros p Hp. cbn [Notion.p_rich_text]. now apply rich_text_items.
    + rewrite carried_parts, <- Hcat. apply concat_strip_length.
    + intros Hws. rewrite carried_parts.
      rewrite (strip_no_space text Hws) in Hcat.
      rewrite <- Hcat. f_equal.
      rewrite <- (map_id parts) at 2. apply map_ext_in. intros p Hp.
      apply strip_no_space. rewrite forallb_forall in *. intros x Hx.
      apply Hws. rewrite <- Hcat. apply in_concat. now exists p.
Qed.

Lemma paragraph_blocks_shape_witness :
  Notion.carried (Notion.paragraph_blocks (lit "tsunami")) = lit "tsunami".
Proof.
  apply (paragraph_blocks_shape (lit "tsunami")). reflexivity.
Defined.

(** ** research_common.to_vancouver_citation *)

Lemma nonempty_false (A : Type) (l : list A) : nonempty l = false <-> l = [].
Proof. destruct l; cbn; split; congruence. Qed.

Lemma nonempty_true (A : Type) (l : list A) : nonempty l = true <-> l <> [].
Proof. destruct l; cbn; split; congruence. Qed.

Lemma join_nil (sep : str) (parts : list str) :
  Forall (fun p => p <> []) parts -> join sep parts = [] -> parts = [].
Proof.
  intros Hall Hjoin. destruct parts as [|p rest]; [reflexivity|].
  inversion Hall as [|? ? Hp _]; subst.
  destruct rest; cbn [join] in Hjoin.
  - contradiction.
  - destruct p; [contradiction | discriminate].
Qed.

Lemma join_last (sep : str) (x : N) (parts : list str) :
  Forall (fun p => exists q, p = q ++ [x]) parts -> parts <> [] ->
  exists q, join sep parts = q ++ [x].
Proof.
  induction parts as [|p rest IH]; intros Hall Hne; [contradiction|].
  inversion Hall as [|? ? [q Hq] Hrest]; subst.
  destruct rest as [|p' rest'].
  - now exists q.
  - destruct (IH Hrest) as [q' Hq']; [discriminate|].
    change (join sep ((q ++ [x]) :: p' :: rest'))
      with ((q ++ [x]) ++ sep ++ join sep (p' :: rest')).
    rewrite Hq'. exists ((q ++ [x]) ++ sep ++ q'). now rewrite <- !app_assoc.
Qed.

Lemma join_middle (sep p : str) (before after : list str) :
  exists pre post, join sep (before ++ p :: after) = pre ++ p ++ post.
Proof.
  induction before as [|b before IH].
  - destruct after as [|a after].
    + exists [], []. cbn. now rewrite app_nil_r.
    + exists [], (sep ++ join sep (a :: after)). reflexivity.
  - destruct IH as (pre & post & Heq).
    exists (b ++ sep ++ pre), post.
    destruct before as [|b' before'].
    + cbn [app] in *.
      change (join sep (b :: p :: after)) with (b ++ sep ++ join sep (p :: after)).
      rewrite Heq. now rewrite <- !app_assoc.
    + change (join sep ((b :: b' :: before') ++ p :: after))
        with (b ++ sep ++ join sep ((b' :: before') ++ p :: after)).
      rewrite Heq. now rewrite <- !app_assoc.
Qed.

Lemma last_snoc (q : str) (x d : N) : last (q ++ [x]) d = x.
Proof. apply last_last. Qed.

Lemma one_part (b : bool) (p : str) :
  Forall (fun p => exists q, p = q ++ [46%N]) (if b then [p ++ lit "."] else []).
Proof.
  destruct b; constructor; [|constructor]. now exists p.
Qed.

Lemma authors_text_nil (authors : list str) :
  join (lit ", ") (map strip (filter (fun a => nonempty (strip a)) authors)) = []
  <-> Forall (fun a => strip a = []) authors.
Proof.
  split.
  - intros Hjoin. apply join_nil in Hjoin.
    + apply Forall_forall. intros a Ha.
      destruct (strip a) as [|c s] eqn:Hs; [reflexivity|].
      assert (Hin : In a (filter (fun a => nonempty (strip a)) authors)).
      { apply filter_In. split; [exact Ha|]. now rewrite Hs. }
      apply (in_map strip) in Hin. rewrite Hjoin in Hin. contradiction.
    + apply Forall_forall. intros p Hp. apply in_map_iff in Hp as (a & <- & Ha).
      apply filter_In in Ha as [_ Ha]. now apply nonempty_true.
  - intros Hall. replace (filter (fun a => nonempty (strip a)) authors) with (@nil str);
      [reflexivity|].
    symmetry. induction Hall as [|a l Ha _ IH]; [reflexivity|].
    cbn [filter]. rewrite Ha. exact IH.
Qed.

(** The list [parts] that [to_vancouver_citation] joins. *)
Lemma vancouver_parts (entry : Ris.entry) (fallback_title fallback_url : str) :
  let author_txt :=
    join (lit ", ")
         (map strip (filter (fun a => nonempty (strip a)) (Ris.authors entry))) in
  let title := Ris.str_or (strip (Ris.title entry)) fallback_title in
  let url := Ris.str_or (strip (Ris.url entry)) fallback_url in
  exists parts,
    Ris.to_vancouver_citation entry fallback_title fallback_url
    = (if nonempty parts then join (lit " ") parts else fallback_title) /\
    Forall (fun p => exists q, p = q ++ [46%N]) parts /\
    (parts = [] <->
       author_txt = [] /\ title = [] /\ strip (Ris.journal entry) = [] /\
       strip (Ris.year entry) = [] /\ strip (Ris.doi entry) = [] /\ url = []) /\
    (title <> [] -> exists l1 l2, parts = l1 ++ (title ++ lit ".") :: l2).
Proof.
  intros author_txt title url.
  unfold Ris.to_vancouver_citation.
  fold author_txt. fold title. fold url.
  set (journal_part := if nonempty (strip (Ris.journal entry)) then _ else _).
  cbn [app].
  set (authors_part := if nonempty author_txt then _ else _).
  set (title_part := if nonempty title then _ else _).
  set (doi_part := if nonempty (strip (Ris.doi entry)) then _ else _).
  set (url_part := if nonempty url then _ else _).
  set (parts := (((authors_part ++ title_part) ++ journal_part) ++ doi_part)
                ++ url_part).
  exists parts. split; [reflexivity|].
  assert (Hjournal : Forall (fun p => exists q, p = q ++ [46%N]) journal_part).
  { unfold journal_part.
    destruct (nonempty (strip (Ris.journal entry))).
    - constructor; [|constructor]. eexists.
      rewrite !app_assoc. reflexivity.
    - apply one_part. }
  split; [|split].
  - unfold parts. repeat (apply Forall_app; split);
      try apply one_part; try exact Hjournal.
    + unfold doi_part.
      destruct (nonempty (strip (Ris.doi entry))); constructor; [|constructor].
      eexists. rewrite app_assoc. reflexivity.
    + unfold url_part. destruct (nonempty url); constructor; [|constructor].
      eexists. rewrite app_assoc. reflexivity.
  - unfold parts, authors_part, title_part, journal_part, doi_part, url_part.
    destruct author_txt, title, (strip (Ris.journal entry)),
      (strip (Ris.year entry)), (strip (Ris.doi entry)), url;
      cbn [nonempty app]; split; intros H;
      try discriminate; try (repeat split; reflexivity);
      destruct H as (? & ? & ? & ? & ? & ?); discriminate.
  - intros Hne. unfold parts, title_part. apply nonempty_true in Hne. rewrite Hne.
    exists authors_part, (journal_part ++ doi_part ++ url_part).
    rewrite <- !app_assoc. reflexivity.
Qed.

Lemma str_or_nil (a b : str) : Ris.str_or a b = [] <-> a = [] /\ b = [].
Proof.
  unfold Ris.str_or. destruct a; cbn [nonempty];
    split; [tauto | tauto | discriminate | intros [? _]; discriminate].
Qed.

(** X23.  [to_vancouver_citation] returns the empty string exactly when
    there is nothing to cite: no author with text, no title and no
    fallback title, no journal, year or DOI, and no URL or fallback URL
    (a volume, issue or page range alone is not cited).  Every other
    citation ends with a full stop, and it contains the title, the
    entry's own or else the fallback, followed by a full stop. *)
Theorem vancouver_citation_shape :
  forall (entry : Ris.entry) (fallback_title fallback_url : str),
    let citation := Ris.to_vancouver_citation entry fallback_title fallback_url in
    let title := Ris.str_or (strip (Ris.title entry)) fallback_title in
    (citation = [] <->
       Forall (fun a => strip a = []) (Ris.authors entry) /\
       strip (Ris.title entry) = [] /\ fallback_title = [] /\
       strip (Ris.journal entry) = [] /\ strip (Ris.year entry) = [] /\
       strip (Ris.doi entry) = [] /\
       strip (Ris.url entry) = [] /\ fallback_url = []) /\
    (citation <> [] -> exists body, citation = body ++ lit ".") /\
    (title <> [] ->
     exists before after, citation = before ++ title ++ lit "." ++ after).
Proof.
  intros entry fallback_title fallback_url. cbv zeta.
  destruct (vancouver_parts entry fallback_title fallback_url)
    as (parts & -> & Hdots & Hempty & Hmiddle).
  assert (Hfull : Forall (fun p : str => p <> []) parts).
  { eapply Forall_impl; [|exact Hdots]. intros p [q ->]. now destruct q. }
  rewrite (authors_text_nil (Ris.authors entry)), !str_or_nil in Hempty.
  split; [|split].
  - destruct (nonempty parts) eqn:Hparts.
    + apply nonempty_true in Hparts. split.
      * intros Hjoin. apply join_nil in Hjoin; [contradiction | exact Hfull].
      * intros H. exfalso. apply Hparts. apply Hempty. tauto.
    + apply nonempty_false in Hparts. pose proof (proj1 Hempty Hparts). tauto.
  - destruct (nonempty parts) eqn:Hparts.
    + intros _. apply nonempty_true in Hparts.
      exact (join_last (lit " ") 46%N parts Hdots Hparts).
    + apply nonempty_false in Hparts. pose proof (proj1 Hempty Hparts).
      intros Hne. exfalso. apply Hne. tauto.
  - intros Hne. destruct (Hmiddle Hne) as (l1 & l2 & Hsplit).
    assert (Hparts : nonempty parts = true).
    { rewrite Hsplit. now destruct l1. }
    rewrite Hparts, Hsplit.
    destruct (join_middle (lit " ")
                (Ris.str_or (strip (Ris.title entry)) fallback_title ++ lit ".") l1 l2)
      as (pre & post & Heq).
    exists pre, post. rewrite <- app_assoc in Heq. exact Heq.
Qed.

Lemma vancouver_citation_shape_witness :
  let entry :=
    {| Ris.type_ := lit "BOOK"; Ris.authors := [lit "Lamb H"; lit "  "];
       Ris.title := lit " Hydrodynamics "; Ris.journal := []; Ris.year := lit "1932";
       Ris.doi := []; Ris.url := []; Ris.volume := lit "6"; Ris.issue := [];
       Ris.sp := []; Ris.ep := []; Ris.publisher := [] |} in
  Ris.to_vancouver_citation entry (lit "lamb") [] = lit "Lamb H. Hydrodynamics. 1932." /\
  (exists body, Ris.to_vancouver_citation entry (lit "lamb") [] = body ++ lit ".") /\
  (exists before after,
     Ris.to_vancouver_citation entry (lit "lamb") []
     = before ++ lit "Hydrodynamics" ++ lit "." ++ after).
Proof.
  cbv zeta. split; [vm_compute; reflexivity|].
  match goal with
  | |- (exists body, Ris.to_vancouver_citation ?e ?ft ?fu = _) /\ _ =>
      destruct (vancouver_citation_shape e ft fu) as (_ & Hdot & Htitle)
  end.
  split.
  - apply Hdot. vm_compute. discriminate.
  - apply Htitle. vm_compute. discriminate.
Defined.

(** ** research_common.build_ris_indexes and find_ris_match *)

Section RisIndexFacts.
Variable lower : str -> str.

Lemma dict_get_in (V : Type) (d : Ris.dict V) (k : str) (v : V) :
  Ris.dict_get d k = Some v -> In (k, v) d.
Proof.
  induction d as [|[k' v'] d IH]; cbn [Ris.dict_get]; [discriminate|].
  destruct (str_eqb k' k) eqn:Hk.
  - intros [= ->]. apply str_eqb_eq in Hk. subst. now left.
  - intros H. right. now apply IH.
Qed.

Lemma dict_get_set_same (V : Type) (d : Ris.dict V) (k : str) (v : V) :
  Ris.dict_get (Ris.dict_set d k v) k = Some v.
Proof.
  induction d as [|[k' v'] d IH]; cbn [Ris.dict_set Ris.dict_get].
  - now rewrite str_eqb_refl.
  - destruct (str_eqb k' k) eqn:Hk; cbn [Ris.dict_get]; rewrite Hk;
      [reflexivity | exact IH].
Qed.

Lemma dict_get_set_other (V : Type) (d : Ris.dict V) (k k' : str) (v : V) :
  k <> k' -> Ris.dict_get (Ris.dict_set d k v) k' = Ris.dict_get d k'.
Proof.
  intros Hne. induction d as [|[k0 v0] d IH]; cbn [Ris.dict_set Ris.dict_get].
  - destruct (str_eqb k k') eqn:Hk; [|reflexivity].
    apply str_eqb_eq in Hk. contradiction.
  - destruct (str_eqb k0 k) eqn:Hk; cbn [Ris.dict_get].
    + apply str_eqb_eq in Hk. subst k0.
      destruct (str_eqb k k') eqn:Hk'; [|reflexivity].
      apply str_eqb_eq in Hk'. contradiction.
    + destruct (str_eqb k0 k'); [reflexivity | exact IH].
Qed.

Lemma dict_set_forall (V : Type) (P : str * V -> Prop) (d : Ris.dict V)
    (k : str) (v : V) :
  Forall P d -> P (k, v) -> (forall k' v', P (k', v') -> k' = k -> P (k', v)) ->
  Forall P (Ris.dict_set d k v).
Proof.
  intros Hd Hkv Hsame. induction Hd as [|[k' v'] d Hx Hd IH];
    cbn [Ris.dict_set].
  - now constructor.
  - destruct (str_eqb k' k) eqn:Hk.
    + apply str_eqb_eq in Hk. constructor; [|exact Hd]. subst. exact Hkv.
    + constructor; assumption.
Qed.

Lemma index_loop_indexed (all : list Ris.entry) (entries : list Ris.entry) :
  forall indexes,
    incl entries all ->
    Forall (doi_indexed lower all) (fst indexes) ->
    Forall (title_indexed lower all) (snd indexes) ->
    Forall (doi_indexed lower all) (fst (fold_left (index_step lower) entries indexes)) /\
    Forall (title_indexed lower all) (snd (fold_left (index_step lower) entries indexes)).
Proof.
  induction entries as [|e entries IH]; intros indexes Hincl Hdoi Htitle;
    cbn [fold_left]; [now split|].
  apply IH.
  - intros x Hx. apply Hincl. now right.
  - unfold index_step. cbn [fst].
    destruct (nonempty (lower (strip (Ris.doi e)))); [|exact Hdoi].
    apply dict_set_forall; [exact Hdoi | |].
    + split; [apply Hincl; now left | reflexivity].
    + intros k' v' _ ->. split; [apply Hincl; now left | reflexivity].
  - unfold index_step. cbn [snd].
    destruct (nonempty (strip (Ris.title e))) eqn:Hne; [|exact Htitle].
    apply nonempty_true in Hne.
    apply dict_set_forall; [exact Htitle | |].
    + split; [apply Hincl; now left | split; [exact Hne | reflexivity]].
    + intros k' v' _ ->.
      split; [apply Hincl; now left | split; [exact Hne | reflexivity]].
Qed.

Lemma index_loop_keeps_doi (key : str) (entries : list Ris.entry) :
  forall indexes,
    Forall (fun e => lower (strip (Ris.doi e)) <> key) entries ->
    Ris.dict_get (fst (fold_left (index_step lower) entries indexes)) key
    = Ris.dict_get (fst indexes) key.
Proof.
  induction entries as [|e entries IH]; intros indexes Hall; [reflexivity|].
  inversion Hall as [|? ? He Hrest]; subst. cbn [fold_left].
  rewrite (IH _ Hrest). unfold index_step. cbn [fst].
  destruct (nonempty (lower (strip (Ris.doi e)))); [|reflexivity].
  now apply dict_get_set_other.
Qed.

Lemma build_ris_indexes_loop (entries : list Ris.entry) :
  Ris.build_ris_indexes lower entries = fold_left (index_step lower) entries ([], []).
Proof. reflexivity. Qed.

Lemma ris_match_indexed (all : list Ris.entry) (by_doi by_title : Ris.dict Ris.entry)
    (doi title : option str) (e : Ris.entry) :
  Forall (doi_indexed lower all) by_doi -> Forall (title_indexed lower all) by_title ->
  Ris.find_ris_match lower doi title by_doi by_title = Some e ->
  In e all /\
  ((exists d, doi = Some d /\ d <> [] /\ lower (strip (Ris.doi e)) = lower d) \/
   (exists t, title = Some t /\ t <> [] /\ strip (Ris.title e) <> [] /\
      (Ris.normalize_title lower (strip (Ris.title e)) = Ris.normalize_title lower t \/
       (Ris.normalize_title lower t <> [] /\
        (contains (Ris.normalize_title lower t)
           (Ris.normalize_title lower (strip (Ris.title e))) = true \/
         contains (Ris.normalize_title lower (strip (Ris.title e)))
           (Ris.normalize_title lower t) = true))))).
Proof.
  intros Hdoi Htitle. unfold Ris.find_ris_match.
  destruct (match doi with
            | Some doi0 => if nonempty doi0 then Ris.dict_get by_doi (lower doi0) else None
            | None => None
            end) as [candidate|] eqn:Hby_doi.
  - intros [= ->]. destruct doi as [d|]; [|discriminate].
    destruct (nonempty d) eqn:Hd; [|discriminate].
    apply dict_get_in in Hby_doi. rewrite Forall_forall in Hdoi.
    destruct (Hdoi _ Hby_doi) as [Hin Hkey]. cbn [fst snd] in *.
    split; [exact Hin|]. left. exists d. apply nonempty_true in Hd.
    repeat split; [exact Hd | now symmetry].
  - destruct title as [t|]; [|discriminate].
    destruct (nonempty t) eqn:Ht; [|discriminate].
    apply nonempty_true in Ht. rewrite Forall_forall in Htitle.
    destruct (Ris.dict_get by_title (Ris.normalize_title lower t))
      as [candidate|] eqn:Hexact.
    + intros [= ->]. apply dict_get_in in Hexact.
      destruct (Htitle _ Hexact) as (Hin & Hne & Hkey). cbn [fst snd] in *.
      split; [exact Hin|]. right. exists t.
      repeat split; [exact Ht | exact Hne |]. left. now symmetry.
    + destruct (find _ by_title) as [[key entry]|] eqn:Hfind; [|discriminate].
      cbn [option_map snd]. intros [= ->].
      apply find_some in Hfind as [Hitem Hrelaxed]. cbn [fst] in Hrelaxed.
      apply andb_true_iff in Hrelaxed as [Hnorm Hcontains].
      apply orb_true_iff in Hcontains. apply nonempty_true in Hnorm.
      destruct (Htitle _ Hitem) as (Hin & Hne & Hkey). cbn [fst snd] in *.
      subst key. split; [exact Hin|]. right. exists t.
      repeat split; [exact Ht | exact Hne |]. right. split; assumption.
Qed.

End RisIndexFacts.

(** X24.  [find_ris_match] over the indexes that [build_ris_indexes]
    makes never invents a match: the entry it returns is one of the
    indexed entries, and either a non-empty DOI was asked for and the
    entry's stripped, lower-cased DOI is the lower-cased query, or a
    non-empty title was asked for, the entry has a title, and the two
    normalised titles are equal or one contains the other (the query's
    being non-empty in that case). *)
Theorem ris_match_is_sound :
  forall (lower : str -> str) (entries : list Ris.entry)
         (doi title : option str) (e : Ris.entry),
    Ris.find_ris_match lower doi title
      (fst (Ris.build_ris_indexes lower entries))
      (snd (Ris.build_ris_indexes lower entries)) = Some e ->
    In e entries /\
    ((exists d, doi = Some d /\ d <> [] /\ lower (strip (Ris.doi e)) = lower d) \/
     (exists t, title = Some t /\ t <> [] /\ strip (Ris.title e) <> [] /\
        (Ris.normalize_title lower (strip (Ris.title e)) = Ris.normalize_title lower t \/
         (Ris.normalize_title lower t <> [] /\
          (contains (Ris.normalize_title lower t)
             (Ris.normalize_title lower (strip (Ris.title e))) = true \/
           contains (Ris.normalize_title lower (strip (Ris.title e)))
             (Ris.normalize_title lower t) = true))))).
Proof.
  intros lower entries doi title e.
  rewrite build_ris_indexes_loop.
  destruct (index_loop_indexed lower entries entries ([], [])) as [Hdoi Htitle];
    [apply incl_refl | constructor | constructor |].
  now apply ris_match_indexed.
Qed.

(** X25.  A DOI match takes precedence and the last entry wins: when a
    non-empty DOI is asked for and some entry's stripped, lower-cased DOI
    is the lower-cased query, [find_ris_match] returns the last such entry
    of the list given to [build_ris_indexes], whatever title is asked
    for and whatever titles the entries have. *)
Theorem ris_match_prefers_doi :
  forall (lower : str -> str) (before after : list Ris.entry) (e : Ris.entry)
         (doi : str) (title : option str),
    doi <> [] -> lower doi <> [] ->
    lower (strip (Ris.doi e)) = lower doi ->
    Forall (fun later => lower (strip (Ris.doi later)) <> lower doi) after ->
    Ris.find_ris_match lower (Some doi) title
      (fst (Ris.build_ris_indexes lower (before ++ e :: after)))
      (snd (Ris.build_ris_indexes lower (before ++ e :: after))) = Some e.
Proof.
  intros lower before after e doi title Hdoi Hkey He Hafter.
  rewrite build_ris_indexes_loop, fold_left_app. cbn [fold_left].
  unfold Ris.find_ris_match.
  apply nonempty_true in Hdoi. rewrite Hdoi.
  rewrite (index_loop_keeps_doi lower (lower doi) after _ Hafter).
  unfold index_step. cbn [fst]. rewrite He. apply nonempty_true in Hkey. rewrite Hkey.
  now rewrite dict_get_set_same.
Qed.

Lemma ris_match_prefers_doi_witness :
  let entry := fun (doi title : str) =>
    {| Ris.type_ := lit "JOUR"; Ris.authors := []; Ris.title := title;
       Ris.journal := []; Ris.year := []; Ris.doi := doi; Ris.url := [];
       Ris.volume := []; Ris.issue := []; Ris.sp := []; Ris.ep := [];
       Ris.publisher := [] |} in
  let entries := [entry (lit "10.1/ABC") (lit "First");
                  entry (lit " 10.1/abc ") (lit "Second");
                  entry (lit "10.2/x") (lit "Vortex shedding")] in
  Ris.find_ris_match ascii_lower (Some (lit "10.1/Abc")) (Some (lit "Vortex shedding"))
    (fst (Ris.build_ris_indexes ascii_lower entries))
    (snd (Ris.build_ris_indexes ascii_lower entries))
  = Some (entry (lit " 10.1/abc ") (lit "Second")).
Proof.
  cbv zeta.
  match goal with
  | |- Ris.find_ris_match _ _ ?t (fst (Ris.build_ris_indexes _ [?a; ?b; ?c])) _ = _ =>
      apply (ris_match_prefers_doi ascii_lower [a] [c] b (lit "10.1/Abc") t)
  end.
  - discriminate.
  - vm_compute. discriminate.
  - vm_compute. reflexivity.
  - repeat constructor. vm_compute. discriminate.
Defined.

Lemma ris_match_is_sound_witness :
  let entry := fun (doi title : str) =>
    {| Ris.type_ := lit "JOUR"; Ris.authors := []; Ris.title := title;
       Ris.journal := []; Ris.year := []; Ris.doi := doi; Ris.url := [];
       Ris.volume := []; Ris.issue := []; Ris.sp := []; Ris.ep := [];
       Ris.publisher := [] |} in
  In (entry [] (lit "Vortex shedding in wakes"))
     [entry (lit "10.1/abc") (lit "Tsunami run-up");
      entry [] (lit "Vortex shedding in wakes")].
Proof.
  cbv zeta.
  refine (proj1 (ris_match_is_sound ascii_lower _ None (Some (lit "vortex shedding"))
                   _ _)).
  vm_compute. reflexivity.
Defined.

(** ** extract_assets.extract_full_text *)

Section FullTextFacts.
Import Sys Disk ExtractStage.
Variable tools : toolchain.
Hypothesis live : tools_end tools.

Lemma try_extract_text_result pdf_path text_out (s : fs) :
  exists ok note s',
    try_extract_text tools pdf_path text_out s = (inr (ok, note), s') /\
    (ok = true -> note = lit "direct" /\ exists_ s' text_out = true) /\
    (forall p, is_file s p = true -> is_file s' p = true).
Proof.
  unfold try_extract_text, bind, run_writing, get.
  destruct live as (Htext & _).
  destruct (Htext (path_str pdf_path)) as [r Hout]. rewrite Hout.
  cbn [run_command].
  set (s1 := fold_left (fun acc f => write_file (fst f) (Raw (snd f)) acc) _ s).
  assert (Hmono : forall p, is_file s p = true -> is_file s1 p = true).
  { intros p. apply is_file_write_many. }
  destruct ((code r =? 0)%Z && exists_ s1 text_out) eqn:Hok.
  - apply andb_true_iff in Hok as [_ Hexists].
    eexists _, _, _. split; [reflexivity|]. split; [|exact Hmono].
    intros _. split; [reflexivity | exact Hexists].
  - eexists _, _, _. split; [reflexivity|]. split; [discriminate | exact Hmono].
Qed.

Lemma full_text_loop_result source_pdf staging_pdf text_out candidates :
  source_pdf <> staging_pdf ->
  forall s : fs,
    is_file s source_pdf = true ->
    (In staging_pdf candidates \/ is_file s staging_pdf = true) ->
    (forall c, In c candidates -> c = source_pdf \/ c = staging_pdf) ->
    exists ok note working s',
      full_text_loop tools source_pdf staging_pdf text_out candidates s
        = (inr (ok, note, working), s') /\
      is_file s' source_pdf = true /\
      (ok = true ->
       exists_ s' text_out = true /\
       ((working = source_pdf /\ note = lit "direct") \/
        (working = staging_pdf /\ note = lit "staged_path" /\
         is_file s' staging_pdf = true))) /\
      (ok = false ->
       working = source_pdf /\ note = lit "failed on direct and staged path" /\
       is_file s' staging_pdf = true).
Proof.
  intros Hdiff.
  induction candidates as [|candidate rest IH]; intros s Hsrc Hstage Hcands;
    cbn [full_text_loop].
  - destruct Hstage as [[]|Hstage].
    eexists _, _, _, _. split; [reflexivity|]. split; [exact Hsrc|].
    split; [discriminate|]. intros _. repeat split. exact Hstage.
  - unfold bind at 1.
    assert (Hprep : exists s1,
               (if path_eqb candidate staging_pdf
                then bind (modify (ensure_dir (parent staging_pdf)))
                       (fun _ s0 => match copy2 source_pdf staging_pdf s0 with
                                    | inl e => (inl e, s0)
                                    | inr s' => (inr tt, s')
                                    end)
                else ret tt) s = (inr tt, s1) /\
               is_file s1 source_pdf = true /\
               (candidate = staging_pdf \/ is_file s staging_pdf = true ->
                is_file s1 staging_pdf = true)).
    { destruct (path_eqb_spec candidate staging_pdf) as [Heq|Hne].
      - unfold bind, modify, copy2. unfold read.
        change (files (ensure_dir (parent staging_pdf) s)) with (files s).
        unfold is_file, read in Hsrc.
        destruct (lookup source_pdf (files s)) as [c|] eqn:Hl; [|discriminate].
        destruct (path_eqb_spec source_pdf staging_pdf) as [|_]; [contradiction|].
        eexists. split; [reflexivity|]. split.
        + rewrite is_file_write_file. unfold is_file, read.
          change (files (ensure_dir (parent staging_pdf) s)) with (files s).
          rewrite Hl. apply orb_true_r.
        + intros _. rewrite is_file_write_file, path_eqb_refl. reflexivity.
      - exists s. split; [reflexivity|]. split; [exact Hsrc|].
        intros [Heq|Hfile]; [contradiction | exact Hfile]. }
    destruct Hprep as (s1 & -> & Hsrc1 & Hstage1).
    unfold bind at 1.
    destruct (try_extract_text_result candidate text_out s1)
      as (ok & note & s2 & -> & Hok & Hmono).
    cbn [fst snd]. destruct ok.
    + destruct (Hok eq_refl) as [-> Hout].
      eexists _, _, _, _. split; [reflexivity|]. split; [now apply Hmono|].
      split; [|discriminate]. intros _. split; [exact Hout|].
      destruct (Hcands candidate (or_introl eq_refl)) as [->| ->].
      * left. rewrite path_eqb_refl. now split.
      * right. destruct (path_eqb_spec staging_pdf source_pdf) as [Heq|_];
          [now symmetry in Heq|].
        repeat split. apply Hmono, Hstage1. now left.
    + apply (IH s2 (Hmono _ Hsrc1)).
      * destruct Hstage as [[Heq|Hin]|Hfile].
        -- right. apply Hmono, Hstage1. left. now symmetry.
        -- now left.
        -- right. apply Hmono, Hstage1. now right.
      * intros c Hc. apply Hcands. now right.
Qed.

End FullTextFacts.



(** ** research_common.safe_slug *)

Lemma single_dashed_weaken (s : str) :
  single_dashed true s = true -> single_dashed false s = true.
Proof.
  destruct s as [|c s]; [reflexivity|]. cbn [single_dashed].
  destruct (c =? 45)%N; [discriminate | trivial].
Qed.

Lemma single_dashed_suffix (x y : str) : forall b,
  single_dashed b (x ++ y) = true -> single_dashed false y = true.
Proof.
  induction x as [|c x IH]; intros b; cbn [app single_dashed].
  - destruct b; [apply single_dashed_weaken | trivial].
  - destruct (c =? 45)%N.
    + intros H. apply andb_true_iff in H as [_ H]. now apply IH in H.
    + apply IH.
Qed.

Lemma single_dashed_prefix (x y : str) : forall b,
  single_dashed b (x ++ y) = true -> single_dashed b x = true.
Proof.
  induction x as [|c x IH]; intros b; cbn [app single_dashed]; [reflexivity|].
  destruct (c =? 45)%N.
  - intros H. apply andb_true_iff in H as [-> H]. now apply IH in H.
  - apply IH.
Qed.

Lemma lstrip_dash_cut (s : str) :
  exists dashes, s = dashes ++ lstrip_dash s /\
                 single_dashed true (lstrip_dash s) = single_dashed false (lstrip_dash s).
Proof.
  induction s as [|c s (dashes & Hcut & Hhead)]; cbn [lstrip_dash].
  - now exists [].
  - destruct (c =? 45)%N eqn:Hc.
    + exists (c :: dashes). cbn [app]. now rewrite <- Hcut.
    + exists []. split; [reflexivity|]. cbn [single_dashed]. now rewrite Hc.
Qed.

Lemma strip_dash_cut (s : str) :
  exists before after, s = before ++ strip_dash s ++ after.
Proof.
  unfold strip_dash.
  destruct (lstrip_dash_cut s) as (before & Hcut & _).
  destruct (lstrip_dash_cut (rev (lstrip_dash s))) as (after & Hcut' & _).
  exists before, (rev after).
  rewrite <- rev_app_distr, <- Hcut', rev_involutive. exact Hcut.
Qed.

Lemma dash_runs_single (text : str) : forall in_run,
  single_dashed in_run (dash_runs in_run text) = true.
Proof.
  induction text as [|c text IH]; intros in_run; cbn [dash_runs]; [reflexivity|].
  destruct (is_ascii_alnum c) eqn:Hc.
  - cbn [single_dashed].
    destruct (N.eqb_spec c 45) as [->|_]; [discriminate | apply IH].
  - destruct in_run; [apply IH|]. cbn [single_dashed N.eqb Pos.eqb negb andb].
    apply IH.
Qed.

Lemma dash_runs_points (text : str) : forall in_run,
  Forall (fun c => is_ascii_alnum c = true \/ c = 45%N) (dash_runs in_run text).
Proof.
  induction text as [|c text IH]; intros in_run; cbn [dash_runs]; [constructor|].
  destruct (is_ascii_alnum c) eqn:Hc.
  - constructor; [now left | apply IH].
  - destruct in_run; [apply IH|]. constructor; [now right | apply IH].
Qed.

Lemma strip_dash_single (s : str) :
  single_dashed false s = true -> single_dashed true (strip_dash s) = true.
Proof.
  intros Hs. unfold strip_dash.
  destruct (lstrip_dash_cut s) as (before & Hcut & Hhead).
  destruct (lstrip_dash_cut (rev (lstrip_dash s))) as (after & Hcut' & _).
  assert (Hleft : single_dashed true (lstrip_dash s) = true).
  { rewrite Hhead. rewrite Hcut in Hs. now apply single_dashed_suffix in Hs. }
  apply (f_equal (@rev N)) in Hcut'. rewrite rev_involutive, rev_app_distr in Hcut'.
  rewrite Hcut' in Hleft. now apply single_dashed_prefix in Hleft.
Qed.

Lemma ascii_lower_single (s : str) : forall b,
  single_dashed b (ascii_lower s) = single_dashed b s.
Proof.
  induction s as [|c s IH]; intros b; [reflexivity|].
  cbn [ascii_lower map single_dashed]. fold (ascii_lower s).
  assert (Hc : (ascii_lower_point c =? 45)%N = (c =? 45)%N).
  { unfold ascii_lower_point.
    destruct (N.leb_spec 65 c), (N.leb_spec c 90); cbn [andb]; try reflexivity.
    destruct (N.eqb_spec (c + 32) 45), (N.eqb_spec c 45); try reflexivity; lia. }
  rewrite Hc, !IH. reflexivity.
Qed.

Lemma ascii_lower_points (s : str) :
  Forall (fun c => is_ascii_alnum c = true \/ c = 45%N) s ->
  Forall (fun c => Ris.is_lower_or_digit c = true \/ c = 45%N) (ascii_lower s).
Proof.
  intros H. apply Forall_map. eapply Forall_impl; [|exact H].
  intros c [Hc| ->]; [|now right]. left.
  unfold is_ascii_alnum, Ris.is_lower_or_digit, ascii_lower_point in *.
  destruct (N.leb_spec 65 c), (N.leb_spec c 90); cbn [andb orb] in Hc |- *;
    rewrite ?orb_false_r in Hc; try exact Hc.
  destruct (N.leb_spec 97 (c + 32)), (N.leb_spec (c + 32) 122);
    cbn [andb orb]; try reflexivity; lia.
Qed.

(** X27.  A slug made by [safe_slug] holds lower-case ASCII letters,
    digits and hyphens only, does not begin with a hyphen and has no two
    hyphens in a row.  With a [max_len] that is not negative it has at
    most [max_len] code points, and with a [max_len] of at least 1 it is
    never empty: a text without letters and digits gives a prefix of
    ["paper"]. *)
Theorem safe_slug_shape :
  forall (text : str) (max_len : Z),
    Forall (fun c => Ris.is_lower_or_digit c = true \/ c = 45%N)
           (safe_slug text max_len) /\
    single_dashed true (safe_slug text max_len) = true /\
    ((0 <= max_len)%Z -> length (safe_slug text max_len) <= Z.to_nat max_len) /\
    ((1 <= max_len)%Z -> safe_slug text max_len <> []) /\
    (forallb (fun c => negb (is_ascii_alnum c)) text = true ->
     safe_slug text max_len = upto (lit "paper") max_len).
Proof.
  intros text max_len. unfold safe_slug.
  set (full := if nonempty (ascii_lower (strip_dash (dash_runs false text)))
               then _ else _).
  assert (Hpoints : Forall (fun c => Ris.is_lower_or_digit c = true \/ c = 45%N) full).
  { unfold full. destruct (nonempty _).
    - apply ascii_lower_points.
      destruct (strip_dash_cut (dash_runs false text)) as (before & after & Hcut).
      pose proof (dash_runs_points text false) as Hall. rewrite Hcut in Hall.
      apply Forall_app in Hall as [_ Hall]. now apply Forall_app in Hall as [Hall _].
    - repeat constructor. }
  assert (Hsingle : single_dashed true full = true).
  { unfold full. destruct (nonempty _); [|reflexivity].
    rewrite ascii_lower_single. apply strip_dash_single, dash_runs_single. }
  assert (Hfull : full <> []).
  { unfold full. destruct (nonempty _) eqn:Hne; [|discriminate].
    now apply nonempty_true. }
  assert (Hcut : exists n, upto full max_len = firstn n full /\
                           ((0 <= max_len)%Z -> n = Z.to_nat max_len)).
  { unfold upto. destruct (Z.leb_spec 0 max_len).
    - eexists. split; [reflexivity | trivial].
    - eexists. split; [reflexivity | lia]. }
  destruct Hcut as (n & Hupto & Hn).
  split; [|split; [|split; [|split]]].
  - rewrite Hupto. rewrite <- (firstn_skipn n full) in Hpoints.
    now apply Forall_app in Hpoints as [Hpoints _].
  - rewrite Hupto. rewrite <- (firstn_skipn n full) in Hsingle.
    now apply single_dashed_prefix in Hsingle.
  - intros Hmax. rewrite Hupto, (Hn Hmax), length_firstn. lia.
  - intros Hmax. rewrite Hupto, (Hn ltac:(lia)).
    destruct full as [|c full']; [contradiction|].
    destruct (Z.to_nat max_len) as [|k] eqn:Hk; [lia | discriminate].
  - intros Hnone. unfold full.
    replace (dash_runs false text) with (if nonempty text then [45%N] else @nil N);
      [now destruct (nonempty text)|].
    clear - Hnone. destruct text as [|c text]; [reflexivity|].
    cbn [nonempty forallb dash_runs] in *.
    apply andb_true_iff in Hnone as [Hc Hrest].
    apply negb_true_iff in Hc. rewrite Hc. f_equal.
    induction text as [|d text IH]; [reflexivity|].
    cbn [forallb dash_runs] in *. apply andb_true_iff in Hrest as [Hd Hrest].
    apply negb_true_iff in Hd. rewrite Hd. now apply IH.
Qed.

Lemma safe_slug_shape_witness :
  safe_slug (lit "Vorticity & Tsunamis: a review!") 12 = lit "vorticity-ts" /\
  length (safe_slug (lit "Vorticity & Tsunamis: a review!") 12) <= 12 /\
  safe_slug (lit "???") 64 = lit "paper".
Proof.
  destruct (safe_slug_shape (lit "Vorticity & Tsunamis: a review!") 12)
    as (_ & _ & Hlen & _ & _).
  destruct (safe_slug_shape (lit "???") 64) as (_ & _ & _ & _ & Hnone).
  split; [vm_compute; reflexivity|]. split.
  - apply Hlen. lia.
  - rewrite Hnone; reflexivity.
Defined.

(** ** research_common.parse_ris_file *)

Lemma strip_strip (s : str) : strip (strip s) = strip s.
Proof. destruct (strip_clean s). now apply strip_fixed. Qed.

Lemma firstn_starts_clean (n : nat) (s : str) :
  starts_clean s = true -> starts_clean (firstn n s) = true.
Proof. destruct n, s; cbn [firstn starts_clean]; trivial. Qed.

(** What the loop over the lines of an entry keeps true. *)
Lemma parse_line_tidy (e : Ris.entry) (line : str) :
  (Forall (fun f => strip f = f) (Ris.text_fields e) /\
   Forall (fun a => a <> [] /\ strip a = a) (Ris.authors e) /\
   length (Ris.year e) <= 4 /\ lstrip (Ris.year e) = Ris.year e) ->
  let e' := Ris.parse_line e line in
  Forall (fun f => strip f = f) (Ris.text_fields e') /\
  Forall (fun a => a <> [] /\ strip a = a) (Ris.authors e') /\
  length (Ris.year e') <= 4 /\ lstrip (Ris.year e') = Ris.year e'.
Proof.
  intros (Hfields & Hauthors & Hlen & Hyear). cbv zeta. unfold Ris.parse_line.
  destruct (Ris.split_once (lit " - ") [] line) as [[tag value]|];
    [|repeat split; assumption].
  pose proof (strip_strip value) as Hvalue.
  destruct (nonempty (strip value)) eqn:Hne; cbn [negb];
    [|repeat split; assumption].
  apply nonempty_true in Hne.
  unfold Ris.text_fields in Hfields.
  repeat match type of Hfields with
         | Forall _ (_ :: _) => inversion Hfields as [|? ? ? Hrest]; subst; clear Hfields;
                                rename Hrest into Hfields
         end.
  repeat match goal with
         | |- context [if ?b then _ else _] => destruct b
         end;
    unfold Ris.text_fields;
    cbn [Ris.set_type Ris.set_authors Ris.set_title Ris.set_journal Ris.set_year
         Ris.set_doi Ris.set_url Ris.set_volume Ris.set_issue Ris.set_sp Ris.set_ep
         Ris.set_publisher Ris.type_ Ris.authors Ris.title Ris.journal Ris.year
         Ris.doi Ris.url Ris.volume Ris.issue Ris.sp Ris.ep Ris.publisher];
    (split; [repeat constructor; assumption|]);
    (split; [try assumption|]);
    try (split; assumption).
  - apply Forall_app. split; [assumption|]. constructor; [now split | constructor].
  - split; [rewrite length_firstn; lia|].
    apply lstrip_fixed, firstn_starts_clean. apply strip_clean.
Qed.

(** X28.  Every entry that [parse_ris_file] returns has tidy fields:
    its type, title, journal, DOI, URL, volume, issue, pages and
    publisher carry no white space at either end, no author is empty or
    carries such white space, and the year has at most four code points
    and does not begin with white space. *)
Theorem parse_ris_file_tidy :
  forall (decode : list N -> str) (file : option (list N)) (e : Ris.entry),
    In e (Ris.parse_ris_file decode file) ->
    Forall (fun f => strip f = f) (Ris.text_fields e) /\
    Forall (fun a => a <> [] /\ strip a = a) (Ris.authors e) /\
    length (Ris.year e) <= 4 /\ lstrip (Ris.year e) = Ris.year e.
Proof.
  intros decode file e. unfold Ris.parse_ris_file.
  destruct file as [bytes|]; [|contradiction].
  cbv zeta. intros Hin. apply in_map_iff in Hin as (raw & <- & _).
  generalize (splitlines raw) as lines.
  assert (Hstart :
    Forall (fun f => strip f = f) (Ris.text_fields Ris.empty_entry) /\
    Forall (fun a => a <> [] /\ strip a = a) (Ris.authors Ris.empty_entry) /\
    length (Ris.year Ris.empty_entry) <= 4 /\
    lstrip (Ris.year Ris.empty_entry) = Ris.year Ris.empty_entry).
  { repeat split; repeat constructor. }
  revert Hstart. generalize Ris.empty_entry as e0.
  intros e0 Hstart lines. revert e0 Hstart.
  induction lines as [|line lines IH]; intros e0 Hstart; cbn [fold_left];
    [exact Hstart|].
  apply IH. now apply parse_line_tidy.
Qed.

Lemma parse_ris_file_tidy_witness :
  let content :=
    lit "TY  - JOUR" ++ [10%N] ++ lit "AU  - Lamb, H. " ++ [10%N] ++
    lit "TI  -  Vortex motion" ++ [10%N] ++ lit "PY  - 1932/05/01" ++ [10%N] ++
    lit "ER  - " ++ [10%N] in
  exists e,
    Ris.parse_ris_file (fun bytes => bytes) (Some content) = [e] /\
    Ris.title e = lit "Vortex motion" /\ Ris.authors e = [lit "Lamb, H."] /\
    Ris.year e = lit "1932" /\
    Forall (fun f => strip f = f) (Ris.text_fields e).
Proof.
  cbv zeta. eexists. split; [vm_compute; reflexivity|].
  split; [reflexivity|]. split; [reflexivity|]. split; [reflexivity|].
  match goal with
  | |- Forall _ (Ris.text_fields ?e) =>
      refine (proj1 (parse_ris_file_tidy (fun bytes => bytes)
                       (Some (lit "TY  - JOUR" ++ [10%N] ++ lit "AU  - Lamb, H. "
                              ++ [10%N] ++ lit "TI  -  Vortex motion" ++ [10%N]
                              ++ lit "PY  - 1932/05/01" ++ [10%N] ++ lit "ER  - "
                              ++ [10%N])) e _))
  end.
  vm_compute. now left.
Defined.

(** ** research_common.extract_title_from_page *)

Lemma title_candidate_shape (lower : str -> str) (page_text line : str) :
  In line (Title.candidates lower page_text) ->
  (exists raw, In raw (splitlines page_text) /\ line = clean_whitespace raw) /\
  10 <= length line /\
  Forall (fun prefix => startswith (lower line) prefix = false) Title.banned_prefixes /\
  Title.numeric_line line = false.
Proof.
  unfold Title.candidates. intros Hin.
  apply filter_In in Hin as [Hin Hkeep].
  apply in_firstn in Hin. apply filter_In in Hin as [Hin _].
  apply in_map_iff in Hin as (raw & <- & Hraw).
  apply andb_true_iff in Hkeep as [Hkeep Hnum].
  apply andb_true_iff in Hkeep as [Hban Hlen].
  apply negb_true_iff in Hban, Hlen, Hnum.
  split; [now exists raw|]. split; [now apply Nat.ltb_ge in Hlen|].
  split; [|exact Hnum].
  apply Forall_forall. intros prefix Hprefix.
  destruct (startswith (lower (clean_whitespace raw)) prefix) eqn:Hs; [|reflexivity].
  assert (Hex : existsb (fun prefix => startswith (lower (clean_whitespace raw)) prefix)
                  Title.banned_prefixes = true).
  { apply existsb_exists. now exists prefix. }
  congruence.
Qed.

(** X29.  The title that [extract_title_from_page] returns is empty only
    when the page has no candidate line.  Otherwise it begins with the
    first candidate: the cleaned form of a line of the page that has at
    least 10 code points, does not begin, lower-cased, with any of the
    twelve banned prefixes (["doi"], ["http"], ["journal"], ...) and is
    not made of digits, dots, hyphens and spaces only.  The title is that
    line alone, or that line, one space and the second candidate, both
    then shorter than 90 code points, so a title never has more than
    179 code points unless it is one long line. *)
Theorem extract_title_shape :
  forall (lower : str -> str) (isalnum : N -> bool) (page_text : str),
    let title := Title.extract_title_from_page lower isalnum page_text in
    (title = [] <-> Title.candidates lower page_text = []) /\
    (title <> [] ->
     exists first rest,
       title = first ++ rest /\
       (exists raw, In raw (splitlines page_text) /\ first = clean_whitespace raw) /\
       10 <= length first /\
       Forall (fun prefix => startswith (lower first) prefix = false)
              Title.banned_prefixes /\
       Title.numeric_line first = false /\
       (rest = [] \/
        exists raw,
          In raw (splitlines page_text) /\
          rest = lit " " ++ clean_whitespace raw /\
          length first < 90 /\ 10 <= length (clean_whitespace raw) < 90 /\
          length title <= 179)).
Proof.
  intros lower isalnum page_text. cbv zeta.
  unfold Title.extract_title_from_page.
  destruct (Title.candidates lower page_text) as [|first rest] eqn:Hc.
  - split; [tauto | intros H; now contradiction H].
  - assert (Hfirst : In first (Title.candidates lower page_text))
      by (rewrite Hc; now left).
    destruct (title_candidate_shape lower page_text first Hfirst)
      as (Hraw & Hlen & Hban & Hnum).
    assert (Hne : first <> []) by (destruct first; [cbn in Hlen; lia | discriminate]).
    assert (Halone : exists first0 rest0,
              first = first0 ++ rest0 /\
              (exists raw, In raw (splitlines page_text) /\
                           first0 = clean_whitespace raw) /\
              10 <= length first0 /\
              Forall (fun prefix => startswith (lower first0) prefix = false)
                     Title.banned_prefixes /\
              Title.numeric_line first0 = false /\
              (rest0 = [] \/
               exists raw,
                 In raw (splitlines page_text) /\
                 rest0 = lit " " ++ clean_whitespace raw /\
                 length first0 < 90 /\ 10 <= length (clean_whitespace raw) < 90 /\
                 length first <= 179)).
    { exists first, []. rewrite app_nil_r. repeat split; try assumption. now left. }
    destruct rest as [|nxt rest']; [split; [split; [contradiction | discriminate]|];
                                    intros _; exact Halone|].
    destruct ((length first <? 90)
              && ((length nxt <? 90) && negb (Sys.endswith nxt (lit ":")))
              && (isalnum (last first 0%N) && isalnum (hd 0%N nxt))
              && (length (first ++ lit " " ++ nxt) <=? 180)) eqn:Hjoin;
      [|split; [split; [contradiction | discriminate] | intros _; exact Halone]].
    split; [split; [intros H; destruct first; [now contradiction Hne | discriminate H]
                   | discriminate]|].
    intros _.
    apply andb_true_iff in Hjoin as [Hjoin _].
    apply andb_true_iff in Hjoin as [Hjoin _].
    apply andb_true_iff in Hjoin as [Hshort Hnxt].
    apply andb_true_iff in Hnxt as [Hnxt _].
    apply Nat.ltb_lt in Hshort, Hnxt.
    assert (Hsecond : In nxt (Title.candidates lower page_text))
      by (rewrite Hc; right; now left).
    destruct (title_candidate_shape lower page_text nxt Hsecond)
      as ((raw & Hraw' & ->) & Hlen' & _ & _).
    exists first, (lit " " ++ clean_whitespace raw).
    split; [reflexivity|]. split; [exact Hraw|]. split; [exact Hlen|].
    split; [exact Hban|]. split; [exact Hnum|]. right. exists raw.
    split; [exact Hraw'|]. split; [reflexivity|]. split; [exact Hshort|].
    split; [lia|]. rewrite !length_app. cbn [length lit]. 
    change (length (lit " ")) with 1. lia.
Qed.

Lemma extract_title_shape_witness :
  let page := lit "doi: 10.1000/xyz" ++ [10%N] ++ lit "12 - 34" ++ [10%N] ++
              lit "Vortex  shedding behind" ++ [10%N] ++ lit "a submerged island" in
  Title.extract_title_from_page ascii_lower
    (fun c => ascii_digit c || is_ascii_alnum c) page
  = lit "Vortex shedding behind a submerged island" /\
  exists first rest,
    Title.extract_title_from_page ascii_lower
      (fun c => ascii_digit c || is_ascii_alnum c) page = first ++ rest /\
    10 <= length first.
Proof.
  cbv zeta. split; [vm_compute; reflexivity|].
  match goal with
  | |- exists first rest, Title.extract_title_from_page ?lo ?al ?pg = _ /\ _ =>
      destruct (extract_title_shape lo al pg) as [_ Hshape]
  end.
  destruct Hshape as (first & rest & Heq & _ & Hlen & _).
  - vm_compute. discriminate.
  - exists first, rest. split; assumption.
Defined.

(** ** extract_assets.build_metadata *)

(** X30.  For a paper whose file name has a last path component
    (it is not empty and not made of ["/"] and ["."] components only),
    [build_metadata] always gives a title and a citation: the title is
    not empty (the stem of the file name stands in when neither the page
    nor the bibliography gives one), and the Vancouver citation is not
    empty and ends with a full stop.  For a file name without such a
    component, as ["."] or ["/"], the stem is empty and so is the title
    when nothing else gives one.  Without a bibliography match no
    journal, author or URL is filled in, and the DOI is the one found on
    the first pages. *)
Theorem build_metadata_always_cites :
  forall (lower : str -> str) (isalnum : N -> bool)
         (detect_doi year_search : str -> option str)
         (paper : Manifest.unique_record) (pages : list str)
         (ris_by_doi ris_by_title : Ris.dict Ris.entry),
    let metadata :=
      Metadata.build_metadata lower isalnum detect_doi year_search paper pages
        ris_by_doi ris_by_title in
    (Metadata.path_name (Manifest.canonical_file_name paper) <> [] ->
     Extract.bib_title metadata <> [] /\
     Extract.bib_vancouver_citation metadata <> [] /\
     (exists body, Extract.bib_vancouver_citation metadata = body ++ lit ".")) /\
    (Metadata.path_name (Manifest.canonical_file_name paper) = [] ->
     Title.extract_title_from_page lower isalnum
       (match pages with first :: _ => first | [] => [] end) = [] ->
     Extract.bib_ris_matched metadata = false ->
     Extract.bib_title metadata = []) /\
    (Extract.bib_ris_matched metadata = false ->
     Extract.bib_journal metadata = [] /\ Extract.bib_authors metadata = [] /\
     Extract.bib_url metadata = [] /\
     Extract.bib_doi metadata
       = or_else (detect_doi (join [10%N] (firstn 3 pages))) []).
Proof.
  intros lower isalnum detect_doi year_search paper pages ris_by_doi ris_by_title.
  cbv zeta.
  unfold Metadata.build_metadata.
  set (ris_match := Ris.find_ris_match lower _ _ ris_by_doi ris_by_title).
  set (found := match ris_match with
                | Some m => Ris.str_or (Ris.title m) _
                | None => _
                end).
  set (title := if nonempty found then found
                else Sys.stem (Metadata.path_name (Manifest.canonical_file_name paper))).
  cbn [Extract.bib_title Extract.bib_vancouver_citation Extract.bib_ris_matched
       Extract.bib_journal Extract.bib_authors Extract.bib_url Extract.bib_doi].
  split; [|split].
  - intros Hname.
    assert (Htitle : title <> []).
    { unfold title. destruct (nonempty found) eqn:Hfound.
      - now apply nonempty_true.
      - now apply stem_nonempty. }
    match goal with
    | |- _ /\ Ris.to_vancouver_citation ?e ?ft ?fu <> [] /\ _ =>
        destruct (vancouver_parts e ft fu) as (parts & Hcite & Hdots & Hempty & _)
    end.
    cbn [Ris.title Ris.authors Ris.journal Ris.year Ris.doi Ris.url] in Hempty.
    assert (Hparts : parts <> []).
    { intros Hnil. apply Hempty in Hnil as (_ & Hnone & _).
      apply str_or_nil in Hnone as [_ Hnone]. contradiction. }
    assert (Hlast : exists body, join (lit " ") parts = body ++ lit ".")
      by exact (join_last (lit " ") 46%N parts Hdots Hparts).
    apply nonempty_true in Hparts. rewrite Hparts in Hcite.
    split; [exact Htitle|]. rewrite Hcite. split.
    + destruct Hlast as [body ->]. now destruct body.
    + exact Hlast.
  - intros Hname Hpage Hmatch. unfold title, found.
    destruct ris_match; [discriminate|].
    match goal with
    | |- (if nonempty ?t then _ else _) = _ => replace t with (@nil N) by (symmetry; exact Hpage)
    end.
    cbn [nonempty]. rewrite Hname. reflexivity.
  - destruct ris_match; [discriminate|]. intros _. repeat split.
Qed.

Lemma build_metadata_always_cites_witness :
  let metadata :=
    Metadata.build_metadata ascii_lower (fun c => ascii_digit c || is_ascii_alnum c)
      (fun _ => None) (fun _ => None) Fixture.paper_a [lit "12 - 34"] [] [] in
  Extract.bib_title metadata = lit "a" /\
  Extract.bib_vancouver_citation metadata = lit "a." /\
  Extract.bib_vancouver_citation metadata <> [].
Proof.
  cbv zeta. split; [vm_compute; reflexivity|]. split; [vm_compute; reflexivity|].
  refine (proj1 (proj2 (proj1 (build_metadata_always_cites ascii_lower
                                 (fun c => ascii_digit c || is_ascii_alnum c)
                                 (fun _ => None) (fun _ => None) Fixture.paper_a
                                 [lit "12 - 34"] [] []) _))).
  vm_compute. discriminate.
Defined.

(** ** summarize_papers: when the fallback anchor is emitted *)

Section SelectedFacts.
Import Summarize.
Variable lower : str -> str.
Variable abstract_search : str -> option str.

Lemma head_clean_not_blank (c : N) (t : str) :
  isspace c = false -> clean_whitespace (c :: t) <> [].
Proof.
  intros Hc. unfold clean_whitespace. cbn [collapse_ws]. rewrite Hc.
  unfold strip. cbn [lstrip]. rewrite Hc.
  destruct (rstrip_cut (c :: collapse_ws false t)) as (ws & Hs & Hws).
  intros Hnil. rewrite Hnil in Hs. cbn [app] in Hs. subst ws.
  cbn [forallb] in Hws. rewrite Hc in Hws. discriminate.
Qed.

Lemma tokenized_head (line sent : str) :
  In sent (sentence_tokenize line) ->
  exists c r, sent = c :: r /\ isspace c = false.
Proof.
  unfold sentence_tokenize.
  destruct (clean_whitespace line) as [|c0 flat]; [intros []|].
  rewrite in_map_iff. intros (p & <- & Hin).
  apply filter_In in Hin as [_ Hne].
  destruct (strip_clean p) as [Hstart _].
  destruct (strip p) as [|c r]; [discriminate|].
  exists c, r. split; [reflexivity|].
  cbn [starts_clean] in Hstart. now apply negb_true_iff in Hstart.
Qed.

(** Every sentence of the pool has text. *)
Lemma pool_not_blank (pages : list str) (page_limit : nat) (x : sentence) :
  In x (collect_sentences_with_pages pages page_limit) ->
  clean_whitespace (s_text x) <> [].
Proof.
  unfold collect_sentences_with_pages. rewrite in_flat_map.
  intros (numbered & _ & Hin).
  apply in_flat_map in Hin as (line & _ & Hin).
  apply in_flat_map in Hin as (sent & Hsent & Hin).
  destruct (length sent <? 25); [destruct Hin|].
  destruct Hin as [<-|[]]. cbn [s_text].
  apply tokenized_head in Hsent as (c & r & -> & Hc).
  destruct (320 <? length (c :: r)); [|now apply head_clean_not_blank].
  change 320 with (S 319). cbn [firstn]. now apply head_clean_not_blank.
Qed.

Lemma pick_sentences_pool (sentences : list sentence) (keywords : list str)
    (limit : nat) :
  let chosen := pick_sentences lower sentences keywords limit in
  (forall x, In x chosen -> In x sentences) /\
  (length chosen < limit ->
   forall x, In x sentences ->
     In (sentence_key lower x) (map (sentence_key lower) chosen)).
Proof.
  intros chosen. subst chosen. unfold pick_sentences.
  assert (Hinit : picking lower limit ([], [])).
  { split; [reflexivity|]. split; [constructor | now right]. }
  destruct (pick_matching_spec lower limit (map lower keywords) sentences _ Hinit)
    as (H1 & H2 & H3 & H4 & H5 & H6). cbv zeta in *.
  destruct (pick_matching lower (map lower keywords) limit sentences ([], []))
    as [flag [picked seen]]. cbn [fst snd] in *.
  destruct flag.
  - split.
    + intros x Hx. destruct (H4 x Hx) as [[]|H]. exact H.
    + intros Hlt. specialize (H6 eq_refl). lia.
  - destruct (pick_padding_spec lower limit sentences _ (H5 eq_refl))
      as (G1 & G2 & G3 & G4 & _ & G6). cbv zeta in *.
    destruct (pick_padding lower limit sentences (picked, seen))
      as [padded seen']. cbn [fst snd] in *.
    split.
    + intros x Hx. destruct (G4 x Hx) as [H|H]; [|exact H].
      destruct (H4 x H) as [[]|H']. exact H'.
    + intros Hlt x Hx. specialize (G6 Hlt x Hx). rewrite G1 in G6.
      now apply in_rev in G6.
Qed.

(** With a positive limit nothing is chosen only from an empty pool. *)
Lemma pick_sentences_none (sentences : list sentence) (keywords : list str)
    (limit : nat) :
  0 < limit -> pick_sentences lower sentences keywords limit = [] -> sentences = [].
Proof.
  intros Hlimit Hnone.
  destruct (pick_sentences_pool sentences keywords limit) as [_ Hall].
  cbv zeta in Hall. rewrite Hnone in Hall.
  destruct sentences as [|x rest]; [reflexivity|].
  destruct (Hall Hlimit x (or_introl eq_refl)).
Qed.

Lemma sentence_anchors_nil (tag_name : str) (items : list sentence) :
  (forall x, In x items -> clean_whitespace (s_text x) <> []) ->
  sentence_anchors tag_name items = [] -> items = [].
Proof.
  destruct items as [|x items]; [reflexivity|]. intros Hall Hnil. exfalso.
  unfold sentence_anchors in Hnil. cbn [flat_map] in Hnil.
  apply app_eq_nil in Hnil as [Hx _]. unfold add_item in Hx.
  specialize (Hall x (or_introl eq_refl)).
  destruct (clean_whitespace (s_text x)); [congruence|discriminate].
Qed.

Lemma equation_anchors_nil (equations : list eq_entry) :
  equation_anchors equations = [] ->
  Forall (fun e => clean_whitespace (get_or [] (eq_equation e)) = []) equations.
Proof.
  induction equations as [|e rest IH]; intros Hnil; constructor;
    unfold equation_anchors in Hnil; cbn [flat_map] in Hnil;
    apply app_eq_nil in Hnil as [He Hrest].
  - unfold add_item in He.
    destruct (clean_whitespace (get_or [] (eq_equation e))); [reflexivity|discriminate].
  - now apply IH.
Qed.

Lemma build_evidence_anchors_nil o m f l (equations : list eq_entry) :
  build_evidence_anchors lower o m f l equations = [] ->
  sentence_anchors (lit "objective") o = [] /\
  equation_anchors equations = [].
Proof.
  unfold build_evidence_anchors. intros Hnil.
  match type of Hnil with
  | firstn 14 (unique_anchors lower [] ?anchors) = [] =>
      assert (Hanchors : anchors = [])
  end.
  { match goal with |- ?anchors = [] => destruct anchors as [|x rest] end;
      [reflexivity|]. cbn in Hnil. discriminate. }
  apply app_eq_nil in Hanchors as [Ho Hrest]. split; [exact Ho|].
  repeat (apply app_eq_nil in Hrest as [_ Hrest]). exact Hrest.
Qed.

(** A record that carries the fallback anchor comes from a paper with an
    empty sentence pool and blank equation entries only. *)
Lemma summarize_one_fallback n p a :
  let s := fst (summarize_one lower abstract_search n p a) in
  (exists x, In x (evidence_anchors s) /\ tag x = lit "fallback") ->
  collect_sentences_with_pages (load_pages (a_text a)) 10 = [] /\
  Forall (fun e => clean_whitespace (get_or [] (eq_equation e)) = [])
         (key_equations s) /\
  objective s = objective_fallback /\
  methods s = methods_fallback /\
  findings s = findings_fallback /\
  limitations s = limitations_fallback.
Proof.
  unfold summarize_one.
  destruct (extract_abstract_snippet abstract_search (load_pages (a_text a)))
    as [abstract_text abstract_page].
  cbn [fst key_equations evidence_anchors objective methods findings limitations].
  set (pool := collect_sentences_with_pages (load_pages (a_text a)) 10).
  set (key_eqs := match match a_equations a with
                        | Some (EqList entries) => firstn 5 entries
                        | _ => []
                        end with
                  | [] => [fallback_equation]
                  | _ => _
                  end).
  set (built := build_evidence_anchors lower _ _ _ _ key_eqs).
  intros (x & Hx & Htag).
  destruct built as [|b0 built'] eqn:Hb.
  - unfold built in Hb. apply build_evidence_anchors_nil in Hb as [Ho He].
    assert (Hpool : pool = []).
    { apply (pick_sentences_none pool objective_keywords 2); [lia|].
      apply (sentence_anchors_nil (lit "objective")); [|exact Ho].
      intros y Hy.
      apply (proj1 (pick_sentences_pool pool objective_keywords 2)) in Hy.
      now apply pool_not_blank in Hy. }
    split; [exact Hpool|]. split; [now apply equation_anchors_nil|].
    rewrite Hpool. repeat split.
  - exfalso. rewrite <- Hb in Hx. unfold built in Hx.
    now apply build_evidence_anchors_tag in Hx.
Qed.
End SelectedFacts.

(** C10 as stated fails on a manifest whose paper has an empty [paper_id]
    and no other name: the citation is empty and [all_have_citations] is
    false.  It also fails on an equation file whose only entry is blank:
    no anchor is built and the fallback anchor is emitted. *)
Lemma summary_citation_can_be_empty :
  (let p := {| Summarize.p_paper_id := [];
               Summarize.p_canonical_file_name := None;
               Summarize.p_alias_file_names := None;
               Summarize.p_duplicate_count := None |} in
   let md := {| Summarize.md_title := None;
                Summarize.md_vancouver_citation := None;
                Summarize.md_doi := None; Summarize.md_url := None;
                Summarize.md_year := None; Summarize.md_journal := None;
                Summarize.md_authors := None;
                Summarize.md_text_quality := None |} in
   let assets := fun _ : str =>
     Some {| Summarize.a_metadata := md; Summarize.a_text := None;
             Summarize.a_equations := None; Summarize.a_figures := None |} in
   exists out s,
     Summarize.summarize_papers ascii_lower (fun _ => None) [] [] []
       {| Summarize.m_papers := Some [Summarize.ItemDict p];
          Summarize.m_source_total_files := None;
          Summarize.m_source_unique_files := None |} assets = inr out /\
     Summarize.papers out = [s] /\
     Summarize.citation s = [] /\
     Summarize.all_have_citations (Summarize.checks out) = false) /\
  (let p := {| Summarize.p_paper_id := lit "paper_001_0a1b2c3d";
               Summarize.p_canonical_file_name := Some (lit "a.pdf");
               Summarize.p_alias_file_names := Some [lit "a.pdf"];
               Summarize.p_duplicate_count := Some 0%Z |} in
   let md := {| Summarize.md_title := Some (lit "A title");
                Summarize.md_vancouver_citation := Some (lit "A title.");
                Summarize.md_doi := None; Summarize.md_url := None;
                Summarize.md_year := None; Summarize.md_journal := None;
                Summarize.md_authors := None;
                Summarize.md_text_quality := None |} in
   let blank := {| Summarize.eq_equation := Some (lit " ");
                   Summarize.eq_page := Some 1%Z;
                   Summarize.eq_score := Some 2%Z |} in
   let assets := fun _ : str =>
     Some {| Summarize.a_metadata := md; Summarize.a_text := None;
             Summarize.a_equations := Some (Summarize.EqList [blank]);
             Summarize.a_figures := None |} in
   exists out s,
     Summarize.summarize_papers ascii_lower (fun _ => None) [] [] []
       {| Summarize.m_papers := Some [Summarize.ItemDict p];
          Summarize.m_source_total_files := None;
          Summarize.m_source_unique_files := None |} assets = inr out /\
     Summarize.papers out = [s] /\
     Summarize.key_equations s = [blank] /\
     Summarize.evidence_anchors s =
       [{| Summarize.tag := lit "fallback"; Summarize.a_page := 1%Z;
           Summarize.quote := lit "No evidence text extracted." |}]).
Proof.
  split; cbv zeta; eexists _, _; (split; [reflexivity|]); vm_compute;
    repeat split; reflexivity.
Qed.

(** C10, amended.  Whenever ["papers"] is a list the run returns, and every
    summary record has a non-empty [key_equations] list and a non-empty
    [evidence_anchors] list, so two of the validation booleans are true on
    every run; the citation is non-empty for every paper whose [paper_id]
    is non-empty, and [all_have_citations] is true when that holds for all
    papers.  When no candidate was loaded the fallback equation is the
    only entry, and whenever some entry of [key_equations] has text (the
    fallback equation has) no fallback anchor is emitted.  A record that
    carries the fallback anchor comes from a paper for which no sentence
    was selected (its sentence pool is empty, and the four paragraphs are
    the fallback texts) and whose equation entries are all blank. *)
Theorem summary_validation :
  forall (lower : str -> str) (abstract_search : str -> option str)
         (now manifest_path assets_dir : str)
         (m : Summarize.manifest) (assets : str -> option Summarize.paper_assets)
         (items : list Summarize.manifest_item),
    Summarize.m_papers m = Some items ->
    exists out,
      Summarize.summarize_papers lower abstract_search now manifest_path
        assets_dir m assets = inr out /\
      (forall s, In s (Summarize.papers out) ->
         Summarize.key_equations s <> [] /\
         Summarize.evidence_anchors s <> [] /\
         (Summarize.paper_id s <> [] -> Summarize.citation s <> []) /\
         (Exists (fun e => clean_whitespace
                             (get_or [] (Summarize.eq_equation e)) <> [])
                 (Summarize.key_equations s) ->
          forall x, In x (Summarize.evidence_anchors s) ->
                    Summarize.tag x <> lit "fallback") /\
         (Summarize.key_equations s = [Summarize.fallback_equation] ->
          forall x, In x (Summarize.evidence_anchors s) ->
                    Summarize.tag x <> lit "fallback") /\
         exists n p a,
           In (Summarize.ItemDict p) items /\
           assets (Summarize.p_paper_id p) = Some a /\
           s = fst (Summarize.summarize_one lower abstract_search n p a) /\
           ((exists x, In x (Summarize.evidence_anchors s) /\
                       Summarize.tag x = lit "fallback") ->
            Summarize.collect_sentences_with_pages
              (Summarize.load_pages (Summarize.a_text a)) 10 = [] /\
            (forall keywords limit,
                Summarize.pick_sentences lower
                  (Summarize.collect_sentences_with_pages
                     (Summarize.load_pages (Summarize.a_text a)) 10)
                  keywords limit = []) /\
            Forall (fun e => clean_whitespace
                               (get_or [] (Summarize.eq_equation e)) = [])
                   (Summarize.key_equations s) /\
            Summarize.objective s = Summarize.objective_fallback /\
            Summarize.methods s = Summarize.methods_fallback /\
            Summarize.findings s = Summarize.findings_fallback /\
            Summarize.limitations s = Summarize.limitations_fallback)) /\
      Summarize.all_have_evidence (Summarize.checks out) = true /\
      Summarize.all_have_equation_or_fallback (Summarize.checks out) = true /\
      ((forall p, In (Summarize.ItemDict p) items -> Summarize.p_paper_id p <> []) ->
       Summarize.all_have_citations (Summarize.checks out) = true).
Proof.
  intros lower abstract_search now manifest_path assets_dir m assets items Hm.
  unfold Summarize.summarize_papers, Summarize.build_output. rewrite Hm.
  eexists. split; [reflexivity|].
  cbn [Summarize.papers Summarize.checks Summarize.all_have_evidence
       Summarize.all_have_equation_or_fallback Summarize.all_have_citations].
  set (results := Summarize.summarize_loop lower abstract_search assets
                    (enumerate 1 items)).
  assert (Hrec : forall s, In s (map fst results) ->
            exists n p a, In (Summarize.ItemDict p) items /\
              assets (Summarize.p_paper_id p) = Some a /\
              s = fst (Summarize.summarize_one lower abstract_search n p a)).
  { intros s Hs. apply in_map_iff in Hs as ([s' b] & Heq & Hin).
    cbn in Heq. subst s'.
    apply summarize_loop_in in Hin as (n & p & a & Hitem & Hassets & Hone).
    exists n, p, a. split; [|split].
    - now apply in_enumerate in Hitem.
    - exact Hassets.
    - now rewrite <- Hone. }
  split; [|split; [|split]].
  - intros s Hs. apply Hrec in Hs as (n & p & a & Hitem & Hassets & ->).
    destruct (summarize_one_fields lower abstract_search n p a)
      as (Hkey & Hev & Hid & Hcit & Htag & _).
    cbv zeta in Hkey, Hev, Hid, Hcit, Htag.
    split; [exact Hkey|]. split; [exact Hev|]. split; [|split; [exact Htag|split]].
    + rewrite Hid, Hcit. intros Hne. now repeat apply or_else_nonempty.
    + intros Hfb. apply Htag. rewrite Hfb.
      constructor. apply fallback_equation_has_text.
    + exists n, p, a. split; [exact Hitem|]. split; [exact Hassets|].
      split; [reflexivity|]. intros Hfallback.
      destruct (summarize_one_fallback lower abstract_search n p a Hfallback)
        as (Hpool & Hblank & Ho & Hm' & Hf & Hl).
      split; [exact Hpool|]. split; [|now repeat split].
      intros keywords limit. rewrite Hpool. reflexivity.
  - apply forallb_forall. intros s Hs.
    apply Hrec in Hs as (n & p & a & _ & _ & ->).
    destruct (summarize_one_fields lower abstract_search n p a) as (_ & Hev & _).
    cbv zeta in Hev.
    destruct (Summarize.evidence_anchors _); [congruence|reflexivity].
  - apply forallb_forall. intros s Hs.
    apply Hrec in Hs as (n & p & a & _ & _ & ->).
    destruct (summarize_one_fields lower abstract_search n p a) as (Hk & _).
    cbv zeta in Hk.
    destruct (Summarize.key_equations _); [congruence|reflexivity].
  - intros Hids. apply forallb_forall. intros s Hs.
    apply Hrec in Hs as (n & p & a & Hitem & _ & ->).
    destruct (summarize_one_fields lower abstract_search n p a)
      as (_ & _ & _ & Hcit & _).
    cbv zeta in Hcit. rewrite Hcit.
    assert (Hne : or_else (Summarize.md_vancouver_citation (Summarize.a_metadata a))
                    (or_else (Summarize.md_title (Summarize.a_metadata a))
                       (or_else (Summarize.p_canonical_file_name p)
                          (Summarize.p_paper_id p))) <> []).
    { repeat apply or_else_nonempty. now apply Hids. }
    destruct (or_else _ _); [congruence|reflexivity].
Qed.

Lemma summary_validation_witness :
  exists out,
    Summarize.summarize_papers ascii_lower (fun _ => None)
      (lit "2026-02-11T10:00:00Z") (lit "/out/manifest_unique.json") (lit "/out")
      {| Summarize.m_papers :=
           Some [Summarize.ItemDict
                   {| Summarize.p_paper_id := lit "paper_001_0a1b2c3d";
                      Summarize.p_canonical_file_name := Some (lit "a.pdf");
                      Summarize.p_alias_file_names := Some [lit "a.pdf"];
                      Summarize.p_duplicate_count := Some 0%Z |}];
         Summarize.m_source_total_files := Some 1%Z;
         Summarize.m_source_unique_files := Some 1%Z |}
      (fun _ => Some {| Summarize.a_metadata :=
                          {| Summarize.md_title := None;
                             Summarize.md_vancouver_citation := None;
                             Summarize.md_doi := None; Summarize.md_url := None;
                             Summarize.md_year := None;
                             Summarize.md_journal := None;
                             Summarize.md_authors := None;
                             Summarize.md_text_quality := None |};
                        Summarize.a_text := None;
                        Summarize.a_equations := None;
                        Summarize.a_figures := None |}) = inr out /\
    Summarize.all_have_evidence (Summarize.checks out) = true /\
    Summarize.all_have_equation_or_fallback (Summarize.checks out) = true.
Proof.
  destruct (summary_validation ascii_lower (fun _ => None)
              (lit "2026-02-11T10:00:00Z") (lit "/out/manifest_unique.json")
              (lit "/out")
              {| Summarize.m_papers :=
                   Some [Summarize.ItemDict
                           {| Summarize.p_paper_id := lit "paper_001_0a1b2c3d";
                              Summarize.p_canonical_file_name := Some (lit "a.pdf");
                              Summarize.p_alias_file_names := Some [lit "a.pdf"];
                              Summarize.p_duplicate_count := Some 0%Z |}];
                 Summarize.m_source_total_files := Some 1%Z;
                 Summarize.m_source_unique_files := Some 1%Z |}
              (fun _ => Some {| Summarize.a_metadata :=
                          {| Summarize.md_title := None;
                             Summarize.md_vancouver_citation := None;
                             Summarize.md_doi := None; Summarize.md_url := None;
                             Summarize.md_year := None;
                             Summarize.md_journal := None;
                             Summarize.md_authors := None;
                             Summarize.md_text_quality := None |};
                        Summarize.a_text := None;
                        Summarize.a_equations := None;
                        Summarize.a_figures := None |})
              _ eq_refl)
    as (out & Hrun & _ & Hev & Heq & _).
  exists out. repeat split; assumption.
Defined.
